(** * Knowledge-graph builder: a shallow embedding and its verified properties

    The development follows the three programs of the repository:

    - [KnowledgeGraph]    : [knowledge-graph.js], the current command-line tool
                            (Entity nodes, optional LLM enrichment, search modes);
    - [Legacy]            : the earlier copy of the same tool kept in the same
                            file (Concept nodes only);
    - [KnowledgeGraphCLI] : the first version of the tool (class
                            [KnowledgeGraphCLI]), with the cumulative size
                            ceiling and the sentence-scoring answer extraction.

    JavaScript values are modelled in [JS], the Neo4j store and the Cypher
    statements the programs send in [Neo4j], and the programs themselves in a
    small state-and-exception monad over a session. *)

From Stdlib Require Import List String Ascii Arith Bool Lia NArith ZArith QArith.
From Stdlib Require Import Permutation Sorted.
Import ListNotations.

Local Open Scope string_scope.
Local Open Scope list_scope.
Local Open Scope nat_scope.

(* ================================================================== *)
(** * JavaScript strings, arrays and objects *)
(* ================================================================== *)

(** A JavaScript string is modelled by a Rocq [string] whose characters are the
    UTF-16 code units of the JavaScript string, for code units in the range
    U+0000 .. U+00FF; [String.length] is then the [length] property. *)
Module JS.

Definition code (c : ascii) : nat := nat_of_ascii c.

Definition between (lo hi n : nat) : bool := (lo <=? n) && (n <=? hi).

(** [\d], [\w] and [\s] of JavaScript regular expressions. *)
Definition is_digit (c : ascii) : bool := between 48 57 (code c).

Definition is_word_char (c : ascii) : bool :=
  between 97 122 (code c) || between 65 90 (code c) || is_digit c || (code c =? 95).

Definition is_space (c : ascii) : bool :=
  between 9 13 (code c) || (code c =? 32) || (code c =? 160).

(** The sentence terminators of the character class [[.!?]]. *)
Definition is_terminator (c : ascii) : bool :=
  (code c =? 46) || (code c =? 33) || (code c =? 63).

(** [String.prototype.toLowerCase]: A-Z and the upper-case letters of the
    Latin-1 supplement (U+00C0 .. U+00DE except the multiplication sign). *)
Definition lower_char (c : ascii) : ascii :=
  let n := code c in
  if between 65 90 n || (between 192 222 n && negb (n =? 215))
  then ascii_of_nat (n + 32) else c.

Fixpoint toLowerCase (s : string) : string :=
  match s with
  | EmptyString => EmptyString
  | String c s' => String (lower_char c) (toLowerCase s')
  end.

(** [s.includes(sub)]. *)
Fixpoint includes (s sub : string) : bool :=
  String.prefix sub s
  || match s with
     | EmptyString => false
     | String _ s' => includes s' sub
     end.

(** [array.includes(x)] on an array of strings. *)
Definition array_includes (l : list string) (x : string) : bool :=
  existsb (String.eqb x) l.

(** [s.split(re)] where [re] is [C+] for a character class [C]: the pieces
    between the maximal runs of separator characters, the empty pieces at
    both ends included. *)
Fixpoint split_go (sep : ascii -> bool) (s cur : string) (prev_sep : bool)
  : list string :=
  match s with
  | EmptyString => [cur]
  | String c s' =>
      if sep c
      then if prev_sep then split_go sep s' EmptyString true
           else cur :: split_go sep s' EmptyString true
      else split_go sep s' (cur ++ String c EmptyString) false
  end.

Definition split (sep : ascii -> bool) (s : string) : list string :=
  split_go sep s EmptyString false.

(** [s.replace(re, ' ')] where [re] is the global regular expression of one
    character class. *)
Fixpoint replace_chars (cls : ascii -> bool) (s : string) : string :=
  match s with
  | EmptyString => EmptyString
  | String c s' =>
      String (if cls c then " "%char else c) (replace_chars cls s')
  end.

(** [s.replace(/\s+/g, ' ')]. *)
Fixpoint collapse_spaces (s : string) (prev_space : bool) : string :=
  match s with
  | EmptyString => EmptyString
  | String c s' =>
      if is_space c
      then if prev_space then collapse_spaces s' true
           else String " "%char (collapse_spaces s' true)
      else String c (collapse_spaces s' false)
  end.

Fixpoint trimStart (s : string) : string :=
  match s with
  | EmptyString => EmptyString
  | String c s' => if is_space c then trimStart s' else s
  end.

Definition reverse (s : string) : string :=
  string_of_list_ascii (rev (list_ascii_of_string s)).

Definition trim (s : string) : string :=
  reverse (trimStart (reverse (trimStart s))).

(** [/^\d+$/.test(s)] and [/^\d/.test(s)]. *)
Definition all_digits (s : string) : bool :=
  match s with
  | EmptyString => false
  | _ => forallb is_digit (list_ascii_of_string s)
  end.

Definition starts_with_digit (s : string) : bool :=
  match s with
  | EmptyString => false
  | String c _ => is_digit c
  end.

(** [s.substring(0, n)]. *)
Definition substring0 (n : nat) (s : string) : string := String.substring 0 n s.

(** Decimal rendering of a number inside a template literal. *)
Fixpoint digits_of (fuel : nat) (n : N) (acc : string) : string :=
  match fuel with
  | 0 => acc
  | S fuel' =>
      let acc' := String (ascii_of_N (48 + n mod 10)) acc in
      if (n / 10 =? 0)%N then acc' else digits_of fuel' (n / 10)%N acc'
  end.

Definition show_N (n : N) : string := digits_of (S (N.size_nat n)) n EmptyString.

Definition show (n : nat) : string := show_N (N.of_nat n).

(** [array.join(sep)]. *)
Definition join (sep : string) (l : list string) : string := String.concat sep l.

(** ** Array.prototype.sort

    The sort of an array is stable (ECMAScript 2019): elements the comparator
    does not separate keep their order.  [sort before l] is the stable sort
    for a comparator under which [x] may stay in front of [y] exactly when
    [before x y] holds.  For a comparator that is not consistent (a
    difference that is NaN for some pairs only) ECMAScript leaves the order
    to the implementation; [sort] is then one of the orders allowed, and
    nothing below depends on which. *)
Section Sort.
Context {A : Type}.
Variable before : A -> A -> bool.

Fixpoint insert (x : A) (l : list A) : list A :=
  match l with
  | [] => [x]
  | y :: l' => if before x y then x :: l else y :: insert x l'
  end.

Fixpoint sort (l : list A) : list A :=
  match l with
  | [] => []
  | x :: l' => insert x (sort l')
  end.
End Sort.

(** ** Objects used as maps

    An object literal [{}] filled by [o[k] = v] is an insertion-ordered
    association list with one entry per key: the own properties of the
    object.  A key that is not an own property is looked up in
    [Object.prototype]. *)
Definition object (V : Type) : Type := list (string * V).

Fixpoint get {V} (o : object V) (k : string) : option V :=
  match o with
  | [] => None
  | (k', v) :: o' => if String.eqb k' k then Some v else get o' k
  end.

Fixpoint set {V} (o : object V) (k : string) (v : V) : object V :=
  match o with
  | [] => [(k, v)]
  | (k', v') :: o' =>
      if String.eqb k' k then (k', v) :: o' else (k', v') :: set o' k v
  end.

(** The methods every object literal inherits from [Object.prototype]; the
    accessor [__proto__] is apart. *)
Definition prototype_methods : list string :=
  ["constructor"; "hasOwnProperty"; "isPrototypeOf"; "propertyIsEnumerable";
   "toLocaleString"; "toString"; "valueOf"; "__defineGetter__";
   "__defineSetter__"; "__lookupGetter__"; "__lookupSetter__"].

(** [String(f)] for the method [Object.prototype[k]]: the constructor is the
    function [Object], every other method has the name of its key. *)
Definition native_text (k : string) : string :=
  "function " ++ (if String.eqb k "constructor" then "Object" else k)
  ++ "() { [native code] }".

(** Whether [Object.prototype] has a property of that name. *)
Definition inherited (k : string) : bool :=
  String.eqb k "__proto__" || array_includes prototype_methods k.

(** What a frequency table holds under a key, and the [frequency] of a
    candidate: a number, or a text.  A text is never empty and never reads
    as a number: it is the text of a native function followed by digits, or
    a text built from one. *)
Inductive value : Type :=
| Count (n : nat)
| Text (s : string).

(** [o[k] = (o[k] || 0) + 1].  For an own property the number grows by one,
    and to a text the digit 1 is appended.  For a key that is not an own
    property, [o[k]] is the inherited property when there is one: a method
    is truthy, [method + 1] is its text followed by 1, and the assignment
    creates the own property; [o.__proto__] is the prototype object, also
    truthy, and assigning a string to it does nothing. *)
Definition increment (o : object value) (k : string) : object value :=
  match get o k with
  | Some (Count n) => set o k (Count (n + 1))
  | Some (Text s) => set o k (Text (s ++ "1"))
  | None =>
      if String.eqb k "__proto__" then o
      else if array_includes prototype_methods k
           then set o k (Text (native_text k ++ "1"))
           else set o k (Count 1)
  end.

(** [v > n] and [v >= n] against a number: a text converts to NaN and the
    comparison is false. *)
Definition above (n : nat) (v : value) : bool :=
  match v with
  | Count m => n <? m
  | Text _ => false
  end.

Definition at_least (n : nat) (v : value) : bool :=
  match v with
  | Count m => n <=? m
  | Text _ => false
  end.

(** The comparator [(a, b) => b - a] of a descending sort: [a] may stay in
    front of [b] when [b - a] is not positive.  With a text the difference
    is NaN, which [sort] reads as 0. *)
Definition descending (a b : value) : bool :=
  match a, b with
  | Count x, Count y => y <=? x
  | _, _ => true
  end.

(** [v || 1]. *)
Definition or_one (v : option value) : value :=
  match v with
  | Some (Count 0) | None => Count 1
  | Some v' => v'
  end.

(** A value inside a template literal. *)
Definition show_value (v : value) : string :=
  match v with
  | Count n => show n
  | Text s => s
  end.

(** The value of a string of decimal digits. *)
Fixpoint decimal_value (s : string) (acc : N) : N :=
  match s with
  | EmptyString => acc
  | String c s' => decimal_value s' (acc * 10 + N.of_nat (code c - 48))%N
  end.

(** A key is an array index when it is the canonical decimal form of an
    integer below 2^32 - 1. *)
Definition array_index (k : string) : option N :=
  match k with
  | EmptyString => None
  | String c rest =>
      if all_digits k && (negb (code c =? 48) || String.eqb rest EmptyString)
      then let n := decimal_value k 0%N in
           if (n <? 4294967295)%N then Some n else None
      else None
  end.

Definition is_index {V} (e : string * V) : bool :=
  match array_index (fst e) with Some _ => true | None => false end.

Definition index_value {V} (e : string * V) : N :=
  match array_index (fst e) with Some n => n | None => 0%N end.

(** [Object.entries(o)]: the array-index keys in ascending numeric order, then
    the other keys in insertion order. *)
Definition entries {V} (o : object V) : list (string * V) :=
  sort (fun a b => (index_value a <=? index_value b)%N) (filter is_index o)
  ++ filter (fun e => negb (is_index e)) o.

(** JavaScript numbers that may be [NaN] ([Math.min] of undefined fields). *)
Inductive number : Type :=
| Num (n : nat)
| NaN.

Definition Math_min (a b : number) : number :=
  match a, b with
  | Num x, Num y => Num (Nat.min x y)
  | _, _ => NaN
  end.

Definition plus (a b : number) : number :=
  match a, b with
  | Num x, Num y => Num (x + y)
  | _, _ => NaN
  end.

(** [a < b]: false when one of them is NaN. *)
Definition less (a b : number) : bool :=
  match a, b with
  | Num x, Num y => x <? y
  | _, _ => false
  end.

(** The conversion of a field to a number: [undefined] and a text give
    NaN. *)
Definition of_option (o : option value) : number :=
  match o with
  | Some (Count n) => Num n
  | _ => NaN
  end.

End JS.

(* ================================================================== *)
(** * Exceptions *)
(* ================================================================== *)

(** The outcome of a JavaScript computation: a value, or a thrown error with
    its [message]. *)
Inductive result (A : Type) : Type :=
| Ok (a : A)
| Throw (message : string).

Arguments Ok {A} a.
Arguments Throw {A} message.

(* ================================================================== *)
(** * The graph store *)
(* ================================================================== *)

Module Neo4j.

(** ** Nodes and relationships *)

Record Document : Type := mkDocument {
  doc_id : string;
  doc_name : string;
  doc_content : string;
  doc_type : string;
  doc_source : string;
  doc_size : N
}.

(** The [community] property: a component id written by the
    connected-components procedure, or the name of a type bucket. *)
Inductive community : Type :=
| Component (id : nat)
| Bucket (name : string).

Record Concept : Type := mkConcept {
  c_name : string;
  c_frequency : JS.value;
  c_community : option community
}.

Record Entity : Type := mkEntity {
  e_name : string;
  e_type : string;
  e_description : string;
  e_frequency : JS.value;
  e_community : option community
}.

Inductive label : Type := ConceptLabel | EntityLabel.

(** (:Document)-[:CONTAINS]->(:Concept or :Entity) *)
Record Contains : Type := mkContains {
  ct_doc : string;
  ct_label : label;
  ct_name : string;
  ct_weight : JS.value
}.

(** (:Concept)-[:RELATED_TO]->(:Concept), stored with the direction it was
    created with. *)
Record Related : Type := mkRelated {
  r_start : string;
  r_end : string;
  r_weight : JS.number
}.

(** (:Entity)-[:type]->(:Entity); [er_matches] counts the later merges, each
    of which adds 0.1 to the confidence 1.0 set on creation. *)
Record EntityRel : Type := mkEntityRel {
  er_source : string;
  er_target : string;
  er_type : string;
  er_description : string;
  er_docId : string;
  er_matches : nat
}.

(** The store keeps nodes and relationships in creation order.  Creation
    timestamps are not modelled. *)
Record Graph : Type := mkGraph {
  documents : list Document;
  concepts : list Concept;
  entities : list Entity;
  contains : list Contains;
  related : list Related;
  entity_rels : list EntityRel
}.

Definition empty : Graph := mkGraph [] [] [] [] [] [].

Definition node_count (g : Graph) : nat :=
  List.length (documents g) + List.length (concepts g)
  + List.length (entities g).

Definition edge_count (g : Graph) : nat :=
  List.length (contains g) + List.length (related g)
  + List.length (entity_rels g).

(** ** Rows returned by the read queries *)

Record EntityRow : Type := mkEntityRow {
  row_entity : string;
  row_type : string;
  row_description : string;
  row_frequency : JS.value;
  row_connected : list string
}.

Record DocRow : Type := mkDocRow {
  row_name : string;
  row_content : string;
  row_doctype : string;
  row_names : list string;
  row_score : nat
}.

Record CommunityRow : Type := mkCommunityRow {
  row_community : community;
  row_size : nat;
  row_samples : list string
}.

(** ** The statements sent through [session.run]

    One constructor per Cypher text of the sources, indexed by the type of
    the rows the program reads back. *)
Inductive Cypher : Type -> Type :=
(* schema statements of initializeSchema *)
| Schema (ddl : string) : Cypher unit
(* 'MATCH (n) DETACH DELETE n' *)
| DetachDeleteAll : Cypher unit
(* 'CREATE (d:Document {...})' *)
| CreateDocument (d : Document) : Cypher unit
(* 'MERGE (c:Concept {name}) ON CREATE SET c.frequency = $frequency
    ON MATCH SET c.frequency = c.frequency + $frequency' *)
| MergeConcept (name : string) (frequency : JS.value) : Cypher unit
(* 'MERGE (e:Entity {name}) ON CREATE SET e.type, e.description, e.frequency
    ON MATCH SET e.frequency = e.frequency + $frequency' *)
| MergeEntity (name type description : string) (frequency : JS.value)
  : Cypher unit
(* 'MATCH (d:Document {id}), (c:<label> {name})
    CREATE (d)-[:CONTAINS {frequency}]->(c)' *)
| CreateContains (docId : string) (l : label) (name : string)
    (frequency : JS.value) : Cypher unit
(* 'MATCH (c1:Concept {name1}), (c2:Concept {name2})
    MERGE (c1)-[r:RELATED_TO]-(c2)
    ON CREATE SET r.weight = $weight ON MATCH SET r.weight = r.weight + $weight' *)
| MergeRelated (name1 name2 : string) (weight : JS.number) : Cypher unit
(* 'MATCH (e1:Entity {source}), (e2:Entity {target}) MERGE (e1)-[r:<type>]->(e2)
    ON CREATE SET r.description, r.confidence = 1.0, r.docId
    ON MATCH SET r.confidence = r.confidence + 0.1' *)
| MergeEntityRel (source target type description docId : string) : Cypher unit
(* 'CALL gds.graph.project(...) CALL gds.wcc.write(...) CALL gds.graph.drop(...)
    RETURN componentCount, nodePropertiesWritten' *)
| GdsWcc : Cypher (list (nat * nat))
(* 'MATCH (e:Entity) SET e.community = CASE ... END' *)
| SetCommunityByType : Cypher unit
(* 'MATCH (e:Entity) RETURN DISTINCT e.community' *)
| DistinctCommunities : Cypher (list (option community))
(* 'MATCH (e:Entity) WHERE e.community IS NOT NULL WITH e.community, COLLECT(e)
    RETURN community, SIZE(entities), names[0..5] ORDER BY size DESC [LIMIT n]' *)
| CommunitySummaries (limit : option nat) : Cypher (list CommunityRow)
(* 'MATCH (e:Entity) WHERE ANY(term IN $terms WHERE e.name CONTAINS term OR
    e.description CONTAINS term) ... ORDER BY frequency DESC LIMIT 10' *)
| EntityQuery (terms : list string) : Cypher (list EntityRow)
(* 'MATCH (c:Concept) WHERE ANY(term IN $terms WHERE c.name CONTAINS term)
    RETURN c.name, c.frequency ORDER BY c.frequency DESC LIMIT 10' *)
| ConceptQuery (terms : list string) : Cypher (list (string * JS.value))
(* 'MATCH (d:Document)-[r:CONTAINS]->(n) WHERE ... n.name IN $entities
    RETURN d.name, d.content, d.type, COLLECT(n.name), SUM(r.frequency)
    ORDER BY relevance DESC LIMIT 5' *)
| DocQuery (names : list string) : Cypher (list DocRow)
(* KnowledgeGraphCLI: 'MERGE (c:Concept {name}) ON CREATE SET c.frequency = 1
    ON MATCH SET c.frequency = c.frequency + 1 WITH c
    MATCH (d:Document {id}) CREATE (d)-[:CONTAINS {weight: 1}]->(c)' *)
| MergeConceptContains (concept docId : string) : Cypher unit
(* KnowledgeGraphCLI: 'MATCH (c1) MATCH (c2) MERGE (c1)-[r:RELATED_TO]-(c2)
    ON CREATE SET r.weight = 1 ON MATCH SET r.weight = r.weight + 1' *)
| MergeRelatedUnit (concept1 concept2 : string) : Cypher unit
(* KnowledgeGraphCLI: 'MATCH (c:Concept) WHERE ANY(word IN $words WHERE
    c.name CONTAINS word) OR ANY(word IN $words WHERE word CONTAINS c.name)
    RETURN c.name, c.frequency ORDER BY c.frequency DESC LIMIT 15' *)
| FuzzyConceptQuery (words : list string) : Cypher (list (string * JS.value))
(* KnowledgeGraphCLI: 'MATCH (d:Document)-[:CONTAINS]->(c:Concept)
    WHERE c.name IN $concepts WITH d, COUNT(c), COLLECT(c.name)
    ORDER BY conceptCount DESC LIMIT 5 RETURN ...' *)
| CountDocQuery (names : list string) : Cypher (list DocRow).

(** A statement of any row type, as listed in a session's history. *)
Inductive statement : Type :=
| Sent {A : Type} (c : Cypher A).

Definition is_clear (s : statement) : bool :=
  match s with
  | Sent DetachDeleteAll => true
  | _ => false
  end.

(** The search operations of the repository: the read queries that look up
    concepts, entities, documents and communities. *)
Definition is_search (s : statement) : bool :=
  match s with
  | Sent (EntityQuery _) | Sent (ConceptQuery _) | Sent (DocQuery _)
  | Sent (FuzzyConceptQuery _) | Sent (CountDocQuery _)
  | Sent (CommunitySummaries _) => true
  | _ => false
  end.

(** ** Semantics of the write statements *)

Definition has_document (g : Graph) (id : string) : bool :=
  existsb (fun d => String.eqb (doc_id d) id) (documents g).

Definition has_concept (g : Graph) (name : string) : bool :=
  existsb (fun c => String.eqb (c_name c) name) (concepts g).

Definition has_entity (g : Graph) (name : string) : bool :=
  existsb (fun e => String.eqb (e_name e) name) (entities g).

Definition has_node (g : Graph) (l : label) (name : string) : bool :=
  match l with
  | ConceptLabel => has_concept g name
  | EntityLabel => has_entity g name
  end.

(** Cypher's [a + b] on property values: the sum of two numbers, and the
    concatenation when one of them is a string.  The digits of a number
    inside a concatenation are those of its value (Cypher writes a float
    with its fraction). *)
Definition add (a b : JS.value) : JS.value :=
  match a, b with
  | JS.Count x, JS.Count y => JS.Count (x + y)
  | _, _ => JS.Text (JS.show_value a ++ JS.show_value b)
  end.

(** The frequency stored on the Concept node of that name. *)
Fixpoint concept_frequency (cs : list Concept) (name : string)
  : option JS.value :=
  match cs with
  | [] => None
  | c :: cs' =>
      if String.eqb (c_name c) name then Some (c_frequency c)
      else concept_frequency cs' name
  end.

Definition merge_concept (cs : list Concept) (name : string) (f : JS.value)
  : list Concept :=
  if existsb (fun c => String.eqb (c_name c) name) cs
  then map (fun c => if String.eqb (c_name c) name
                     then mkConcept (c_name c) (add (c_frequency c) f)
                            (c_community c)
                     else c) cs
  else cs ++ [mkConcept name f None].

Definition merge_entity (es : list Entity) (name type description : string)
  (f : JS.value) : list Entity :=
  if existsb (fun e => String.eqb (e_name e) name) es
  then map (fun e => if String.eqb (e_name e) name
                     then mkEntity (e_name e) (e_type e) (e_description e)
                            (add (e_frequency e) f) (e_community e)
                     else e) es
  else es ++ [mkEntity name type description f None].

Definition create_contains (g : Graph) (docId : string) (l : label)
  (name : string) (f : JS.value) : list Contains :=
  if has_document g docId && has_node g l name
  then contains g ++ [mkContains docId l name f]
  else contains g.

(** The undirected pattern [(c1)-[r:RELATED_TO]-(c2)] matches a stored
    relationship in either direction. *)
Definition joins (a b : string) (r : Related) : bool :=
  (String.eqb (r_start r) a && String.eqb (r_end r) b)
  || (String.eqb (r_start r) b && String.eqb (r_end r) a).

Definition merge_related (g : Graph) (a b : string) (w : JS.number)
  : list Related :=
  if has_concept g a && has_concept g b
  then if existsb (joins a b) (related g)
       then map (fun r => if joins a b r
                          then mkRelated (r_start r) (r_end r)
                                 (JS.plus (r_weight r) w)
                          else r) (related g)
       else related g ++ [mkRelated a b w]
  else related g.

(** The relationship type is spliced into the query text; a type that is
    not an identifier makes the statement a syntax error. *)
Definition valid_type (t : string) : bool :=
  negb (String.eqb t EmptyString)
  && forallb JS.is_word_char (list_ascii_of_string t)
  && negb (JS.starts_with_digit t).

Definition same_rel (s t ty : string) (r : EntityRel) : bool :=
  String.eqb (er_source r) s && String.eqb (er_target r) t
  && String.eqb (er_type r) ty.

Definition merge_entity_rel (g : Graph) (s t ty description docId : string)
  : list EntityRel :=
  if has_entity g s && has_entity g t
  then if existsb (same_rel s t ty) (entity_rels g)
       then map (fun r => if same_rel s t ty r
                          then mkEntityRel (er_source r) (er_target r) (er_type r)
                                 (er_description r) (er_docId r) (S (er_matches r))
                          else r) (entity_rels g)
       else entity_rels g ++ [mkEntityRel s t ty description docId 0]
  else entity_rels g.

Definition with_documents (g : Graph) (ds : list Document) : Graph :=
  mkGraph ds (concepts g) (entities g) (contains g) (related g) (entity_rels g).

Definition with_concepts (g : Graph) (cs : list Concept) : Graph :=
  mkGraph (documents g) cs (entities g) (contains g) (related g) (entity_rels g).

Definition with_entities (g : Graph) (es : list Entity) : Graph :=
  mkGraph (documents g) (concepts g) es (contains g) (related g) (entity_rels g).

Definition with_contains (g : Graph) (cs : list Contains) : Graph :=
  mkGraph (documents g) (concepts g) (entities g) cs (related g) (entity_rels g).

Definition with_related (g : Graph) (rs : list Related) : Graph :=
  mkGraph (documents g) (concepts g) (entities g) (contains g) rs (entity_rels g).

Definition with_entity_rels (g : Graph) (rs : list EntityRel) : Graph :=
  mkGraph (documents g) (concepts g) (entities g) (contains g) (related g) rs.

(** ** Semantics of the read queries

    Where Cypher leaves the order of rows open (rows that tie under ORDER BY,
    the order of grouping), the store answers in creation order. *)

Definition order_by_desc {A} (key : A -> nat) (l : list A) : list A :=
  JS.sort (fun a b => key b <=? key a) l.

(** ORDER BY ... DESC on a property that holds numbers and strings: Cypher
    orders a string below every number, so the numbers come first, largest
    first, and then the strings, last in the alphabet first. *)
Definition desc (a b : JS.value) : bool :=
  match a, b with
  | JS.Count x, JS.Count y => y <=? x
  | JS.Count _, JS.Text _ => true
  | JS.Text _, JS.Count _ => false
  | JS.Text s, JS.Text t => String.leb t s
  end.

Definition order_by_value_desc {A} (key : A -> JS.value) (l : list A) : list A :=
  JS.sort (fun a b => desc (key a) (key b)) l.

Definition limit {A} (n : nat) (l : list A) : list A := firstn n l.

(** [x IN $list]. *)
Definition among (l : list string) (x : string) : bool :=
  existsb (String.eqb x) l.

(** DISTINCT on a list of names. *)
Fixpoint distinct (l : list string) (seen : list string) : list string :=
  match l with
  | [] => []
  | x :: l' =>
      if among seen x then distinct l' seen else x :: distinct l' (x :: seen)
  end.

Definition find_document (g : Graph) (id : string) : option Document :=
  find (fun d => String.eqb (doc_id d) id) (documents g).

(** Rows grouped by document: the names collected and the weights summed.
    SUM adds numbers only: a string among the values is a type error, which
    [sum_fails] finds. *)
Fixpoint add_match (same : Document -> Document -> bool) (d : Document)
  (name : string) (w : nat) (groups : list (Document * list string * nat))
  : list (Document * list string * nat) :=
  match groups with
  | [] => [(d, [name], w)]
  | (d', names, total) :: rest =>
      if same d' d then (d', names ++ [name], total + w) :: rest
      else (d', names, total) :: add_match same d name w rest
  end.

Definition doc_groups (same : Document -> Document -> bool) (g : Graph)
  (keep : Contains -> bool) (weight_of : Contains -> nat)
  : list (Document * list string * nat) :=
  fold_left
    (fun groups ct =>
       if keep ct
       then match find_document g (ct_doc ct) with
            | Some d => add_match same d (ct_name ct) (weight_of ct) groups
            | None => groups
            end
       else groups)
    (contains g) [].

Definition doc_row (x : Document * list string * nat) : DocRow :=
  let '(d, names, total) := x in
  mkDocRow (doc_name d) (doc_content d) (doc_type d) names total.

Definition same_fields (a b : Document) : bool :=
  String.eqb (doc_name a) (doc_name b)
  && String.eqb (doc_content a) (doc_content b)
  && String.eqb (doc_type a) (doc_type b).

Definition same_id (a b : Document) : bool := String.eqb (doc_id a) (doc_id b).

Definition number_of (v : JS.value) : nat :=
  match v with
  | JS.Count n => n
  | JS.Text _ => 0
  end.

Definition is_text (v : JS.value) : bool :=
  match v with
  | JS.Count _ => false
  | JS.Text _ => true
  end.

Definition sum_fails (g : Graph) (keep : Contains -> bool) : bool :=
  existsb
    (fun ct => keep ct && is_text (ct_weight ct)
               && match find_document g (ct_doc ct) with
                  | Some _ => true
                  | None => false
                  end)
    (contains g).

Definition doc_query (g : Graph) (names : list string) : list DocRow :=
  limit 5 (order_by_desc row_score
    (map doc_row
       (doc_groups same_fields g (fun ct => among names (ct_name ct))
          (fun ct => number_of (ct_weight ct))))).

Definition is_concept_label (l : label) : bool :=
  match l with ConceptLabel => true | EntityLabel => false end.

Definition count_doc_query (g : Graph) (names : list string) : list DocRow :=
  limit 5 (order_by_desc row_score
    (map doc_row
       (doc_groups same_id g
          (fun ct => is_concept_label (ct_label ct) && among names (ct_name ct))
          (fun _ => 1)))).

Definition concept_query (g : Graph) (terms : list string)
  : list (string * JS.value) :=
  limit 10 (order_by_value_desc snd
    (map (fun c => (c_name c, c_frequency c))
       (filter (fun c => existsb (JS.includes (c_name c)) terms) (concepts g)))).

Definition fuzzy_concept_query (g : Graph) (words : list string)
  : list (string * JS.value) :=
  limit 15 (order_by_value_desc snd
    (map (fun c => (c_name c, c_frequency c))
       (filter (fun c =>
                  existsb (fun word => JS.includes (c_name c) word) words
                  || existsb (fun word => JS.includes word (c_name c)) words)
          (concepts g)))).

Definition connected_names (g : Graph) (name : string) : list string :=
  flat_map
    (fun r =>
       (if String.eqb (er_source r) name then [er_target r] else [])
       ++ (if String.eqb (er_target r) name then [er_source r] else []))
    (entity_rels g).

Definition entity_query (g : Graph) (terms : list string) : list EntityRow :=
  limit 10 (order_by_value_desc row_frequency
    (map (fun e => mkEntityRow (e_name e) (e_type e) (e_description e)
                     (e_frequency e)
                     (limit 5 (distinct (connected_names g (e_name e)) [])))
       (filter (fun e =>
                  existsb (fun term => JS.includes (e_name e) term
                                       || JS.includes (e_description e) term)
                    terms)
          (entities g)))).

(** ** Communities *)

Definition community_eqb (a b : community) : bool :=
  match a, b with
  | Component i, Component j => i =? j
  | Bucket s, Bucket t => String.eqb s t
  | _, _ => false
  end.

Definition option_community_eqb (a b : option community) : bool :=
  match a, b with
  | Some x, Some y => community_eqb x y
  | None, None => true
  | _, _ => false
  end.

Fixpoint distinct_communities (l seen : list (option community))
  : list (option community) :=
  match l with
  | [] => []
  | x :: l' =>
      if existsb (option_community_eqb x) seen
      then distinct_communities l' seen
      else x :: distinct_communities l' (x :: seen)
  end.

Fixpoint add_member (c : community) (name : string)
  (groups : list (community * list string)) : list (community * list string) :=
  match groups with
  | [] => [(c, [name])]
  | (c', names) :: rest =>
      if community_eqb c' c then (c', names ++ [name]) :: rest
      else (c', names) :: add_member c name rest
  end.

Definition community_groups (es : list Entity) : list (community * list string) :=
  fold_left
    (fun groups e =>
       match e_community e with
       | Some c => add_member c (e_name e) groups
       | None => groups
       end)
    es [].

Definition community_summaries (g : Graph) (lim : option nat)
  : list CommunityRow :=
  let rows :=
    order_by_desc row_size
      (map (fun x => mkCommunityRow (fst x) (List.length (snd x))
                       (limit 5 (snd x)))
         (community_groups (entities g))) in
  match lim with
  | Some n => limit n rows
  | None => rows
  end.

(** The type buckets of the fallback clustering. *)
Definition bucket_of_type (t : string) : string :=
  if String.eqb t "PERSON" then "people"
  else if String.eqb t "ORGANIZATION" then "organizations"
  else if String.eqb t "TECHNOLOGY" then "technologies"
  else if String.eqb t "LOCATION" then "locations"
  else "concepts".

Definition set_community (c : Entity -> option community) (e : Entity) : Entity :=
  mkEntity (e_name e) (e_type e) (e_description e) (e_frequency e) (c e).

Definition label_by_type (es : list Entity) : list Entity :=
  map (set_community (fun e => Some (Bucket (bucket_of_type (e_type e))))) es.

(** Modelled from the spec: the connected-components procedure
    [gds.wcc.write] of the graph-algorithms collaborator, which is not part
    of the repository.  The projection holds the Entity nodes and every
    relationship between two of them, read as undirected; a component is a
    maximal set of entities transitively linked, and its id is the position
    of its first entity.  [wcc_labels] starts with every entity alone and,
    for each relationship, merges the components of its two ends. *)
Definition label_of (labels : list (string * nat)) (name : string) : option nat :=
  match find (fun x => String.eqb (fst x) name) labels with
  | Some x => Some (snd x)
  | None => None
  end.

Definition union (labels : list (string * nat)) (a b : string)
  : list (string * nat) :=
  match label_of labels a, label_of labels b with
  | Some la, Some lb =>
      map (fun x => (fst x, if (snd x =? la) || (snd x =? lb)
                            then Nat.min la lb else snd x)) labels
  | _, _ => labels
  end.

Definition wcc_labels (names : list string) (links : list (string * string))
  : list (string * nat) :=
  fold_left (fun labels l => union labels (fst l) (snd l)) links
    (combine names (seq 0 (List.length names))).

Definition links_of (g : Graph) : list (string * string) :=
  map (fun r => (er_source r, er_target r)) (entity_rels g).

Definition wcc_write (g : Graph) : list Entity :=
  let labels := wcc_labels (map e_name (entities g)) (links_of g) in
  map (set_community (fun e =>
         match label_of labels (e_name e) with
         | Some l => Some (Component l)
         | None => None
         end)) (entities g).

Fixpoint distinct_nat (l seen : list nat) : list nat :=
  match l with
  | [] => []
  | x :: l' =>
      if existsb (Nat.eqb x) seen then distinct_nat l' seen
      else x :: distinct_nat l' (x :: seen)
  end.

Definition component_count (g : Graph) : nat :=
  List.length
    (distinct_nat (map snd (wcc_labels (map e_name (entities g)) (links_of g))) []).

(** ** The store

    [exec gds c g] runs statement [c] on graph [g]; [gds] tells whether the
    graph-algorithms plugin is installed.  The uniqueness constraints of the
    schema are in force: creating a second Document with an id in use
    fails. *)
Definition exec (gds : bool) (A : Type) (c : Cypher A) (g : Graph)
  : result A * Graph :=
  match c in Cypher T return result T * Graph with
  | Schema _ => (Ok tt, g)
  | DetachDeleteAll => (Ok tt, empty)
  | CreateDocument d =>
      if has_document g (doc_id d)
      then (Throw "Node already exists with label Document and this id", g)
      else (Ok tt, with_documents g (documents g ++ [d]))
  | MergeConcept name f =>
      (Ok tt, with_concepts g (merge_concept (concepts g) name f))
  | MergeEntity name type description f =>
      (Ok tt, with_entities g (merge_entity (entities g) name type description f))
  | CreateContains docId l name f =>
      (Ok tt, with_contains g (create_contains g docId l name f))
  | MergeRelated a b w =>
      (Ok tt, with_related g (merge_related g a b w))
  | MergeEntityRel s t ty description docId =>
      if valid_type ty
      then (Ok tt, with_entity_rels g (merge_entity_rel g s t ty description docId))
      else (Throw "Invalid input: relationship type", g)
  | GdsWcc =>
      if gds
      then (Ok [(component_count g, List.length (entities g))],
            with_entities g (wcc_write g))
      else (Throw "There is no procedure with the name gds.graph.project", g)
  | SetCommunityByType =>
      (Ok tt, with_entities g (label_by_type (entities g)))
  | DistinctCommunities =>
      (Ok (distinct_communities (map e_community (entities g)) []), g)
  | CommunitySummaries lim => (Ok (community_summaries g lim), g)
  | EntityQuery terms => (Ok (entity_query g terms), g)
  | ConceptQuery terms => (Ok (concept_query g terms), g)
  | DocQuery names =>
      if sum_fails g (fun ct => among names (ct_name ct))
      then (Throw "Type mismatch: SUM can only handle numerical values", g)
      else (Ok (doc_query g names), g)
  | MergeConceptContains concept docId =>
      let g1 := with_concepts g (merge_concept (concepts g) concept (JS.Count 1)) in
      (Ok tt,
       with_contains g1
         (create_contains g1 docId ConceptLabel concept (JS.Count 1)))
  | MergeRelatedUnit a b =>
      (Ok tt, with_related g (merge_related g a b (JS.Num 1)))
  | FuzzyConceptQuery words => (Ok (fuzzy_concept_query g words), g)
  | CountDocQuery names => (Ok (count_doc_query g names), g)
  end.

End Neo4j.

(* ================================================================== *)
(** * Sessions *)
(* ================================================================== *)

(** A statement sent through the session, with the message of the error it
    failed with, if it failed. *)
Record event : Type := mkEvent {
  sent : Neo4j.statement;
  error : option string
}.

Definition outcome {A} (r : result A) : option string :=
  match r with
  | Ok _ => None
  | Throw message => Some message
  end.

(** The state a program run threads: the store behind the session, the
    statements sent so far, the number of clock readings taken, and the
    [totalSize] field of a [KnowledgeGraphCLI] instance. *)
Record World (St : Type) : Type := mkWorld {
  store : St;
  history : list event;
  ticks : nat;
  totalSize : N
}.

Arguments mkWorld {St} store history ticks totalSize.
Arguments store {St} w.
Arguments history {St} w.
Arguments ticks {St} w.
Arguments totalSize {St} w.

(** An [async] function: it ends with a value or a thrown error, and its
    effects on the world stay either way. *)
Definition M (St A : Type) : Type := World St -> result A * World St.

Definition ret {St A} (a : A) : M St A := fun w => (Ok a, w).

Definition throw {St A} (message : string) : M St A := fun w => (Throw message, w).

Definition bind {St A B} (m : M St A) (k : A -> M St B) : M St B :=
  fun w =>
    match m w with
    | (Ok a, w') => k a w'
    | (Throw e, w') => (Throw e, w')
    end.

(** [try { body } catch (error) { handler }]. *)
Definition tryCatch {St A} (body : M St A) (handler : string -> M St A) : M St A :=
  fun w =>
    match body w with
    | (Ok a, w') => (Ok a, w')
    | (Throw e, w') => handler e w'
    end.

(** A synchronous call that may throw. *)
Definition lift {St A} (r : result A) : M St A := fun w => (r, w).

Declare Scope js_scope.
Delimit Scope js_scope with js.

Notation "x <- c1 ;; c2" := (bind c1 (fun x => c2))
  (at level 61, c1 at next level, right associativity) : js_scope.
Notation "c1 ;; c2" := (bind c1 (fun _ => c2))
  (at level 61, right associativity) : js_scope.

Local Open Scope js_scope.

(** [for (const x of l) { body x }]. *)
Fixpoint forEach {St A} (l : list A) (body : A -> M St unit) : M St unit :=
  match l with
  | [] => ret tt
  | x :: l' => body x ;; forEach l' body
  end.

(** The pairs [(l[i], l[j])] with [i < j], in the order of the nested loops
    [for i ... for j = i + 1 ...]. *)
Fixpoint pairs {A} (l : list A) : list (A * A) :=
  match l with
  | [] => []
  | x :: l' => map (pair x) l' ++ pairs l'
  end.

Section Session.
Context {St : Type}.

(** The store behind the session: any behaviour, failures included. *)
Variable exec : forall A, Neo4j.Cypher A -> St -> result A * St.

(** [await session.run(...)]. *)
Definition session_run {A} (c : Neo4j.Cypher A) : M St A :=
  fun w =>
    let (r, s) := exec A c (store w) in
    (r, mkWorld s (history w ++ [mkEvent (Neo4j.Sent c) (outcome r)])
          (ticks w) (totalSize w)).

(** A reading of the clock or of the random generator: the [n]-th reading
    of the run is [source n]. *)
Definition reading {A} (source : nat -> A) : M St A :=
  fun w => (Ok (source (ticks w)),
            mkWorld (store w) (history w) (S (ticks w)) (totalSize w)).

Definition get_totalSize : M St N := fun w => (Ok (totalSize w), w).

Definition set_totalSize (n : N) : M St unit :=
  fun w => (Ok tt, mkWorld (store w) (history w) (ticks w) n).
End Session.

(** The world a command starts in. *)
Definition start {St} (s : St) : World St := mkWorld s [] 0 0%N.

(* ================================================================== *)
(** * The collaborators *)
(* ================================================================== *)

(** The functions the programs take from the [natural] package: the word
    tokenizer, the stop-word list and the Porter stemmer. *)
Record Natural : Type := mkNatural {
  tokenize : string -> list string;
  stopwords : list string;
  stem : string -> string
}.

(** The objects that flow through ingestion. *)
Record Concept : Type := mkConcept {
  name : string;
  frequency : JS.value
}.

(** An entity as the enrichment reply gives it; a concept object is an
    entity with a frequency and no type or description. *)
Record EntityObj : Type := mkEntityObj {
  entity_name : string;
  entity_type : option string;
  entity_description : option string;
  entity_frequency : option JS.value
}.

Record Relationship : Type := mkRelationship {
  rel_source : string;
  rel_target : string;
  rel_type : option string;
  rel_description : option string
}.

(** What [extractEntitiesWithLLM] returns: the array of [extractConcepts], or
    an object whose [entities] and [relationships] may be missing. *)
Inductive Extracted : Type :=
| ConceptArray (concepts : list Concept)
| Reply (entities : option (list EntityObj))
        (relationships : option (list Relationship)).

(** The process environment, the file system, the network and the clock. *)
Record Env : Type := mkEnv {
  (* whether kg.connect(...) reaches the database *)
  connect : bool;
  (* parseInt(process.env.MAX_FILE_SIZE_MB), when the variable is set *)
  MAX_FILE_SIZE_MB : option N;
  (* whether process.env.ANTHROPIC_API_KEY is set *)
  ANTHROPIC_API_KEY : bool;
  (* (await fs.stat(path)).size *)
  fs_stat_size : string -> result N;
  (* await fs.readFile(path, 'utf-8') *)
  fs_readFile : string -> result string;
  path_basename : string -> string;
  (* cheerio's $('body').text() of the page fetched by axios.get(url), after
     script, style, nav, header and footer are removed *)
  fetch_body_text : string -> result string;
  (* Buffer.from(s).toString('base64') *)
  base64 : string -> string;
  (* the successive values of Date.now() *)
  Date_now : nat -> N;
  (* the enrichment reply for a text, parsed; the call or the parse may fail *)
  llm_extract : string -> result Extracted;
  (* the reply text for a prompt *)
  llm_answer : string -> result string;
  (* the successive values of Math.random().toString(36).substr(2, 9) *)
  random_suffix : nat -> string
}.

(** [a || b] on optional strings: an empty string is falsy. *)
Definition or_string (a : option string) (b : string) : string :=
  match a with
  | Some s => if String.eqb s EmptyString then b else s
  | None => b
  end.

Definition nl : string := String (ascii_of_nat 10) EmptyString.

Definition quote : string := String (ascii_of_nat 34) EmptyString.

(* ================================================================== *)
(** * knowledge-graph.js *)
(* ================================================================== *)

Module KnowledgeGraph.
Section Program.
Context {St : Type}.
Variable exec : forall A, Neo4j.Cypher A -> St -> result A * St.
Variable L : Natural.
Variable E : Env.

Local Abbreviation run := (session_run exec).
Local Open Scope string_scope.

(** [parseInt(process.env.MAX_FILE_SIZE_MB || '100') * 1024 * 1024] *)
Definition maxFileSize : N :=
  (match MAX_FILE_SIZE_MB E with
   | Some mb => mb
   | None => 100
   end * 1024 * 1024)%N.

Definition initializeSchema : M St bool :=
  tryCatch
    (run (Neo4j.Schema "CREATE CONSTRAINT doc_id IF NOT EXISTS FOR (d:Document) REQUIRE d.id IS UNIQUE") ;;
     run (Neo4j.Schema "CREATE CONSTRAINT concept_name IF NOT EXISTS FOR (c:Concept) REQUIRE c.name IS UNIQUE") ;;
     run (Neo4j.Schema "CREATE CONSTRAINT entity_name IF NOT EXISTS FOR (e:Entity) REQUIRE e.name IS UNIQUE") ;;
     run (Neo4j.Schema "CREATE INDEX doc_name IF NOT EXISTS FOR (d:Document) ON (d.name)") ;;
     run (Neo4j.Schema "CREATE INDEX concept_freq IF NOT EXISTS FOR (c:Concept) ON (c.frequency)") ;;
     run (Neo4j.Schema "CREATE INDEX entity_type IF NOT EXISTS FOR (e:Entity) ON (e.type)") ;;
     run (Neo4j.Schema "CREATE INDEX entity_freq IF NOT EXISTS FOR (e:Entity) ON (e.frequency)") ;;
     ret true)
    (fun _ => ret false).

(** ** Concept extraction *)

Definition keep_token (token : string) : bool :=
  (2 <? String.length token)%nat
  && negb (JS.all_digits token)
  && negb (JS.array_includes (stopwords L) token).

Definition filteredTokens (text : string) : list string :=
  filter keep_token (tokenize L (JS.toLowerCase text)).

Definition wordFreq (text : string) : JS.object JS.value :=
  fold_left (fun o token => JS.increment o (stem L token))
    (filteredTokens text) [].

(** [freq > 1 || word.length > 4] *)
Definition meaningful (e : string * JS.value) : bool :=
  JS.above 1 (snd e) || (4 <? String.length (fst e))%nat.

(** [(a, b) => b[1] - a[1]] *)
Definition by_frequency (a b : string * JS.value) : bool :=
  JS.descending (snd a) (snd b).

Definition ranked (text : string) : list (string * JS.value) :=
  JS.sort by_frequency (filter meaningful (JS.entries (wordFreq text))).

Definition extractConcepts (text : string) : list Concept :=
  map (fun e => mkConcept (fst e) (snd e)) (firstn 50 (ranked text)).

Definition as_entity (c : Concept) : EntityObj :=
  mkEntityObj (name c) None None (Some (frequency c)).

Definition extractEntitiesWithLLM (text : string) : M St Extracted :=
  if negb (ANTHROPIC_API_KEY E) then ret (ConceptArray (extractConcepts text))
  else
    tryCatch
      (lift (llm_extract E (JS.substring0 2000 text)))
      (fun _ =>
         ret (Reply (Some (map as_entity (extractConcepts text))) (Some []))).

(** ** Ingestion *)

Definition createConceptRelationships (concepts : list EntityObj) : M St unit :=
  forEach (pairs concepts)
    (fun p =>
       let weight := JS.Math_min (JS.of_option (entity_frequency (fst p)))
                       (JS.of_option (entity_frequency (snd p))) in
       run (Neo4j.MergeRelated (entity_name (fst p)) (entity_name (snd p)) weight)).

Definition createEntityRelationships (relationships : list Relationship)
  (docId : string) : M St unit :=
  forEach relationships
    (fun rel =>
       tryCatch
         (run (Neo4j.MergeEntityRel (rel_source rel) (rel_target rel)
                 (or_string (rel_type rel) "RELATED_TO")
                 (or_string (rel_description rel) EmptyString) docId))
         (fun _ => ret tt)).

(** [extracted.entities || extracted], iterated by [for ... of]: the reply
    object itself is not iterable. *)
Definition entities_of (extracted : Extracted) : result (list EntityObj) :=
  match extracted with
  | ConceptArray concepts => Ok (map as_entity concepts)
  | Reply (Some entities) _ => Ok entities
  | Reply None _ => Throw "entities is not iterable"
  end.

Definition relationships_of (extracted : Extracted) : option (list Relationship) :=
  match extracted with
  | ConceptArray _ => None
  | Reply _ relationships => relationships
  end.

Definition ingestFile (filePath : string) (clear : bool) : M St bool :=
  tryCatch
    (size <- lift (fs_stat_size E filePath) ;;
     if (maxFileSize <? size)%N then ret false
     else
       content <- lift (fs_readFile E filePath) ;;
       (if clear then run Neo4j.DetachDeleteAll else ret tt) ;;
       extracted <- extractEntitiesWithLLM content ;;
       now <- reading (Date_now E) ;;
       let docId := path_basename E filePath ++ "_" ++ JS.show_N now in
       run (Neo4j.CreateDocument
              (Neo4j.mkDocument docId (path_basename E filePath)
                 (JS.substring0 1000 content) "file" EmptyString size)) ;;
       entities <- lift (entities_of extracted) ;;
       forEach entities
         (fun entity =>
            run (Neo4j.MergeEntity (entity_name entity)
                   (or_string (entity_type entity) "CONCEPT")
                   (or_string (entity_description entity) EmptyString)
                   (JS.or_one (entity_frequency entity))) ;;
            run (Neo4j.CreateContains docId Neo4j.EntityLabel
                   (entity_name entity) (JS.or_one (entity_frequency entity)))) ;;
       match relationships_of extracted with
       | Some relationships => createEntityRelationships relationships docId
       | None => ret tt
       end ;;
       match relationships_of extracted with
       | Some (_ :: _) => ret tt
       | _ => createConceptRelationships entities
       end ;;
       ret true)
    (fun _ => ret false).

Definition ingestUrl (url : string) (clear : bool) : M St bool :=
  tryCatch
    (text <- lift (fetch_body_text E url) ;;
     let content := JS.trim (JS.collapse_spaces text false) in
     if (String.length content =? 0)%nat then ret false
     else if (maxFileSize <? N.of_nat (String.length content))%N then ret false
     else
       (if clear then run Neo4j.DetachDeleteAll else ret tt) ;;
       let concepts := extractConcepts content in
       now <- reading (Date_now E) ;;
       let docId := "url_" ++ JS.substring0 10 (base64 E url) ++ "_" ++ JS.show_N now in
       run (Neo4j.CreateDocument
              (Neo4j.mkDocument docId url (JS.substring0 1000 content) "url" url
                 (N.of_nat (String.length content)))) ;;
       forEach concepts
         (fun concept =>
            run (Neo4j.MergeConcept (name concept) (frequency concept)) ;;
            run (Neo4j.CreateContains docId Neo4j.ConceptLabel
                   (name concept) (frequency concept))) ;;
       createConceptRelationships (map as_entity concepts) ;;
       ret true)
    (fun _ => ret false).

(** ** Communities *)

(** [result.records[0]?.get('communities')?.toNumber() || 0] *)
Definition detectCommunities : M St nat :=
  tryCatch
    (records <- run Neo4j.GdsWcc ;;
     ret (match records with
          | (communities, _) :: _ => communities
          | [] => 0
          end))
    (fun _ =>
       run Neo4j.SetCommunityByType ;;
       records <- run Neo4j.DistinctCommunities ;;
       ret (List.length records)).

(** ** Retrieval *)

Definition globalIndicators : list string :=
  ["overall"; "general"; "compare"; "analyze"; "overview"; "summary"; "trend";
   "pattern"].

Definition localIndicators : list string :=
  ["specific"; "detail"; "who"; "what"; "when"; "where"; "how"].

Definition globalScore (question : string) : nat :=
  List.length (filter (JS.includes (JS.toLowerCase question)) globalIndicators).

Definition localScore (question : string) : nat :=
  List.length (filter (JS.includes (JS.toLowerCase question)) localIndicators).

Definition determineSearchMode (question : string) : string :=
  if (localScore question <? globalScore question)%nat then "global" else "local".

Definition show_community (c : Neo4j.community) : string :=
  match c with
  | Neo4j.Component id => JS.show id
  | Neo4j.Bucket s => s
  end.

Definition globalSearch (question : string) : M St string :=
  tryCatch
    (communities <- run (Neo4j.CommunitySummaries (Some 10)) ;;
     if ANTHROPIC_API_KEY E && (0 <? List.length communities)%nat
     then
       let prompt :=
         "Based on the knowledge graph communities below, answer this question: "
         ++ quote ++ question ++ quote ++ nl ++ nl
         ++ "Communities in the knowledge graph:" ++ nl
         ++ JS.join nl
              (map (fun c => "- " ++ show_community (Neo4j.row_community c) ++ ": "
                             ++ JS.show (Neo4j.row_size c) ++ " entities (examples: "
                             ++ JS.join ", " (Neo4j.row_samples c) ++ ")")
                 communities)
         ++ nl ++ nl
         ++ "Provide a comprehensive answer based on patterns across the entire dataset." in
       lift (llm_answer E prompt)
     else
       ret ("Global overview: Found " ++ JS.show (List.length communities)
            ++ " communities in the knowledge graph:" ++ nl
            ++ JS.join nl
                 (map (fun c => "• " ++ show_community (Neo4j.row_community c) ++ ": "
                                ++ JS.show (Neo4j.row_size c) ++ " entities")
                    communities)))
    (fun message => ret ("Global search error: " ++ message)).

(** The key terms of a question: its tokens that are no stop-word and are
    longer than two characters, stemmed. *)
Definition keyTerms (question : string) : list string :=
  map (stem L)
    (filter (fun token => negb (JS.array_includes (stopwords L) token)
                          && (2 <? String.length token)%nat)
       (tokenize L (JS.toLowerCase question))).

Definition more_specific : string :=
  "Please provide a more specific question with meaningful terms.".

Definition as_row (c : string * JS.value) : Neo4j.EntityRow :=
  Neo4j.mkEntityRow (fst c) "CONCEPT" EmptyString (snd c) [].

Definition entity_lines (e : Neo4j.EntityRow) : string :=
  "   • " ++ Neo4j.row_entity e ++ " (" ++ Neo4j.row_type e ++ ")"
  ++ (if String.eqb (Neo4j.row_description e) EmptyString then EmptyString
      else ": " ++ Neo4j.row_description e)
  ++ nl
  ++ (if (0 <? List.length (Neo4j.row_connected e))%nat
      then "     Connected to: " ++ JS.join ", " (firstn 3 (Neo4j.row_connected e)) ++ nl
      else EmptyString).

Fixpoint doc_lines (key : string) (index : nat) (docs : list Neo4j.DocRow) : string :=
  match docs with
  | [] => EmptyString
  | doc :: docs' =>
      "   " ++ JS.show (index + 1) ++ ". " ++ Neo4j.row_name doc
      ++ " (" ++ Neo4j.row_doctype doc ++ ")" ++ nl
      ++ "      Preview: " ++ JS.substring0 200 (Neo4j.row_content doc) ++ "..." ++ nl
      ++ "      " ++ key ++ JS.join ", " (firstn 3 (Neo4j.row_names doc)) ++ nl ++ nl
      ++ doc_lines key (S index) docs'
  end.

Definition localSearch (question : string) : M St string :=
  tryCatch
    (let terms := keyTerms question in
     if (List.length terms =? 0)%nat then ret more_specific
     else
       found <- run (Neo4j.EntityQuery terms) ;;
       relevant <-
         (if (List.length found =? 0)%nat
          then
            concepts <- run (Neo4j.ConceptQuery terms) ;;
            ret (map as_row concepts)
          else ret found) ;;
       if (List.length relevant =? 0)%nat
       then ret "No relevant concepts or entities found in the knowledge graph for your question."
       else
         relevantDocs <- run (Neo4j.DocQuery (map Neo4j.row_entity relevant)) ;;
         ret ("Based on your question about " ++ quote ++ question ++ quote
              ++ ", here's what I found:" ++ nl ++ nl
              ++ "🔍 **Relevant Entities:**" ++ nl
              ++ String.concat EmptyString (map entity_lines (firstn 5 relevant))
              ++ nl ++ "📄 **Related Documents:**" ++ nl
              ++ doc_lines "Key entities: " 0 relevantDocs))
    (fun message => ret ("Local search error: " ++ message)).

Definition queryGraph (question mode : string) : M St string :=
  tryCatch
    (let mode := if String.eqb mode "auto" then determineSearchMode question
                 else mode in
     if String.eqb mode "global" then globalSearch question
     else localSearch question)
    (fun message => ret ("Error processing question: " ++ message)).

(** ** The [ingest] command

    [None] stands for [process.exit(1)]; otherwise the action ends with
    [totalProcessed]. *)
Fixpoint ingest_each (ingest : string -> bool -> M St bool) (clear : bool)
  (sources : list string) (totalProcessed : nat) (isFirstItem : bool)
  : M St (nat * bool) :=
  match sources with
  | [] => ret (totalProcessed, isFirstItem)
  | source :: rest =>
      success <- ingest source (clear && isFirstItem) ;;
      ingest_each ingest clear rest
        (if success then S totalProcessed else totalProcessed) false
  end.

Definition ingest_loops (ingestFile ingestUrl : string -> bool -> M St bool)
  (files urls : option (list string)) (clear : bool) : M St nat :=
  afterFiles <-
    match files with
    | Some l => ingest_each ingestFile clear l 0 true
    | None => ret (0, true)
    end ;;
  afterUrls <-
    match urls with
    | Some l => ingest_each ingestUrl clear l (fst afterFiles) (snd afterFiles)
    | None => ret afterFiles
    end ;;
  ret (fst afterUrls).

Definition ingest_command (files urls : option (list string)) (clear : bool)
  : M St (option nat) :=
  match files, urls with
  | None, None => ret None
  | _, _ =>
      if negb (connect E) then ret None
      else
        initializeSchema ;;
        totalProcessed <- ingest_loops ingestFile ingestUrl files urls clear ;;
        ret (Some totalProcessed)
  end.

End Program.
End KnowledgeGraph.

(* ================================================================== *)
(** * The earlier copy of knowledge-graph.js *)
(* ================================================================== *)

Module Legacy.
Section Program.
Context {St : Type}.
Variable exec : forall A, Neo4j.Cypher A -> St -> result A * St.
Variable L : Natural.
Variable E : Env.

Local Abbreviation run := (session_run exec).
Local Open Scope string_scope.

Definition initializeSchema : M St bool :=
  tryCatch
    (run (Neo4j.Schema "CREATE CONSTRAINT doc_id IF NOT EXISTS FOR (d:Document) REQUIRE d.id IS UNIQUE") ;;
     run (Neo4j.Schema "CREATE CONSTRAINT concept_name IF NOT EXISTS FOR (c:Concept) REQUIRE c.name IS UNIQUE") ;;
     run (Neo4j.Schema "CREATE INDEX doc_name IF NOT EXISTS FOR (d:Document) ON (d.name)") ;;
     run (Neo4j.Schema "CREATE INDEX concept_freq IF NOT EXISTS FOR (c:Concept) ON (c.frequency)") ;;
     ret true)
    (fun _ => ret false).

(** [extractConcepts], [createConceptRelationships] and [ingestUrl] have
    the text of the current copy. *)
Definition extractConcepts : string -> list Concept :=
  KnowledgeGraph.extractConcepts L.

Definition createConceptRelationships : list EntityObj -> M St unit :=
  KnowledgeGraph.createConceptRelationships exec.

Definition ingestUrl : string -> bool -> M St bool :=
  KnowledgeGraph.ingestUrl exec L E.

Definition ingestFile (filePath : string) (clear : bool) : M St bool :=
  tryCatch
    (size <- lift (fs_stat_size E filePath) ;;
     if (KnowledgeGraph.maxFileSize E <? size)%N then ret false
     else
       content <- lift (fs_readFile E filePath) ;;
       (if clear then run Neo4j.DetachDeleteAll else ret tt) ;;
       let concepts := extractConcepts content in
       now <- reading (Date_now E) ;;
       let docId := path_basename E filePath ++ "_" ++ JS.show_N now in
       run (Neo4j.CreateDocument
              (Neo4j.mkDocument docId (path_basename E filePath)
                 (JS.substring0 1000 content) "file" EmptyString size)) ;;
       forEach concepts
         (fun concept =>
            run (Neo4j.MergeConcept (name concept) (frequency concept)) ;;
            run (Neo4j.CreateContains docId Neo4j.ConceptLabel
                   (name concept) (frequency concept))) ;;
       createConceptRelationships (map KnowledgeGraph.as_entity concepts) ;;
       ret true)
    (fun _ => ret false).

Fixpoint concept_lines (concepts : list (string * JS.value)) : string :=
  match concepts with
  | [] => EmptyString
  | c :: rest =>
      "   • " ++ fst c ++ " (frequency: " ++ JS.show_value (snd c) ++ ")" ++ nl
      ++ concept_lines rest
  end.

Definition queryGraph (question : string) : M St string :=
  tryCatch
    (let terms := KnowledgeGraph.keyTerms L question in
     if (List.length terms =? 0)%nat then ret KnowledgeGraph.more_specific
     else
       relevantConcepts <- run (Neo4j.ConceptQuery terms) ;;
       if (List.length relevantConcepts =? 0)%nat
       then ret "No relevant concepts found in the knowledge graph for your question."
       else
         relevantDocs <- run (Neo4j.DocQuery (map fst relevantConcepts)) ;;
         ret ("Based on your question about " ++ quote ++ question ++ quote
              ++ ", here's what I found:" ++ nl ++ nl
              ++ "🔍 **Relevant Concepts:**" ++ nl
              ++ concept_lines (firstn 5 relevantConcepts)
              ++ nl ++ "📄 **Related Documents:**" ++ nl
              ++ KnowledgeGraph.doc_lines "Key concepts: " 0 relevantDocs))
    (fun message => ret ("Error querying knowledge graph: " ++ message)).

Definition ingest_command (files urls : option (list string)) (clear : bool)
  : M St (option nat) :=
  match files, urls with
  | None, None => ret None
  | _, _ =>
      if negb (connect E) then ret None
      else
        initializeSchema ;;
        totalProcessed <-
          KnowledgeGraph.ingest_loops ingestFile ingestUrl files urls clear ;;
        ret (Some totalProcessed)
  end.

End Program.
End Legacy.

(* ================================================================== *)
(** * The first version: class KnowledgeGraphCLI *)
(* ================================================================== *)

Module KnowledgeGraphCLI.

(** What [processDocument] returns. *)
Record Summary : Type := mkSummary {
  summary_name : string;
  summary_concepts : nat;
  summary_size : nat;
  summary_type : string
}.

Record DocRef : Type := mkDocRef {
  ref_name : string;
  ref_type : string;
  ref_concepts : list string
}.

(** What [queryGraph] returns. *)
Record Answer : Type := mkAnswer {
  answer : string;
  concepts : list (string * nat);
  documents : list DocRef
}.

Definition stopWords : list string :=
  ["this"; "that"; "with"; "have"; "will"; "from"; "they"; "been"; "said";
   "each"; "which"; "their"; "time"; "about"; "would"; "there"; "could";
   "other"; "more"; "very"; "what"; "know"; "just"; "into"; "over"; "think";
   "also"; "your"; "work"; "life"; "only"; "can"; "still"; "should"; "after";
   "being"; "now"; "made"; "before"; "here"; "through"; "when"; "where";
   "how"; "all"; "any"; "may"; "say"; "get"; "has"; "had"; "his"; "her";
   "him"; "my"; "me"; "we"; "our"; "out"; "day"; "go"; "he"; "she"; "it";
   "of"; "to"; "and"; "a"; "in"; "is"; "it"; "you"; "that"; "he"; "was";
   "for"; "on"; "are"; "as"; "with"; "his"; "they"; "i"; "at"; "be"; "or";
   "an"; "were"; "by"; "but"; "not"; "do"; "can"; "if"; "no"; "had"; "my";
   "has"; "so"; "the"; "then"; "than"; "some"; "like"; "who"; "these";
   "those"; "such"; "many"; "most"; "much"; "while"; "since"; "both";
   "either"; "neither"; "every"; "another"; "same"; "different"; "new";
   "old"; "first"; "last"; "next"; "previous"; "good"; "bad"; "best"; "worst";
   "make"; "way"; "come"; "its"; "now"; "find"; "long"; "down"; "day"; "did";
   "get"; "come"; "made"; "may"; "part"].

(** [stopWords.has(word)] *)
Definition is_stop (word : string) : bool := JS.array_includes stopWords word.

(** [/[^\w\s]/] *)
Definition punctuation (c : ascii) : bool :=
  negb (JS.is_word_char c) && negb (JS.is_space c).

(** [s.toLowerCase().replace(/[^\w\s]/g, ' ').split(/\s+/)] *)
Definition split_words (s : string) : list string :=
  JS.split JS.is_space (JS.replace_chars punctuation (JS.toLowerCase s)).

Definition count (o : JS.object JS.value) (items : list string)
  : JS.object JS.value :=
  fold_left JS.increment items o.

(** The [frequency] object of [extractConcepts]. *)
Definition frequency_of (text : string) : JS.object JS.value :=
  count []
    (filter (fun word => negb (is_stop word))
       (filter (fun word => (3 <? String.length word)%nat) (split_words text))).

(** The two-word windows [words.slice(i, i + 2).join(' ')] of one sentence
    that pass the phrase test. *)
Fixpoint windows (words : list string) : list string :=
  match words with
  | w1 :: ((w2 :: _) as rest) =>
      let phrase := (w1 ++ " " ++ w2)%string in
      (if (8 <? String.length phrase)%nat && negb (is_stop w1) && negb (is_stop w2)
          && negb (JS.starts_with_digit phrase)
       then [phrase] else [])
      ++ windows rest
  | _ => []
  end.

Definition phrases_of (text : string) : list string :=
  flat_map (fun sentence => windows (split_words sentence))
    (JS.split JS.is_terminator text).

Definition phraseFreq_of (text : string) : JS.object JS.value :=
  count [] (phrases_of text).

(** [Object.entries(o).filter(count >= 2).sort(b - a).slice(0, n).map(name)] *)
Definition top (n : nat) (o : JS.object JS.value) : list string :=
  map fst
    (firstn n
       (JS.sort (fun a b => JS.descending (snd a) (snd b))
          (filter (fun e => JS.at_least 2 (snd e)) (JS.entries o)))).

Definition extractConcepts (text : string) : list string :=
  top 15 (frequency_of text) ++ top 10 (phraseFreq_of text).


(** [s.trim().length] *)
Definition trimmed_length (s : string) : nat := String.length (JS.trim s).

(** ** Sentence scoring *)

Definition Qltb (a b : Q) : bool := negb (Qle_bool b a).

Definition hits (sentenceLower : string) (needles : list string) : nat :=
  List.length (filter (JS.includes sentenceLower) needles).

(** The score of one sentence: 2 for each query word and 1 for each relevant
    concept the lower-cased sentence includes, times 1.5 when above 2. *)
Definition score_of (queryWords conceptNames : list string) (sentence : string) : Q :=
  let sentenceLower := JS.toLowerCase sentence in
  let score :=
    inject_Z (Z.of_nat (2 * hits sentenceLower queryWords
                        + hits sentenceLower conceptNames)) in
  if Qltb 2 score then (score * 1.5)%Q else score.

(** [content.split(/[.!?]+/).filter(s => s.trim().length > 20)] *)
Definition sentences_of (content : string) : list string :=
  filter (fun s => (20 <? trimmed_length s)%nat) (JS.split JS.is_terminator content).

(** One step of the inner loop on [(bestAnswer, bestScore)]. *)
Definition consider (queryWords conceptNames : list string)
  (best : string * Q) (sentence : string) : string * Q :=
  let score := score_of queryWords conceptNames sentence in
  if Qltb (snd best) score && (30 <? trimmed_length sentence)%nat
  then (JS.trim sentence, score)
  else best.

(** The loops over the returned documents and their sentences. *)
Definition bestAnswer_of (queryWords conceptNames : list string)
  (contents : list string) : string * Q :=
  fold_left (consider queryWords conceptNames)
    (flat_map sentences_of contents) (EmptyString, 0%Q).

Section Program.
Context {St : Type}.
Variable exec : forall A, Neo4j.Cypher A -> St -> result A * St.
Variable E : Env.

Local Abbreviation run := (session_run exec).
Local Open Scope string_scope.

(** [(process.env.MAX_FILE_SIZE_MB || 100) * 1024 * 1024] *)
Definition maxSize : N :=
  (match MAX_FILE_SIZE_MB E with
   | Some mb => mb
   | None => 100
   end * 1024 * 1024)%N.

Definition clearDatabase : M St unit :=
  tryCatch
    (run Neo4j.DetachDeleteAll ;;
     set_totalSize 0%N)
    (fun message => throw message).

Definition checkSizeLimit (newSize : N) : M St bool :=
  total <- get_totalSize ;;
  if (maxSize <? total + newSize)%N then ret false else ret true.

Definition processDocument (docName content type source : string)
  : M St Summary :=
  let concepts := extractConcepts content in
  now <- reading (Date_now E) ;;
  suffix <- reading (random_suffix E) ;;
  let docId := type ++ "_" ++ JS.show_N now ++ "_" ++ suffix in
  tryCatch
    (run (Neo4j.CreateDocument
            (Neo4j.mkDocument docId docName content type source
               (N.of_nat (String.length content)))) ;;
     forEach concepts
       (fun concept => run (Neo4j.MergeConceptContains concept docId)) ;;
     forEach (pairs concepts)
       (fun p => run (Neo4j.MergeRelatedUnit (fst p) (snd p))) ;;
     total <- get_totalSize ;;
     set_totalSize (total + N.of_nat (String.length content))%N ;;
     ret (mkSummary docName (List.length concepts) (String.length content) type))
    (fun message => throw message).

(** [null] is [None]. *)
Definition ingestFile (filePath : string) : M St (option Summary) :=
  tryCatch
    (size <- lift (fs_stat_size E filePath) ;;
     within <- checkSizeLimit size ;;
     if negb within then ret None
     else
       content <- lift (fs_readFile E filePath) ;;
       summary <- processDocument (path_basename E filePath) content "file" filePath ;;
       ret (Some summary))
    (fun message => throw message).

Definition queryWords (question : string) : list string :=
  filter (fun word => (2 <? String.length word)%nat)
    (JS.split JS.is_space (JS.toLowerCase question)).

Definition no_concepts : string :=
  "I couldn't find any relevant concepts in the knowledge graph for your question.".

Definition search_failed : string :=
  "Error occurred while searching the knowledge graph.".

(** [records.map(record => ({name, frequency: frequency.toNumber()}))]: a
    frequency that is a string has no [toNumber]. *)
Fixpoint toNumbers (rows : list (string * JS.value))
  : result (list (string * nat)) :=
  match rows with
  | [] => Ok []
  | (concept, JS.Count n) :: rest =>
      match toNumbers rest with
      | Ok l => Ok ((concept, n) :: l)
      | Throw message => Throw message
      end
  | (_, JS.Text _) :: _ => Throw "record.get(...).toNumber is not a function"
  end.

Definition queryGraph (question : string) : M St Answer :=
  tryCatch
    (let words := queryWords question in
     conceptRecords <- run (Neo4j.FuzzyConceptQuery words) ;;
     relevantConcepts <- lift (toNumbers conceptRecords) ;;
     if (List.length relevantConcepts =? 0)%nat
     then ret (mkAnswer no_concepts [] [])
     else
       let conceptNames := map fst relevantConcepts in
       records <- run (Neo4j.CountDocQuery conceptNames) ;;
       if (List.length records =? 0)%nat
       then ret (mkAnswer "No documents found containing the relevant concepts."
                   relevantConcepts [])
       else
         let relevantDocs :=
           map (fun r => mkDocRef (Neo4j.row_name r) (Neo4j.row_doctype r)
                           (Neo4j.row_names r)) records in
         let bestAnswer :=
           fst (bestAnswer_of words conceptNames (map Neo4j.row_content records)) in
         let conceptsList := JS.join ", " (firstn 5 conceptNames) in
         let finalAnswer :=
           if String.eqb bestAnswer EmptyString
           then "Found relevant concepts (" ++ conceptsList
                ++ ") but couldn't extract a specific answer. Try rephrasing your question."
           else "Based on your documents: " ++ bestAnswer in
         ret (mkAnswer finalAnswer relevantConcepts relevantDocs))
    (fun _ => ret (mkAnswer search_failed [] [])).

End Program.

(** ** Pages

    [s.replace(re, rep)] for a global regular expression [re] that matches
    no empty string: [m s] is the length of the match of [re] at the start
    of [s], if there is one.  The string is read from left to right; a match
    is replaced by [rep] and the search goes on behind it ([skip] counts the
    characters of the match still to be passed); a character at which there
    is no match is kept. *)
Fixpoint replace_matches (m : string -> option nat) (rep : string) (skip : nat)
  (s : string) : string :=
  match s with
  | EmptyString => EmptyString
  | String c s' =>
      match skip with
      | S k => replace_matches m rep k s'
      | 0 =>
          match m s with
          | Some n => (rep ++ replace_matches m rep (n - 1) s')%string
          | None => String c (replace_matches m rep 0 s')
          end
      end
  end.

(** Whether [s] starts with the lower-case ASCII text [p], letters compared
    without case (the flag [i]). *)
Fixpoint prefix_ci (p s : string) : bool :=
  match p, s with
  | EmptyString, _ => true
  | String a p', String b s' => Ascii.eqb a (JS.lower_char b) && prefix_ci p' s'
  | String _ _, EmptyString => false
  end.

(** The number of characters up to and including the first [>]. *)
Fixpoint through_gt (s : string) : option nat :=
  match s with
  | EmptyString => None
  | String c s' =>
      if Ascii.eqb c ">"%char then Some 1
      else match through_gt s' with
           | Some n => Some (S n)
           | None => None
           end
  end.

(** The number of characters up to and including the first occurrence of
    [p], compared without case. *)
Fixpoint through_ci (p s : string) : option nat :=
  if prefix_ci p s then Some (String.length p)
  else match s with
       | EmptyString => None
       | String _ s' =>
           match through_ci p s' with
           | Some n => Some (S n)
           | None => None
           end
       end.

Fixpoint drop (n : nat) (s : string) : string :=
  match n, s with
  | S k, String _ s' => drop k s'
  | _, _ => s
  end.

(** The match of [/<tag[^>]*>[\s\S]*?<\/tag>/i] at the start of [s]: the
    opening tag up to the first [>] and then everything up to the first
    closing tag. *)
Definition element_match (tag : string) (s : string) : option nat :=
  let opening := ("<" ++ tag)%string in
  if prefix_ci opening s
  then match through_gt (drop (String.length opening) s) with
       | Some n =>
           match through_ci ("</" ++ tag ++ ">")
                   (drop (String.length opening + n) s) with
           | Some k => Some (String.length opening + n + k)
           | None => None
           end
       | None => None
       end
  else None.

(** The match of [/<[^>]*>/] at the start of [s]. *)
Definition tag_match (s : string) : option nat :=
  match s with
  | String c s' =>
      if Ascii.eqb c "<"%char
      then match through_gt s' with
           | Some n => Some (S n)
           | None => None
           end
      else None
  | EmptyString => None
  end.

(** The basic HTML stripping of [ingestUrl]. *)
Definition stripHtml (content : string) : string :=
  JS.trim
    (JS.collapse_spaces
       (replace_matches tag_match " " 0
          (replace_matches (element_match "style") EmptyString 0
             (replace_matches (element_match "script") EmptyString 0 content)))
       false).

Section Pages.
Context {St : Type}.
Variable exec : forall A, Neo4j.Cypher A -> St -> result A * St.
Variable E : Env.

(** [response.data] of [axios.get(url, ...)] when it is a string.  The
    request may fail, also on a body longer than [maxContentLength]; data
    that is not a string makes [ingestUrl] throw a type error before
    anything is sent, which is a failure here as well. *)
Variable axios_get : string -> result string.

Definition ingestUrl (url : string) : M St (option Summary) :=
  tryCatch
    (data <- lift (axios_get url) ;;
     let content :=
       if JS.includes data "<html" || JS.includes data "<!DOCTYPE"
       then stripHtml data else data in
     within <- checkSizeLimit E (N.of_nat (String.length content)) ;;
     if negb within then ret None
     else
       summary <- processDocument exec E url content "url" url ;;
       ret (Some summary))
    (fun message => throw message).

End Pages.
End KnowledgeGraphCLI.

(* ================================================================== *)
(** * Sample collaborators *)
(* ================================================================== *)

(** Instances of the collaborators, used to run the programs on concrete
    inputs. *)
Module Sample.

Local Open Scope string_scope.

(** A word tokenizer: the maximal runs of word characters. *)
Definition word_tokenize (s : string) : list string :=
  filter (fun t => negb (String.eqb t EmptyString))
    (JS.split (fun c => negb (JS.is_word_char c)) s).

(** A stemmer that drops a final s. *)
Definition strip_s (word : string) : string :=
  match JS.reverse word with
  | String "s"%char rest => JS.reverse rest
  | _ => word
  end.

(** A short stop-word list. *)
Definition natural : Natural :=
  mkNatural word_tokenize
    ["the"; "is"; "it"; "a"; "an"; "of"; "what"; "who"; "me"; "and"; "to"]
    strip_s.

Definition MB : N := (1024 * 1024)%N.

(** Two files of 60 MB each, a small text file and one page; no enrichment
    key; the clock advances by one per reading. *)
Definition env : Env :=
  mkEnv true None false
    (fun path =>
       if String.eqb path "a.txt" then Ok (60 * MB)%N
       else if String.eqb path "b.txt" then Ok (60 * MB)%N
       else if String.eqb path "notes.txt" then Ok 48%N
       else Throw "ENOENT: no such file or directory")
    (fun path =>
       if String.eqb path "a.txt" then Ok "Graph databases store graph data."
       else if String.eqb path "b.txt" then Ok "Graph queries traverse graph data."
       else if String.eqb path "notes.txt"
       then Ok "Graph databases store graph data. Graph queries."
       else Throw "ENOENT: no such file or directory")
    (fun path => path)
    (fun url => Ok "  Graph   databases store graph data. Graph queries.  ")
    (fun s => "aHR0cDovL2V4YW1wbGU=")
    (fun n => 1700000000000 + N.of_nat n)%N
    (fun _ => Throw "Request failed")
    (fun _ => Throw "Request failed")
    (fun n => "k3j9x" ++ JS.show n).



(** The same environment with an enrichment key and a reply that names two
    entities, without frequencies as the prompt asks for them, and no
    relationship. *)
Definition unlinked : Extracted :=
  Reply
    (Some [mkEntityObj "graph" (Some "CONCEPT") None None;
           mkEntityObj "database" (Some "TECHNOLOGY") None None])
    (Some []).

Definition unweighted : Env :=
  mkEnv true None true (fs_stat_size env) (fs_readFile env) (path_basename env)
    (fetch_body_text env) (base64 env) (Date_now env)
    (fun _ => Ok unlinked) (llm_answer env) (random_suffix env).



(** The same environment with a page that has the word [constructor]. *)
Definition patterns : Env :=
  mkEnv true None false (fs_stat_size env) (fs_readFile env) (path_basename env)
    (fun url => Ok "alpha constructor gamma gamma gamma") (base64 env)
    (Date_now env) (llm_extract env) (llm_answer env) (random_suffix env).



End Sample.

(* ================================================================== *)
(** * Vocabulary of the properties *)
(* ================================================================== *)

(** The number of items equal to [x]. *)
Definition occurrences (x : string) (items : list string) : nat :=
  List.length (filter (String.eqb x) items).

(** ** Frequency tables

    A table that is filled with keys none of which [Object.prototype] has
    holds numbers only: it is the table of counts [tally], and the steps of
    [extractConcepts] on it are those on the counts. *)

(** [o[k] || 0] in a table of counts. *)
Definition stored (o : JS.object nat) (k : string) : nat :=
  match JS.get o k with
  | Some n => n
  | None => 0
  end.

Definition tally (items : list string) (o : JS.object nat) : JS.object nat :=
  fold_left (fun o k => JS.set o k (stored o k + 1)) items o.

(** A table of counts as a table of values. *)
Definition as_count (e : string * nat) : string * JS.value :=
  (fst e, JS.Count (snd e)).

Definition counts (o : JS.object nat) : JS.object JS.value := map as_count o.

(** No item is the name of a property of [Object.prototype]. *)
Definition plain (items : list string) : Prop :=
  forall k, In k items -> JS.inherited k = false.

Definition plainb (items : list string) : bool :=
  forallb (fun k => negb (JS.inherited k)) items.

(** The stems [extractConcepts] counts. *)
Definition stems (L : Natural) (text : string) : list string :=
  map (stem L) (KnowledgeGraph.filteredTokens L text).

(** [freq > 1 || word.length > 4] and [(a, b) => b[1] - a[1]] on counts. *)
Definition meaningful_count (e : string * nat) : bool :=
  (1 <? snd e) || (4 <? String.length (fst e)).

Definition by_count (a b : string * nat) : bool := snd b <=? snd a.

(** The ranking of the counted items: the entries that qualify, by
    descending count. *)
Definition ranked_counts (items : list string) : list (string * nat) :=
  JS.sort by_count (filter meaningful_count (JS.entries (tally items []))).

Definition same_count (f : nat) (e : string * nat) : bool := snd e =? f.

(** A candidate with a number for its frequency. *)
Definition count_concept (e : string * nat) : Concept :=
  mkConcept (fst e) (JS.Count (snd e)).

(** Every candidate has a number for its frequency. *)
Definition counted (cs : list Concept) : Prop :=
  forall c, In c cs -> exists n, frequency c = JS.Count n.

(** A computation is [transparent] when every statement it sends is added
    to the history and a statement that fails makes the computation throw
    the error of that statement. *)
Definition transparent {St A} (m : M St A) : Prop :=
  forall w, exists evs,
    history (snd (m w)) = history w ++ evs
    /\ forall ev message, In ev evs -> error ev = Some message ->
                          fst (m w) = Throw message.

(** A computation is [guarded] by [h] when it never throws and a statement
    that fails makes it return [h] of the error message. *)
Definition guarded {St A} (h : string -> A) (m : M St A) : Prop :=
  forall w, exists evs,
    history (snd (m w)) = history w ++ evs
    /\ (exists a, fst (m w) = Ok a)
    /\ forall ev message, In ev evs -> error ev = Some message ->
                          fst (m w) = Ok (h message).

(** [preserves R m]: the world [m] ends in is related by [R] to the world it
    starts in, whether [m] returns or throws. *)
Definition preserves {St} (R : World St -> World St -> Prop) {A} (m : M St A)
  : Prop :=
  forall w, R w (snd (m w)).

(** [succeeds m]: [m] never throws. *)
Definition succeeds {St A} (m : M St A) : Prop :=
  forall w, exists a, fst (m w) = Ok a.




(** The number of graph-wide clears sent so far. *)
Definition clears {St} (w : World St) : nat :=
  List.length (filter (fun ev => Neo4j.is_clear (sent ev)) (history w)).

Definition clear_free (evs : list event) : Prop :=
  forall ev, In ev evs -> Neo4j.is_clear (sent ev) = false.

(** From [w] to [w'] statements were sent, none of them a clear. *)
Definition extends_clear_free {St} (w w' : World St) : Prop :=
  exists evs, history w' = history w ++ evs /\ clear_free evs.

(** From [w] to [w'] the first statement sent was the clear, and no other
    was. *)
Definition clears_first {St} (w w' : World St) : Prop :=
  exists ev evs,
    history w' = history w ++ ev :: evs
    /\ sent ev = Neo4j.Sent Neo4j.DetachDeleteAll
    /\ clear_free evs.

(** Every Document node of [g] is in [g'], and every Concept and Entity name
    of [g] still names a node of [g']. *)
Definition nodes_kept (g g' : Neo4j.Graph) : Prop :=
  (forall d, In d (Neo4j.documents g) -> In d (Neo4j.documents g'))
  /\ (forall n, Neo4j.has_concept g n = true -> Neo4j.has_concept g' n = true)
  /\ (forall n, Neo4j.has_entity g n = true -> Neo4j.has_entity g' n = true).

(** No clear was sent and the nodes were kept. *)
Definition keeps_nodes (w w' : World Neo4j.Graph) : Prop :=
  extends_clear_free w w' /\ nodes_kept (store w) (store w').

(** ** Search-mode indicators *)

(** [sub] occurs in [s]: some text, then [sub], then some text. *)
Definition occurs_in (sub s : string) : Prop :=
  exists before after, s = (before ++ sub ++ after)%string.

(** Following the words of the claim: the overlap of the question with an
    indicator set, the indicators that are among the tokens of the
    lower-cased question. *)
Definition word_overlap (L : Natural) (indicators : list string)
  (question : string) : nat :=
  List.length
    (filter (JS.array_includes (tokenize L (JS.toLowerCase question))) indicators).

(** ** RELATED_TO relationships *)

(** The relationships an undirected lookup between [a] and [b] returns, and
    the weight of the first. *)
Definition related_between (g : Neo4j.Graph) (a b : string) : list Neo4j.Related :=
  filter (Neo4j.joins a b) (Neo4j.related g).

Definition weight_between (g : Neo4j.Graph) (a b : string) : option JS.number :=
  match related_between g a b with
  | r :: _ => Some (Neo4j.r_weight r)
  | [] => None
  end.



(** What a merge between [a] and [b] does to a stored relationship. *)
Definition bump (a b : string) (w : JS.number) (r : Neo4j.Related) : Neo4j.Related :=
  if Neo4j.joins a b r
  then Neo4j.mkRelated (Neo4j.r_start r) (Neo4j.r_end r) (JS.plus (Neo4j.r_weight r) w)
  else r.










(** ** Concept frequencies *)

(** The frequency a merge leaves on the node: the candidate's frequency on
    a node it creates, Cypher's sum on one that exists. *)
Definition merged_frequency (prior : option JS.value) (f : JS.value) : JS.value :=
  match prior with
  | Some p => Neo4j.add p f
  | None => f
  end.

(** The stored frequency as a number, 0 for a name without a node. *)
Definition count_in (g : Neo4j.Graph) (n : string) : option nat :=
  match Neo4j.concept_frequency (Neo4j.concepts g) n with
  | Some (JS.Count p) => Some p
  | Some (JS.Text _) => None
  | None => Some 0
  end.

(** The Concept nodes after the candidates [cs] have been merged in turn. *)
Definition merged_concepts (cs : list Concept) (nodes : list Neo4j.Concept)
  : list Neo4j.Concept :=
  fold_left (fun acc c => Neo4j.merge_concept acc (name c) (frequency c)) cs nodes.

(** The Concept nodes after the names [cs] have been merged by
    [KnowledgeGraphCLI.processDocument], each with the constant 1. *)
Definition merged_names (cs : list string) (nodes : list Neo4j.Concept)
  : list Neo4j.Concept :=
  fold_left (fun acc c => Neo4j.merge_concept acc c (JS.Count 1)) cs nodes.

Definition same_concepts (w w' : World Neo4j.Graph) : Prop :=
  Neo4j.concepts (store w') = Neo4j.concepts (store w).

(** The text [ingestUrl] works on, from the text of the page body. *)
Definition page_content (text : string) : string :=
  JS.trim (JS.collapse_spaces text false).

(** The loops of the ingestion functions, on the store. *)
Definition merge_each (gds : bool) (docId : string) (concepts : list Concept)
  : M Neo4j.Graph unit :=
  forEach concepts
    (fun concept =>
       session_run (Neo4j.exec gds)
         (Neo4j.MergeConcept (name concept) (frequency concept)) ;;
       session_run (Neo4j.exec gds)
         (Neo4j.CreateContains docId Neo4j.ConceptLabel (name concept)
            (frequency concept)))%js.

Definition merge_names_each (gds : bool) (docId : string) (concepts : list string)
  : M Neo4j.Graph unit :=
  forEach concepts
    (fun concept =>
       session_run (Neo4j.exec gds) (Neo4j.MergeConceptContains concept docId)).

Definition relate_each (gds : bool) (concepts : list string) : M Neo4j.Graph unit :=
  forEach (pairs concepts)
    (fun p => session_run (Neo4j.exec gds) (Neo4j.MergeRelatedUnit (fst p) (snd p))).

(** A string that contains a space: the phrases of [extractConcepts] do,
    its words do not. *)
Definition has_space (s : string) : Prop := In " "%char (list_ascii_of_string s).

(** ** Sample runs *)

(** The sample page ingested once and twice into an empty graph. *)
Definition page_once : result bool * World Neo4j.Graph :=
  KnowledgeGraph.ingestUrl (Neo4j.exec true) Sample.natural Sample.env
    "http://example.org/graphs" false (start Neo4j.empty).

Definition page_twice : result bool * World Neo4j.Graph :=
  KnowledgeGraph.ingestUrl (Neo4j.exec true) Sample.natural Sample.env
    "http://example.org/graphs" false (snd page_once).

(** The same content processed once and twice by KnowledgeGraphCLI, as the
    documents [one.txt] and [two.txt]. *)
Definition cli_once (content : string)
  : result KnowledgeGraphCLI.Summary * World Neo4j.Graph :=
  KnowledgeGraphCLI.processDocument (Neo4j.exec true) Sample.env
    "one.txt" content "file" "one.txt" (start Neo4j.empty).

Definition cli_twice (content : string)
  : result KnowledgeGraphCLI.Summary * World Neo4j.Graph :=
  KnowledgeGraphCLI.processDocument (Neo4j.exec true) Sample.env
    "two.txt" content "file" "two.txt" (snd (cli_once content)).

(** ** Communities *)





(** Every relationship between entities joins two Entity nodes of the
    graph. *)
Definition closed_links (g : Neo4j.Graph) : Prop :=
  forall a b, In (a, b) (Neo4j.links_of g) ->
              Neo4j.has_entity g a = true /\ Neo4j.has_entity g b = true.






(** A page with the word [constructor], ingested into an empty graph. *)
Definition constructor_page : result bool * World Neo4j.Graph :=
  KnowledgeGraph.ingestUrl (Neo4j.exec true) Sample.natural Sample.patterns
    "http://example.org/patterns" false (start Neo4j.empty).


(** The sample file ingested after the sample page, with the enrichment
    reply [Sample.unlinked]. *)
Definition page_then_enriched_file : result bool * World Neo4j.Graph :=
  KnowledgeGraph.ingestFile (Neo4j.exec true) Sample.natural Sample.unweighted
    "notes.txt" false (snd page_once).

(* ================================================================== *)
(** * Vocabulary of the further properties *)
(* ================================================================== *)

(** ** Well-formed graphs *)

(** No two Document nodes share an id and no two Concept nodes or Entity
    nodes share a name. *)
Definition unique_nodes (g : Neo4j.Graph) : Prop :=
  NoDup (map Neo4j.doc_id (Neo4j.documents g))
  /\ NoDup (map Neo4j.c_name (Neo4j.concepts g))
  /\ NoDup (map Neo4j.e_name (Neo4j.entities g)).

(** Every relationship joins two nodes of the graph. *)
Definition no_dangling (g : Neo4j.Graph) : Prop :=
  (forall ct, In ct (Neo4j.contains g) ->
     Neo4j.has_document g (Neo4j.ct_doc ct) = true
     /\ Neo4j.has_node g (Neo4j.ct_label ct) (Neo4j.ct_name ct) = true)
  /\ (forall r, In r (Neo4j.related g) ->
        Neo4j.has_concept g (Neo4j.r_start r) = true
        /\ Neo4j.has_concept g (Neo4j.r_end r) = true)
  /\ closed_links g.

Definition well_formed (g : Neo4j.Graph) : Prop :=
  unique_nodes g /\ no_dangling g.

Definition stays_well_formed (w w' : World Neo4j.Graph) : Prop :=
  well_formed (store w) -> well_formed (store w').

(** ** Concept nodes and files *)

(** The statements that create a Concept node. *)
Definition creates_concept {A} (c : Neo4j.Cypher A) : bool :=
  match c with
  | Neo4j.MergeConcept _ _ | Neo4j.MergeConceptContains _ _ => true
  | _ => false
  end.

(** From [w] to [w'] no Concept node was created or changed, and a graph
    without Concept nodes and RELATED_TO relationships got no RELATED_TO
    relationship. *)
Definition adds_no_concept (w w' : World Neo4j.Graph) : Prop :=
  incl (Neo4j.concepts (store w')) (Neo4j.concepts (store w))
  /\ (Neo4j.concepts (store w) = [] -> Neo4j.related (store w) = [] ->
      Neo4j.related (store w') = []).

(** From [w] to [w'] a graph without relationships between Entity nodes got
    none. *)
Definition no_entity_rel (w w' : World Neo4j.Graph) : Prop :=
  Neo4j.entity_rels (store w) = [] -> Neo4j.entity_rels (store w') = [].

(** The sample file ingested into an empty graph by the current and by the
    earlier copy of knowledge-graph.js. *)
Definition notes_current : result bool * World Neo4j.Graph :=
  KnowledgeGraph.ingestFile (Neo4j.exec true) Sample.natural Sample.env
    "notes.txt" false (start Neo4j.empty).

Definition notes_legacy : result bool * World Neo4j.Graph :=
  Legacy.ingestFile (Neo4j.exec true) Sample.natural Sample.env
    "notes.txt" false (start Neo4j.empty).

(** ** Weights that are not numbers *)

(** Some RELATED_TO relationship joins [a] and [b], and every one that does
    has the weight NaN. *)
Definition nan_between (a b : string) (g : Neo4j.Graph) : Prop :=
  related_between g a b <> []
  /\ forall r, In r (related_between g a b) -> Neo4j.r_weight r = JS.NaN.

(** From [w] to [w'] the Concept nodes are the same and a NaN between [a]
    and [b] stays. *)
Definition keeps_nan (a b : string) (w w' : World Neo4j.Graph) : Prop :=
  Neo4j.concepts (store w') = Neo4j.concepts (store w)
  /\ (nan_between a b (store w) -> nan_between a b (store w')).

(** ** Frequency tables, inherited keys included *)

(** The digit 1 written [n] times. *)
Fixpoint ones (n : nat) : string :=
  match n with
  | 0 => EmptyString
  | S m => ones m ++ "1"
  end.

(** What a table filled from an empty object holds under [k] when [k] was
    counted [n] times: nothing when it was not counted and under
    [__proto__]; under the name of a method of [Object.prototype] the text
    of the method followed by one digit 1 per occurrence; the number of
    occurrences otherwise. *)
Definition table_value (k : string) (n : nat) : option JS.value :=
  if n =? 0 then None
  else if String.eqb k "__proto__" then None
  else if JS.array_includes JS.prototype_methods k
       then Some (JS.Text (JS.native_text k ++ ones n))
       else Some (JS.Count n).

(** The words [KnowledgeGraphCLI.extractConcepts] counts. *)
Definition counted_words (text : string) : list string :=
  filter (fun word => negb (KnowledgeGraphCLI.is_stop word))
    (filter (fun word => 3 <? String.length word)
       (KnowledgeGraphCLI.split_words text)).

(** The entries of a table that hold a number. *)
Definition numeric (l : list (string * JS.value)) : list (string * nat) :=
  flat_map (fun e => match snd e with
                     | JS.Count n => [(fst e, n)]
                     | JS.Text _ => []
                     end) l.

(** The ranking behind [KnowledgeGraphCLI.top]: the numeric entries of the
    table of the counted items with a count of at least 2, by descending
    count. *)
Definition top_ranking (items : list string) : list (string * nat) :=
  JS.sort by_count
    (filter (fun e => 2 <=? snd e)
       (numeric (JS.entries (fold_left JS.increment items [])))).

(** ** Failures during ingestion *)

Definition is_entity_rel (s : Neo4j.statement) : bool :=
  match s with
  | Neo4j.Sent (Neo4j.MergeEntityRel _ _ _ _ _) => true
  | _ => false
  end.

(** [transparent] and [guarded] for the statements that [skip] does not
    select: a failure of one of those makes the computation throw the error
    of the statement, or return [h] of its message. *)
Definition transparent_but (skip : Neo4j.statement -> bool) {St A} (m : M St A)
  : Prop :=
  forall w, exists evs,
    history (snd (m w)) = history w ++ evs
    /\ forall ev message, In ev evs -> skip (sent ev) = false ->
                          error ev = Some message -> fst (m w) = Throw message.

Definition guarded_but (skip : Neo4j.statement -> bool) {St A} (h : string -> A)
  (m : M St A) : Prop :=
  forall w, exists evs,
    history (snd (m w)) = history w ++ evs
    /\ (exists a, fst (m w) = Ok a)
    /\ forall ev message, In ev evs -> skip (sent ev) = false ->
                          error ev = Some message -> fst (m w) = Ok (h message).

Definition no_skip (s : Neo4j.statement) : bool := false.

(** An enrichment reply whose first relationship has a type that is no
    identifier, and the sample file ingested with it. *)
Definition spaced : Extracted :=
  Reply
    (Some [mkEntityObj "Ada" (Some "PERSON") None None;
           mkEntityObj "Acme" (Some "ORGANIZATION") None None;
           mkEntityObj "London" (Some "LOCATION") None None])
    (Some [mkRelationship "Ada" "Acme" (Some "WORKS AT") None;
           mkRelationship "Acme" "London" (Some "LOCATED_IN") None]).

Definition spaced_env : Env :=
  mkEnv true None true (fs_stat_size Sample.env) (fs_readFile Sample.env)
    (path_basename Sample.env) (fetch_body_text Sample.env) (base64 Sample.env)
    (Date_now Sample.env) (fun _ => Ok spaced) (llm_answer Sample.env)
    (random_suffix Sample.env).

Definition spaced_ingested : result bool * World Neo4j.Graph :=
  KnowledgeGraph.ingestFile (Neo4j.exec true) Sample.natural spaced_env
    "notes.txt" false (start Neo4j.empty).

(** The statement [createEntityRelationships] sends for a relationship. *)
Definition entity_rel_statement (docId : string) (rel : Relationship)
  : Neo4j.statement :=
  Neo4j.Sent
    (Neo4j.MergeEntityRel (rel_source rel) (rel_target rel)
       (or_string (rel_type rel) "RELATED_TO")
       (or_string (rel_description rel) EmptyString) docId).

(** The sources of a batch gone through one by one: each ingestion runs in
    the world the earlier ones left, the first with the clear flag and the
    later ones without it, and a source counts when its ingestion returned
    true. *)
Fixpoint outcomes {St} (clear : bool) (batch : list (bool -> M St bool))
  (w : World St) : list bool * World St :=
  match batch with
  | [] => ([], w)
  | ingest :: rest =>
      let r := ingest clear w in
      let later := outcomes false rest (snd r) in
      (match fst r with
       | Ok true => true
       | _ => false
       end :: fst later, snd later)
  end.

(** The number of sources of a batch that were processed. *)
Definition processed (os : list bool) : nat :=
  List.length (filter (fun success => success) os).

(** [l || []] on an optional array, for its length. *)
Definition or_empty (l : option (list string)) : list string :=
  match l with
  | Some x => x
  | None => []
  end.

(** An environment in which the file [grown.txt] has 0 bytes when its size
    is taken and 3 characters when it is read, with a ceiling of 0 MB. *)
Definition grown_env : Env :=
  mkEnv true (Some 0%N) false
    (fun _ => Ok 0%N) (fun _ => Ok "abc") (path_basename Sample.env)
    (fetch_body_text Sample.env) (base64 Sample.env) (Date_now Sample.env)
    (llm_extract Sample.env) (llm_answer Sample.env) (random_suffix Sample.env).

(** ** The Document node of an ingestion *)

(** The statements that create or delete no Document node. *)
Definition keeps_documents {A} (c : Neo4j.Cypher A) : bool :=
  match c with
  | Neo4j.CreateDocument _ | Neo4j.DetachDeleteAll => false
  | _ => true
  end.

Definition same_documents (w w' : World Neo4j.Graph) : Prop :=
  Neo4j.documents (store w') = Neo4j.documents (store w).

(** The Document nodes an ingestion starts from: none after the clear. *)
Definition documents_before (clear : bool) (w : World Neo4j.Graph)
  : list Neo4j.Document :=
  if clear then [] else Neo4j.documents (store w).

(** The Document nodes [ingestUrl] and [ingestFile] of knowledge-graph.js
    create, from the text and the reading of the clock. *)
Definition url_document (E : Env) (url content : string) (now : N) : Neo4j.Document :=
  Neo4j.mkDocument
    ("url_" ++ JS.substring0 10 (base64 E url) ++ "_" ++ JS.show_N now)
    url (JS.substring0 1000 content) "url" url (N.of_nat (String.length content)).

Definition file_document (E : Env) (filePath content : string) (size now : N)
  : Neo4j.Document :=
  Neo4j.mkDocument
    (path_basename E filePath ++ "_" ++ JS.show_N now)
    (path_basename E filePath) (JS.substring0 1000 content) "file" EmptyString size.

(** A text of white space only. *)
Definition blank (s : string) : bool :=
  forallb JS.is_space (list_ascii_of_string s).

(** Whether [ingestUrl] turns the page away: the request failed, the text is
    blank, or its length after the white space is collapsed exceeds the
    ceiling. *)
Definition refused (E : Env) (url : string) : bool :=
  match fetch_body_text E url with
  | Throw _ => true
  | Ok text =>
      blank text
      || (KnowledgeGraph.maxFileSize E
          <? N.of_nat (String.length (page_content text)))%N
  end.

(** The first statement of an [ingestUrl] that is not turned away. *)
Definition first_statement (E : Env) (url : string) (clear : bool) (now : N)
  : Neo4j.statement :=
  if clear then Neo4j.Sent Neo4j.DetachDeleteAll
  else Neo4j.Sent
         (Neo4j.CreateDocument
            (url_document E url
               (match fetch_body_text E url with
                | Ok text => page_content text
                | Throw _ => EmptyString
                end) now)).

(** ** Questions *)

(** From [w] to [w'] only search statements were sent. *)
Definition searches_only {St} (w w' : World St) : Prop :=
  exists evs,
    history w' = history w ++ evs
    /\ forall ev, In ev evs -> Neo4j.is_search (sent ev) = true.

(** From [w] to [w'] only search statements were sent, and nothing else
    changed: the graph, the clock and the running total are the same. *)
Definition only_searched (w w' : World Neo4j.Graph) : Prop :=
  exists evs,
    w' = mkWorld (store w) (history w ++ evs) (ticks w) (totalSize w)
    /\ forall ev, In ev evs -> Neo4j.is_search (sent ev) = true.

(** ** Pages of the first version *)

(** Whether a [>] comes after a [<]: whether [/<[^>]*>/] matches somewhere
    ([seen] tells whether a [<] was passed). *)
Fixpoint scan_tag (seen : bool) (l : list ascii) : bool :=
  match l with
  | [] => false
  | c :: l' =>
      (seen && Ascii.eqb c ">"%char) || scan_tag (seen || Ascii.eqb c "<"%char) l'
  end.

Definition has_tag (s : string) : bool :=
  scan_tag false (list_ascii_of_string s).

(** A page of the sample site, as [axios.get] returns it. *)
Definition sample_page (url : string) : result string :=
  Ok "<!DOCTYPE html><html><head><style>p { color: red }</style></head><body><script>var a = 1 > 0;</script><p>Graph <b>databases</b> store graph data.</p></body></html>".

(** ** Enrichment and its fallback *)

(** The environment without the API key, and with a key and an enrichment
    call that fails with [message]. *)
Definition without_key (E : Env) : Env :=
  mkEnv (connect E) (MAX_FILE_SIZE_MB E) false (fs_stat_size E) (fs_readFile E)
    (path_basename E) (fetch_body_text E) (base64 E) (Date_now E)
    (llm_extract E) (llm_answer E) (random_suffix E).

Definition failing_key (E : Env) (message : string) : Env :=
  mkEnv (connect E) (MAX_FILE_SIZE_MB E) true (fs_stat_size E) (fs_readFile E)
    (path_basename E) (fetch_body_text E) (base64 E) (Date_now E)
    (fun _ => Throw message) (llm_answer E) (random_suffix E).

(** The statements that create no Entity node, or one of the type CONCEPT
    without description. *)
Definition plain_entity {A} (c : Neo4j.Cypher A) : bool :=
  match c with
  | Neo4j.MergeEntity _ type description _ =>
      String.eqb type "CONCEPT" && String.eqb description EmptyString
  | _ => true
  end.

(** Every Entity node of [g'] has the name, type and description of one of
    [g], or is of the type CONCEPT without description. *)
Definition new_entities_plain (g g' : Neo4j.Graph) : Prop :=
  forall e, In e (Neo4j.entities g') ->
    (exists e0, In e0 (Neo4j.entities g)
                /\ Neo4j.e_name e0 = Neo4j.e_name e
                /\ Neo4j.e_type e0 = Neo4j.e_type e
                /\ Neo4j.e_description e0 = Neo4j.e_description e)
    \/ (Neo4j.e_type e = "CONCEPT" /\ Neo4j.e_description e = EmptyString).

Definition plain_entities (w w' : World Neo4j.Graph) : Prop :=
  new_entities_plain (store w) (store w').

(** The test of the concept query of [KnowledgeGraphCLI.queryGraph]: the
    name contains a word of the question, or a word contains the name. *)
Definition word_match (words : list string) (c : string) : bool :=
  existsb (fun word => JS.includes c word) words
  || existsb (fun word => JS.includes word c) words.

(** The first version clears the store and then stores one document. *)
Definition clear_and_store {St}
  (exec : forall A, Neo4j.Cypher A -> St -> result A * St) (E : Env)
  (docName content type source : string) : M St KnowledgeGraphCLI.Summary :=
  (KnowledgeGraphCLI.clearDatabase exec ;;
   KnowledgeGraphCLI.processDocument exec E docName content type source)%js.

(** ** The links of a stored document *)

(** Nodes are kept, and so are the CONTAINS relationships. *)
Definition links_kept (w w' : World Neo4j.Graph) : Prop :=
  nodes_kept (store w) (store w')
  /\ incl (Neo4j.contains (store w)) (Neo4j.contains (store w')).

(** The document [docId] has a CONTAINS relationship, with frequency [f],
    to the node of label [l] and name [n], which exists. *)
Definition linked (g : Neo4j.Graph) (docId : string) (l : Neo4j.label)
  (n : string) (f : JS.value) : Prop :=
  Neo4j.has_node g l n = true
  /\ In (Neo4j.mkContains docId l n f) (Neo4j.contains g).

(* ================================================================== *)
(** * Facts about arrays and objects *)
(* ================================================================== *)

Section SortFacts.
Context {A : Type}.
Variable before : A -> A -> bool.

Lemma insert_perm (x : A) (l : list A) :
  Permutation (JS.insert before x l) (x :: l).
Proof.
  induction l as [|y l IH]; simpl.
  - apply Permutation_refl.
  - destruct (before x y).
    + apply Permutation_refl.
    + eapply perm_trans; [apply perm_skip, IH | apply perm_swap].
Qed.

Lemma sort_perm (l : list A) : Permutation (JS.sort before l) l.
Proof.
  induction l as [|x l IH]; simpl.
  - constructor.
  - eapply perm_trans; [apply insert_perm | apply perm_skip, IH].
Qed.

Lemma sort_In (l : list A) (x : A) : In x (JS.sort before l) <-> In x l.
Proof.
  split; apply Permutation_in;
    [apply sort_perm | apply Permutation_sym, sort_perm].
Qed.

Lemma sort_length (l : list A) : List.length (JS.sort before l) = List.length l.
Proof. apply Permutation_length, sort_perm. Qed.

(** Elements that share a property under which the comparator never
    swaps keep their order: the sort is stable. *)
Section Stable.
Variable P : A -> bool.
Hypothesis together :
  forall x y, P x = true -> P y = true -> before x y = true.

Lemma insert_filter (x : A) (l : list A) :
  filter P (JS.insert before x l)
  = if P x then x :: filter P l else filter P l.
Proof.
  induction l as [|y l IH]; simpl.
  - reflexivity.
  - destruct (before x y) eqn:Hb; simpl.
    + reflexivity.
    + rewrite IH.
      destruct (P x) eqn:Px, (P y) eqn:Py; try reflexivity.
      rewrite (together x y Px Py) in Hb. discriminate.
Qed.

Lemma sort_filter (l : list A) : filter P (JS.sort before l) = filter P l.
Proof.
  induction l as [|x l IH]; simpl.
  - reflexivity.
  - rewrite insert_filter, IH. reflexivity.
Qed.
End Stable.

Section Ordered.
Hypothesis total : forall x y, before x y = false -> before y x = true.
Hypothesis trans :
  forall x y z, before x y = true -> before y z = true -> before x z = true.

Let R (x y : A) : Prop := before x y = true.

Lemma insert_sorted (x : A) (l : list A) :
  StronglySorted R l -> StronglySorted R (JS.insert before x l).
Proof.
  induction 1 as [|y l Hs IH Hall]; simpl.
  - repeat constructor.
  - destruct (before x y) eqn:Hb.
    + constructor.
      * constructor; assumption.
      * constructor; [exact Hb|].
        eapply Forall_impl; [|exact Hall].
        intros z Hz. eapply trans; eassumption.
    + constructor; [exact IH|].
      rewrite Forall_forall. intros z Hz.
      apply (Permutation_in _ (insert_perm x l)) in Hz.
      destruct Hz as [<-|Hz].
      * apply total, Hb.
      * rewrite Forall_forall in Hall. apply Hall, Hz.
Qed.

Lemma sort_sorted (l : list A) : StronglySorted R (JS.sort before l).
Proof.
  induction l as [|x l IH]; simpl.
  - constructor.
  - apply insert_sorted, IH.
Qed.
End Ordered.
End SortFacts.

Lemma firstn_In {A} (n : nat) (l : list A) (x : A) :
  In x (firstn n l) -> In x l.
Proof.
  revert n. induction l as [|y l IH]; intros [|n]; simpl; try tauto.
  intros [->|H]; [left; reflexivity | right; eapply IH, H].
Qed.

Lemma StronglySorted_firstn {A} (R : A -> A -> Prop) (n : nat) (l : list A) :
  StronglySorted R l -> StronglySorted R (firstn n l).
Proof.
  intros H. revert n. induction H as [|x l Hs IH Hall]; intros [|n]; simpl;
    try constructor.
  - apply IH.
  - rewrite Forall_forall in *. intros y Hy. apply Hall.
    eapply firstn_In, Hy.
Qed.

Lemma StronglySorted_map {A B} (f : A -> B) (R : B -> B -> Prop) (l : list A) :
  StronglySorted (fun x y => R (f x) (f y)) l -> StronglySorted R (map f l).
Proof.
  induction 1 as [|x l Hs IH Hall]; simpl; constructor.
  - exact IH.
  - rewrite Forall_forall in *. intros y Hy.
    apply in_map_iff in Hy. destruct Hy as [z [<- Hz]]. apply Hall, Hz.
Qed.

Lemma NoDup_firstn {A} (n : nat) (l : list A) : NoDup l -> NoDup (firstn n l).
Proof.
  intros H. revert n. induction H as [|x l Hx Hn IH]; intros [|n]; simpl;
    try constructor.
  - intros Hin. apply Hx. eapply firstn_In, Hin.
  - apply IH.
Qed.

Lemma partition_perm {A} (f : A -> bool) (l : list A) :
  Permutation (filter f l ++ filter (fun x => negb (f x)) l) l.
Proof.
  induction l as [|x l IH]; simpl.
  - constructor.
  - destruct (f x); simpl.
    + apply perm_skip, IH.
    + apply Permutation_sym. eapply perm_trans.
      * apply perm_skip, Permutation_sym, IH.
      * apply Permutation_middle.
Qed.

Lemma fold_left_map_arg {A B C} (f : A -> C -> A) (g : B -> C) (l : list B) (a : A) :
  fold_left (fun acc x => f acc (g x)) l a = fold_left f (map g l) a.
Proof.
  revert a. induction l as [|x l IH]; simpl; intros a; [reflexivity | apply IH].
Qed.

(** ** Objects *)

Lemma get_set {V} (o : JS.object V) (k k' : string) (v : V) :
  JS.get (JS.set o k v) k' = if String.eqb k k' then Some v else JS.get o k'.
Proof.
  induction o as [|[k0 v0] o IH]; simpl.
  - reflexivity.
  - destruct (String.eqb k0 k) eqn:E0; simpl.
    + apply String.eqb_eq in E0. subst k0.
      destruct (String.eqb k k'); reflexivity.
    + rewrite IH. destruct (String.eqb k0 k') eqn:E1; [|reflexivity].
      apply String.eqb_eq in E1. subst k0.
      rewrite String.eqb_sym, E0. reflexivity.
Qed.

Lemma set_keys_In {V} (o : JS.object V) (k : string) (v : V) (x : string) :
  In x (map fst (JS.set o k v)) <-> x = k \/ In x (map fst o).
Proof.
  induction o as [|[k0 v0] o IH]; simpl.
  - intuition.
  - destruct (String.eqb k0 k) eqn:E0; simpl.
    + apply String.eqb_eq in E0. subst k0. intuition.
    + rewrite IH. intuition.
Qed.

Lemma set_NoDup {V} (o : JS.object V) (k : string) (v : V) :
  NoDup (map fst o) -> NoDup (map fst (JS.set o k v)).
Proof.
  induction o as [|[k0 v0] o IH]; simpl; intros H.
  - repeat constructor. intros [].
  - inversion H as [|? ? Hk Hn]; subst.
    destruct (String.eqb k0 k) eqn:E0; simpl.
    + constructor; assumption.
    + constructor; [|apply IH, Hn].
      rewrite set_keys_In. intros [->|Hin]; [|exact (Hk Hin)].
      rewrite String.eqb_refl in E0. discriminate.
Qed.

(** An assignment [o[k] = (o[k] || 0) + 1] sets the key, or, for
    [__proto__], does nothing. *)
Lemma increment_cases (o : JS.object JS.value) (k : string) :
  JS.increment o k = o \/ exists v, JS.increment o k = JS.set o k v.
Proof.
  unfold JS.increment.
  destruct (JS.get o k) as [[n|s]|]; [right; eauto | right; eauto |].
  destruct (String.eqb k "__proto__"); [left; reflexivity|].
  destruct (JS.array_includes JS.prototype_methods k); right; eauto.
Qed.

Lemma count_NoDup (items : list string) (o : JS.object JS.value) :
  NoDup (map fst o) -> NoDup (map fst (fold_left JS.increment items o)).
Proof.
  revert o. induction items as [|x items IH]; simpl; intros o H.
  - exact H.
  - apply IH. destruct (increment_cases o x) as [->|[v ->]];
      [exact H | apply set_NoDup, H].
Qed.

Lemma tally_NoDup (items : list string) (o : JS.object nat) :
  NoDup (map fst o) -> NoDup (map fst (tally items o)).
Proof.
  unfold tally. revert o. induction items as [|x items IH]; simpl; intros o H.
  - exact H.
  - apply IH, set_NoDup, H.
Qed.

(** Counting with [(o[k] || 0) + 1] counts occurrences. *)
Lemma tally_stored (items : list string) (o : JS.object nat) (k : string) :
  stored (tally items o) k = stored o k + occurrences k items.
Proof.
  unfold tally. revert o. induction items as [|x items IH]; simpl; intros o.
  - unfold occurrences. simpl. lia.
  - rewrite IH. unfold occurrences. simpl.
    unfold stored at 1. rewrite get_set.
    rewrite (String.eqb_sym k x).
    destruct (String.eqb x k) eqn:Exk; simpl.
    + apply String.eqb_eq in Exk. subst x. unfold stored. lia.
    + unfold stored. lia.
Qed.

Lemma tally_positive (items : list string) (o : JS.object nat) (k : string) (n : nat) :
  (forall k' n', JS.get o k' = Some n' -> 0 < n') ->
  JS.get (tally items o) k = Some n -> 0 < n.
Proof.
  unfold tally. revert o. induction items as [|x items IH]; simpl; intros o Ho H.
  - eapply Ho, H.
  - eapply IH; [|exact H].
    intros k' n'. rewrite get_set.
    destruct (String.eqb x k').
    + intros [= <-]. lia.
    + apply Ho.
Qed.

(** ** Tables of counts as tables of values *)

Lemma counts_get (o : JS.object nat) (k : string) :
  JS.get (counts o) k = option_map JS.Count (JS.get o k).
Proof.
  induction o as [|[k0 v0] o IH]; simpl; [reflexivity|].
  destruct (String.eqb k0 k); [reflexivity | exact IH].
Qed.

Lemma counts_set (o : JS.object nat) (k : string) (n : nat) :
  JS.set (counts o) k (JS.Count n) = counts (JS.set o k n).
Proof.
  unfold counts. induction o as [|[k0 v0] o IH]; simpl; [reflexivity|].
  destruct (String.eqb k0 k); simpl; [reflexivity|].
  f_equal. exact IH.
Qed.

Lemma inherited_false (k : string) :
  JS.inherited k = false ->
  String.eqb k "__proto__" = false
  /\ JS.array_includes JS.prototype_methods k = false.
Proof. unfold JS.inherited. intros H. apply orb_false_iff in H. exact H. Qed.

Lemma increment_counts (o : JS.object nat) (k : string) :
  JS.inherited k = false ->
  JS.increment (counts o) k = counts (JS.set o k (stored o k + 1)).
Proof.
  intros H. destruct (inherited_false k H) as [H1 H2].
  unfold JS.increment, stored. rewrite counts_get.
  destruct (JS.get o k) as [n|]; cbn [option_map].
  - apply counts_set.
  - rewrite H1, H2. apply counts_set.
Qed.

(** A table filled with plain items is the table of their counts. *)
Lemma count_counts (items : list string) (o : JS.object nat) :
  plain items ->
  fold_left JS.increment items (counts o) = counts (tally items o).
Proof.
  unfold tally. revert o. induction items as [|x items IH]; simpl; intros o Hp.
  - reflexivity.
  - rewrite increment_counts by (apply Hp; left; reflexivity).
    apply IH. intros k Hk. apply Hp. right. exact Hk.
Qed.

Lemma insert_map {A B} (f : A -> B) (before : A -> A -> bool)
  (before' : B -> B -> bool) (x : A) (l : list A) :
  (forall a b, before' (f a) (f b) = before a b) ->
  JS.insert before' (f x) (map f l) = map f (JS.insert before x l).
Proof.
  intros H. induction l as [|y l IH]; simpl; [reflexivity|].
  rewrite H. destruct (before x y); simpl; [reflexivity|].
  rewrite IH. reflexivity.
Qed.

Lemma sort_map {A B} (f : A -> B) (before : A -> A -> bool)
  (before' : B -> B -> bool) (l : list A) :
  (forall a b, before' (f a) (f b) = before a b) ->
  JS.sort before' (map f l) = map f (JS.sort before l).
Proof.
  intros H. induction l as [|x l IH]; simpl; [reflexivity|].
  rewrite IH. apply insert_map, H.
Qed.

Lemma filter_map_pred {A B} (f : A -> B) (p : A -> bool) (p' : B -> bool)
  (l : list A) :
  (forall a, p' (f a) = p a) ->
  filter p' (map f l) = map f (filter p l).
Proof.
  intros H. induction l as [|x l IH]; simpl; [reflexivity|].
  rewrite H. destruct (p x); simpl; rewrite IH; reflexivity.
Qed.

Lemma entries_counts (o : JS.object nat) :
  JS.entries (counts o) = counts (JS.entries o).
Proof.
  unfold JS.entries, counts. rewrite map_app.
  rewrite (filter_map_pred as_count JS.is_index JS.is_index)
    by (intros []; reflexivity).
  rewrite (filter_map_pred as_count (fun e => negb (JS.is_index e))
             (fun e => negb (JS.is_index e)))
    by (intros []; reflexivity).
  rewrite (sort_map as_count
             (fun a b => (JS.index_value a <=? JS.index_value b)%N))
    by (intros [] []; reflexivity).
  reflexivity.
Qed.

Lemma get_In {V} (o : JS.object V) (k : string) (v : V) :
  NoDup (map fst o) -> (In (k, v) o <-> JS.get o k = Some v).
Proof.
  induction o as [|[k0 v0] o IH]; simpl; intros H.
  - split; [intros [] | discriminate].
  - inversion H as [|? ? Hk Hn]; subst.
    destruct (String.eqb k0 k) eqn:E0.
    + apply String.eqb_eq in E0. subst k0. split.
      * intros [[= ->]|Hin]; [reflexivity|].
        exfalso. apply Hk. apply in_map_iff. exists (k, v). auto.
      * intros [= ->]. left. reflexivity.
    + rewrite <- (IH Hn). split.
      * intros [[= -> ->]|Hin]; [|exact Hin].
        rewrite String.eqb_refl in E0. discriminate.
      * intros Hin. right. exact Hin.
Qed.

Lemma entries_perm {V} (o : JS.object V) : Permutation (JS.entries o) o.
Proof.
  unfold JS.entries.
  eapply perm_trans; [|apply (partition_perm JS.is_index)].
  apply Permutation_app_tail, sort_perm.
Qed.

Lemma entries_In {V} (o : JS.object V) (e : string * V) :
  In e (JS.entries o) <-> In e o.
Proof.
  split; apply Permutation_in;
    [apply entries_perm | apply Permutation_sym, entries_perm].
Qed.

Lemma entries_NoDup {V} (o : JS.object V) :
  NoDup (map fst o) -> NoDup (map fst (JS.entries o)).
Proof.
  intros H. eapply Permutation_NoDup; [|exact H].
  apply Permutation_map, Permutation_sym, entries_perm.
Qed.

Lemma filter_keys_NoDup {V} (f : string * V -> bool) (l : list (string * V)) :
  NoDup (map fst l) -> NoDup (map fst (filter f l)).
Proof.
  induction l as [|x l IH]; simpl; intros H.
  - constructor.
  - inversion H as [|? ? Hx Hn]; subst.
    destruct (f x); simpl; [|apply IH, Hn].
    constructor; [|apply IH, Hn].
    intros Hin. apply Hx. apply in_map_iff in Hin.
    destruct Hin as [y [Hy Hin]]. apply filter_In in Hin.
    apply in_map_iff. exists y. tauto.
Qed.

(* ================================================================== *)
(** * Concept extraction (knowledge-graph.js) *)
(* ================================================================== *)

Lemma by_count_total (x y : string * nat) :
  by_count x y = false -> by_count y x = true.
Proof.
  unfold by_count. intros H. apply Nat.leb_gt in H. apply Nat.leb_le. lia.
Qed.

Lemma by_count_trans (x y z : string * nat) :
  by_count x y = true -> by_count y z = true -> by_count x z = true.
Proof.
  unfold by_count. intros H1 H2.
  apply Nat.leb_le in H1, H2. apply Nat.leb_le. lia.
Qed.

(** ** The ranking of counts *)

Lemma tally_entry (items : list string) (w : string) (f : nat) :
  In (w, f) (tally items []) <-> 0 < f /\ f = occurrences w items.
Proof.
  rewrite (get_In _ _ _ (tally_NoDup items [] (NoDup_nil _))).
  pose proof (tally_stored items [] w) as Hs. unfold stored in Hs. simpl in Hs.
  split.
  - intros H. split.
    + eapply tally_positive; [|exact H]. simpl. discriminate.
    + rewrite H in Hs. exact Hs.
  - intros [Hpos ->].
    destruct (JS.get (tally items []) w) as [n|]; [f_equal; exact Hs | lia].
Qed.

Lemma meaningful_count_spec (w : string) (f : nat) :
  meaningful_count (w, f) = true <-> 1 < f \/ 4 < String.length w.
Proof.
  unfold meaningful_count. simpl.
  rewrite orb_true_iff, !Nat.ltb_lt. reflexivity.
Qed.

Lemma ranked_counts_NoDup (items : list string) :
  NoDup (map fst (ranked_counts items)).
Proof.
  unfold ranked_counts.
  eapply Permutation_NoDup.
  - apply Permutation_map, Permutation_sym, sort_perm.
  - apply filter_keys_NoDup, entries_NoDup, tally_NoDup. constructor.
Qed.

Lemma ranked_counts_sorted (items : list string) :
  StronglySorted (fun x y : string * nat => snd y <= snd x) (ranked_counts items).
Proof.
  unfold ranked_counts.
  generalize (sort_sorted by_count by_count_total by_count_trans
                (filter meaningful_count (JS.entries (tally items [])))).
  induction 1 as [|a l Hs IH Hall]; constructor.
  - exact IH.
  - eapply Forall_impl; [|exact Hall].
    intros b Hb. apply Nat.leb_le. exact Hb.
Qed.

Lemma ranked_counts_In (items : list string) (w : string) (f : nat) :
  In (w, f) (ranked_counts items)
  <-> (0 < f /\ f = occurrences w items) /\ (1 < f \/ 4 < String.length w).
Proof.
  unfold ranked_counts.
  rewrite sort_In, filter_In, entries_In, tally_entry, meaningful_count_spec.
  reflexivity.
Qed.

Lemma ranked_counts_stable (items : list string) (f : nat) :
  filter (same_count f) (ranked_counts items)
  = filter (same_count f) (filter meaningful_count (JS.entries (tally items []))).
Proof.
  unfold ranked_counts. apply sort_filter.
  intros x y Hx Hy. unfold same_count in *.
  apply Nat.eqb_eq in Hx, Hy. unfold by_count. apply Nat.leb_le. lia.
Qed.

(** ** The table of [extractConcepts] *)

Section ExtractConcepts.
Variable L : Natural.

Lemma wordFreq_fold (text : string) :
  KnowledgeGraph.wordFreq L text = fold_left JS.increment (stems L text) [].
Proof.
  unfold KnowledgeGraph.wordFreq, stems.
  apply (fold_left_map_arg JS.increment (stem L)).
Qed.

Lemma wordFreq_NoDup (text : string) :
  NoDup (map fst (KnowledgeGraph.wordFreq L text)).
Proof. rewrite wordFreq_fold. apply count_NoDup. constructor. Qed.

Lemma ranked_NoDup (text : string) :
  NoDup (map fst (KnowledgeGraph.ranked L text)).
Proof.
  unfold KnowledgeGraph.ranked.
  eapply Permutation_NoDup.
  - apply Permutation_map, Permutation_sym, sort_perm.
  - apply filter_keys_NoDup, entries_NoDup, wordFreq_NoDup.
Qed.

(** For a text with plain stems the table holds the counts, and the ranking
    is the ranking of the counts. *)
Lemma wordFreq_counts (text : string) :
  plain (stems L text) ->
  KnowledgeGraph.wordFreq L text = counts (tally (stems L text) []).
Proof.
  intros Hp. rewrite wordFreq_fold. apply (count_counts _ [] Hp).
Qed.

Lemma ranked_counts_eq (text : string) :
  plain (stems L text) ->
  KnowledgeGraph.ranked L text = counts (ranked_counts (stems L text)).
Proof.
  intros Hp. unfold KnowledgeGraph.ranked, ranked_counts, counts.
  rewrite (wordFreq_counts text Hp), entries_counts. unfold counts.
  rewrite (filter_map_pred as_count meaningful_count KnowledgeGraph.meaningful)
    by (intros []; reflexivity).
  apply sort_map. intros [] []. reflexivity.
Qed.

Lemma extractConcepts_counts (text : string) :
  plain (stems L text) ->
  KnowledgeGraph.extractConcepts L text
  = map count_concept (firstn 50 (ranked_counts (stems L text))).
Proof.
  intros Hp. unfold KnowledgeGraph.extractConcepts.
  rewrite (ranked_counts_eq text Hp). unfold counts.
  rewrite firstn_map, map_map. reflexivity.
Qed.

Lemma extractConcepts_names_NoDup (text : string) :
  NoDup (map name (KnowledgeGraph.extractConcepts L text)).
Proof.
  unfold KnowledgeGraph.extractConcepts. rewrite map_map.
  rewrite (map_ext _ fst) by (intros []; reflexivity).
  rewrite <- firstn_map. apply NoDup_firstn, ranked_NoDup.
Qed.

Lemma extractConcepts_counted (text : string) :
  plain (stems L text) -> counted (KnowledgeGraph.extractConcepts L text).
Proof.
  intros Hp c Hin. rewrite (extractConcepts_counts text Hp) in Hin.
  apply in_map_iff in Hin. destruct Hin as [[w f] [<- _]]. exists f. reflexivity.
Qed.

(** The contract of [extractConcepts].  For every text the names returned
    are pairwise distinct and at most 50.  For a text none of whose stems is
    the name of a property of [Object.prototype], the result is the first 50
    entries of the ranking of the counts, each with a number for its
    frequency: the ranking is sorted by descending count, holds a stem
    exactly when the number of filtered tokens with that stem is positive
    and above 1 or the stem is longer than 4 characters, and keeps entries
    of equal count in the order of [Object.entries] (the sort is stable); so
    when at most 50 entries qualify, a candidate is returned exactly when it
    qualifies. *)
Theorem extractConcepts_contract (text : string) :
  let out := KnowledgeGraph.extractConcepts L text in
  let ranking := ranked_counts (stems L text) in
  NoDup (map name out)
  /\ List.length out <= 50
  /\ (plain (stems L text) ->
      out = map count_concept (firstn 50 ranking)
      /\ StronglySorted (fun a b => snd b <= snd a) ranking
      /\ NoDup (map fst ranking)
      /\ (forall w f,
            In (w, f) ranking
            <-> (0 < f /\ f = occurrences w (stems L text))
                /\ (1 < f \/ 4 < String.length w))
      /\ (forall f, filter (same_count f) ranking
                    = filter (same_count f)
                        (filter meaningful_count
                           (JS.entries (tally (stems L text) []))))
      /\ (List.length ranking <= 50 ->
          forall w f,
            In (mkConcept w (JS.Count f)) out
            <-> (0 < f /\ f = occurrences w (stems L text))
                /\ (1 < f \/ 4 < String.length w))).
Proof.
  cbv zeta. split; [apply extractConcepts_names_NoDup|]. split.
  { unfold KnowledgeGraph.extractConcepts. rewrite length_map.
    apply firstn_le_length. }
  intros Hp. rewrite (extractConcepts_counts text Hp).
  split; [reflexivity|].
  split; [apply ranked_counts_sorted|].
  split; [apply ranked_counts_NoDup|].
  split; [apply ranked_counts_In|].
  split; [apply ranked_counts_stable|].
  intros Hlen w f. rewrite firstn_all2 by exact Hlen.
  rewrite <- ranked_counts_In. split.
  - intros Hin. apply in_map_iff in Hin.
    destruct Hin as [[w' f'] [[= -> ->] Hin]]. exact Hin.
  - intros Hin. apply in_map_iff. exists (w, f). split; [reflexivity | exact Hin].
Qed.

End ExtractConcepts.

Lemma plainb_plain (items : list string) : plainb items = true -> plain items.
Proof.
  unfold plainb, plain. rewrite forallb_forall. intros H k Hin.
  apply negb_true_iff, H, Hin.
Qed.

Lemma extractConcepts_contract_witness :
  KnowledgeGraph.extractConcepts Sample.natural
    "Graphs store data. A graph database, 12s and 12s; stores, queries, cat."
  = map count_concept
      (firstn 50
         (ranked_counts
            (stems Sample.natural
               "Graphs store data. A graph database, 12s and 12s; stores, queries, cat."))).
Proof.
  refine (proj1 (proj2 (proj2
            (extractConcepts_contract Sample.natural
               "Graphs store data. A graph database, 12s and 12s; stores, queries, cat."))
            _)).
  apply plainb_plain. vm_compute. reflexivity.
Defined.

(** On a sample text: ties keep the order of first occurrence, except that
    keys that are array indices come first. *)
Example extractConcepts_sample :
  KnowledgeGraph.extractConcepts Sample.natural
    "Graphs store data. A graph database, 12s and 12s; stores, queries, cat."
  = [mkConcept "12" (JS.Count 2); mkConcept "graph" (JS.Count 2);
     mkConcept "store" (JS.Count 2); mkConcept "database" (JS.Count 1);
     mkConcept "querie" (JS.Count 1)].
Proof. vm_compute. reflexivity. Qed.

(** C4 fails on a text with the word [constructor].  The table is an object
    literal, so [wordFreq["constructor"]] is the function [Object] that
    every object inherits, and [(wordFreq["constructor"] || 0) + 1] is the
    text of that function followed by 1, not a count.  In the text
    [alpha constructor gamma gamma gamma] the candidate [constructor] is
    returned with that text for its frequency; and since a difference with
    the text is NaN, which the sort reads as 0, the sort moves nothing:
    [alpha], of frequency 1, stays in front of [gamma], of frequency 3. *)
Theorem extractConcepts_inherited_key :
  KnowledgeGraph.filteredTokens Sample.natural "alpha constructor gamma gamma gamma"
  = ["alpha"; "constructor"; "gamma"; "gamma"; "gamma"]
  /\ stems Sample.natural "alpha constructor gamma gamma gamma"
     = ["alpha"; "constructor"; "gamma"; "gamma"; "gamma"]
  /\ JS.inherited "constructor" = true
  /\ KnowledgeGraph.wordFreq Sample.natural "alpha constructor gamma gamma gamma"
     = [("alpha", JS.Count 1);
        ("constructor", JS.Text "function Object() { [native code] }1");
        ("gamma", JS.Count 3)]
  /\ KnowledgeGraph.extractConcepts Sample.natural
       "alpha constructor gamma gamma gamma"
     = [mkConcept "alpha" (JS.Count 1);
        mkConcept "constructor" (JS.Text "function Object() { [native code] }1");
        mkConcept "gamma" (JS.Count 3)]
  /\ JS.descending (JS.Count 1) (JS.Count 3) = false.
Proof. vm_compute. repeat split. Qed.

(** KnowledgeGraphCLI counts in an object literal too: the word
    [constructor] never has a count of 2 or more, and is no concept however
    often it occurs. *)
Example cli_inherited_key_is_no_concept :
  KnowledgeGraphCLI.frequency_of "constructor constructor graph graph"
  = [("constructor", JS.Text "function Object() { [native code] }11");
     ("graph", JS.Count 2)]
  /\ KnowledgeGraphCLI.extractConcepts "constructor constructor graph graph"
     = ["graph"].
Proof. vm_compute. split; reflexivity. Qed.

(* ================================================================== *)
(** * Search-mode selection (knowledge-graph.js) *)
(* ================================================================== *)

Lemma prefix_occurs (sub s : string) :
  String.prefix sub s = true <-> exists after, s = (sub ++ after)%string.
Proof.
  revert s. induction sub as [|c sub IH]; intros s; simpl.
  - split; [intros _; exists s; reflexivity | intros _; destruct s; reflexivity].
  - destruct s as [|d s]; simpl.
    + split; [discriminate | intros [after H]; discriminate].
    + destruct (Ascii.ascii_dec c d) as [->|Hcd].
      * rewrite IH. split; intros [after H]; exists after; congruence.
      * split; [discriminate|]. intros [after H]. congruence.
Qed.

(** [s.includes(sub)] is true exactly when [sub] occurs in [s], as a word
    or inside a longer one. *)
Lemma includes_occurs (s sub : string) :
  JS.includes s sub = true <-> occurs_in sub s.
Proof.
  unfold occurs_in. induction s as [|c s IH]; cbn [JS.includes].
  - rewrite orb_false_r, prefix_occurs. split.
    + intros [after H]. exists EmptyString, after. exact H.
    + intros [before [after H]]. destruct before; [|discriminate].
      exists after. exact H.
  - rewrite orb_true_iff, prefix_occurs, IH. split.
    + intros [[after H]|[before [after H]]].
      * exists EmptyString, after. exact H.
      * exists (String c before), after. simpl. rewrite H. reflexivity.
    + intros [[|d before] [after H]].
      * left. exists after. exact H.
      * right. exists before, after. simpl in H. congruence.
Qed.

Lemma found_indicators (indicators : list string) (lowerQuestion : string) :
  NoDup indicators ->
  let found := filter (JS.includes lowerQuestion) indicators in
  (forall i, In i found <-> In i indicators /\ occurs_in i lowerQuestion)
  /\ NoDup found.
Proof.
  intros Hnd. cbv zeta. split.
  - intros i. rewrite filter_In, includes_occurs. reflexivity.
  - apply NoDup_filter, Hnd.
Qed.

(** C5, amended.  Automatic mode selection counts the indicators of the two
    fixed lists that occur in the lower-cased question, inside a longer
    word too, and answers global exactly when the global count is
    strictly greater than the local count and local otherwise, ties
    included.  The first question of the specification selects global (2
    against 0: [trend] occurs in [trends]), the second selects local (0
    against 1: [who] occurs in the lower-cased [Who]), and "Show the
    summary" selects local (1 against 1: [how] occurs in [show]). *)
Theorem determineSearchMode_selects :
  KnowledgeGraph.globalIndicators
  = ["overall"; "general"; "compare"; "analyze"; "overview"; "summary"; "trend";
     "pattern"]
  /\ KnowledgeGraph.localIndicators
     = ["specific"; "detail"; "who"; "what"; "when"; "where"; "how"]
  /\ (forall question,
        exists global local,
          (forall i, In i global <->
                     In i KnowledgeGraph.globalIndicators
                     /\ occurs_in i (JS.toLowerCase question))
          /\ NoDup global
          /\ (forall i, In i local <->
                        In i KnowledgeGraph.localIndicators
                        /\ occurs_in i (JS.toLowerCase question))
          /\ NoDup local
          /\ KnowledgeGraph.globalScore question = List.length global
          /\ KnowledgeGraph.localScore question = List.length local
          /\ (KnowledgeGraph.determineSearchMode question = "global"
              <-> List.length local < List.length global)
          /\ (KnowledgeGraph.determineSearchMode question = "local"
              <-> List.length global <= List.length local))
  /\ (KnowledgeGraph.globalScore "Give me an overview of the major trends" = 2
      /\ KnowledgeGraph.localScore "Give me an overview of the major trends" = 0
      /\ KnowledgeGraph.determineSearchMode "Give me an overview of the major trends"
         = "global")
  /\ (KnowledgeGraph.globalScore "Who founded the company?" = 0
      /\ KnowledgeGraph.localScore "Who founded the company?" = 1
      /\ KnowledgeGraph.determineSearchMode "Who founded the company?" = "local")
  /\ (KnowledgeGraph.globalScore "Show the summary" = 1
      /\ KnowledgeGraph.localScore "Show the summary" = 1
      /\ KnowledgeGraph.determineSearchMode "Show the summary" = "local").
Proof.
  split; [reflexivity|]. split; [reflexivity|]. split.
  - intros question.
    exists (filter (JS.includes (JS.toLowerCase question))
              KnowledgeGraph.globalIndicators),
           (filter (JS.includes (JS.toLowerCase question))
              KnowledgeGraph.localIndicators).
    destruct (found_indicators KnowledgeGraph.globalIndicators
                (JS.toLowerCase question)) as [G1 G2].
    { repeat constructor; simpl; intuition discriminate. }
    destruct (found_indicators KnowledgeGraph.localIndicators
                (JS.toLowerCase question)) as [L1 L2].
    { repeat constructor; simpl; intuition discriminate. }
    split; [exact G1|]. split; [exact G2|]. split; [exact L1|]. split; [exact L2|].
    split; [reflexivity|]. split; [reflexivity|].
    unfold KnowledgeGraph.determineSearchMode.
    fold (KnowledgeGraph.globalScore question).
    fold (KnowledgeGraph.localScore question).
    change (List.length (filter (JS.includes (JS.toLowerCase question))
                           KnowledgeGraph.globalIndicators))
      with (KnowledgeGraph.globalScore question).
    change (List.length (filter (JS.includes (JS.toLowerCase question))
                           KnowledgeGraph.localIndicators))
      with (KnowledgeGraph.localScore question).
    destruct (KnowledgeGraph.localScore question <? KnowledgeGraph.globalScore question)
      eqn:Hlt.
    + apply Nat.ltb_lt in Hlt. split; split; intros H;
        try reflexivity; try exact Hlt; try discriminate; lia.
    + apply Nat.ltb_ge in Hlt. split; split; intros H;
        try reflexivity; try exact Hlt; try discriminate; lia.
  - repeat split; vm_compute; reflexivity.
Qed.

(** Against the claim as stated.  The words of "Show the summary" overlap
    the global indicators in one word and the local indicators in none, so
    the claim selects global; the code counts [how] inside [show] and
    selects local. *)
Lemma indicators_count_inside_words :
  tokenize Sample.natural (JS.toLowerCase "Show the summary")
  = ["show"; "the"; "summary"]
  /\ word_overlap Sample.natural KnowledgeGraph.globalIndicators "Show the summary" = 1
  /\ word_overlap Sample.natural KnowledgeGraph.localIndicators "Show the summary" = 0
  /\ KnowledgeGraph.determineSearchMode "Show the summary" = "local"
  /\ KnowledgeGraph.determineSearchMode "Show the summary" <> "global".
Proof.
  split; [vm_compute; reflexivity|]. split; [vm_compute; reflexivity|].
  split; [vm_compute; reflexivity|]. split; [vm_compute; reflexivity|].
  vm_compute. discriminate.
Qed.

(* ================================================================== *)
(** * Failures of the store during a query *)
(* ================================================================== *)

Section Failures.
Context {St : Type}.
Variable exec : forall A, Neo4j.Cypher A -> St -> result A * St.

Lemma transparent_ret {A} (a : A) : transparent (@ret St A a).
Proof.
  intros w. exists []. simpl. rewrite app_nil_r. split; [reflexivity|].
  intros ev message [].
Qed.

Lemma transparent_lift {A} (r : result A) : transparent (@lift St A r).
Proof.
  intros w. exists []. simpl. rewrite app_nil_r. split; [reflexivity|].
  intros ev message [].
Qed.

Lemma transparent_run {A} (c : Neo4j.Cypher A) : transparent (session_run exec c).
Proof.
  intros w. unfold session_run.
  destruct (exec A c (store w)) as [r s] eqn:Hx.
  exists [mkEvent (Neo4j.Sent c) (outcome r)]. simpl. split; [reflexivity|].
  intros ev message [<-|[]]. simpl.
  destruct r; simpl; [discriminate|]. intros [= ->]. reflexivity.
Qed.

Lemma transparent_bind {A B} (m : M St A) (k : A -> M St B) :
  transparent m -> (forall a, transparent (k a)) -> transparent (bind m k).
Proof.
  intros Hm Hk w. unfold bind.
  destruct (Hm w) as [evs1 [H1 E1]].
  destruct (m w) as [[a|e] w1] eqn:Hmw; simpl in *.
  - destruct (Hk a w1) as [evs2 [H2 E2]].
    exists (evs1 ++ evs2). split.
    + rewrite H2, H1, app_assoc. reflexivity.
    + intros ev message Hin Herr. apply in_app_or in Hin.
      destruct Hin as [Hin|Hin].
      * specialize (E1 ev message Hin Herr). discriminate.
      * apply (E2 ev message Hin Herr).
  - exists evs1. split; [exact H1|].
    intros ev message Hin Herr. specialize (E1 ev message Hin Herr).
    injection E1 as ->. reflexivity.
Qed.

Lemma transparent_if {A} (b : bool) (m1 m2 : M St A) :
  transparent m1 -> transparent m2 -> transparent (if b then m1 else m2).
Proof. destruct b; auto. Qed.

(** [try { body } catch (error) { return h(error.message) }] *)
Lemma guarded_tryCatch {A} (h : string -> A) (body : M St A) :
  transparent body -> guarded h (tryCatch body (fun message => ret (h message))).
Proof.
  intros Hb w. unfold tryCatch.
  destruct (Hb w) as [evs [H1 E1]].
  destruct (body w) as [[a|e] w1] eqn:Hbw; simpl in *.
  - exists evs. split; [exact H1|]. split; [eauto|].
    intros ev message Hin Herr. specialize (E1 ev message Hin Herr). discriminate.
  - exists evs. split; [exact H1|]. split; [eauto|].
    intros ev message Hin Herr. specialize (E1 ev message Hin Herr).
    injection E1 as ->. reflexivity.
Qed.

(** An outer [try] around a guarded computation changes nothing. *)
Lemma tryCatch_guarded {A} (h : string -> A) (m : M St A) (handler : string -> M St A) :
  guarded h m -> forall w, tryCatch m handler w = m w.
Proof.
  intros Hm w. unfold tryCatch.
  destruct (Hm w) as [evs [_ [[a Ha] _]]].
  destruct (m w) as [[a'|e] w1]; simpl in *; [reflexivity | discriminate].
Qed.

Variable L : Natural.
Variable E : Env.

Local Ltac transparency :=
  repeat first
    [ apply transparent_ret
    | apply transparent_lift
    | apply transparent_run
    | apply transparent_if
    | apply transparent_bind; [|intros ?] ].

Lemma localSearch_guarded (question : string) :
  guarded (fun message => ("Local search error: " ++ message)%string)
    (KnowledgeGraph.localSearch exec L question).
Proof.
  unfold KnowledgeGraph.localSearch. apply guarded_tryCatch.
  cbv zeta. transparency.
Qed.

Lemma globalSearch_guarded (question : string) :
  guarded (fun message => ("Global search error: " ++ message)%string)
    (KnowledgeGraph.globalSearch exec E question).
Proof.
  unfold KnowledgeGraph.globalSearch. apply guarded_tryCatch.
  transparency.
Qed.

Lemma legacy_queryGraph_guarded (question : string) :
  guarded (fun message => ("Error querying knowledge graph: " ++ message)%string)
    (Legacy.queryGraph exec L question).
Proof.
  unfold Legacy.queryGraph. apply guarded_tryCatch.
  cbv zeta. transparency.
Qed.

Lemma cli_queryGraph_guarded (question : string) :
  guarded (fun _ => KnowledgeGraphCLI.mkAnswer KnowledgeGraphCLI.search_failed [] [])
    (KnowledgeGraphCLI.queryGraph exec question).
Proof.
  unfold KnowledgeGraphCLI.queryGraph. apply guarded_tryCatch.
  cbv zeta. transparency.
Qed.

Lemma queryGraph_dispatch (question mode : string) (w : World St) :
  KnowledgeGraph.queryGraph exec L E question mode w
  = if String.eqb (if String.eqb mode "auto"
                   then KnowledgeGraph.determineSearchMode question else mode)
         "global"
    then KnowledgeGraph.globalSearch exec E question w
    else KnowledgeGraph.localSearch exec L question w.
Proof.
  unfold KnowledgeGraph.queryGraph. cbv zeta.
  destruct (String.eqb (if String.eqb mode "auto"
                        then KnowledgeGraph.determineSearchMode question else mode)
              "global").
  - apply (tryCatch_guarded _ _ _ (globalSearch_guarded question)).
  - apply (tryCatch_guarded _ _ _ (localSearch_guarded question)).
Qed.

End Failures.

(** C8. Whatever the store does, a query returns a value and never throws;
    and when a statement sent to the store during the query fails, the value
    returned is the error answer: in knowledge-graph.js the text
    "Local search error: ..." or "Global search error: ..." with the message
    of the failure (in either search mode), in the earlier copy
    "Error querying knowledge graph: ...", and in KnowledgeGraphCLI the
    answer "Error occurred while searching the knowledge graph." with no
    concepts and no documents. *)
Theorem query_failure_is_answered
  (St : Type) (exec : forall A, Neo4j.Cypher A -> St -> result A * St)
  (L : Natural) (E : Env) (question mode : string)
  (s : St) (t : nat) (size : N) :
  let w := mkWorld s [] t size in
  let current := KnowledgeGraph.queryGraph exec L E question mode w in
  let legacy := Legacy.queryGraph exec L question w in
  let first := KnowledgeGraphCLI.queryGraph exec question w in
  ((exists text, fst current = Ok text)
   /\ forall ev message,
        In ev (history (snd current)) -> error ev = Some message ->
        fst current = Ok ("Local search error: " ++ message)%string
        \/ fst current = Ok ("Global search error: " ++ message)%string)
  /\ ((exists text, fst legacy = Ok text)
      /\ forall ev message,
           In ev (history (snd legacy)) -> error ev = Some message ->
           fst legacy = Ok ("Error querying knowledge graph: " ++ message)%string)
  /\ ((exists a, fst first = Ok a)
      /\ forall ev message,
           In ev (history (snd first)) -> error ev = Some message ->
           fst first
           = Ok (KnowledgeGraphCLI.mkAnswer
                   "Error occurred while searching the knowledge graph." [] [])).
Proof.
  cbv zeta. repeat split.
  - rewrite queryGraph_dispatch.
    destruct (String.eqb _ "global").
    + destruct (globalSearch_guarded exec E question (mkWorld s [] t size))
        as [evs [_ [Hok _]]]. exact Hok.
    + destruct (localSearch_guarded exec L question (mkWorld s [] t size))
        as [evs [_ [Hok _]]]. exact Hok.
  - intros ev message. rewrite queryGraph_dispatch.
    destruct (String.eqb _ "global").
    + destruct (globalSearch_guarded exec E question (mkWorld s [] t size))
        as [evs [Hh [_ Herr]]]. rewrite Hh. simpl. intros Hin He.
      right. eapply Herr; eassumption.
    + destruct (localSearch_guarded exec L question (mkWorld s [] t size))
        as [evs [Hh [_ Herr]]]. rewrite Hh. simpl. intros Hin He.
      left. eapply Herr; eassumption.
  - destruct (legacy_queryGraph_guarded exec L question (mkWorld s [] t size))
      as [evs [_ [Hok _]]]. exact Hok.
  - intros ev message.
    destruct (legacy_queryGraph_guarded exec L question (mkWorld s [] t size))
      as [evs [Hh [_ Herr]]]. rewrite Hh. simpl. intros Hin He.
    eapply Herr; eassumption.
  - destruct (cli_queryGraph_guarded exec question (mkWorld s [] t size))
      as [evs [_ [Hok _]]]. exact Hok.
  - intros ev message.
    destruct (cli_queryGraph_guarded exec question (mkWorld s [] t size))
      as [evs [Hh [_ Herr]]]. rewrite Hh. simpl. intros Hin He.
    eapply Herr; eassumption.
Qed.

(** A store whose every statement fails: both modes answer with the error
    text. *)
Example failing_store_answers :
  let down : forall A, Neo4j.Cypher A -> unit -> result A * unit :=
    fun A _ s => (Throw "ServiceUnavailable", s) in
  fst (KnowledgeGraph.queryGraph down Sample.natural Sample.env
         "Give me an overview of the major trends" "auto" (start tt))
  = Ok "Global search error: ServiceUnavailable"
  /\ fst (KnowledgeGraph.queryGraph down Sample.natural Sample.env
            "Who founded the company?" "auto" (start tt))
     = Ok "Local search error: ServiceUnavailable"
  /\ fst (KnowledgeGraphCLI.queryGraph down "Who founded the company?" (start tt))
     = Ok (KnowledgeGraphCLI.mkAnswer
             "Error occurred while searching the knowledge graph." [] []).
Proof. vm_compute. repeat split. Qed.

(* ================================================================== *)
(** * Questions without key terms *)
(* ================================================================== *)

Lemma localSearch_without_terms
  (St : Type) (exec : forall A, Neo4j.Cypher A -> St -> result A * St)
  (L : Natural) (question : string) (w : World St) :
  KnowledgeGraph.keyTerms L question = [] ->
  KnowledgeGraph.localSearch exec L question w
  = (Ok "Please provide a more specific question with meaningful terms.", w).
Proof.
  intros H. unfold KnowledgeGraph.localSearch, tryCatch. cbv zeta.
  rewrite H. reflexivity.
Qed.

(** No concept matches an empty word list. *)
Lemma fuzzy_concept_query_nil (g : Neo4j.Graph) : Neo4j.fuzzy_concept_query g [] = [].
Proof.
  unfold Neo4j.fuzzy_concept_query. simpl.
  replace (filter (fun _ : Neo4j.Concept => false) (Neo4j.concepts g))
    with (@nil Neo4j.Concept); [reflexivity|].
  induction (Neo4j.concepts g); simpl; auto.
Qed.

(** C6, as the code has it.  In knowledge-graph.js a question whose tokens,
    once stop-words and tokens of at most two characters are dropped, leave
    no key term makes local search (and [queryGraph] in local mode, and the
    earlier copy's [queryGraph]) return the "more specific question" text
    as an ordinary value without sending any statement to the store.
    [KnowledgeGraphCLI.queryGraph] drops only the words of at most two
    characters and has no such exit: with no query word left it still sends
    the concept query, with an empty word list, and returns the
    "couldn't find any relevant concepts" answer. *)
Theorem no_key_terms_answer :
  (forall (St : Type) (exec : forall A, Neo4j.Cypher A -> St -> result A * St)
          (L : Natural) (E : Env) (question : string) (w : World St),
      KnowledgeGraph.keyTerms L question = [] ->
      let more_specific :=
        "Please provide a more specific question with meaningful terms." in
      KnowledgeGraph.localSearch exec L question w = (Ok more_specific, w)
      /\ KnowledgeGraph.queryGraph exec L E question "local" w = (Ok more_specific, w)
      /\ (KnowledgeGraph.determineSearchMode question = "local" ->
          KnowledgeGraph.queryGraph exec L E question "auto" w = (Ok more_specific, w))
      /\ Legacy.queryGraph exec L question w = (Ok more_specific, w))
  /\ (forall (gds : bool) (question : string) (w : World Neo4j.Graph),
        KnowledgeGraphCLI.queryWords question = [] ->
        KnowledgeGraphCLI.queryGraph (Neo4j.exec gds) question w
        = (Ok (KnowledgeGraphCLI.mkAnswer
                 "I couldn't find any relevant concepts in the knowledge graph for your question."
                 [] []),
           mkWorld (store w)
             (history w ++ [mkEvent (Neo4j.Sent (Neo4j.FuzzyConceptQuery [])) None])
             (ticks w) (totalSize w))).
Proof.
  split.
  - intros St exec L E question w H. cbv zeta. repeat split.
    + apply localSearch_without_terms, H.
    + rewrite queryGraph_dispatch. simpl.
      apply localSearch_without_terms, H.
    + intros Hmode. rewrite queryGraph_dispatch. simpl. rewrite Hmode. simpl.
      apply localSearch_without_terms, H.
    + unfold Legacy.queryGraph, tryCatch. cbv zeta. rewrite H. reflexivity.
  - intros gds question w H.
    unfold KnowledgeGraphCLI.queryGraph, tryCatch, bind, session_run. cbv zeta.
    rewrite H. simpl. rewrite fuzzy_concept_query_nil. reflexivity.
Qed.

(** The question "is it" has no key term for either program. *)
Lemma no_key_terms_answer_witness :
  KnowledgeGraph.keyTerms Sample.natural "is it" = []
  /\ KnowledgeGraph.localSearch (Neo4j.exec true) Sample.natural "is it"
       (start Neo4j.empty)
     = (Ok "Please provide a more specific question with meaningful terms.",
        start Neo4j.empty)
  /\ KnowledgeGraphCLI.queryWords "is it" = []
  /\ fst (KnowledgeGraphCLI.queryGraph (Neo4j.exec true) "is it" (start Neo4j.empty))
     = Ok (KnowledgeGraphCLI.mkAnswer
             "I couldn't find any relevant concepts in the knowledge graph for your question."
             [] []).
Proof.
  split; [reflexivity|].
  split.
  - apply (proj1 no_key_terms_answer _ (Neo4j.exec true) Sample.natural Sample.env
             "is it" (start Neo4j.empty)). reflexivity.
  - split; [reflexivity|].
    rewrite (proj2 no_key_terms_answer true "is it" (start Neo4j.empty)); reflexivity.
Defined.

(** In [KnowledgeGraphCLI] the question "is it" leaves no query word, and
    yet the concept query is sent and the answer is not the "more specific
    question" text. *)
Lemma cli_searches_without_terms :
  let run := KnowledgeGraphCLI.queryGraph (Neo4j.exec true) "is it" (start Neo4j.empty) in
  KnowledgeGraphCLI.queryWords "is it" = []
  /\ map sent (history (snd run)) = [Neo4j.Sent (Neo4j.FuzzyConceptQuery [])]
  /\ existsb Neo4j.is_search (map sent (history (snd run))) = true
  /\ fst run
     = Ok (KnowledgeGraphCLI.mkAnswer
             "I couldn't find any relevant concepts in the knowledge graph for your question."
             [] [])
  /\ String.eqb
       "I couldn't find any relevant concepts in the knowledge graph for your question."
       "Please provide a more specific question with meaningful terms." = false.
Proof. vm_compute. repeat split. Qed.

(* ================================================================== *)
(** * The answer excerpt (KnowledgeGraphCLI) *)
(* ================================================================== *)



Section Excerpt.
Variables queryWords conceptNames : list string.

Local Abbreviation score := (KnowledgeGraphCLI.score_of queryWords conceptNames).
Local Abbreviation long := (fun s => 30 < KnowledgeGraphCLI.trimmed_length s).


End Excerpt.



(* ================================================================== *)
(** * The size ceiling *)
(* ================================================================== *)

(** KnowledgeGraphCLI keeps the cumulative size in [totalSize]: content that
    would push it over the ceiling is turned away before anything is read or
    sent, and the world is left as it was. *)
Theorem cli_ingestFile_over_ceiling
  (St : Type) (exec : forall A, Neo4j.Cypher A -> St -> result A * St)
  (E : Env) (filePath : string) (size : N) (w : World St) :
  fs_stat_size E filePath = Ok size ->
  (KnowledgeGraphCLI.maxSize E < totalSize w + size)%N ->
  KnowledgeGraphCLI.ingestFile exec E filePath w = (Ok None, w).
Proof.
  intros Hstat Hover.
  unfold KnowledgeGraphCLI.ingestFile, KnowledgeGraphCLI.checkSizeLimit,
    tryCatch, bind, lift, get_totalSize, ret.
  rewrite Hstat. apply N.ltb_lt in Hover. rewrite Hover. reflexivity.
Qed.

Lemma cli_ingestFile_over_ceiling_witness :
  KnowledgeGraphCLI.ingestFile (Neo4j.exec true) Sample.env "a.txt"
    (mkWorld Neo4j.empty [] 0 (50 * Sample.MB)%N)
  = (Ok None, mkWorld Neo4j.empty [] 0 (50 * Sample.MB)%N).
Proof.
  apply (cli_ingestFile_over_ceiling _ (Neo4j.exec true) Sample.env "a.txt"
           (60 * Sample.MB)%N); reflexivity.
Defined.

(** knowledge-graph.js compares each source with the ceiling on its own: a
    single source above the ceiling is turned away before anything is
    sent. *)
Theorem ingestFile_over_ceiling
  (St : Type) (exec : forall A, Neo4j.Cypher A -> St -> result A * St)
  (L : Natural) (E : Env) (filePath : string) (clear : bool) (size : N)
  (w : World St) :
  fs_stat_size E filePath = Ok size ->
  (KnowledgeGraph.maxFileSize E < size)%N ->
  KnowledgeGraph.ingestFile exec L E filePath clear w = (Ok false, w)
  /\ Legacy.ingestFile exec L E filePath clear w = (Ok false, w).
Proof.
  intros Hstat Hover. apply N.ltb_lt in Hover.
  unfold KnowledgeGraph.ingestFile, Legacy.ingestFile, tryCatch, bind, lift, ret.
  rewrite Hstat, Hover. split; reflexivity.
Qed.

Lemma ingestFile_over_ceiling_witness :
  let E := mkEnv true (Some 50%N) false (fs_stat_size Sample.env)
             (fs_readFile Sample.env) (path_basename Sample.env)
             (fetch_body_text Sample.env) (base64 Sample.env)
             (Date_now Sample.env) (llm_extract Sample.env)
             (llm_answer Sample.env) (random_suffix Sample.env) in
  KnowledgeGraph.ingestFile (Neo4j.exec true) Sample.natural E "a.txt" true
    (start Neo4j.empty) = (Ok false, start Neo4j.empty)
  /\ Legacy.ingestFile (Neo4j.exec true) Sample.natural E "a.txt" true
       (start Neo4j.empty) = (Ok false, start Neo4j.empty).
Proof.
  cbv zeta.
  apply (ingestFile_over_ceiling _ (Neo4j.exec true) Sample.natural _ "a.txt" true
           (60 * Sample.MB)%N); reflexivity.
Defined.

(** C2 fails on knowledge-graph.js.  With the default ceiling of 100 MB,
    [ingest -f a.txt b.txt] with two files of 60 MB each processes both:
    the second file pushes the cumulative size to 120 MB and is accepted,
    and the graph gains its Document node, its Entity nodes and their
    relationships.  The earlier copy does the same. *)
Theorem per_source_ceiling_admits_batch :
  let run :=
    KnowledgeGraph.ingest_command (Neo4j.exec true) Sample.natural Sample.env
      (Some ["a.txt"; "b.txt"]) None false (start Neo4j.empty) in
  let legacy :=
    Legacy.ingest_command (Neo4j.exec true) Sample.natural Sample.env
      (Some ["a.txt"; "b.txt"]) None false (start Neo4j.empty) in
  let after_first :=
    KnowledgeGraph.ingestFile (Neo4j.exec true) Sample.natural Sample.env
      "a.txt" false (start Neo4j.empty) in
  KnowledgeGraph.maxFileSize Sample.env = (100 * 1024 * 1024)%N
  /\ fst run = Ok (Some 2)
  /\ map Neo4j.doc_size (Neo4j.documents (store (snd run)))
     = [(60 * 1024 * 1024)%N; (60 * 1024 * 1024)%N]
  /\ (KnowledgeGraph.maxFileSize Sample.env
      <? 60 * 1024 * 1024 + 60 * 1024 * 1024)%N = true
  /\ Neo4j.node_count (store (snd after_first)) = 4
  /\ Neo4j.node_count (store (snd run)) = 7
  /\ fst legacy = Ok (Some 2)
  /\ map Neo4j.doc_size (Neo4j.documents (store (snd legacy)))
     = [(60 * 1024 * 1024)%N; (60 * 1024 * 1024)%N].
Proof. vm_compute. repeat split. Qed.

(** On the same two files KnowledgeGraphCLI accepts the first and turns the
    second away, leaving the graph of the first. *)
Example cli_ceiling_on_batch :
  let first :=
    KnowledgeGraphCLI.ingestFile (Neo4j.exec true) Sample.env "a.txt"
      (mkWorld Neo4j.empty [] 0 (50 * Sample.MB)%N) in
  fst first = Ok None /\ store (snd first) = Neo4j.empty.
Proof. vm_compute. split; reflexivity. Qed.

(* ================================================================== *)
(** * Invariants of a run *)
(* ================================================================== *)

(** [preserves R m]: the world [m] ends in is related by [R] to the world it
    starts in, whether [m] returns or throws.  For a reflexive and transitive
    [R] that ignores the clock and [totalSize], the property follows the
    structure of the program, down to the statements it sends. *)
Section Preserves.
Context {St : Type}.
Variable exec : forall A, Neo4j.Cypher A -> St -> result A * St.
Variable R : World St -> World St -> Prop.
Hypothesis R_refl : forall w, R w w.
Hypothesis R_trans : forall a b c, R a b -> R b c -> R a c.
Hypothesis R_local :
  forall w t n, R w (mkWorld (store w) (history w) t n).

Local Abbreviation preserves := (preserves R).

Lemma preserves_ret {A} (a : A) : preserves (ret a).
Proof. intros w. apply R_refl. Qed.

Lemma preserves_throw {A} (e : string) : preserves (@throw St A e).
Proof. intros w. apply R_refl. Qed.

Lemma preserves_lift {A} (r : result A) : preserves (lift r).
Proof. intros w. apply R_refl. Qed.

Lemma preserves_reading {A} (source : nat -> A) : preserves (reading source).
Proof. intros w. apply R_local. Qed.

Lemma preserves_get_totalSize : preserves get_totalSize.
Proof. intros w. apply R_refl. Qed.

Lemma preserves_set_totalSize (n : N) : preserves (set_totalSize n).
Proof. intros w. apply R_local. Qed.

Lemma preserves_bind {A B} (m : M St A) (k : A -> M St B) :
  preserves m -> (forall a, preserves (k a)) -> preserves (bind m k).
Proof.
  intros Hm Hk w. unfold bind. specialize (Hm w).
  destruct (m w) as [[a|e] w1]; simpl in *.
  - eapply R_trans; [exact Hm | apply Hk].
  - exact Hm.
Qed.

Lemma preserves_tryCatch {A} (body : M St A) (handler : string -> M St A) :
  preserves body -> (forall e, preserves (handler e)) ->
  preserves (tryCatch body handler).
Proof.
  intros Hb Hh w. unfold tryCatch. specialize (Hb w).
  destruct (body w) as [[a|e] w1]; simpl in *.
  - exact Hb.
  - eapply R_trans; [exact Hb | apply Hh].
Qed.

Lemma preserves_forEach {A} (l : list A) (body : A -> M St unit) :
  (forall x, preserves (body x)) -> preserves (forEach l body).
Proof.
  intros Hb. induction l as [|x l IH]; simpl.
  - apply preserves_ret.
  - apply preserves_bind; [apply Hb | intros _; exact IH].
Qed.

Lemma preserves_if {A} (b : bool) (m1 m2 : M St A) :
  preserves m1 -> preserves m2 -> preserves (if b then m1 else m2).
Proof. destruct b; auto. Qed.

Lemma preserves_run {A} (c : Neo4j.Cypher A) :
  (forall w, R w (snd (session_run exec c w))) -> preserves (session_run exec c).
Proof. intros H w. apply H. Qed.

Lemma preserves_bind_ret {A B} (a : A) (k : A -> M St B) :
  preserves (k a) -> preserves (bind (ret a) k).
Proof. intros H w. exact (H w). Qed.

Lemma preserves_bind_lift {A B} (a : A) (k : A -> M St B) :
  preserves (k a) -> preserves (bind (lift (Ok a)) k).
Proof. intros H w. exact (H w). Qed.

End Preserves.

(** The structural part of a preservation proof: [refl], [trans] and [local]
    are the three facts about the relation, and [run] settles a statement
    that is sent. *)
Ltac preservation_step refl trans local run :=
  lazymatch goal with
    | |- preserves _ (ret _) => apply preserves_ret; apply refl
    | |- preserves _ (throw _) => apply preserves_throw; apply refl
    | |- preserves _ (lift _) => apply preserves_lift; apply refl
    | |- preserves _ (reading _) => apply preserves_reading; apply local
    | |- preserves _ get_totalSize => apply preserves_get_totalSize; apply refl
    | |- preserves _ (set_totalSize _) => apply preserves_set_totalSize; apply local
    | |- preserves _ (bind (ret _) _) => apply preserves_bind_ret; cbv beta iota
    | |- preserves _ (bind (lift (Ok _)) _) => apply preserves_bind_lift; cbv beta iota
    | |- preserves _ (bind _ _) => apply preserves_bind; [apply trans | | intros ?]
    | |- preserves _ (tryCatch _ _) =>
        apply preserves_tryCatch; [apply trans | | intros ?]
    | |- preserves _ (forEach _ _) =>
        apply preserves_forEach; [apply refl | apply trans | intros ?]
    | |- preserves _ (session_run _ _) => apply preserves_run; intros ?; run
    | |- preserves _ (match ?x with _ => _ end) => destruct x
    end.

Ltac preservation refl trans local run :=
  repeat preservation_step refl trans local run.

Lemma succeeds_ret {St A} (a : A) : succeeds (@ret St A a).
Proof. intros w. exists a. reflexivity. Qed.

Lemma succeeds_bind {St A B} (m : M St A) (k : A -> M St B) :
  succeeds m -> (forall a, succeeds (k a)) -> succeeds (bind m k).
Proof.
  intros Hm Hk w. unfold bind. destruct (Hm w) as [a Ha].
  destruct (m w) as [[a'|e] w1]; simpl in *; [apply Hk | discriminate].
Qed.

Lemma succeeds_forEach {St A} (l : list A) (body : A -> M St unit) :
  (forall x, succeeds (body x)) -> succeeds (forEach l body).
Proof.
  intros Hb. induction l as [|x l IH]; simpl.
  - apply succeeds_ret.
  - apply succeeds_bind; [apply Hb | intros _; exact IH].
Qed.

Lemma succeeds_tryCatch {St A} (body : M St A) (handler : string -> M St A) :
  (forall e, succeeds (handler e)) -> succeeds (tryCatch body handler).
Proof.
  intros Hh w. unfold tryCatch.
  destruct (body w) as [[a|e] w1]; simpl; [eauto | apply Hh].
Qed.

Lemma succeeds_unit {St} (m : M St unit) (w : World St) :
  succeeds m -> m w = (Ok tt, snd (m w)).
Proof.
  intros H. destruct (H w) as [[] Ha].
  destruct (m w) as [r w1]; simpl in *. subst r. reflexivity.
Qed.


Lemma forEach_map {St A B} (g : A -> B) (l : list A) (body : B -> M St unit) :
  forEach (map g l) body = forEach l (fun x => body (g x)).
Proof.
  induction l as [|x l IH]; simpl; [reflexivity | rewrite IH; reflexivity].
Qed.

(* ================================================================== *)
(** * The clear flag of a batch *)
(* ================================================================== *)

Lemma clear_free_nil : clear_free [].
Proof. intros ev []. Qed.

Lemma clear_free_app (a b : list event) :
  clear_free a -> clear_free b -> clear_free (a ++ b).
Proof.
  intros Ha Hb ev Hin. apply in_app_or in Hin. destruct Hin; auto.
Qed.

Lemma clear_free_count (evs : list event) :
  clear_free evs ->
  List.length (filter (fun ev => Neo4j.is_clear (sent ev)) evs) = 0.
Proof.
  induction evs as [|ev evs IH]; intros H; simpl.
  - reflexivity.
  - rewrite (H ev (or_introl eq_refl)). apply IH.
    intros ev' Hin. apply H. right. exact Hin.
Qed.

Section ClearFree.
Context {St : Type}.
Variable exec : forall A, Neo4j.Cypher A -> St -> result A * St.

Lemma ecf_refl (w : World St) : extends_clear_free w w.
Proof. exists []. rewrite app_nil_r. split; [reflexivity | apply clear_free_nil]. Qed.

Lemma ecf_trans (a b c : World St) :
  extends_clear_free a b -> extends_clear_free b c -> extends_clear_free a c.
Proof.
  intros [e1 [H1 F1]] [e2 [H2 F2]]. exists (e1 ++ e2). split.
  - rewrite H2, H1, app_assoc. reflexivity.
  - apply clear_free_app; assumption.
Qed.

Lemma ecf_local (w : World St) (t : nat) (n : N) :
  extends_clear_free w (mkWorld (store w) (history w) t n).
Proof.
  exists []. simpl. rewrite app_nil_r. split; [reflexivity | apply clear_free_nil].
Qed.

Lemma ecf_run {A} (c : Neo4j.Cypher A) (w : World St) :
  Neo4j.is_clear (Neo4j.Sent c) = false ->
  extends_clear_free w (snd (session_run exec c w)).
Proof.
  intros Hc. unfold session_run. destruct (exec A c (store w)) as [r s].
  exists [mkEvent (Neo4j.Sent c) (outcome r)]. simpl. split; [reflexivity|].
  intros ev [<-|[]]. exact Hc.
Qed.

Lemma clears_first_then (a b c : World St) :
  clears_first a b -> extends_clear_free b c -> clears_first a c.
Proof.
  intros [ev [e1 [H1 [Hc F1]]]] [e2 [H2 F2]]. exists ev, (e1 ++ e2).
  split; [|split].
  - rewrite H2, H1, <- app_assoc. reflexivity.
  - exact Hc.
  - apply clear_free_app; assumption.
Qed.

Lemma clears_first_run (w : World St) :
  clears_first w (snd (session_run exec Neo4j.DetachDeleteAll w)).
Proof.
  unfold session_run.
  destruct (exec unit Neo4j.DetachDeleteAll (store w)) as [r s].
  exists (mkEvent (Neo4j.Sent Neo4j.DetachDeleteAll) (outcome r)), [].
  simpl. split; [reflexivity|]. split; [reflexivity | apply clear_free_nil].
Qed.

(** The clear followed by a clear-free continuation. *)
Lemma clears_first_bind {B} (k : unit -> M St B) (w : World St) :
  (forall a, preserves extends_clear_free (k a)) ->
  clears_first w (snd (bind (session_run exec Neo4j.DetachDeleteAll) k w)).
Proof.
  intros Hk. unfold bind. pose proof (clears_first_run w) as Hc.
  destruct (session_run exec Neo4j.DetachDeleteAll w) as [[a|e] w1]; simpl in *.
  - eapply clears_first_then; [exact Hc | apply Hk].
  - exact Hc.
Qed.

Lemma tryCatch_ret_world {A} (body : M St A) (h : string -> A) (w : World St) :
  snd (tryCatch body (fun e => ret (h e)) w) = snd (body w).
Proof.
  unfold tryCatch. destruct (body w) as [[a|e] w1]; reflexivity.
Qed.

Lemma bind_lift_world {A B} (r : result A) (k : A -> M St B) (w : World St) :
  snd (bind (lift r) k w) = match r with
                            | Ok a => snd (k a w)
                            | Throw _ => w
                            end.
Proof. unfold bind, lift. destruct r; reflexivity. Qed.

Variable L : Natural.
Variable E : Env.

Local Ltac clear_free_steps :=
  preservation ecf_refl ecf_trans ecf_local ltac:(apply ecf_run; reflexivity).

Lemma createConceptRelationships_clear_free (concepts : list EntityObj) :
  preserves extends_clear_free
    (KnowledgeGraph.createConceptRelationships exec concepts).
Proof. unfold KnowledgeGraph.createConceptRelationships. clear_free_steps. Qed.

Lemma createEntityRelationships_clear_free (rels : list Relationship) (docId : string) :
  preserves extends_clear_free
    (KnowledgeGraph.createEntityRelationships exec rels docId).
Proof. unfold KnowledgeGraph.createEntityRelationships. clear_free_steps. Qed.

Lemma initializeSchema_clear_free :
  preserves extends_clear_free (KnowledgeGraph.initializeSchema exec)
  /\ preserves extends_clear_free (Legacy.initializeSchema exec).
Proof.
  split; unfold KnowledgeGraph.initializeSchema, Legacy.initializeSchema;
    clear_free_steps.
Qed.

(** Without the flag an ingestion sends no clear. *)
Lemma ingestFile_clear_free (filePath : string) :
  preserves extends_clear_free (KnowledgeGraph.ingestFile exec L E filePath false).
Proof.
  unfold KnowledgeGraph.ingestFile, KnowledgeGraph.extractEntitiesWithLLM.
  cbv iota.
  clear_free_steps;
    try apply createEntityRelationships_clear_free;
    try apply createConceptRelationships_clear_free.
Qed.

Lemma legacy_ingestFile_clear_free (filePath : string) :
  preserves extends_clear_free (Legacy.ingestFile exec L E filePath false).
Proof.
  unfold Legacy.ingestFile, Legacy.createConceptRelationships. cbv iota.
  clear_free_steps; apply createConceptRelationships_clear_free.
Qed.

Lemma ingestUrl_clear_free (url : string) :
  preserves extends_clear_free (KnowledgeGraph.ingestUrl exec L E url false).
Proof.
  unfold KnowledgeGraph.ingestUrl. cbv iota zeta.
  clear_free_steps; apply createConceptRelationships_clear_free.
Qed.

(** With the flag, an ingestion sends nothing at all, or the clear first and
    no other. *)
Lemma ingestFile_clears_first (filePath : string) (w : World St) :
  let w' := snd (KnowledgeGraph.ingestFile exec L E filePath true w) in
  w' = w \/ clears_first w w'.
Proof.
  cbv zeta. unfold KnowledgeGraph.ingestFile.
  rewrite tryCatch_ret_world, bind_lift_world.
  destruct (fs_stat_size E filePath) as [size|e]; [|left; reflexivity].
  destruct (KnowledgeGraph.maxFileSize E <? size)%N; [left; reflexivity|].
  rewrite bind_lift_world.
  destruct (fs_readFile E filePath) as [content|e]; [|left; reflexivity].
  right. apply clears_first_bind. intros _.
  unfold KnowledgeGraph.extractEntitiesWithLLM.
  clear_free_steps;
    try apply createEntityRelationships_clear_free;
    try apply createConceptRelationships_clear_free.
Qed.

Lemma legacy_ingestFile_clears_first (filePath : string) (w : World St) :
  let w' := snd (Legacy.ingestFile exec L E filePath true w) in
  w' = w \/ clears_first w w'.
Proof.
  cbv zeta. unfold Legacy.ingestFile, Legacy.createConceptRelationships.
  rewrite tryCatch_ret_world, bind_lift_world.
  destruct (fs_stat_size E filePath) as [size|e]; [|left; reflexivity].
  destruct (KnowledgeGraph.maxFileSize E <? size)%N; [left; reflexivity|].
  rewrite bind_lift_world.
  destruct (fs_readFile E filePath) as [content|e]; [|left; reflexivity].
  right. apply clears_first_bind. intros _.
  clear_free_steps; apply createConceptRelationships_clear_free.
Qed.

Lemma ingestUrl_clears_first (url : string) (w : World St) :
  let w' := snd (KnowledgeGraph.ingestUrl exec L E url true w) in
  w' = w \/ clears_first w w'.
Proof.
  cbv zeta. unfold KnowledgeGraph.ingestUrl.
  rewrite tryCatch_ret_world, bind_lift_world.
  destruct (fetch_body_text E url) as [text|e]; [|left; reflexivity].
  cbv zeta.
  destruct (String.length _ =? 0); [left; reflexivity|].
  destruct (KnowledgeGraph.maxFileSize E <? _)%N; [left; reflexivity|].
  right. apply clears_first_bind. intros _.
  clear_free_steps; apply createConceptRelationships_clear_free.
Qed.

End ClearFree.

(** ** Nodes are kept by every statement but the clear *)

Lemma nodes_kept_refl (g : Neo4j.Graph) : nodes_kept g g.
Proof. repeat split; auto. Qed.

Lemma nodes_kept_trans (a b c : Neo4j.Graph) :
  nodes_kept a b -> nodes_kept b c -> nodes_kept a c.
Proof.
  intros [D1 [C1 E1]] [D2 [C2 E2]]. repeat split; auto.
Qed.

Lemma existsb_app_l {A} (f : A -> bool) (l l' : list A) :
  existsb f l = true -> existsb f (l ++ l') = true.
Proof. intros H. rewrite existsb_app, H. reflexivity. Qed.

Lemma existsb_map_same {A} (f : A -> bool) (g : A -> A) (l : list A) :
  (forall x, f (g x) = f x) -> existsb f (map g l) = existsb f l.
Proof.
  intros H. induction l as [|x l IH]; simpl; [reflexivity|].
  rewrite H, IH. reflexivity.
Qed.

Lemma merge_concept_keeps (cs : list Neo4j.Concept) (name n : string) (f : JS.value) :
  existsb (fun c => String.eqb (Neo4j.c_name c) n) cs = true ->
  existsb (fun c => String.eqb (Neo4j.c_name c) n)
    (Neo4j.merge_concept cs name f) = true.
Proof.
  intros H. unfold Neo4j.merge_concept.
  destruct (existsb (fun c => String.eqb (Neo4j.c_name c) name) cs); cbv iota.
  - rewrite existsb_map_same; [exact H|].
    intros c. destruct (String.eqb (Neo4j.c_name c) name); reflexivity.
  - apply existsb_app_l, H.
Qed.

Lemma merge_entity_keeps (es : list Neo4j.Entity) (name ty d n : string) (f : JS.value) :
  existsb (fun e => String.eqb (Neo4j.e_name e) n) es = true ->
  existsb (fun e => String.eqb (Neo4j.e_name e) n)
    (Neo4j.merge_entity es name ty d f) = true.
Proof.
  intros H. unfold Neo4j.merge_entity.
  destruct (existsb (fun e => String.eqb (Neo4j.e_name e) name) es); cbv iota.
  - rewrite existsb_map_same; [exact H|].
    intros e. destruct (String.eqb (Neo4j.e_name e) name); reflexivity.
  - apply existsb_app_l, H.
Qed.

Lemma set_community_keeps (c : Neo4j.Entity -> option Neo4j.community)
  (es : list Neo4j.Entity) (n : string) :
  existsb (fun e => String.eqb (Neo4j.e_name e) n) (map (Neo4j.set_community c) es)
  = existsb (fun e => String.eqb (Neo4j.e_name e) n) es.
Proof. apply existsb_map_same. intros e. reflexivity. Qed.

Lemma exec_keeps_nodes (gds : bool) {A} (c : Neo4j.Cypher A) (g : Neo4j.Graph) :
  Neo4j.is_clear (Neo4j.Sent c) = false ->
  nodes_kept g (snd (Neo4j.exec gds A c g)).
Proof.
  intros Hc. destruct c; simpl in *; try discriminate;
    try apply nodes_kept_refl;
    try (destruct (Neo4j.sum_fails _ _); apply nodes_kept_refl).
  - destruct (Neo4j.has_document g (Neo4j.doc_id d)); simpl.
    + apply nodes_kept_refl.
    + repeat split; simpl; auto. intros d' Hin. apply in_or_app. auto.
  - repeat split; simpl; auto. intros n. apply merge_concept_keeps.
  - repeat split; simpl; auto. intros n. apply merge_entity_keeps.
  - repeat split; simpl; auto.
  - repeat split; simpl; auto.
  - destruct (Neo4j.valid_type type); simpl.
    + repeat split; simpl; auto.
    + apply nodes_kept_refl.
  - destruct gds; simpl.
    + repeat split; simpl; auto. intros n. unfold Neo4j.has_entity. simpl.
      unfold Neo4j.wcc_write. rewrite set_community_keeps. auto.
    + apply nodes_kept_refl.
  - repeat split; simpl; auto. intros n. unfold Neo4j.has_entity. simpl.
    unfold Neo4j.label_by_type. rewrite set_community_keeps. auto.
  - repeat split; simpl; auto. intros n. unfold Neo4j.has_concept. simpl.
    apply merge_concept_keeps.
  - repeat split; simpl; auto.
Qed.

Section KeepsNodes.
Variable gds : bool.
Variable L : Natural.
Variable E : Env.

Local Abbreviation exec := (Neo4j.exec gds).

Lemma keeps_refl (w : World Neo4j.Graph) : keeps_nodes w w.
Proof. split; [apply ecf_refl | apply nodes_kept_refl]. Qed.

Lemma keeps_trans (a b c : World Neo4j.Graph) :
  keeps_nodes a b -> keeps_nodes b c -> keeps_nodes a c.
Proof.
  intros [F1 K1] [F2 K2]. split.
  - eapply ecf_trans; eassumption.
  - eapply nodes_kept_trans; eassumption.
Qed.

Lemma keeps_local (w : World Neo4j.Graph) (t : nat) (n : N) :
  keeps_nodes w (mkWorld (store w) (history w) t n).
Proof. split; [apply ecf_local | apply nodes_kept_refl]. Qed.

Lemma keeps_run {A} (c : Neo4j.Cypher A) (w : World Neo4j.Graph) :
  Neo4j.is_clear (Neo4j.Sent c) = false ->
  keeps_nodes w (snd (session_run exec c w)).
Proof.
  intros Hc. split.
  - apply ecf_run, Hc.
  - pose proof (exec_keeps_nodes gds c (store w) Hc) as H.
    unfold session_run. destruct (Neo4j.exec gds A c (store w)) as [r s].
    exact H.
Qed.

Local Ltac keeps_steps :=
  preservation keeps_refl keeps_trans keeps_local ltac:(apply keeps_run; reflexivity).

Lemma ingestFile_keeps_nodes (filePath : string) :
  preserves keeps_nodes (KnowledgeGraph.ingestFile exec L E filePath false).
Proof.
  unfold KnowledgeGraph.ingestFile, KnowledgeGraph.extractEntitiesWithLLM,
    KnowledgeGraph.createEntityRelationships,
    KnowledgeGraph.createConceptRelationships.
  cbv iota. keeps_steps.
Qed.

Lemma legacy_ingestFile_keeps_nodes (filePath : string) :
  preserves keeps_nodes (Legacy.ingestFile exec L E filePath false).
Proof.
  unfold Legacy.ingestFile, Legacy.createConceptRelationships,
    KnowledgeGraph.createConceptRelationships.
  cbv iota. keeps_steps.
Qed.

Lemma ingestUrl_keeps_nodes (url : string) :
  preserves keeps_nodes (KnowledgeGraph.ingestUrl exec L E url false).
Proof.
  unfold KnowledgeGraph.ingestUrl, KnowledgeGraph.createConceptRelationships.
  cbv iota zeta. keeps_steps.
Qed.

Lemma processDocument_keeps_nodes (docName content type source : string) :
  preserves keeps_nodes
    (KnowledgeGraphCLI.processDocument exec E docName content type source).
Proof.
  unfold KnowledgeGraphCLI.processDocument. cbv zeta. keeps_steps.
Qed.

End KeepsNodes.

(** ** The loops of the command *)

Section Loops.
Context {St : Type}.
Variable R : World St -> World St -> Prop.
Hypothesis R_refl : forall w, R w w.
Hypothesis R_trans : forall a b c, R a b -> R b c -> R a c.
Variable ingest : string -> bool -> M St bool.
Hypothesis ingest_false : forall source, preserves R (ingest source false).

(** After the first item the flag is off whatever [clear] is. *)
Lemma ingest_each_tail (clear : bool) (sources : list string) (n : nat) :
  preserves R (KnowledgeGraph.ingest_each ingest clear sources n false).
Proof.
  revert n. induction sources as [|source rest IH]; intros n; simpl.
  - apply preserves_ret, R_refl.
  - rewrite andb_false_r.
    apply preserves_bind; [apply R_trans | apply ingest_false |].
    intros success. apply IH.
Qed.

Lemma ingest_each_unflagged (sources : list string) (n : nat) (first : bool) :
  preserves R (KnowledgeGraph.ingest_each ingest false sources n first).
Proof.
  revert n first. induction sources as [|source rest IH]; intros n first; simpl.
  - apply preserves_ret, R_refl.
  - apply preserves_bind; [apply R_trans | apply ingest_false |].
    intros success. apply IH.
Qed.

End Loops.

Lemma ingest_each_flag {St} (ingest : string -> bool -> M St bool) (clear : bool)
  (sources : list string) (n : nat) (first : bool) (w w' : World St)
  (r : nat * bool) :
  KnowledgeGraph.ingest_each ingest clear sources n first w = (Ok r, w') ->
  snd r = match sources with
          | [] => first
          | _ :: _ => false
          end.
Proof.
  revert n first w. induction sources as [|source rest IH]; intros n first w; simpl.
  - unfold ret. intros [= <- _]. reflexivity.
  - unfold bind at 1.
    destruct (ingest source (clear && first) w) as [[success|e] w1];
      [|discriminate].
    intros H. apply IH in H. rewrite H. destruct rest; reflexivity.
Qed.

Lemma clears_extends {St} (w w' : World St) :
  extends_clear_free w w' -> clears w' = clears w.
Proof.
  intros [evs [H F]]. unfold clears. rewrite H, filter_app, length_app.
  rewrite (clear_free_count evs F). lia.
Qed.

Lemma clears_after_first {St} (w w' : World St) :
  clears_first w w' -> clears w' = clears w + 1.
Proof.
  intros [ev [evs [H [Hc F]]]]. unfold clears.
  rewrite H, filter_app, length_app. simpl. rewrite Hc. simpl.
  rewrite (clear_free_count evs F). lia.
Qed.

Section Batch.
Context {St : Type}.
Variables ingestFile ingestUrl : string -> bool -> M St bool.
Hypothesis file_false : forall source, preserves extends_clear_free (ingestFile source false).
Hypothesis url_false : forall source, preserves extends_clear_free (ingestUrl source false).
Hypothesis file_true :
  forall source w, snd (ingestFile source true w) = w
                   \/ clears_first w (snd (ingestFile source true w)).
Hypothesis url_true :
  forall source w, snd (ingestUrl source true w) = w
                   \/ clears_first w (snd (ingestUrl source true w)).

Lemma ingest_each_first (ingest : string -> bool -> M St bool) (clear : bool)
  (sources : list string) (n : nat) (first : bool) (w : World St) :
  (forall source, preserves extends_clear_free (ingest source false)) ->
  (forall source w, snd (ingest source true w) = w
                    \/ clears_first w (snd (ingest source true w))) ->
  let w' := snd (KnowledgeGraph.ingest_each ingest clear sources n first w) in
  extends_clear_free w w' \/ clears_first w w'.
Proof.
  intros Hfalse Htrue. cbv zeta. destruct sources as [|source rest]; simpl.
  - left. apply ecf_refl.
  - unfold bind.
    pose proof (ingest_each_tail extends_clear_free ecf_refl ecf_trans ingest
                  Hfalse clear rest) as Htail.
    destruct (clear && first) eqn:Hflag.
    + specialize (Htrue source w).
      destruct (ingest source true w) as [[success|e] w1]; simpl in *.
      * destruct Htrue as [->|Hc].
        -- left. apply Htail.
        -- right. eapply clears_first_then; [exact Hc | apply Htail].
      * destruct Htrue as [->|Hc]; [left; apply ecf_refl | right; exact Hc].
    + pose proof (Hfalse source w) as H1.
      destruct (ingest source false w) as [[success|e] w1]; simpl in *.
      * left. eapply ecf_trans; [exact H1 | apply Htail].
      * left. exact H1.
Qed.

Lemma ingest_urls_first (urls : option (list string)) (clear : bool)
  (n : nat) (first : bool) (w : World St) :
  let w' := snd (bind
                   match urls with
                   | Some l => KnowledgeGraph.ingest_each ingestUrl clear l n first
                   | None => ret (n, first)
                   end
                   (fun afterUrls => ret (fst afterUrls)) w) in
  (first = false -> extends_clear_free w w')
  /\ (extends_clear_free w w' \/ clears_first w w').
Proof.
  cbv zeta.
  match goal with |- (_ -> _ _ ?x) /\ _ => remember x as w' eqn:Hw' end.
  unfold bind in Hw'. destruct urls as [l|].
  - pose proof (ingest_each_first ingestUrl clear l n first w url_false url_true) as H1.
    pose proof (ingest_each_tail extends_clear_free ecf_refl ecf_trans ingestUrl
                  url_false clear l n w) as H0.
    cbv zeta in H1.
    split.
    + intros ->.
      destruct (KnowledgeGraph.ingest_each ingestUrl clear l n false w)
        as [[r|e] w1]; simpl in *; subst w'; exact H0.
    + destruct (KnowledgeGraph.ingest_each ingestUrl clear l n first w)
        as [[r|e] w1]; simpl in *; subst w'; exact H1.
  - simpl in Hw'. subst w'. split; [intros _|left]; apply ecf_refl.
Qed.

Lemma ingest_loops_first (files urls : option (list string)) (clear : bool)
  (w : World St) :
  let w' := snd (KnowledgeGraph.ingest_loops ingestFile ingestUrl files urls clear w) in
  extends_clear_free w w' \/ clears_first w w'.
Proof.
  cbv zeta. unfold KnowledgeGraph.ingest_loops.
  match goal with |- _ _ ?x \/ _ => remember x as w' eqn:Hw' end.
  unfold bind at 1 in Hw'. destruct files as [l|].
  - pose proof (ingest_each_first ingestFile clear l 0 true w file_false file_true) as H1.
    cbv zeta in H1.
    destruct (KnowledgeGraph.ingest_each ingestFile clear l 0 true w)
      as [[[n1 f1]|e] w1] eqn:Hrun; simpl in *; [|subst w'; exact H1].
    pose proof (ingest_each_flag _ _ _ _ _ _ _ _ Hrun) as Hflag.
    destruct (ingest_urls_first urls clear n1 f1 w1) as [Hoff Hany].
    rewrite <- Hw' in Hoff, Hany.
    destruct l as [|source rest].
    + simpl in Hrun. unfold ret in Hrun. injection Hrun as <- <- <-. exact Hany.
    + specialize (Hoff Hflag). destruct H1 as [H1|H1].
      * left. eapply ecf_trans; eassumption.
      * right. eapply clears_first_then; eassumption.
  - simpl in Hw'. destruct (ingest_urls_first urls clear 0 true w) as [_ Hany].
    subst w'. exact Hany.
Qed.

End Batch.

(** C10. In a batch the graph-wide clear is sent at most once, whatever the
    store does; in the loops over the sources it is, when sent, the first
    statement sent; each source after the first is ingested with the flag
    off, sends no clear, and leaves every Document node in place and every
    Concept and Entity name bound to a node.  This holds for the command of
    knowledge-graph.js and for the earlier copy. *)
Theorem clear_before_first_source_only :
  (forall (St : Type) (exec : forall A, Neo4j.Cypher A -> St -> result A * St)
          (L : Natural) (E : Env) (files urls : option (list string))
          (clear : bool) (w : World St),
      clears (snd (KnowledgeGraph.ingest_command exec L E files urls clear w))
      <= clears w + 1
      /\ clears (snd (Legacy.ingest_command exec L E files urls clear w))
         <= clears w + 1)
  /\ (forall (St : Type) (exec : forall A, Neo4j.Cypher A -> St -> result A * St)
             (L : Natural) (E : Env) (files urls : option (list string))
             (clear : bool) (w : World St),
         let current :=
           snd (KnowledgeGraph.ingest_loops (KnowledgeGraph.ingestFile exec L E)
                  (KnowledgeGraph.ingestUrl exec L E) files urls clear w) in
         let legacy :=
           snd (KnowledgeGraph.ingest_loops (Legacy.ingestFile exec L E)
                  (Legacy.ingestUrl exec L E) files urls clear w) in
         (extends_clear_free w current \/ clears_first w current)
         /\ (extends_clear_free w legacy \/ clears_first w legacy))
  /\ (forall (St : Type) (ingest : string -> bool -> M St bool) (clear : bool)
             (source : string) (rest : list string) (n : nat) (first : bool),
         KnowledgeGraph.ingest_each ingest clear (source :: rest) n first
         = bind (ingest source (clear && first))
             (fun success =>
                KnowledgeGraph.ingest_each ingest clear rest
                  (if success then S n else n) false))
  /\ (forall (gds : bool) (L : Natural) (E : Env) (clear : bool)
             (rest : list string) (n : nat) (w : World Neo4j.Graph),
         let exec := Neo4j.exec gds in
         keeps_nodes w
           (snd (KnowledgeGraph.ingest_each (KnowledgeGraph.ingestFile exec L E)
                   clear rest n false w))
         /\ keeps_nodes w
              (snd (KnowledgeGraph.ingest_each (KnowledgeGraph.ingestUrl exec L E)
                      clear rest n false w))
         /\ keeps_nodes w
              (snd (KnowledgeGraph.ingest_each (Legacy.ingestFile exec L E)
                      clear rest n false w))).
Proof.
  split; [|split; [|split]].
  - intros St exec L E files urls clear w.
    assert (Hcount : forall w0 w1 w2 : World St,
               extends_clear_free w0 w1 ->
               extends_clear_free w1 w2 \/ clears_first w1 w2 ->
               clears w2 <= clears w0 + 1).
    { intros w0 w1 w2 H1 [H2|H2].
      - rewrite (clears_extends _ _ H2), (clears_extends _ _ H1). lia.
      - rewrite (clears_after_first _ _ H2), (clears_extends _ _ H1). lia. }
    split.
    + unfold KnowledgeGraph.ingest_command.
      destruct files, urls; try (simpl; lia);
        (destruct (connect E); simpl; [|lia]);
        unfold bind at 1;
        pose proof (proj1 (initializeSchema_clear_free exec) w) as Hs;
        (destruct (KnowledgeGraph.initializeSchema exec w) as [[b|e] w1]; simpl in *;
         [|rewrite (clears_extends _ _ Hs); lia]);
        unfold bind at 1;
        match goal with
        | |- context [KnowledgeGraph.ingest_loops ?f ?u ?fs ?us ?c w1] =>
            pose proof (ingest_loops_first f u
                          (ingestFile_clear_free exec L E)
                          (ingestUrl_clear_free exec L E)
                          (ingestFile_clears_first exec L E)
                          (ingestUrl_clears_first exec L E) fs us c w1) as Hl;
            cbv zeta in Hl;
            destruct (KnowledgeGraph.ingest_loops f u fs us c w1) as [[t|e] w2];
            simpl in *; eapply Hcount; eassumption
        end.
    + unfold Legacy.ingest_command.
      destruct files, urls; try (simpl; lia);
        (destruct (connect E); simpl; [|lia]);
        unfold bind at 1;
        pose proof (proj2 (initializeSchema_clear_free exec) w) as Hs;
        (destruct (Legacy.initializeSchema exec w) as [[b|e] w1]; simpl in *;
         [|rewrite (clears_extends _ _ Hs); lia]);
        unfold bind at 1;
        match goal with
        | |- context [KnowledgeGraph.ingest_loops ?f ?u ?fs ?us ?c w1] =>
            pose proof (ingest_loops_first f u
                          (legacy_ingestFile_clear_free exec L E)
                          (ingestUrl_clear_free exec L E)
                          (legacy_ingestFile_clears_first exec L E)
                          (ingestUrl_clears_first exec L E) fs us c w1) as Hl;
            cbv zeta in Hl;
            destruct (KnowledgeGraph.ingest_loops f u fs us c w1) as [[t|e] w2];
            simpl in *; eapply Hcount; eassumption
        end.
  - intros St exec L E files urls clear w. cbv zeta. split.
    + apply ingest_loops_first.
      * apply ingestFile_clear_free.
      * apply ingestUrl_clear_free.
      * apply ingestFile_clears_first.
      * apply ingestUrl_clears_first.
    + apply ingest_loops_first.
      * apply legacy_ingestFile_clear_free.
      * apply ingestUrl_clear_free.
      * apply legacy_ingestFile_clears_first.
      * apply ingestUrl_clears_first.
  - reflexivity.
  - intros gds L E clear rest n w. cbv zeta. split; [|split].
    + apply (ingest_each_tail keeps_nodes keeps_refl keeps_trans).
      apply ingestFile_keeps_nodes.
    + apply (ingest_each_tail keeps_nodes keeps_refl keeps_trans).
      apply ingestUrl_keeps_nodes.
    + apply (ingest_each_tail keeps_nodes keeps_refl keeps_trans).
      apply legacy_ingestFile_keeps_nodes.
Qed.

(** A batch with the flag on a graph that already holds a document: the
    clear is sent once, during the first file, and the documents of both
    files and of the page are in the graph at the end. *)
Example clear_once_in_batch :
  let before :=
    snd (KnowledgeGraph.ingestFile (Neo4j.exec true) Sample.natural Sample.env
           "b.txt" false (start Neo4j.empty)) in
  let run :=
    KnowledgeGraph.ingest_command (Neo4j.exec true) Sample.natural Sample.env
      (Some ["a.txt"; "notes.txt"]) (Some ["http://example"]) true
      (mkWorld (store before) [] 1 0%N) in
  fst run = Ok (Some 3)
  /\ clears (snd run) = 1
  /\ map Neo4j.doc_name (Neo4j.documents (store before)) = ["b.txt"]
  /\ map Neo4j.doc_name (Neo4j.documents (store (snd run)))
     = ["a.txt"; "notes.txt"; "http://example"].
Proof. vm_compute. repeat split. Qed.

(* ================================================================== *)
(** * RELATED_TO relationships *)
(* ================================================================== *)

Lemma joins_sym (a b : string) (r : Neo4j.Related) :
  Neo4j.joins a b r = Neo4j.joins b a r.
Proof. unfold Neo4j.joins. apply orb_comm. Qed.

Lemma related_between_sym (g : Neo4j.Graph) (a b : string) :
  related_between g a b = related_between g b a.
Proof.
  unfold related_between. apply filter_ext. intros r. apply joins_sym.
Qed.

Lemma weight_between_sym (g : Neo4j.Graph) (a b : string) :
  weight_between g a b = weight_between g b a.
Proof. unfold weight_between. rewrite related_between_sym. reflexivity. Qed.


Lemma filter_none {A} (f : A -> bool) (l : list A) :
  existsb f l = false -> filter f l = [].
Proof.
  induction l as [|x l IH]; simpl; [reflexivity|].
  destruct (f x); simpl; [discriminate | exact IH].
Qed.

Lemma filter_some {A} (f : A -> bool) (l : list A) :
  existsb f l = true -> exists x rest, filter f l = x :: rest /\ f x = true.
Proof.
  induction l as [|x l IH]; simpl; [discriminate|].
  destruct (f x) eqn:Hx; simpl.
  - intros _. exists x, (filter f l). auto.
  - exact IH.
Qed.

Lemma filter_map_commute {A} (f : A -> bool) (g : A -> A) (l : list A) :
  (forall x, f (g x) = f x) -> filter f (map g l) = map g (filter f l).
Proof.
  intros H. induction l as [|x l IH]; simpl; [reflexivity|].
  rewrite H. destruct (f x); simpl; rewrite IH; reflexivity.
Qed.

Lemma joins_bump (x y a b : string) (w : JS.number) (r : Neo4j.Related) :
  Neo4j.joins x y (bump a b w r) = Neo4j.joins x y r.
Proof. unfold bump. destruct (Neo4j.joins a b r); reflexivity. Qed.

Lemma merge_related_cases (g : Neo4j.Graph) (a b : string) (w : JS.number) :
  Neo4j.merge_related g a b w
  = if Neo4j.has_concept g a && Neo4j.has_concept g b
    then if existsb (Neo4j.joins a b) (Neo4j.related g)
         then map (bump a b w) (Neo4j.related g)
         else Neo4j.related g ++ [Neo4j.mkRelated a b w]
    else Neo4j.related g.
Proof. reflexivity. Qed.








(** ** One relationship per pair, whatever is merged *)






Section RelatedGrows.
Variable gds : bool.
Variable L : Natural.
Variable E : Env.

Local Abbreviation exec := (Neo4j.exec gds).




















End RelatedGrows.

(** ** Loops on the store *)

Lemma bind_unit {St B} (m : M St unit) (k : unit -> M St B) (w : World St) :
  succeeds m -> bind m k w = k tt (snd (m w)).
Proof.
  intros H. unfold bind. rewrite (succeeds_unit m w H). reflexivity.
Qed.

(** In a loop whose steps never throw and preserve [R], the step of an item
    of the list runs in a world related to the first and leaves a world
    related to the last. *)
Lemma forEach_step {St A} (R : World St -> World St -> Prop)
  (l : list A) (body : A -> M St unit) (x : A) (w : World St) :
  (forall w, R w w) -> (forall a b c, R a b -> R b c -> R a c) ->
  (forall y, preserves R (body y)) -> (forall y, succeeds (body y)) ->
  In x l ->
  exists w1, R w w1 /\ R (snd (body x w1)) (snd (forEach l body w)).
Proof.
  intros Hrefl Htrans Hpres Hsucc. revert w.
  induction l as [|y l IH]; intros w Hin; [destruct Hin|].
  simpl. rewrite (bind_unit _ _ _ (Hsucc y)).
  destruct Hin as [->|Hin].
  - exists w. split; [apply Hrefl|].
    apply (preserves_forEach R Hrefl Htrans l body Hpres).
  - destruct (IH (snd (body y w)) Hin) as [w1 [H1 H2]].
    exists w1. split; [|exact H2].
    eapply Htrans; [apply Hpres | exact H1].
Qed.

Lemma run_succeeds (gds : bool) {A} (c : Neo4j.Cypher A) :
  match c with
  | Neo4j.CreateDocument _ | Neo4j.MergeEntityRel _ _ _ _ _ | Neo4j.GdsWcc
  | Neo4j.DocQuery _ => False
  | _ => True
  end ->
  succeeds (session_run (Neo4j.exec gds) c).
Proof.
  intros Hc w. unfold session_run.
  destruct c; simpl in *; try contradiction; eexists; reflexivity.
Qed.















Section Joined.
Variable gds : bool.

Local Abbreviation exec := (Neo4j.exec gds).

Section Merges.
Context {A : Type}.
Variable ends : A -> string * string.
Variable weight : A -> nat.
Variable body : A -> M Neo4j.Graph unit.
Hypothesis Hbody :
  forall y w0,
    store (snd (body y w0))
    = Neo4j.with_related (store w0)
        (Neo4j.merge_related (store w0) (fst (ends y)) (snd (ends y))
           (JS.Num (weight y))).
Hypothesis Hsucc : forall y, succeeds (body y).




End Merges.




End Joined.

(* ================================================================== *)
(** * Concept frequencies *)
(* ================================================================== *)

Lemma concept_frequency_map (f : Neo4j.Concept -> Neo4j.Concept)
  (cs : list Neo4j.Concept) (n : string) :
  (forall c, Neo4j.c_name (f c) = Neo4j.c_name c) ->
  Neo4j.concept_frequency (map f cs) n
  = match find (fun c => String.eqb (Neo4j.c_name c) n) cs with
    | Some c => Some (Neo4j.c_frequency (f c))
    | None => None
    end.
Proof.
  intros Hf. induction cs as [|c cs IH]; simpl; [reflexivity|].
  rewrite Hf. destruct (String.eqb (Neo4j.c_name c) n); [reflexivity | exact IH].
Qed.

Lemma concept_frequency_find (cs : list Neo4j.Concept) (n : string) :
  Neo4j.concept_frequency cs n
  = match find (fun c => String.eqb (Neo4j.c_name c) n) cs with
    | Some c => Some (Neo4j.c_frequency c)
    | None => None
    end.
Proof.
  induction cs as [|c cs IH]; simpl; [reflexivity|].
  destruct (String.eqb (Neo4j.c_name c) n); [reflexivity | exact IH].
Qed.

Lemma concept_frequency_app (cs cs' : list Neo4j.Concept) (n : string) :
  Neo4j.concept_frequency (cs ++ cs') n
  = match Neo4j.concept_frequency cs n with
    | Some f => Some f
    | None => Neo4j.concept_frequency cs' n
    end.
Proof.
  induction cs as [|c cs IH]; simpl; [reflexivity|].
  destruct (String.eqb (Neo4j.c_name c) n); [reflexivity | exact IH].
Qed.

Lemma concept_frequency_none (cs : list Neo4j.Concept) (n : string) :
  existsb (fun c => String.eqb (Neo4j.c_name c) n) cs = false ->
  Neo4j.concept_frequency cs n = None.
Proof.
  induction cs as [|c cs IH]; simpl; [reflexivity|].
  destruct (String.eqb (Neo4j.c_name c) n); simpl; [discriminate | exact IH].
Qed.

(** The merge: an existing node gains the candidate's frequency, a missing
    one is created with it, and the other nodes keep theirs. *)
Lemma merge_concept_frequency (cs : list Neo4j.Concept) (n n' : string)
  (f : JS.value) :
  Neo4j.concept_frequency (Neo4j.merge_concept cs n f) n'
  = if String.eqb n n'
    then Some (merged_frequency (Neo4j.concept_frequency cs n) f)
    else Neo4j.concept_frequency cs n'.
Proof.
  unfold Neo4j.merge_concept, merged_frequency.
  destruct (existsb (fun c => String.eqb (Neo4j.c_name c) n) cs) eqn:Hex.
  - rewrite concept_frequency_map
      by (intros c; destruct (String.eqb (Neo4j.c_name c) n); reflexivity).
    rewrite !concept_frequency_find.
    destruct (String.eqb n n') eqn:Hn.
    + apply String.eqb_eq in Hn. subst n'.
      destruct (find (fun c => String.eqb (Neo4j.c_name c) n) cs) as [c|] eqn:Hf.
      * apply find_some in Hf. destruct Hf as [_ Hc]. rewrite Hc. reflexivity.
      * exfalso. apply existsb_exists in Hex. destruct Hex as [c [Hin Hc]].
        apply (find_none _ _ Hf) in Hin. congruence.
    + destruct (find (fun c => String.eqb (Neo4j.c_name c) n') cs) as [c|] eqn:Hf;
        [|reflexivity].
      apply find_some in Hf. destruct Hf as [_ Hc].
      destruct (String.eqb (Neo4j.c_name c) n) eqn:Hcn; [|reflexivity].
      apply String.eqb_eq in Hc, Hcn. subst. rewrite String.eqb_refl in Hn.
      discriminate.
  - rewrite concept_frequency_app. simpl.
    rewrite (concept_frequency_none cs n Hex).
    destruct (String.eqb n n') eqn:Hn.
    + apply String.eqb_eq in Hn. subst n'.
      rewrite (concept_frequency_none cs n Hex). reflexivity.
    + destruct (Neo4j.concept_frequency cs n'); reflexivity.
Qed.

(** A run of merges, one per key: the node of a key that was merged has the
    merged frequency, every other node its own. *)
Lemma merges_frequency {A} (key : A -> string) (val : A -> JS.value)
  (l : list A) (nodes : list Neo4j.Concept) (n : string) :
  NoDup (map key l) ->
  Neo4j.concept_frequency
    (fold_left (fun acc x => Neo4j.merge_concept acc (key x) (val x)) l nodes) n
  = match find (fun x => String.eqb (key x) n) l with
    | Some x => Some (merged_frequency (Neo4j.concept_frequency nodes n) (val x))
    | None => Neo4j.concept_frequency nodes n
    end.
Proof.
  revert nodes. induction l as [|x l IH]; intros nodes Hnd; simpl; [reflexivity|].
  inversion Hnd as [|? ? Hnot Hnd']; subst.
  rewrite (IH _ Hnd'), merge_concept_frequency.
  destruct (String.eqb (key x) n) eqn:Hx.
  - apply String.eqb_eq in Hx. subst n.
    destruct (find (fun y => String.eqb (key y) (key x)) l) as [y|] eqn:Hf;
      [|reflexivity].
    exfalso. apply find_some in Hf. destruct Hf as [Hin Hy].
    apply String.eqb_eq in Hy. apply Hnot. rewrite <- Hy. apply in_map, Hin.
  - reflexivity.
Qed.

Lemma find_key {A} (key : A -> string) (l : list A) (x : A) :
  NoDup (map key l) -> In x l ->
  find (fun y => String.eqb (key y) (key x)) l = Some x.
Proof.
  induction l as [|y l IH]; intros Hnd Hin; [destruct Hin|].
  inversion Hnd as [|? ? Hnot Hnd']; subst. simpl.
  destruct Hin as [->|Hin].
  - rewrite String.eqb_refl. reflexivity.
  - destruct (String.eqb (key y) (key x)) eqn:Hy.
    + exfalso. apply String.eqb_eq in Hy. apply Hnot. rewrite Hy.
      apply in_map, Hin.
    + apply IH; assumption.
Qed.

Lemma merged_concepts_frequency (cs : list Concept) (nodes : list Neo4j.Concept)
  (c : Concept) :
  NoDup (map name cs) -> In c cs ->
  Neo4j.concept_frequency (merged_concepts cs nodes) (name c)
  = Some (merged_frequency (Neo4j.concept_frequency nodes (name c)) (frequency c)).
Proof.
  intros Hnd Hin. unfold merged_concepts.
  rewrite (merges_frequency name frequency cs nodes (name c) Hnd).
  rewrite (find_key name cs c Hnd Hin). reflexivity.
Qed.

Lemma merged_names_frequency (cs : list string) (nodes : list Neo4j.Concept)
  (c : string) :
  NoDup cs -> In c cs ->
  Neo4j.concept_frequency (merged_names cs nodes) c
  = Some (merged_frequency (Neo4j.concept_frequency nodes c) (JS.Count 1)).
Proof.
  intros Hnd Hin. unfold merged_names.
  assert (Hnd' : NoDup (map (fun x : string => x) cs)) by (rewrite map_id; exact Hnd).
  rewrite (merges_frequency (fun x => x) (fun _ => JS.Count 1) cs nodes c Hnd').
  rewrite (find_key (fun x => x) cs c Hnd' Hin). reflexivity.
Qed.

(** ** Running an ingestion on the store *)

Lemma bind_ret {St A B} (a : A) (k : A -> M St B) (w : World St) :
  bind (ret a) k w = k a w.
Proof. reflexivity. Qed.

Lemma bind_reading {St A B} (source : nat -> A) (k : A -> M St B) (w : World St) :
  bind (reading source) k w
  = k (source (ticks w)) (mkWorld (store w) (history w) (S (ticks w)) (totalSize w)).
Proof. reflexivity. Qed.

Lemma bind_lift {St A B} (r : result A) (k : A -> M St B) (w : World St) :
  bind (lift r) k w = match r with
                      | Ok a => k a w
                      | Throw e => (Throw e, w)
                      end.
Proof. destruct r; reflexivity. Qed.

Lemma bind_create {B} (gds : bool) (d : Neo4j.Document)
  (k : unit -> M Neo4j.Graph B) (w : World Neo4j.Graph) :
  bind (session_run (Neo4j.exec gds) (Neo4j.CreateDocument d)) k w
  = if Neo4j.has_document (store w) (Neo4j.doc_id d)
    then (Throw "Node already exists with label Document and this id",
          mkWorld (store w)
            (history w ++ [mkEvent (Neo4j.Sent (Neo4j.CreateDocument d))
                             (Some "Node already exists with label Document and this id")])
            (ticks w) (totalSize w))
    else k tt (mkWorld (Neo4j.with_documents (store w) (Neo4j.documents (store w) ++ [d]))
                 (history w ++ [mkEvent (Neo4j.Sent (Neo4j.CreateDocument d)) None])
                 (ticks w) (totalSize w)).
Proof.
  unfold bind, session_run. simpl.
  destruct (Neo4j.has_document (store w) (Neo4j.doc_id d)); reflexivity.
Qed.

Section Runs.
Variable gds : bool.
Variable L : Natural.
Variable E : Env.

Local Abbreviation exec := (Neo4j.exec gds).

Local Abbreviation merge_each := (merge_each gds).

Lemma merge_step_succeeds (docId : string) (concept : Concept) :
  succeeds
    (session_run exec (Neo4j.MergeConcept (name concept) (frequency concept)) ;;
     session_run exec
       (Neo4j.CreateContains docId Neo4j.ConceptLabel (name concept)
          (frequency concept)))%js.
Proof.
  apply succeeds_bind; [|intros _]; apply run_succeeds; exact I.
Qed.

Lemma merge_each_succeeds (docId : string) (concepts : list Concept) :
  succeeds (merge_each docId concepts).
Proof. apply succeeds_forEach. intros c. apply merge_step_succeeds. Qed.

Lemma merge_each_store (docId : string) (concepts : list Concept)
  (w : World Neo4j.Graph) :
  let w' := snd (merge_each docId concepts w) in
  Neo4j.concepts (store w') = merged_concepts concepts (Neo4j.concepts (store w))
  /\ Neo4j.related (store w') = Neo4j.related (store w)
  /\ Neo4j.documents (store w') = Neo4j.documents (store w).
Proof.
  cbv zeta. revert w. unfold merge_each.
  induction concepts as [|c cs IH]; intros w; simpl.
  - auto.
  - rewrite (bind_unit _ _ _ (merge_step_succeeds docId c)).
    destruct (IH (snd ((session_run exec (Neo4j.MergeConcept (name c) (frequency c)) ;;
                        session_run exec
                          (Neo4j.CreateContains docId Neo4j.ConceptLabel (name c)
                             (frequency c)))%js w))) as [H1 [H2 H3]].
    rewrite H1, H2, H3. auto.
Qed.

Lemma createConceptRelationships_succeeds (concepts : list EntityObj) :
  succeeds (KnowledgeGraph.createConceptRelationships exec concepts).
Proof.
  unfold KnowledgeGraph.createConceptRelationships.
  apply succeeds_forEach. intros p. apply run_succeeds. exact I.
Qed.

Lemma createConceptRelationships_concepts (concepts : list EntityObj)
  (w : World Neo4j.Graph) :
  let w' := snd (KnowledgeGraph.createConceptRelationships exec concepts w) in
  Neo4j.concepts (store w') = Neo4j.concepts (store w)
  /\ Neo4j.documents (store w') = Neo4j.documents (store w).
Proof.
  cbv zeta. unfold KnowledgeGraph.createConceptRelationships.
  revert w. induction (pairs concepts) as [|p ps IH]; intros w; simpl.
  - auto.
  - rewrite bind_unit by (apply run_succeeds; exact I).
    destruct (IH (snd (session_run exec
                         (Neo4j.MergeRelated (entity_name (fst p)) (entity_name (snd p))
                            (JS.Math_min (JS.of_option (entity_frequency (fst p)))
                               (JS.of_option (entity_frequency (snd p))))) w)))
      as [H1 H2].
    rewrite H1, H2. auto.
Qed.

(** A successful [ingestUrl] without the flag: the page was fetched, the
    document was created, the concepts were merged and then related. *)
Lemma ingestUrl_inversion (url : string) (w w' : World Neo4j.Graph) :
  KnowledgeGraph.ingestUrl exec L E url false w = (Ok true, w') ->
  exists text docId w2,
    fetch_body_text E url = Ok text
    /\ Neo4j.concepts (store w2) = Neo4j.concepts (store w)
    /\ Neo4j.related (store w2) = Neo4j.related (store w)
    /\ w' = snd (KnowledgeGraph.createConceptRelationships exec
                   (map KnowledgeGraph.as_entity
                      (KnowledgeGraph.extractConcepts L (page_content text)))
                   (snd (merge_each docId
                           (KnowledgeGraph.extractConcepts L (page_content text)) w2))).
Proof.
  unfold KnowledgeGraph.ingestUrl, tryCatch. rewrite bind_lift.
  destruct (fetch_body_text E url) as [text|e]; [|discriminate].
  cbv zeta. fold (page_content text).
  destruct (String.length (page_content text) =? 0); [discriminate|].
  destruct (KnowledgeGraph.maxFileSize E <? _)%N; [discriminate|].
  rewrite bind_ret, bind_reading, bind_create. cbv beta.
  match goal with
  | |- context [Neo4j.has_document ?s ?i] => destruct (Neo4j.has_document s i)
  end; [discriminate|].
  match goal with
  | |- context [forEach ?cs ?body] =>
      change (forEach cs body) with
        (merge_each ("url_" ++ JS.substring0 10 (base64 E url) ++ "_"
                     ++ JS.show_N (Date_now E (ticks w)))%string cs)
  end.
  rewrite (bind_unit _ _ _ (merge_each_succeeds _ _)).
  rewrite (bind_unit _ _ _ (createConceptRelationships_succeeds _)).
  simpl. intros [= <-].
  eexists text, _, _. split; [reflexivity|]. split; [|split; [|reflexivity]];
    reflexivity.
Qed.


End Runs.

Section CliRuns.
Variable gds : bool.
Variable E : Env.

Local Abbreviation exec := (Neo4j.exec gds).

Lemma run_totalSize {A} (c : Neo4j.Cypher A) (w : World Neo4j.Graph) :
  totalSize (snd (session_run exec c w)) = totalSize w.
Proof.
  unfold session_run. destruct (Neo4j.exec gds A c (store w)). reflexivity.
Qed.

Lemma forEach_totalSize {A} (l : list A) (body : A -> M Neo4j.Graph unit)
  (w : World Neo4j.Graph) :
  (forall x w0, totalSize (snd (body x w0)) = totalSize w0) ->
  totalSize (snd (forEach l body w)) = totalSize w.
Proof.
  intros Hb. revert w. induction l as [|x l IH]; intros w; simpl.
  - reflexivity.
  - unfold bind. specialize (Hb x w).
    destruct (body x w) as [[[]|e] w1]; simpl in *.
    + rewrite IH. exact Hb.
    + exact Hb.
Qed.

Lemma merge_names_each_succeeds (docId : string) (concepts : list string) :
  succeeds (merge_names_each gds docId concepts).
Proof. apply succeeds_forEach. intros c. apply run_succeeds. exact I. Qed.

Lemma relate_each_succeeds (concepts : list string) :
  succeeds (relate_each gds concepts).
Proof. apply succeeds_forEach. intros c. apply run_succeeds. exact I. Qed.

Lemma merge_names_each_store (docId : string) (concepts : list string)
  (w : World Neo4j.Graph) :
  let w' := snd (merge_names_each gds docId concepts w) in
  Neo4j.concepts (store w') = merged_names concepts (Neo4j.concepts (store w))
  /\ Neo4j.related (store w') = Neo4j.related (store w).
Proof.
  cbv zeta. revert w. unfold merge_names_each.
  induction concepts as [|c cs IH]; intros w; simpl.
  - auto.
  - rewrite bind_unit by (apply run_succeeds; exact I).
    destruct (IH (snd (session_run exec (Neo4j.MergeConceptContains c docId) w)))
      as [H1 H2].
    rewrite H1, H2. auto.
Qed.

Lemma relate_each_concepts (concepts : list string) (w : World Neo4j.Graph) :
  Neo4j.concepts (store (snd (relate_each gds concepts w)))
  = Neo4j.concepts (store w).
Proof.
  unfold relate_each. revert w.
  induction (pairs concepts) as [|p ps IH]; intros w; simpl.
  - reflexivity.
  - rewrite bind_unit by (apply run_succeeds; exact I). rewrite IH. reflexivity.
Qed.

(** A successful [processDocument]: the document was created, the concepts
    were merged, each with the constant 1, and then related. *)
Lemma processDocument_inversion (docName content type source : string)
  (summary : KnowledgeGraphCLI.Summary) (w w' : World Neo4j.Graph) :
  KnowledgeGraphCLI.processDocument exec E docName content type source w
  = (Ok summary, w') ->
  exists docId w2,
    Neo4j.concepts (store w2) = Neo4j.concepts (store w)
    /\ Neo4j.related (store w2) = Neo4j.related (store w)
    /\ store w'
       = store (snd (relate_each gds (KnowledgeGraphCLI.extractConcepts content)
                       (snd (merge_names_each gds docId
                               (KnowledgeGraphCLI.extractConcepts content) w2))))
    /\ totalSize w' = (totalSize w + N.of_nat (String.length content))%N.
Proof.
  unfold KnowledgeGraphCLI.processDocument. cbv zeta.
  rewrite bind_reading, bind_reading. unfold tryCatch.
  rewrite bind_create. cbv beta.
  match goal with
  | |- context [Neo4j.has_document ?s ?i] => destruct (Neo4j.has_document s i)
  end; [discriminate|].
  match goal with
  | |- context [forEach (KnowledgeGraphCLI.extractConcepts content) ?body] =>
      match body with
      | (fun concept => session_run _ (Neo4j.MergeConceptContains concept ?docId)) =>
          change (forEach (KnowledgeGraphCLI.extractConcepts content) body)
            with (merge_names_each gds docId (KnowledgeGraphCLI.extractConcepts content))
      end
  end.
  match goal with
  | |- context [forEach (pairs ?cs) ?body] =>
      change (forEach (pairs cs) body) with (relate_each gds cs)
  end.
  rewrite (bind_unit _ _ _ (merge_names_each_succeeds _ _)).
  rewrite (bind_unit _ _ _ (relate_each_succeeds _)).
  simpl. intros [= _ <-]. simpl.
  eexists _, _. split; [|split; [|split; [reflexivity|]]].
  - reflexivity.
  - reflexivity.
  - unfold relate_each, merge_names_each.
    rewrite !forEach_totalSize by (intros; apply run_totalSize).
    reflexivity.
Qed.

End CliRuns.

(** ** The concepts of KnowledgeGraphCLI are pairwise distinct *)

Lemma split_go_no_sep (sep : ascii -> bool) (s cur : string) (prev : bool) :
  (forall c, In c (list_ascii_of_string cur) -> sep c = false) ->
  forall piece, In piece (JS.split_go sep s cur prev) ->
  forall c, In c (list_ascii_of_string piece) -> sep c = false.
Proof.
  revert cur prev. induction s as [|a s IH]; intros cur prev Hcur piece Hin; simpl in Hin.
  - destruct Hin as [<-|[]]. exact Hcur.
  - destruct (sep a) eqn:Ha.
    + destruct prev.
      * eapply IH; [|exact Hin]. intros c [].
      * destruct Hin as [<-|Hin]; [exact Hcur|].
        eapply IH; [|exact Hin]. intros c [].
    + eapply IH; [|exact Hin].
      intros c Hc.
      assert (Happ : forall x y, list_ascii_of_string (x ++ y)
                                 = (list_ascii_of_string x ++ list_ascii_of_string y)%list).
      { intros x y. induction x as [|b x IHx]; simpl; [reflexivity|].
        rewrite IHx. reflexivity. }
      rewrite Happ in Hc. apply in_app_or in Hc.
      destruct Hc as [Hc|[<-|[]]]; [apply Hcur, Hc | exact Ha].
Qed.

Lemma split_words_no_space (s word : string) :
  In word (KnowledgeGraphCLI.split_words s) -> ~ has_space word.
Proof.
  unfold KnowledgeGraphCLI.split_words, JS.split, has_space. intros Hin Hsp.
  pose proof (split_go_no_sep JS.is_space _ EmptyString false
                (fun c (H : In c []) => match H with end) word Hin " "%char Hsp) as H.
  discriminate.
Qed.

Lemma windows_has_space (words : list string) (phrase : string) :
  In phrase (KnowledgeGraphCLI.windows words) -> has_space phrase.
Proof.
  induction words as [|w1 rest IH]; simpl; [intros []|].
  destruct rest as [|w2 rest']; [intros []|].
  intros Hin. apply in_app_or in Hin. destruct Hin as [Hin|Hin].
  - destruct (_ && _ && _ && _); [|destruct Hin].
    destruct Hin as [<-|[]]. unfold has_space.
    clear. induction w1 as [|a w1 IHw]; simpl; auto.
  - apply IH, Hin.
Qed.

Lemma count_keys (items : list string) (o : JS.object JS.value) (k : string) :
  In k (map fst (fold_left JS.increment items o)) ->
  In k (map fst o) \/ In k items.
Proof.
  revert o. induction items as [|x items IH]; simpl; intros o H.
  - left. exact H.
  - apply IH in H. destruct H as [H|H]; [|right; right; exact H].
    destruct (increment_cases o x) as [Heq|[v Heq]]; rewrite Heq in H.
    + left. exact H.
    + apply set_keys_In in H.
      destruct H as [->|H]; [right; left; reflexivity | left; exact H].
Qed.

Lemma top_In (n : nat) (o : JS.object JS.value) (k : string) :
  In k (KnowledgeGraphCLI.top n o) -> In k (map fst o).
Proof.
  unfold KnowledgeGraphCLI.top. intros H. apply in_map_iff in H.
  destruct H as [e [<- He]]. apply firstn_In, sort_In, filter_In in He.
  destruct He as [He _]. apply (proj1 (entries_In _ _)) in He.
  apply (in_map fst) in He. exact He.
Qed.

Lemma top_NoDup (n : nat) (o : JS.object JS.value) :
  NoDup (map fst o) -> NoDup (KnowledgeGraphCLI.top n o).
Proof.
  intros H. unfold KnowledgeGraphCLI.top. rewrite <- firstn_map.
  apply NoDup_firstn.
  eapply Permutation_NoDup.
  - apply Permutation_map, Permutation_sym, sort_perm.
  - apply filter_keys_NoDup, entries_NoDup, H.
Qed.

Lemma cli_extractConcepts_NoDup (text : string) :
  NoDup (KnowledgeGraphCLI.extractConcepts text).
Proof.
  unfold KnowledgeGraphCLI.extractConcepts. apply NoDup_app.
  - apply top_NoDup, count_NoDup. constructor.
  - apply top_NoDup, count_NoDup. constructor.
  - intros k Hw Hp.
    apply top_In, count_keys in Hw. destruct Hw as [[]|Hw].
    apply filter_In in Hw. destruct Hw as [Hw _].
    apply filter_In in Hw. destruct Hw as [Hw _].
    apply split_words_no_space in Hw. apply Hw.
    apply top_In, count_keys in Hp. destruct Hp as [[]|Hp].
    unfold KnowledgeGraphCLI.phrases_of in Hp. apply in_flat_map in Hp.
    destruct Hp as [sentence [_ Hp]]. eapply windows_has_space, Hp.
Qed.


Lemma In_existsb_name (cs : list Concept) (c : Concept) :
  In c cs -> existsb (fun c0 => String.eqb (name c0) (name c)) cs = true.
Proof.
  intros H. apply existsb_exists. exists c. split; [exact H | apply String.eqb_refl].
Qed.

Lemma In_existsb_eqb (cs : list string) (c : string) :
  In c cs -> existsb (String.eqb c) cs = true.
Proof.
  intros H. apply existsb_exists. exists c. split; [exact H | apply String.eqb_refl].
Qed.


(* ================================================================== *)
(** * The merge of concept frequencies *)
(* ================================================================== *)

(** What a successful [ingestUrl] leaves in the frequency of every
    candidate. *)
Lemma ingestUrl_frequency (gds : bool) (L : Natural) (E : Env) (url : string)
  (w w' : World Neo4j.Graph) :
  KnowledgeGraph.ingestUrl (Neo4j.exec gds) L E url false w = (Ok true, w') ->
  exists text,
    fetch_body_text E url = Ok text
    /\ forall c, In c (KnowledgeGraph.extractConcepts L (page_content text)) ->
         Neo4j.concept_frequency (Neo4j.concepts (store w')) (name c)
         = Some (merged_frequency
                   (Neo4j.concept_frequency (Neo4j.concepts (store w)) (name c))
                   (frequency c)).
Proof.
  intros Hrun. apply ingestUrl_inversion in Hrun.
  destruct Hrun as [text [docId [w2 [Hfetch [Hc [_ ->]]]]]].
  exists text. split; [exact Hfetch|]. intros c Hin.
  destruct (createConceptRelationships_concepts gds
              (map KnowledgeGraph.as_entity
                 (KnowledgeGraph.extractConcepts L (page_content text)))
              (snd (merge_each gds docId
                      (KnowledgeGraph.extractConcepts L (page_content text)) w2)))
    as [-> _].
  destruct (merge_each_store gds docId
              (KnowledgeGraph.extractConcepts L (page_content text)) w2)
    as [-> _].
  rewrite (merged_concepts_frequency _ _ c (extractConcepts_names_NoDup L _) Hin), Hc.
  reflexivity.
Qed.

(** What a successful [processDocument] leaves in the frequency of every
    concept of the document. *)
Lemma processDocument_frequency (gds : bool) (E : Env)
  (docName content type source : string) (summary : KnowledgeGraphCLI.Summary)
  (w w' : World Neo4j.Graph) :
  KnowledgeGraphCLI.processDocument (Neo4j.exec gds) E docName content type source w
  = (Ok summary, w') ->
  forall c, In c (KnowledgeGraphCLI.extractConcepts content) ->
    Neo4j.concept_frequency (Neo4j.concepts (store w')) c
    = Some (merged_frequency
              (Neo4j.concept_frequency (Neo4j.concepts (store w)) c) (JS.Count 1)).
Proof.
  intros Hrun c Hin. apply processDocument_inversion in Hrun.
  destruct Hrun as [docId [w2 [Hc [_ [-> _]]]]].
  rewrite relate_each_concepts.
  destruct (merge_names_each_store gds docId
              (KnowledgeGraphCLI.extractConcepts content) w2) as [-> _].
  rewrite (merged_names_frequency _ _ c (cli_extractConcepts_NoDup content) Hin), Hc.
  reflexivity.
Qed.

Lemma merged_count (g : Neo4j.Graph) (n : string) (p f : nat) :
  count_in g n = Some p ->
  merged_frequency (Neo4j.concept_frequency (Neo4j.concepts g) n) (JS.Count f)
  = JS.Count (p + f).
Proof.
  unfold count_in, merged_frequency.
  destruct (Neo4j.concept_frequency (Neo4j.concepts g) n) as [[q|s]|];
    intros [= <-]; reflexivity.
Qed.

(** C1, amended.  knowledge-graph.js: when the same page content is ingested
    twice by [ingestUrl] (two Document nodes, no clear in between), the merge
    creates the node of a candidate with the candidate's frequency or adds
    the candidate's frequency to the stored one, once per ingestion; for a
    candidate whose frequency is a number [f], on a graph where the name has
    no node or a node with the number [p], the stored frequency is [p + f]
    after the first ingestion and [p + f + f] after the second; and for a
    text none of whose stems is the name of a property of
    [Object.prototype], every candidate has a number for its frequency, the
    number of filtered tokens with that stem.  KnowledgeGraphCLI's
    [processDocument] does not store the extracted frequency: it creates a
    concept with frequency 1 and adds 1 for each later document that
    contains it, so after the two ingestions the stored frequency is
    [p + 1 + 1]. *)
Theorem merged_frequency_after_two_ingestions (gds : bool) (L : Natural) (E : Env) :
  (forall url1 url2 text w w1 w2,
      fetch_body_text E url1 = Ok text ->
      fetch_body_text E url2 = Ok text ->
      KnowledgeGraph.ingestUrl (Neo4j.exec gds) L E url1 false w = (Ok true, w1) ->
      KnowledgeGraph.ingestUrl (Neo4j.exec gds) L E url2 false w1 = (Ok true, w2) ->
      forall c, In c (KnowledgeGraph.extractConcepts L (page_content text)) ->
        let prior := Neo4j.concept_frequency (Neo4j.concepts (store w)) (name c) in
        let once := merged_frequency prior (frequency c) in
        Neo4j.concept_frequency (Neo4j.concepts (store w1)) (name c) = Some once
        /\ Neo4j.concept_frequency (Neo4j.concepts (store w2)) (name c)
           = Some (Neo4j.add once (frequency c))
        /\ forall f p,
             frequency c = JS.Count f -> count_in (store w) (name c) = Some p ->
             Neo4j.concept_frequency (Neo4j.concepts (store w1)) (name c)
             = Some (JS.Count (p + f))
             /\ Neo4j.concept_frequency (Neo4j.concepts (store w2)) (name c)
                = Some (JS.Count (p + f + f)))
  /\ (forall text,
        plain (stems L text) ->
        forall c, In c (KnowledgeGraph.extractConcepts L text) ->
          frequency c = JS.Count (occurrences (name c) (stems L text)))
  /\ (forall name1 name2 content type1 type2 source1 source2 s1 s2 w w1 w2,
        KnowledgeGraphCLI.processDocument (Neo4j.exec gds) E name1 content type1 source1 w
        = (Ok s1, w1) ->
        KnowledgeGraphCLI.processDocument (Neo4j.exec gds) E name2 content type2 source2 w1
        = (Ok s2, w2) ->
        forall c p, In c (KnowledgeGraphCLI.extractConcepts content) ->
          count_in (store w) c = Some p ->
          Neo4j.concept_frequency (Neo4j.concepts (store w1)) c
          = Some (JS.Count (p + 1))
          /\ Neo4j.concept_frequency (Neo4j.concepts (store w2)) c
             = Some (JS.Count (p + 1 + 1))).
Proof.
  split; [|split].
  - intros url1 url2 text w w1 w2 Hf1 Hf2 H1 H2 c Hin. cbv zeta.
    apply ingestUrl_frequency in H1. destruct H1 as [t1 [Ht1 H1]].
    apply ingestUrl_frequency in H2. destruct H2 as [t2 [Ht2 H2]].
    rewrite Hf1 in Ht1. injection Ht1 as <-.
    rewrite Hf2 in Ht2. injection Ht2 as <-.
    rewrite (H2 c Hin), (H1 c Hin).
    split; [reflexivity|]. split; [reflexivity|].
    intros f p Hf Hp. rewrite Hf, (merged_count _ _ p f Hp). auto.
  - intros text Hp c Hin. rewrite (extractConcepts_counts L text Hp) in Hin.
    apply in_map_iff in Hin. destruct Hin as [[w f] [<- Hin]]. simpl.
    apply firstn_In, ranked_counts_In in Hin. destruct Hin as [[_ ->] _].
    reflexivity.
  - intros name1 name2 content type1 type2 source1 source2 s1 s2 w w1 w2 H1 H2
      c p Hin Hp.
    pose proof (processDocument_frequency _ _ _ _ _ _ _ _ _ H1 c Hin) as F1.
    pose proof (processDocument_frequency _ _ _ _ _ _ _ _ _ H2 c Hin) as F2.
    rewrite F2, F1, (merged_count _ _ p 1 Hp). auto.
Qed.

Lemma merged_frequency_after_two_ingestions_witness :
  (Neo4j.concept_frequency (Neo4j.concepts (store (snd page_once))) "graph"
   = Some (JS.Count (0 + 3))
   /\ Neo4j.concept_frequency (Neo4j.concepts (store (snd page_twice))) "graph"
      = Some (JS.Count (0 + 3 + 3)))
  /\ (Neo4j.concept_frequency
        (Neo4j.concepts (store (snd (cli_once "graph graph")))) "graph"
      = Some (JS.Count (0 + 1))
      /\ Neo4j.concept_frequency
           (Neo4j.concepts (store (snd (cli_twice "graph graph")))) "graph"
         = Some (JS.Count (0 + 1 + 1))).
Proof.
  destruct (merged_frequency_after_two_ingestions true Sample.natural Sample.env)
    as [Hurl [_ Hcli]].
  split.
  - refine (proj2 (proj2
              (Hurl "http://example.org/graphs" "http://example.org/graphs"
                 "  Graph   databases store graph data. Graph queries.  "
                 (start Neo4j.empty) (snd page_once) (snd page_twice)
                 _ _ _ _ (mkConcept "graph" (JS.Count 3)) _)) 3 0 _ _).
    + reflexivity.
    + reflexivity.
    + vm_compute. reflexivity.
    + vm_compute. reflexivity.
    + vm_compute. left. reflexivity.
    + reflexivity.
    + reflexivity.
  - refine (Hcli "one.txt" "two.txt" "graph graph" "file" "file" "one.txt" "two.txt"
              (KnowledgeGraphCLI.mkSummary "one.txt" 1 11 "file")
              (KnowledgeGraphCLI.mkSummary "two.txt" 1 11 "file")
              (start Neo4j.empty) (snd (cli_once "graph graph"))
              (snd (cli_twice "graph graph")) _ _ "graph" 0 _ _).
    + vm_compute. reflexivity.
    + vm_compute. reflexivity.
    + vm_compute. left. reflexivity.
    + reflexivity.
Defined.

(** KnowledgeGraphCLI counts documents, not occurrences.  In the content
    [graph graph] the extraction counts the word [graph] twice and returns
    it as the only concept; after the content has been processed twice, as
    two Document nodes, the stored frequency of [graph] is 2, not the sum
    2 + 2 of the two extractions. *)
Lemma cli_frequency_counts_documents :
  KnowledgeGraphCLI.frequency_of "graph graph" = [("graph", JS.Count 2)]
  /\ KnowledgeGraphCLI.extractConcepts "graph graph" = ["graph"]
  /\ fst (cli_once "graph graph")
     = Ok (KnowledgeGraphCLI.mkSummary "one.txt" 1 11 "file")
  /\ fst (cli_twice "graph graph")
     = Ok (KnowledgeGraphCLI.mkSummary "two.txt" 1 11 "file")
  /\ List.length (Neo4j.documents (store (snd (cli_twice "graph graph")))) = 2
  /\ Neo4j.concept_frequency
       (Neo4j.concepts (store (snd (cli_once "graph graph")))) "graph"
     = Some (JS.Count 1)
  /\ Neo4j.concept_frequency
       (Neo4j.concepts (store (snd (cli_twice "graph graph")))) "graph"
     = Some (JS.Count 2)
  /\ Neo4j.concept_frequency
       (Neo4j.concepts (store (snd (cli_twice "graph graph")))) "graph"
     <> Some (Neo4j.add (JS.Count 2) (JS.Count 2)).
Proof.
  repeat split; try (vm_compute; reflexivity).
  vm_compute. discriminate.
Qed.

(* ================================================================== *)
(** * RELATED_TO between the concepts of a document *)
(* ================================================================== *)











Section Related.
Variable gds : bool.
Variable L : Natural.
Variable E : Env.

Local Abbreviation exec := (Neo4j.exec gds).


End Related.




(** With the enrichment key the candidates of [ingestFile] are the entities
    of the reply, which carry no frequency: when the reply has no
    relationship, [createConceptRelationships] computes
    [Math.min(undefined, undefined)], and a RELATED_TO relationship between
    Concept nodes of those names gets the weight NaN.  After the sample
    page, [graph] and [database] are related with weight 1; after the file,
    with NaN. *)
Theorem enriched_candidates_give_nan_weight :
  fst page_once = Ok true
  /\ weight_between (store (snd page_once)) "graph" "database" = Some (JS.Num 1)
  /\ fst page_then_enriched_file = Ok true
  /\ weight_between (store (snd page_then_enriched_file)) "graph" "database"
     = Some JS.NaN
  /\ JS.Math_min (JS.of_option None) (JS.of_option None) = JS.NaN.
Proof. vm_compute. repeat split. Qed.

(** The text frequency of an inherited key reaches the graph: after a page
    with the word [constructor] the Concept node [constructor] has the text
    for its frequency, and its relationships have the weight NaN. *)
Theorem inherited_key_reaches_the_graph :
  fst constructor_page = Ok true
  /\ Neo4j.concept_frequency (Neo4j.concepts (store (snd constructor_page)))
       "constructor"
     = Some (JS.Text "function Object() { [native code] }1")
  /\ weight_between (store (snd constructor_page)) "alpha" "constructor"
     = Some JS.NaN
  /\ weight_between (store (snd constructor_page)) "alpha" "gamma"
     = Some (JS.Num 1).
Proof. vm_compute. repeat split. Qed.

(* ================================================================== *)
(** * Community detection *)
(* ================================================================== *)

(** ** The labels of the components *)














(** ** The run of [detectCommunities] *)















(** ** The graph stays well-formed *)

Lemma NoDup_snoc {A} (l : list A) (x : A) :
  NoDup l -> ~ In x l -> NoDup (l ++ [x]).
Proof.
  intros Hl Hx. induction Hl as [|y l Hy Hl IH]; simpl.
  - constructor; [intros [] | constructor].
  - constructor.
    + intros Hin. apply in_app_or in Hin. destruct Hin as [Hin|[Heq|[]]].
      * contradiction.
      * apply Hx. left. symmetry. exact Heq.
    + apply IH. intros Hin. apply Hx. right. exact Hin.
Qed.

Lemma existsb_name_In {A} (key : A -> string) (l : list A) (n : string) :
  existsb (fun x => String.eqb (key x) n) l = true <-> In n (map key l).
Proof.
  rewrite existsb_exists, in_map_iff. split.
  - intros [x [Hin Heq]]. apply String.eqb_eq in Heq. eauto.
  - intros [x [Heq Hin]]. exists x. split; [exact Hin|]. apply String.eqb_eq, Heq.
Qed.

Lemma existsb_name_not_In {A} (key : A -> string) (l : list A) (n : string) :
  existsb (fun x => String.eqb (key x) n) l = false -> ~ In n (map key l).
Proof.
  intros H Hin. apply existsb_name_In in Hin. congruence.
Qed.

Lemma merge_concept_names (cs : list Neo4j.Concept) (n : string) (f : JS.value) :
  map Neo4j.c_name (Neo4j.merge_concept cs n f)
  = if existsb (fun c => String.eqb (Neo4j.c_name c) n) cs
    then map Neo4j.c_name cs
    else map Neo4j.c_name cs ++ [n].
Proof.
  unfold Neo4j.merge_concept.
  destruct (existsb (fun c => String.eqb (Neo4j.c_name c) n) cs).
  - rewrite map_map. apply map_ext. intros c.
    destruct (String.eqb (Neo4j.c_name c) n); reflexivity.
  - rewrite map_app. reflexivity.
Qed.

Lemma merge_entity_names (es : list Neo4j.Entity) (n ty d : string) (f : JS.value) :
  map Neo4j.e_name (Neo4j.merge_entity es n ty d f)
  = if existsb (fun e => String.eqb (Neo4j.e_name e) n) es
    then map Neo4j.e_name es
    else map Neo4j.e_name es ++ [n].
Proof.
  unfold Neo4j.merge_entity.
  destruct (existsb (fun e => String.eqb (Neo4j.e_name e) n) es).
  - rewrite map_map. apply map_ext. intros e.
    destruct (String.eqb (Neo4j.e_name e) n); reflexivity.
  - rewrite map_app. reflexivity.
Qed.

Lemma merge_concept_NoDup (cs : list Neo4j.Concept) (n : string) (f : JS.value) :
  NoDup (map Neo4j.c_name cs) ->
  NoDup (map Neo4j.c_name (Neo4j.merge_concept cs n f)).
Proof.
  intros H. rewrite merge_concept_names.
  destruct (existsb (fun c => String.eqb (Neo4j.c_name c) n) cs) eqn:Hex.
  - exact H.
  - apply NoDup_snoc; [exact H | apply existsb_name_not_In, Hex].
Qed.

Lemma merge_entity_NoDup (es : list Neo4j.Entity) (n ty d : string) (f : JS.value) :
  NoDup (map Neo4j.e_name es) ->
  NoDup (map Neo4j.e_name (Neo4j.merge_entity es n ty d f)).
Proof.
  intros H. rewrite merge_entity_names.
  destruct (existsb (fun e => String.eqb (Neo4j.e_name e) n) es) eqn:Hex.
  - exact H.
  - apply NoDup_snoc; [exact H | apply existsb_name_not_In, Hex].
Qed.

Lemma set_community_names_kept (c : Neo4j.Entity -> option Neo4j.community)
  (es : list Neo4j.Entity) :
  map Neo4j.e_name (map (Neo4j.set_community c) es) = map Neo4j.e_name es.
Proof. rewrite map_map. apply map_ext. intros e. reflexivity. Qed.

Lemma has_document_kept (g g' : Neo4j.Graph) (id : string) :
  (forall d, In d (Neo4j.documents g) -> In d (Neo4j.documents g')) ->
  Neo4j.has_document g id = true -> Neo4j.has_document g' id = true.
Proof.
  intros Hd H. unfold Neo4j.has_document in *.
  apply existsb_exists in H. destruct H as [d [Hin Heq]].
  apply existsb_exists. exists d. split; [apply Hd, Hin | exact Heq].
Qed.

Lemma has_node_kept (g g' : Neo4j.Graph) (l : Neo4j.label) (n : string) :
  nodes_kept g g' -> Neo4j.has_node g l n = true -> Neo4j.has_node g' l n = true.
Proof.
  intros [_ [Hc He]]. destruct l; simpl; auto.
Qed.

(** Relationships that join nodes of [g] join nodes of a graph that keeps
    the nodes of [g]. *)
Lemma no_dangling_kept (g g' : Neo4j.Graph) :
  nodes_kept g g' ->
  incl (Neo4j.contains g') (Neo4j.contains g) ->
  (forall r, In r (Neo4j.related g') ->
     exists r0, In r0 (Neo4j.related g)
                /\ Neo4j.r_start r = Neo4j.r_start r0
                /\ Neo4j.r_end r = Neo4j.r_end r0) ->
  incl (Neo4j.links_of g') (Neo4j.links_of g) ->
  no_dangling g -> no_dangling g'.
Proof.
  intros Hk Hct Hr Hl [Dc [Dr Dl]].
  pose proof Hk as [Hd [Hc He]].
  split; [|split].
  - intros ct Hin. destruct (Dc ct (Hct ct Hin)) as [H1 H2]. split.
    + eapply has_document_kept; eassumption.
    + eapply has_node_kept; eassumption.
  - intros r Hin. destruct (Hr r Hin) as [r0 [Hin0 [Hs Ht]]].
    destruct (Dr r0 Hin0) as [H1 H2]. rewrite Hs, Ht. split; auto.
  - intros a b Hin. destruct (Dl a b (Hl _ Hin)) as [H1 H2]. split; auto.
Qed.

Lemma same_related_ends (g g' : Neo4j.Graph) :
  Neo4j.related g' = Neo4j.related g ->
  forall r, In r (Neo4j.related g') ->
    exists r0, In r0 (Neo4j.related g)
               /\ Neo4j.r_start r = Neo4j.r_start r0
               /\ Neo4j.r_end r = Neo4j.r_end r0.
Proof. intros H r Hin. rewrite H in Hin. eauto. Qed.

Lemma same_links (g g' : Neo4j.Graph) :
  Neo4j.entity_rels g' = Neo4j.entity_rels g ->
  incl (Neo4j.links_of g') (Neo4j.links_of g).
Proof. intros H. unfold Neo4j.links_of. rewrite H. apply incl_refl. Qed.

Lemma same_contains (g g' : Neo4j.Graph) :
  Neo4j.contains g' = Neo4j.contains g ->
  incl (Neo4j.contains g') (Neo4j.contains g).
Proof. intros H. rewrite H. apply incl_refl. Qed.

Lemma empty_well_formed : well_formed Neo4j.empty.
Proof.
  split; [repeat split; constructor|].
  split; [intros ct []|]. split; [intros r []|]. intros a b [].
Qed.

Lemma create_contains_closed (g : Neo4j.Graph) (docId : string) (l : Neo4j.label)
  (n : string) (f : JS.value) :
  no_dangling g ->
  no_dangling (Neo4j.with_contains g (Neo4j.create_contains g docId l n f)).
Proof.
  intros [Dc [Dr Dl]]. split; [|split]; simpl.
  - intros ct Hin. unfold Neo4j.create_contains in Hin.
    change (Neo4j.has_document
              (Neo4j.with_contains g (Neo4j.create_contains g docId l n f))
              (Neo4j.ct_doc ct))
      with (Neo4j.has_document g (Neo4j.ct_doc ct)).
    assert (Hn : forall l0 n0,
               Neo4j.has_node
                 (Neo4j.with_contains g (Neo4j.create_contains g docId l n f)) l0 n0
               = Neo4j.has_node g l0 n0) by (intros [] ?; reflexivity).
    rewrite Hn.
    destruct (Neo4j.has_document g docId && Neo4j.has_node g l n) eqn:Hb.
    + apply in_app_or in Hin. destruct Hin as [Hin|[Heq|[]]]; [auto|].
      subst ct. simpl. apply andb_true_iff in Hb. exact Hb.
    + auto.
  - exact Dr.
  - exact Dl.
Qed.

Lemma merge_related_closed (g : Neo4j.Graph) (a b : string) (w : JS.number) :
  no_dangling g ->
  no_dangling (Neo4j.with_related g (Neo4j.merge_related g a b w)).
Proof.
  intros [Dc [Dr Dl]]. split; [|split]; simpl.
  - intros ct Hin. destruct (Dc ct Hin) as [H1 H2]. split; [exact H1|].
    destruct (Neo4j.ct_label ct); exact H2.
  - intros r Hin. rewrite merge_related_cases in Hin.
    change (Neo4j.has_concept g (Neo4j.r_start r) = true
            /\ Neo4j.has_concept g (Neo4j.r_end r) = true).
    destruct (Neo4j.has_concept g a && Neo4j.has_concept g b) eqn:Hb; [|auto].
    destruct (existsb (Neo4j.joins a b) (Neo4j.related g)).
    + apply in_map_iff in Hin. destruct Hin as [r0 [Heq Hin]]. subst r.
      unfold bump. destruct (Neo4j.joins a b r0); simpl; auto.
    + apply in_app_or in Hin. destruct Hin as [Hin|[Heq|[]]]; [auto|].
      subst r. simpl. apply andb_true_iff in Hb. exact Hb.
  - exact Dl.
Qed.

Lemma merge_entity_rel_closed (g : Neo4j.Graph) (s t ty d docId : string) :
  no_dangling g ->
  no_dangling (Neo4j.with_entity_rels g (Neo4j.merge_entity_rel g s t ty d docId)).
Proof.
  intros [Dc [Dr Dl]]. split; [|split]; simpl.
  - intros ct Hin. destruct (Dc ct Hin) as [H1 H2]. split; [exact H1|].
    destruct (Neo4j.ct_label ct); exact H2.
  - exact Dr.
  - intros x y Hin. unfold Neo4j.links_of in Hin. simpl in Hin.
    change (Neo4j.has_entity g x = true /\ Neo4j.has_entity g y = true).
    unfold Neo4j.merge_entity_rel in Hin.
    destruct (Neo4j.has_entity g s && Neo4j.has_entity g t) eqn:Hb.
    + destruct (existsb (Neo4j.same_rel s t ty) (Neo4j.entity_rels g)).
      * rewrite map_map in Hin. apply in_map_iff in Hin.
        destruct Hin as [r0 [Heq Hin]]. apply (Dl x y).
        unfold Neo4j.links_of. apply in_map_iff. exists r0. split; [|exact Hin].
        destruct (Neo4j.same_rel s t ty r0); exact Heq.
      * rewrite map_app in Hin. apply in_app_or in Hin.
        destruct Hin as [Hin|[Heq|[]]]; [apply (Dl x y), Hin|].
        inversion Heq; subst. apply andb_true_iff in Hb. exact Hb.
    + apply (Dl x y), Hin.
Qed.

Lemma unique_nodes_same (g g' : Neo4j.Graph) :
  map Neo4j.doc_id (Neo4j.documents g') = map Neo4j.doc_id (Neo4j.documents g) ->
  map Neo4j.c_name (Neo4j.concepts g') = map Neo4j.c_name (Neo4j.concepts g) ->
  map Neo4j.e_name (Neo4j.entities g') = map Neo4j.e_name (Neo4j.entities g) ->
  unique_nodes g -> unique_nodes g'.
Proof.
  intros Hd Hc He [U1 [U2 U3]]. unfold unique_nodes. rewrite Hd, Hc, He. auto.
Qed.

Lemma merge_concept_well_formed (g : Neo4j.Graph) (n : string) (f : JS.value) :
  well_formed g ->
  well_formed (Neo4j.with_concepts g (Neo4j.merge_concept (Neo4j.concepts g) n f)).
Proof.
  intros [[U1 [U2 U3]] D]. split.
  - split; [|split]; simpl; auto. apply merge_concept_NoDup, U2.
  - eapply no_dangling_kept; [| | | |exact D].
    + exact (exec_keeps_nodes true (Neo4j.MergeConcept n f) g eq_refl).
    + apply incl_refl.
    + apply same_related_ends. reflexivity.
    + apply incl_refl.
Qed.

Lemma set_community_well_formed (g : Neo4j.Graph)
  (c : Neo4j.Entity -> option Neo4j.community) :
  well_formed g ->
  well_formed (Neo4j.with_entities g (map (Neo4j.set_community c) (Neo4j.entities g))).
Proof.
  intros [[U1 [U2 U3]] D]. split.
  - split; [|split]; simpl; auto. rewrite set_community_names_kept. exact U3.
  - eapply no_dangling_kept; [| | | |exact D].
    + repeat split; simpl; auto. intros n. unfold Neo4j.has_entity. simpl.
      rewrite set_community_keeps. auto.
    + apply incl_refl.
    + apply same_related_ends. reflexivity.
    + apply incl_refl.
Qed.

(** Every statement of the programs keeps the graph well-formed. *)
Lemma exec_well_formed (gds : bool) {A} (c : Neo4j.Cypher A) (g : Neo4j.Graph) :
  well_formed g -> well_formed (snd (Neo4j.exec gds A c g)).
Proof.
  intros Hw. pose proof Hw as [[U1 [U2 U3]] D].
  destruct c; simpl; try exact Hw;
    try (destruct (Neo4j.sum_fails _ _); exact Hw).
  - apply empty_well_formed.
  - destruct (Neo4j.has_document g (Neo4j.doc_id d)) eqn:Hd; simpl; [exact Hw|].
    split.
    + split; [|split]; simpl; auto. rewrite map_app. simpl.
      apply NoDup_snoc; [exact U1|]. apply existsb_name_not_In, Hd.
    + eapply no_dangling_kept; [| | | |exact D].
      * pose proof (exec_keeps_nodes gds (Neo4j.CreateDocument d) g eq_refl) as Hk.
        simpl in Hk. rewrite Hd in Hk. exact Hk.
      * apply incl_refl.
      * apply same_related_ends. reflexivity.
      * apply incl_refl.
  - apply merge_concept_well_formed, Hw.
  - split.
    + split; [|split]; simpl; auto. apply merge_entity_NoDup, U3.
    + eapply no_dangling_kept; [| | | |exact D].
      * exact (exec_keeps_nodes gds (Neo4j.MergeEntity _ _ _ _) g eq_refl).
      * apply incl_refl.
      * apply same_related_ends. reflexivity.
      * apply incl_refl.
  - split; [split; [|split]; simpl; auto | apply create_contains_closed, D].
  - split; [split; [|split]; simpl; auto | apply merge_related_closed, D].
  - destruct (Neo4j.valid_type type); simpl; [|exact Hw].
    split; [split; [|split]; simpl; auto | apply merge_entity_rel_closed, D].
  - destruct gds; simpl; [|exact Hw].
    apply set_community_well_formed, Hw.
  - apply set_community_well_formed, Hw.
  - pose proof (merge_concept_well_formed g concept (JS.Count 1) Hw) as [U' D'].
    split; [exact U' | apply create_contains_closed, D'].
  - split; [split; [|split]; simpl; auto | apply merge_related_closed, D].
Qed.

Lemma ingest_each_preserves {St} (R : World St -> World St -> Prop)
  (ingest : string -> bool -> M St bool) (clear : bool)
  (sources : list string) (n : nat) (first : bool) :
  (forall w, R w w) -> (forall a b c, R a b -> R b c -> R a c) ->
  (forall source flag, preserves R (ingest source flag)) ->
  preserves R (KnowledgeGraph.ingest_each ingest clear sources n first).
Proof.
  intros Hrefl Htrans Hi. revert n first.
  induction sources as [|source rest IH]; intros n first; simpl.
  - apply preserves_ret, Hrefl.
  - apply preserves_bind; [exact Htrans | apply Hi | intros success; apply IH].
Qed.

Lemma ingest_loops_preserves {St} (R : World St -> World St -> Prop)
  (ingestFile ingestUrl : string -> bool -> M St bool)
  (files urls : option (list string)) (clear : bool) :
  (forall w, R w w) -> (forall a b c, R a b -> R b c -> R a c) ->
  (forall source flag, preserves R (ingestFile source flag)) ->
  (forall source flag, preserves R (ingestUrl source flag)) ->
  preserves R (KnowledgeGraph.ingest_loops ingestFile ingestUrl files urls clear).
Proof.
  intros Hrefl Htrans Hf Hu. unfold KnowledgeGraph.ingest_loops.
  apply preserves_bind; [exact Htrans | |intros afterFiles].
  - destruct files; [apply ingest_each_preserves; assumption
                    | apply preserves_ret, Hrefl].
  - apply preserves_bind; [exact Htrans | |intros afterUrls;
                                           apply preserves_ret, Hrefl].
    destruct urls; [apply ingest_each_preserves; assumption
                   | apply preserves_ret, Hrefl].
Qed.

Section WellFormed.
Variable gds : bool.
Variable L : Natural.
Variable E : Env.

Local Abbreviation exec := (Neo4j.exec gds).

Lemma swf_refl (w : World Neo4j.Graph) : stays_well_formed w w.
Proof. intros H. exact H. Qed.

Lemma swf_trans (a b c : World Neo4j.Graph) :
  stays_well_formed a b -> stays_well_formed b c -> stays_well_formed a c.
Proof. intros H1 H2 H. apply H2, H1, H. Qed.

Lemma swf_local (w : World Neo4j.Graph) (t : nat) (n : N) :
  stays_well_formed w (mkWorld (store w) (history w) t n).
Proof. intros H. exact H. Qed.

Lemma swf_run {A} (c : Neo4j.Cypher A) (w : World Neo4j.Graph) :
  stays_well_formed w (snd (session_run exec c w)).
Proof.
  intros H. pose proof (exec_well_formed gds c (store w) H) as H'.
  unfold session_run. destruct (Neo4j.exec gds A c (store w)) as [r s].
  exact H'.
Qed.

Local Ltac wf_steps :=
  preservation swf_refl swf_trans swf_local ltac:(apply swf_run).

Lemma createConceptRelationships_well_formed (concepts : list EntityObj) :
  preserves stays_well_formed
    (KnowledgeGraph.createConceptRelationships exec concepts).
Proof. unfold KnowledgeGraph.createConceptRelationships. wf_steps. Qed.

Lemma createEntityRelationships_well_formed (rels : list Relationship)
  (docId : string) :
  preserves stays_well_formed
    (KnowledgeGraph.createEntityRelationships exec rels docId).
Proof. unfold KnowledgeGraph.createEntityRelationships. wf_steps. Qed.

Lemma ingestFile_well_formed (filePath : string) (clear : bool) :
  preserves stays_well_formed (KnowledgeGraph.ingestFile exec L E filePath clear).
Proof.
  unfold KnowledgeGraph.ingestFile, KnowledgeGraph.extractEntitiesWithLLM.
  wf_steps;
    try apply createConceptRelationships_well_formed;
    try apply createEntityRelationships_well_formed.
Qed.

Lemma ingestUrl_well_formed (url : string) (clear : bool) :
  preserves stays_well_formed (KnowledgeGraph.ingestUrl exec L E url clear).
Proof.
  unfold KnowledgeGraph.ingestUrl.
  wf_steps; try apply createConceptRelationships_well_formed.
Qed.

Lemma legacy_ingestFile_well_formed (filePath : string) (clear : bool) :
  preserves stays_well_formed (Legacy.ingestFile exec L E filePath clear).
Proof.
  unfold Legacy.ingestFile.
  wf_steps; try apply createConceptRelationships_well_formed.
Qed.

Lemma initializeSchema_well_formed :
  preserves stays_well_formed (KnowledgeGraph.initializeSchema exec)
  /\ preserves stays_well_formed (Legacy.initializeSchema exec).
Proof.
  split; [unfold KnowledgeGraph.initializeSchema | unfold Legacy.initializeSchema];
    wf_steps.
Qed.

Lemma ingest_command_well_formed (files urls : option (list string)) (clear : bool) :
  preserves stays_well_formed
    (KnowledgeGraph.ingest_command exec L E files urls clear)
  /\ preserves stays_well_formed (Legacy.ingest_command exec L E files urls clear).
Proof.
  assert (Hloops : preserves stays_well_formed
                     (KnowledgeGraph.ingest_loops
                        (KnowledgeGraph.ingestFile exec L E)
                        (KnowledgeGraph.ingestUrl exec L E) files urls clear)).
  { apply ingest_loops_preserves;
      [apply swf_refl | apply swf_trans
       | apply ingestFile_well_formed | apply ingestUrl_well_formed]. }
  assert (Hlegacy : preserves stays_well_formed
                      (KnowledgeGraph.ingest_loops
                         (Legacy.ingestFile exec L E)
                         (Legacy.ingestUrl exec L E) files urls clear)).
  { apply ingest_loops_preserves;
      [apply swf_refl | apply swf_trans
       | apply legacy_ingestFile_well_formed | apply ingestUrl_well_formed]. }
  destruct initializeSchema_well_formed as [Hs Hs'].
  split.
  - unfold KnowledgeGraph.ingest_command.
    destruct files, urls; try (apply preserves_ret, swf_refl);
      (destruct (negb (connect E)); [apply preserves_ret, swf_refl|];
       apply preserves_bind; [apply swf_trans | exact Hs | intros _];
       apply preserves_bind; [apply swf_trans | exact Hloops | intros n];
       apply preserves_ret, swf_refl).
  - unfold Legacy.ingest_command.
    destruct files, urls; try (apply preserves_ret, swf_refl);
      (destruct (negb (connect E)); [apply preserves_ret, swf_refl|];
       apply preserves_bind; [apply swf_trans | exact Hs' | intros _];
       apply preserves_bind; [apply swf_trans | exact Hlegacy | intros n];
       apply preserves_ret, swf_refl).
Qed.

Lemma detectCommunities_well_formed :
  preserves stays_well_formed (KnowledgeGraph.detectCommunities exec).
Proof. unfold KnowledgeGraph.detectCommunities. wf_steps. Qed.

Lemma processDocument_well_formed (docName content type source : string) :
  preserves stays_well_formed
    (KnowledgeGraphCLI.processDocument exec E docName content type source).
Proof. unfold KnowledgeGraphCLI.processDocument. wf_steps. Qed.

Lemma cli_ingestFile_well_formed (filePath : string) :
  preserves stays_well_formed (KnowledgeGraphCLI.ingestFile exec E filePath).
Proof.
  unfold KnowledgeGraphCLI.ingestFile, KnowledgeGraphCLI.checkSizeLimit.
  wf_steps; try apply processDocument_well_formed.
Qed.

Lemma clearDatabase_well_formed :
  preserves stays_well_formed (KnowledgeGraphCLI.clearDatabase exec).
Proof. unfold KnowledgeGraphCLI.clearDatabase. wf_steps. Qed.

End WellFormed.

(** X6.  Every operation that writes to the graph keeps it well-formed: no
    two Document nodes share an id, no two Concept nodes and no two Entity
    nodes share a name, and every CONTAINS, RELATED_TO and entity
    relationship joins two nodes of the graph.  This holds for the ingestion
    of a file or a page in the three programs, with or without the clear
    flag and whether it succeeds or fails half-way, for the ingest command,
    for the detection of communities and for the clearing of the
    database. *)
Theorem graph_stays_well_formed (gds : bool) (L : Natural) (E : Env)
  (w : World Neo4j.Graph) :
  well_formed (store w) ->
  let exec := Neo4j.exec gds in
  (forall filePath clear,
      well_formed (store (snd (KnowledgeGraph.ingestFile exec L E filePath clear w)))
      /\ well_formed (store (snd (Legacy.ingestFile exec L E filePath clear w))))
  /\ (forall url clear,
        well_formed (store (snd (KnowledgeGraph.ingestUrl exec L E url clear w))))
  /\ (forall files urls clear,
        well_formed
          (store (snd (KnowledgeGraph.ingest_command exec L E files urls clear w)))
        /\ well_formed
             (store (snd (Legacy.ingest_command exec L E files urls clear w))))
  /\ well_formed (store (snd (KnowledgeGraph.detectCommunities exec w)))
  /\ (forall docName content type source,
        well_formed
          (store (snd (KnowledgeGraphCLI.processDocument exec E
                         docName content type source w))))
  /\ (forall filePath,
        well_formed (store (snd (KnowledgeGraphCLI.ingestFile exec E filePath w))))
  /\ well_formed (store (snd (KnowledgeGraphCLI.clearDatabase exec w))).
Proof.
  intros Hw exec.
  split; [|split; [|split; [|split; [|split; [|split]]]]].
  - intros filePath clear. split.
    + exact (ingestFile_well_formed gds L E filePath clear w Hw).
    + exact (legacy_ingestFile_well_formed gds L E filePath clear w Hw).
  - intros url clear. exact (ingestUrl_well_formed gds L E url clear w Hw).
  - intros files urls clear.
    destruct (ingest_command_well_formed gds L E files urls clear) as [H1 H2].
    split; [exact (H1 w Hw) | exact (H2 w Hw)].
  - exact (detectCommunities_well_formed gds w Hw).
  - intros docName content type source.
    exact (processDocument_well_formed gds E docName content type source w Hw).
  - intros filePath. exact (cli_ingestFile_well_formed gds E filePath w Hw).
  - exact (clearDatabase_well_formed gds w Hw).
Qed.

Lemma graph_stays_well_formed_witness : well_formed (store (snd page_twice)).
Proof.
  refine (proj1 (proj2 (graph_stays_well_formed true Sample.natural Sample.env
                          (snd page_once) _))
            "http://example.org/graphs" false).
  refine (proj1 (proj2 (graph_stays_well_formed true Sample.natural Sample.env
                          (start Neo4j.empty) _))
            "http://example.org/graphs" false).
  split; [repeat split; constructor|].
  split; [intros ct []|]. split; [intros r []|]. intros a b [].
Defined.

(** ** Files create no Concept node *)

Lemma exec_adds_no_concept (gds : bool) {A} (c : Neo4j.Cypher A) (g : Neo4j.Graph) :
  creates_concept c = false ->
  incl (Neo4j.concepts (snd (Neo4j.exec gds A c g))) (Neo4j.concepts g)
  /\ (Neo4j.concepts g = [] -> Neo4j.related g = [] ->
      Neo4j.related (snd (Neo4j.exec gds A c g)) = []).
Proof.
  intros Hc.
  assert (Hsame : forall g' : Neo4j.Graph,
             Neo4j.concepts g' = Neo4j.concepts g ->
             Neo4j.related g' = Neo4j.related g ->
             incl (Neo4j.concepts g') (Neo4j.concepts g)
             /\ (Neo4j.concepts g = [] -> Neo4j.related g = [] ->
                 Neo4j.related g' = [])).
  { intros g' H1 H2. rewrite H1, H2. split; [apply incl_refl | auto]. }
  assert (Hmerge : forall a b w,
             incl (Neo4j.concepts (Neo4j.with_related g (Neo4j.merge_related g a b w)))
               (Neo4j.concepts g)
             /\ (Neo4j.concepts g = [] -> Neo4j.related g = [] ->
                 Neo4j.related (Neo4j.with_related g (Neo4j.merge_related g a b w))
                 = [])).
  { intros a b w. split; [apply incl_refl|]. intros Hn Hr. simpl.
    unfold Neo4j.merge_related, Neo4j.has_concept. rewrite Hn. simpl. exact Hr. }
  destruct c; simpl in *; try discriminate;
    try (apply Hsame; reflexivity);
    try (destruct (Neo4j.sum_fails _ _); apply Hsame; reflexivity);
    try apply Hmerge.
  - split; [intros x [] | reflexivity].
  - destruct (Neo4j.has_document g (Neo4j.doc_id d)); apply Hsame; reflexivity.
  - destruct (Neo4j.valid_type type); apply Hsame; reflexivity.
  - destruct gds; apply Hsame; reflexivity.
Qed.

Section NoConcept.
Variable gds : bool.
Variable L : Natural.
Variable E : Env.

Local Abbreviation exec := (Neo4j.exec gds).

Lemma anc_refl (w : World Neo4j.Graph) : adds_no_concept w w.
Proof. split; [apply incl_refl | auto]. Qed.

Lemma anc_trans (a b c : World Neo4j.Graph) :
  adds_no_concept a b -> adds_no_concept b c -> adds_no_concept a c.
Proof.
  intros [I1 R1] [I2 R2]. split.
  - eapply incl_tran; eassumption.
  - intros Hn Hr. apply R2; [|apply R1; assumption].
    rewrite Hn in I1. apply incl_l_nil, I1.
Qed.

Lemma anc_local (w : World Neo4j.Graph) (t : nat) (n : N) :
  adds_no_concept w (mkWorld (store w) (history w) t n).
Proof. split; [apply incl_refl | auto]. Qed.

Lemma anc_run {A} (c : Neo4j.Cypher A) (w : World Neo4j.Graph) :
  creates_concept c = false -> adds_no_concept w (snd (session_run exec c w)).
Proof.
  intros Hc. pose proof (exec_adds_no_concept gds c (store w) Hc) as H.
  unfold adds_no_concept, session_run.
  destruct (Neo4j.exec gds A c (store w)) as [r s]. exact H.
Qed.

Local Ltac no_concept_steps :=
  preservation anc_refl anc_trans anc_local ltac:(apply anc_run; reflexivity).

Lemma ingestFile_adds_no_concept (filePath : string) (clear : bool) :
  preserves adds_no_concept (KnowledgeGraph.ingestFile exec L E filePath clear).
Proof.
  unfold KnowledgeGraph.ingestFile, KnowledgeGraph.extractEntitiesWithLLM,
    KnowledgeGraph.createEntityRelationships,
    KnowledgeGraph.createConceptRelationships.
  no_concept_steps.
Qed.

Lemma sc_refl (w : World Neo4j.Graph) : same_concepts w w.
Proof. reflexivity. Qed.

Lemma sc_trans (a b c : World Neo4j.Graph) :
  same_concepts a b -> same_concepts b c -> same_concepts a c.
Proof. unfold same_concepts. intros H1 H2. rewrite H2. exact H1. Qed.

Lemma sc_local (w : World Neo4j.Graph) (t : nat) (n : N) :
  same_concepts w (mkWorld (store w) (history w) t n).
Proof. reflexivity. Qed.

Lemma sc_run {A} (c : Neo4j.Cypher A) (w : World Neo4j.Graph) :
  creates_concept c = false -> Neo4j.is_clear (Neo4j.Sent c) = false ->
  same_concepts w (snd (session_run exec c w)).
Proof.
  intros Hc Hd. unfold same_concepts, session_run.
  destruct (Neo4j.exec gds A c (store w)) as [r s] eqn:He.
  simpl. change s with (snd (r, s)). rewrite <- He. clear He.
  destruct c; simpl in *; try discriminate; try reflexivity.
  - destruct (Neo4j.has_document (store w) (Neo4j.doc_id d)); reflexivity.
  - destruct (Neo4j.valid_type type); reflexivity.
  - destruct gds; reflexivity.
  - destruct (Neo4j.sum_fails _ _); reflexivity.
Qed.

Local Ltac same_concepts_steps :=
  preservation sc_refl sc_trans sc_local ltac:(apply sc_run; reflexivity).

Lemma ingestFile_same_concepts (filePath : string) :
  preserves same_concepts (KnowledgeGraph.ingestFile exec L E filePath false).
Proof.
  unfold KnowledgeGraph.ingestFile, KnowledgeGraph.extractEntitiesWithLLM,
    KnowledgeGraph.createEntityRelationships,
    KnowledgeGraph.createConceptRelationships.
  same_concepts_steps.
Qed.

Lemma files_add_no_concept (files : list string) (clear : bool) (n : nat)
  (first : bool) :
  preserves adds_no_concept
    (KnowledgeGraph.ingest_each (KnowledgeGraph.ingestFile exec L E) clear files
       n first).
Proof.
  apply ingest_each_preserves;
    [apply anc_refl | apply anc_trans | apply ingestFile_adds_no_concept].
Qed.

Lemma exec_no_entity_rel (A : Type) (c : Neo4j.Cypher A) (g : Neo4j.Graph) :
  is_entity_rel (Neo4j.Sent c) = false ->
  Neo4j.entity_rels g = [] -> Neo4j.entity_rels (snd (Neo4j.exec gds A c g)) = [].
Proof.
  intros Hc Hg. destruct c; simpl in *; try discriminate; try exact Hg;
    try reflexivity.
  - destruct (Neo4j.has_document g (Neo4j.doc_id d)); exact Hg.
  - destruct gds; exact Hg.
  - destruct (Neo4j.sum_fails _ _); exact Hg.
Qed.

Lemma ner_refl (w : World Neo4j.Graph) : no_entity_rel w w.
Proof. intros H. exact H. Qed.

Lemma ner_trans (a b c : World Neo4j.Graph) :
  no_entity_rel a b -> no_entity_rel b c -> no_entity_rel a c.
Proof. unfold no_entity_rel. auto. Qed.

Lemma ner_local (w : World Neo4j.Graph) (t : nat) (n : N) :
  no_entity_rel w (mkWorld (store w) (history w) t n).
Proof. intros H. exact H. Qed.

Lemma ner_run {A} (c : Neo4j.Cypher A) (w : World Neo4j.Graph) :
  is_entity_rel (Neo4j.Sent c) = false ->
  no_entity_rel w (snd (session_run exec c w)).
Proof.
  intros Hc. pose proof (exec_no_entity_rel A c (store w) Hc) as H.
  unfold no_entity_rel, session_run.
  destruct (Neo4j.exec gds A c (store w)) as [r s]. exact H.
Qed.

(** Without the enrichment key a file sends no relationship between Entity
    nodes. *)
Lemma ingestFile_no_entity_rel (filePath : string) (clear : bool) :
  ANTHROPIC_API_KEY E = false ->
  preserves no_entity_rel (KnowledgeGraph.ingestFile exec L E filePath clear).
Proof.
  intros Hkey.
  unfold KnowledgeGraph.ingestFile, KnowledgeGraph.extractEntitiesWithLLM,
    KnowledgeGraph.createConceptRelationships.
  rewrite Hkey. cbn [negb].
  repeat first
    [ progress cbn [KnowledgeGraph.relationships_of KnowledgeGraph.entities_of]
    | preservation_step ner_refl ner_trans ner_local
        ltac:(apply ner_run; reflexivity) ].
Qed.

End NoConcept.

(** X7.  In the current copy of knowledge-graph.js a file produces Entity
    nodes only: [ingestFile] creates or changes no Concept node, and, as
    [createConceptRelationships] matches Concept nodes, a graph without
    Concept nodes and co-occurrence relationships gets no co-occurrence
    relationship (the weighted RELATED_TO between Concept nodes) from a file
    or from any batch of files, whatever the clear flag and the enrichment
    reply.  Without the enrichment key a graph without relationships between
    Entity nodes gets none from a file either, so that the concepts of a
    file are not related at all.  The
    earlier copy relates them: for the sample file it leaves four Concept
    nodes and six relationships, the current copy four Entity nodes and no
    relationship of either kind. *)
Theorem files_create_no_concept_links (gds : bool) (L : Natural) (E : Env) :
  let exec := Neo4j.exec gds in
  (forall filePath clear w,
      let w' := snd (KnowledgeGraph.ingestFile exec L E filePath clear w) in
      incl (Neo4j.concepts (store w')) (Neo4j.concepts (store w))
      /\ (clear = false -> Neo4j.concepts (store w') = Neo4j.concepts (store w))
      /\ (Neo4j.concepts (store w) = [] -> Neo4j.related (store w) = [] ->
          Neo4j.concepts (store w') = [] /\ Neo4j.related (store w') = []))
  /\ (forall files clear n first w,
        let w' := snd (KnowledgeGraph.ingest_each
                         (KnowledgeGraph.ingestFile exec L E) clear files n first w) in
        Neo4j.concepts (store w) = [] -> Neo4j.related (store w) = [] ->
        Neo4j.concepts (store w') = [] /\ Neo4j.related (store w') = [])
  /\ (ANTHROPIC_API_KEY E = false ->
      forall filePath clear w,
        Neo4j.entity_rels (store w) = [] ->
        Neo4j.entity_rels
          (store (snd (KnowledgeGraph.ingestFile exec L E filePath clear w))) = [])
  /\ (fst notes_current = Ok true
      /\ List.length (Neo4j.entities (store (snd notes_current))) = 4
      /\ Neo4j.concepts (store (snd notes_current)) = []
      /\ Neo4j.related (store (snd notes_current)) = []
      /\ Neo4j.entity_rels (store (snd notes_current)) = [])
  /\ (fst notes_legacy = Ok true
      /\ List.length (Neo4j.concepts (store (snd notes_legacy))) = 4
      /\ List.length (Neo4j.related (store (snd notes_legacy))) = 6).
Proof.
  intros exec. split; [|split; [|split; [|split]]].
  - intros filePath clear w w'.
    destruct (ingestFile_adds_no_concept gds L E filePath clear w) as [Hi Hr].
    fold w' in Hi, Hr. split; [exact Hi|]. split.
    + intros ->. exact (ingestFile_same_concepts gds L E filePath w).
    + intros Hn Hrel. split; [|apply Hr; assumption].
      rewrite Hn in Hi. apply incl_l_nil, Hi.
  - intros files clear n first w w' Hn Hrel.
    destruct (files_add_no_concept gds L E files clear n first w) as [Hi Hr].
    fold w' in Hi, Hr. split; [|apply Hr; assumption].
    rewrite Hn in Hi. apply incl_l_nil, Hi.
  - intros Hkey filePath clear w.
    apply (ingestFile_no_entity_rel gds L E filePath clear Hkey w).
  - vm_compute. repeat split.
  - vm_compute. repeat split.
Qed.

(** ** A weight that is not a number *)

Lemma plus_nan (x : JS.number) : JS.plus x JS.NaN = JS.NaN.
Proof. destruct x; reflexivity. Qed.

Lemma nan_plus (x : JS.number) : JS.plus JS.NaN x = JS.NaN.
Proof. reflexivity. Qed.

Lemma joins_refl (a b : string) (w : JS.number) :
  Neo4j.joins a b (Neo4j.mkRelated a b w) = true.
Proof. unfold Neo4j.joins. simpl. rewrite !String.eqb_refl. reflexivity. Qed.

Lemma merge_related_makes_nan (g : Neo4j.Graph) (a b : string) :
  Neo4j.has_concept g a = true -> Neo4j.has_concept g b = true ->
  nan_between a b (Neo4j.with_related g (Neo4j.merge_related g a b JS.NaN)).
Proof.
  intros Ha Hb. unfold nan_between, related_between. simpl.
  rewrite merge_related_cases, Ha, Hb. simpl.
  destruct (existsb (Neo4j.joins a b) (Neo4j.related g)) eqn:Hex.
  - rewrite filter_map_commute by (intros r; apply joins_bump).
    destruct (filter_some _ _ Hex) as [x [rest [Hf Hx]]]. split.
    + rewrite Hf. discriminate.
    + intros r Hin. apply in_map_iff in Hin. destruct Hin as [r0 [Heq Hin]].
      apply filter_In in Hin. destruct Hin as [_ Hj]. subst r.
      unfold bump. rewrite Hj. simpl. apply plus_nan.
  - rewrite filter_app, (filter_none _ _ Hex). simpl. rewrite joins_refl. split.
    + discriminate.
    + intros r [Heq|[]]. subst r. reflexivity.
Qed.

Lemma merge_related_keeps_nan (g : Neo4j.Graph) (a b x y : string) (w : JS.number) :
  nan_between a b g ->
  nan_between a b (Neo4j.with_related g (Neo4j.merge_related g x y w)).
Proof.
  intros [Hne Hall]. unfold nan_between, related_between in *. simpl.
  rewrite merge_related_cases.
  destruct (Neo4j.has_concept g x && Neo4j.has_concept g y); [|auto].
  destruct (existsb (Neo4j.joins x y) (Neo4j.related g)) eqn:Hex.
  - rewrite filter_map_commute by (intros r; apply joins_bump). split.
    + destruct (filter (Neo4j.joins a b) (Neo4j.related g)); [congruence|].
      discriminate.
    + intros r Hin. apply in_map_iff in Hin. destruct Hin as [r0 [Heq Hin]].
      subst r. unfold bump. destruct (Neo4j.joins x y r0); [|auto].
      simpl. rewrite (Hall r0 Hin). reflexivity.
  - rewrite filter_app. simpl.
    destruct (Neo4j.joins a b (Neo4j.mkRelated x y w)) eqn:Hj.
    + exfalso.
      destruct (filter (Neo4j.joins a b) (Neo4j.related g)) as [|r0 rest] eqn:Hf;
        [congruence|].
      assert (Hin : In r0 (filter (Neo4j.joins a b) (Neo4j.related g)))
        by (rewrite Hf; left; reflexivity).
      apply filter_In in Hin. destruct Hin as [Hin Hj0].
      assert (Hxy : Neo4j.joins x y r0 = true).
      { unfold Neo4j.joins in *. simpl in Hj.
        apply orb_true_iff in Hj.
        destruct Hj as [Hj|Hj]; apply andb_true_iff in Hj; destruct Hj as [H1 H2];
          apply String.eqb_eq in H1; apply String.eqb_eq in H2; subst x y.
        - exact Hj0.
        - rewrite orb_comm. exact Hj0. }
      assert (Hsome : existsb (Neo4j.joins x y) (Neo4j.related g) = true)
        by (apply existsb_exists; exists r0; auto).
      congruence.
    + rewrite app_nil_r. auto.
Qed.

Lemma nan_between_weight (g : Neo4j.Graph) (a b : string) :
  nan_between a b g -> weight_between g a b = Some JS.NaN.
Proof.
  intros [Hne Hall]. unfold weight_between.
  destruct (related_between g a b) as [|r rest]; [congruence|].
  rewrite (Hall r (or_introl eq_refl)). reflexivity.
Qed.

Section Nan.
Variable gds : bool.
Variables a b : string.

Local Abbreviation exec := (Neo4j.exec gds).

Lemma kn_refl (w : World Neo4j.Graph) : keeps_nan a b w w.
Proof. split; auto. Qed.

Lemma kn_trans (u v w : World Neo4j.Graph) :
  keeps_nan a b u v -> keeps_nan a b v w -> keeps_nan a b u w.
Proof.
  intros [C1 N1] [C2 N2]. split; [rewrite C2; exact C1 | auto].
Qed.

Lemma merge_keeps_nan (x y : string) (weight : JS.number) (w : World Neo4j.Graph) :
  keeps_nan a b w (snd (session_run exec (Neo4j.MergeRelated x y weight) w)).
Proof.
  split; simpl; [reflexivity | apply merge_related_keeps_nan].
Qed.

End Nan.

(** X3.  A pair of candidates one of which has no number for its frequency
    leaves the weight NaN: when [createConceptRelationships] is given a list
    in which [c1] comes before [c2], [Math.min] of their frequencies is NaN
    (a frequency that is missing, or a text) and both names are Concept
    nodes, then afterwards a RELATED_TO relationship joins the two nodes,
    every relationship between them has the weight NaN, and a lookup in
    either direction returns NaN; a weight that was a number before is
    lost. *)
Theorem missing_frequency_gives_nan_weight (gds : bool)
  (concepts : list EntityObj) (c1 c2 : EntityObj) (w : World Neo4j.Graph) :
  In (c1, c2) (pairs concepts) ->
  JS.Math_min (JS.of_option (entity_frequency c1))
    (JS.of_option (entity_frequency c2)) = JS.NaN ->
  Neo4j.has_concept (store w) (entity_name c1) = true ->
  Neo4j.has_concept (store w) (entity_name c2) = true ->
  let g' := store (snd (KnowledgeGraph.createConceptRelationships
                          (Neo4j.exec gds) concepts w)) in
  nan_between (entity_name c1) (entity_name c2) g'
  /\ weight_between g' (entity_name c1) (entity_name c2) = Some JS.NaN
  /\ weight_between g' (entity_name c2) (entity_name c1) = Some JS.NaN.
Proof.
  intros Hin Hmin H1 H2 g'.
  assert (Hnan : nan_between (entity_name c1) (entity_name c2) g').
  { unfold g', KnowledgeGraph.createConceptRelationships.
    set (body := fun p : EntityObj * EntityObj =>
                   session_run (Neo4j.exec gds)
                     (Neo4j.MergeRelated (entity_name (fst p)) (entity_name (snd p))
                        (JS.Math_min (JS.of_option (entity_frequency (fst p)))
                           (JS.of_option (entity_frequency (snd p)))))).
    destruct (forEach_step (keeps_nan (entity_name c1) (entity_name c2))
                (pairs concepts) body (c1, c2) w) as [w1 [[Hc _] [_ Hk]]].
    - apply kn_refl.
    - apply kn_trans.
    - intros p w0. apply merge_keeps_nan.
    - intros p. apply run_succeeds. exact I.
    - exact Hin.
    - apply Hk. unfold body. simpl. rewrite Hmin.
      apply merge_related_makes_nan; unfold Neo4j.has_concept in *;
        rewrite Hc; assumption. }
  split; [exact Hnan|]. split.
  - apply nan_between_weight, Hnan.
  - rewrite weight_between_sym. apply nan_between_weight, Hnan.
Qed.

Lemma missing_frequency_gives_nan_weight_witness :
  weight_between
    (store (snd (KnowledgeGraph.createConceptRelationships (Neo4j.exec true)
                   [mkEntityObj "graph" (Some "CONCEPT") None None;
                    mkEntityObj "database" (Some "TECHNOLOGY") None None]
                   (snd page_once))))
    "graph" "database" = Some JS.NaN.
Proof.
  refine (proj1 (proj2
            (missing_frequency_gives_nan_weight true
               [mkEntityObj "graph" (Some "CONCEPT") None None;
                mkEntityObj "database" (Some "TECHNOLOGY") None None]
               (mkEntityObj "graph" (Some "CONCEPT") None None)
               (mkEntityObj "database" (Some "TECHNOLOGY") None None)
               (snd page_once) _ _ _ _))).
  - vm_compute. left. reflexivity.
  - vm_compute. reflexivity.
  - vm_compute. reflexivity.
  - vm_compute. reflexivity.
Defined.

(** ** Frequency tables, inherited keys included *)

Lemma string_app_assoc (a b c : string) : ((a ++ b) ++ c = a ++ (b ++ c))%string.
Proof.
  induction a as [|x a IH]; simpl; [reflexivity | rewrite IH; reflexivity].
Qed.

Lemma get_increment (o : JS.object JS.value) (x k : string) :
  JS.get (JS.increment o x) k
  = if String.eqb x k
    then match JS.get o k with
         | Some (JS.Count n) => Some (JS.Count (n + 1))
         | Some (JS.Text s) => Some (JS.Text (s ++ "1"))
         | None =>
             if String.eqb k "__proto__" then None
             else if JS.array_includes JS.prototype_methods k
                  then Some (JS.Text (JS.native_text k ++ "1"))
                  else Some (JS.Count 1)
         end
    else JS.get o k.
Proof.
  unfold JS.increment.
  destruct (String.eqb x k) eqn:Hxk.
  - apply String.eqb_eq in Hxk. subst k.
    destruct (JS.get o x) as [[n|s]|] eqn:Hg.
    + rewrite get_set, String.eqb_refl. reflexivity.
    + rewrite get_set, String.eqb_refl. reflexivity.
    + destruct (String.eqb x "__proto__"); [exact Hg|].
      destruct (JS.array_includes JS.prototype_methods x);
        rewrite get_set, String.eqb_refl; reflexivity.
  - destruct (JS.get o x) as [[n|s]|].
    + rewrite get_set, Hxk. reflexivity.
    + rewrite get_set, Hxk. reflexivity.
    + destruct (String.eqb x "__proto__"); [reflexivity|].
      destruct (JS.array_includes JS.prototype_methods x);
        rewrite get_set, Hxk; reflexivity.
Qed.

Lemma occurrences_snoc (k x : string) (l : list string) :
  occurrences k (l ++ [x])
  = occurrences k l + (if String.eqb k x then 1 else 0).
Proof.
  unfold occurrences. rewrite filter_app, length_app. simpl.
  destruct (String.eqb k x); reflexivity.
Qed.

(** A table filled from an empty object, under every key. *)
Lemma table_get (items : list string) (k : string) :
  JS.get (fold_left JS.increment items []) k = table_value k (occurrences k items).
Proof.
  induction items as [|x l IH] using rev_ind.
  - reflexivity.
  - rewrite fold_left_app. simpl. rewrite get_increment, occurrences_snoc.
    rewrite (String.eqb_sym x k).
    destruct (String.eqb k x); [|rewrite Nat.add_0_r; exact IH].
    rewrite IH. unfold table_value.
    destruct (occurrences k l) as [|n].
    + change (0 + 1 =? 0) with false. change (0 =? 0) with true. cbv iota.
      destruct (String.eqb k "__proto__"); [reflexivity|].
      destruct (JS.array_includes JS.prototype_methods k); reflexivity.
    + replace (S n + 1) with (S (S n)) by lia.
      change (S n =? 0) with false. change (S (S n) =? 0) with false. cbv iota.
      destruct (String.eqb k "__proto__"); [reflexivity|].
      destruct (JS.array_includes JS.prototype_methods k);
        [|rewrite Nat.add_1_r; reflexivity].
      change (ones (S (S n))) with (ones (S n) ++ "1")%string.
      rewrite string_app_assoc. reflexivity.
Qed.

Lemma occurrences_In (k : string) (items : list string) :
  0 < occurrences k items <-> In k items.
Proof.
  unfold occurrences. split.
  - intros H. destruct (filter (String.eqb k) items) as [|x rest] eqn:Hf;
      [simpl in H; lia|].
    assert (Hin : In x (filter (String.eqb k) items)) by (rewrite Hf; left; reflexivity).
    apply filter_In in Hin. destruct Hin as [Hin Heq].
    apply String.eqb_eq in Heq. subst x. exact Hin.
  - intros Hin.
    assert (Hf : In k (filter (String.eqb k) items))
      by (apply filter_In; split; [exact Hin | apply String.eqb_refl]).
    destruct (filter (String.eqb k) items); [destruct Hf | simpl; lia].
Qed.

Lemma method_is_long (k : string) :
  In k JS.prototype_methods -> 4 < String.length k.
Proof.
  intros H. simpl in H.
  repeat (destruct H as [H|H]; [subst k; simpl; lia|]). destruct H.
Qed.

Lemma method_is_not_proto (k : string) :
  In k JS.prototype_methods -> String.eqb k "__proto__" = false.
Proof.
  intros H. simpl in H.
  repeat (destruct H as [H|H]; [subst k; reflexivity|]). destruct H.
Qed.

Lemma array_includes_In (l : list string) (x : string) :
  JS.array_includes l x = true <-> In x l.
Proof.
  unfold JS.array_includes. rewrite existsb_exists. split.
  - intros [y [Hin Heq]]. apply String.eqb_eq in Heq. subst. exact Hin.
  - intros Hin. exists x. split; [exact Hin | apply String.eqb_refl].
Qed.

Lemma inherited_cases (k : string) :
  JS.inherited k = true <-> k = "__proto__" \/ In k JS.prototype_methods.
Proof.
  unfold JS.inherited. rewrite orb_true_iff, String.eqb_eq, array_includes_In.
  reflexivity.
Qed.

Lemma table_value_count (k : string) (n f : nat) :
  table_value k n = Some (JS.Count f)
  <-> f = n /\ 0 < f /\ JS.inherited k = false.
Proof.
  unfold table_value, JS.inherited.
  destruct (n =? 0) eqn:Hn.
  - apply Nat.eqb_eq in Hn. split; [discriminate | intros [-> [H _]]; lia].
  - apply Nat.eqb_neq in Hn.
    destruct (String.eqb k "__proto__"); cbn [orb].
    + split; [discriminate | intros [_ [_ H]]; discriminate].
    + destruct (JS.array_includes JS.prototype_methods k).
      * split; [discriminate | intros [_ [_ H]]; discriminate].
      * split; [intros [= <-]; repeat split; lia | intros [-> _]; reflexivity].
Qed.

Lemma table_value_inherited (k : string) (n f : nat) :
  JS.inherited k = true -> table_value k n <> Some (JS.Count f).
Proof.
  intros Hi H. apply table_value_count in H. destruct H as [_ [_ H]]. congruence.
Qed.

Lemma numeric_In (l : list (string * JS.value)) (w : string) (f : nat) :
  In (w, f) (numeric l) <-> In (w, JS.Count f) l.
Proof.
  unfold numeric. rewrite in_flat_map. split.
  - intros [[k v] [Hin H]]. simpl in H. destruct v as [n|s]; [|destruct H].
    destruct H as [[= <- <-]|[]]. exact Hin.
  - intros Hin. exists (w, JS.Count f). split; [exact Hin | left; reflexivity].
Qed.

Lemma numeric_keys (l : list (string * JS.value)) (k : string) :
  In k (map fst (numeric l)) -> In k (map fst l).
Proof.
  intros H. apply in_map_iff in H. destruct H as [[w f] [<- Hin]].
  apply numeric_In in Hin. apply (in_map fst) in Hin. exact Hin.
Qed.

Lemma numeric_NoDup (l : list (string * JS.value)) :
  NoDup (map fst l) -> NoDup (map fst (numeric l)).
Proof.
  induction l as [|[k v] l IH]; simpl; intros H; [constructor|].
  inversion H as [|? ? Hk Hl]; subst.
  destruct v as [n|s]; simpl.
  - constructor; [|apply IH, Hl].
    intros Hin. apply Hk. apply (numeric_keys l), Hin.
  - apply IH, Hl.
Qed.

Lemma at_least_numeric (l : list (string * JS.value)) :
  filter (fun e => JS.at_least 2 (snd e)) l
  = counts (filter (fun e => 2 <=? snd e) (numeric l)).
Proof.
  induction l as [|[k v] l IH]; [reflexivity|].
  destruct v as [n|s]; cbn -[Nat.leb].
  - destruct (2 <=? n); cbn -[Nat.leb]; rewrite IH; reflexivity.
  - exact IH.
Qed.

Lemma top_as_ranking (n : nat) (items : list string) :
  KnowledgeGraphCLI.top n (fold_left JS.increment items [])
  = map fst (firstn n (top_ranking items)).
Proof.
  unfold KnowledgeGraphCLI.top, top_ranking.
  rewrite at_least_numeric. unfold counts.
  rewrite (sort_map as_count by_count
             (fun a b : string * JS.value => JS.descending (snd a) (snd b)))
    by (intros a b; reflexivity).
  rewrite firstn_map, map_map. apply map_ext. intros e. reflexivity.
Qed.

Lemma top_ranking_In (items : list string) (w : string) (f : nat) :
  In (w, f) (top_ranking items)
  <-> f = occurrences w items /\ 2 <= f /\ JS.inherited w = false.
Proof.
  unfold top_ranking.
  rewrite sort_In, filter_In, numeric_In, entries_In.
  rewrite (get_In _ _ _ (count_NoDup items [] (NoDup_nil _))).
  rewrite table_get, table_value_count. cbn [snd]. rewrite Nat.leb_le.
  split; [intros [[H1 [H2 H3]] H4] | intros [H1 [H2 H3]]]; repeat split; auto; lia.
Qed.

Lemma top_ranking_NoDup (items : list string) :
  NoDup (map fst (top_ranking items)).
Proof.
  unfold top_ranking.
  eapply Permutation_NoDup.
  - apply Permutation_map, Permutation_sym, sort_perm.
  - apply filter_keys_NoDup, numeric_NoDup, entries_NoDup, count_NoDup. constructor.
Qed.

Lemma top_ranking_sorted (items : list string) :
  StronglySorted (fun x y : string * nat => snd y <= snd x) (top_ranking items).
Proof.
  unfold top_ranking.
  generalize (sort_sorted by_count by_count_total by_count_trans
                (filter (fun e => 2 <=? snd e)
                   (numeric (JS.entries (fold_left JS.increment items []))))).
  induction 1 as [|a l Hs IH Hall]; constructor.
  - exact IH.
  - eapply Forall_impl; [|exact Hall].
    intros b Hb. apply Nat.leb_le. exact Hb.
Qed.

Lemma top_ranking_stable (items : list string) (f : nat) :
  filter (same_count f) (top_ranking items)
  = filter (same_count f)
      (filter (fun e => 2 <=? snd e)
         (numeric (JS.entries (fold_left JS.increment items [])))).
Proof.
  unfold top_ranking. apply sort_filter.
  intros x y Hx Hy. unfold same_count in *.
  apply Nat.eqb_eq in Hx, Hy. unfold by_count. apply Nat.leb_le. lia.
Qed.

Lemma windows_long (words : list string) (phrase : string) :
  In phrase (KnowledgeGraphCLI.windows words) -> 8 < String.length phrase.
Proof.
  induction words as [|w1 rest IH]; [intros []|].
  destruct rest as [|w2 rest']; [intros []|].
  cbn -[Nat.ltb String.length KnowledgeGraphCLI.is_stop JS.starts_with_digit].
  intros Hin. apply in_app_or in Hin. destruct Hin as [Hin|Hin]; [|apply IH, Hin].
  destruct (_ && _ && _ && _) eqn:Hc; [|destruct Hin].
  destruct Hin as [<-|[]].
  apply andb_true_iff in Hc. destruct Hc as [Hc _].
  apply andb_true_iff in Hc. destruct Hc as [Hc _].
  apply andb_true_iff in Hc. destruct Hc as [Hc _].
  apply Nat.ltb_lt, Hc.
Qed.

Lemma frequency_of_fold (text : string) :
  KnowledgeGraphCLI.frequency_of text
  = fold_left JS.increment (counted_words text) [].
Proof. reflexivity. Qed.

Lemma phraseFreq_of_fold (text : string) :
  KnowledgeGraphCLI.phraseFreq_of text
  = fold_left JS.increment (KnowledgeGraphCLI.phrases_of text) [].
Proof. reflexivity. Qed.

Lemma key_get {V} (o : JS.object V) (k : string) :
  In k (map fst o) -> exists v, JS.get o k = Some v.
Proof.
  induction o as [|[k' v'] o IH]; simpl; [intros []|].
  intros [Heq|Hin].
  - subst k'. rewrite String.eqb_refl. eauto.
  - destruct (String.eqb k' k); [eauto | apply IH, Hin].
Qed.

Lemma table_value_text (k : string) (n : nat) :
  In k JS.prototype_methods -> 0 < n ->
  table_value k n = Some (JS.Text (JS.native_text k ++ ones n)).
Proof.
  intros Hk Hn. unfold table_value.
  destruct (n =? 0) eqn:H0; [apply Nat.eqb_eq in H0; lia|].
  rewrite (method_is_not_proto k Hk).
  rewrite (proj2 (array_includes_In _ _) Hk). reflexivity.
Qed.

Lemma top_not_inherited (n : nat) (items : list string) (k : string) :
  In k (KnowledgeGraphCLI.top n (fold_left JS.increment items [])) ->
  JS.inherited k = false /\ 2 <= occurrences k items.
Proof.
  rewrite top_as_ranking. intros H. apply in_map_iff in H.
  destruct H as [[w f] [Heq Hin]]. simpl in Heq. subst w.
  apply firstn_In, top_ranking_In in Hin. destruct Hin as [-> [H2 Hi]]. auto.
Qed.

Lemma merged_frequency_text (prior : option JS.value) (s : string) :
  exists t, merged_frequency prior (JS.Text s) = JS.Text t.
Proof.
  destruct prior as [[n|p]|]; simpl; eauto.
Qed.

(** X5.  The frequency tables under the keys that [Object.prototype] has.
    In [extractConcepts] of knowledge-graph.js and of the first version the
    table holds, under every key, what [table_value] says for the number of
    occurrences of the key: under the name of a method of [Object.prototype]
    never a number, but the text of the method followed by one digit 1 per
    occurrence, and nothing under [__proto__].  In knowledge-graph.js such a
    stem always qualifies for the ranking (its name is longer than 4
    characters), is a candidate when at most 50 entries qualify, gives NaN
    as the weight of every relationship it is part of, and after a
    successful [ingestUrl] the frequency of its Concept node is a text.  The
    first version never returns an inherited key, and [__proto__] is never a
    candidate. *)
Theorem inherited_keys_in_frequency_tables (L : Natural) :
  (forall text k,
      JS.get (KnowledgeGraph.wordFreq L text) k
      = table_value k (occurrences k (stems L text))
      /\ JS.get (KnowledgeGraphCLI.frequency_of text) k
         = table_value k (occurrences k (counted_words text))
      /\ JS.get (KnowledgeGraphCLI.phraseFreq_of text) k
         = table_value k (occurrences k (KnowledgeGraphCLI.phrases_of text)))
  /\ (forall text k,
        In k JS.prototype_methods -> In k (stems L text) ->
        let v := JS.Text (JS.native_text k ++ ones (occurrences k (stems L text))) in
        In (k, v) (KnowledgeGraph.ranked L text)
        /\ (List.length (KnowledgeGraph.ranked L text) <= 50 ->
            In (mkConcept k v) (KnowledgeGraph.extractConcepts L text))
        /\ (forall other, JS.Math_min (JS.of_option (Some v)) other = JS.NaN))
  /\ (forall gds E url page k w w',
        fetch_body_text E url = Ok page ->
        KnowledgeGraph.ingestUrl (Neo4j.exec gds) L E url false w = (Ok true, w') ->
        In k JS.prototype_methods -> In k (stems L (page_content page)) ->
        List.length (KnowledgeGraph.ranked L (page_content page)) <= 50 ->
        exists t,
          Neo4j.concept_frequency (Neo4j.concepts (store w')) k = Some (JS.Text t))
  /\ (forall text k,
        JS.inherited k = true -> ~ In k (KnowledgeGraphCLI.extractConcepts text))
  /\ (forall text,
        ~ In "__proto__" (map name (KnowledgeGraph.extractConcepts L text))).
Proof.
  assert (Hcand : forall text k,
             In k JS.prototype_methods -> In k (stems L text) ->
             let v := JS.Text (JS.native_text k
                               ++ ones (occurrences k (stems L text))) in
             In (k, v) (KnowledgeGraph.ranked L text)
             /\ (List.length (KnowledgeGraph.ranked L text) <= 50 ->
                 In (mkConcept k v) (KnowledgeGraph.extractConcepts L text))).
  { intros text k Hk Hin v.
    assert (Hr : In (k, v) (KnowledgeGraph.ranked L text)).
    { unfold KnowledgeGraph.ranked. apply sort_In, filter_In. split.
      - apply entries_In. apply (get_In _ _ _ (wordFreq_NoDup L text)).
        rewrite wordFreq_fold, table_get. apply table_value_text; [exact Hk|].
        apply occurrences_In, Hin.
      - unfold KnowledgeGraph.meaningful. cbn [fst snd]. apply orb_true_iff. right.
        apply Nat.ltb_lt, method_is_long, Hk. }
    split; [exact Hr|]. intros Hlen. unfold KnowledgeGraph.extractConcepts.
    rewrite firstn_all2 by exact Hlen.
    apply in_map_iff. exists (k, v). split; [reflexivity | exact Hr]. }
  split; [|split; [|split; [|split]]].
  - intros text k. split; [|split].
    + rewrite wordFreq_fold. apply table_get.
    + rewrite frequency_of_fold. apply table_get.
    + rewrite phraseFreq_of_fold. apply table_get.
  - intros text k Hk Hin v. destruct (Hcand text k Hk Hin) as [H1 H2].
    split; [exact H1|]. split; [exact H2|]. intros other. reflexivity.
  - intros gds E url page k w w' Hf Hrun Hk Hin Hlen.
    destruct (ingestUrl_frequency gds L E url w w' Hrun) as [page' [Hf' Hall]].
    rewrite Hf in Hf'. injection Hf' as <-.
    destruct (Hcand (page_content page) k Hk Hin) as [_ Hc].
    specialize (Hall _ (Hc Hlen)). cbn [name frequency] in Hall.
    destruct (merged_frequency_text
                (Neo4j.concept_frequency (Neo4j.concepts (store w)) k)
                (JS.native_text k
                 ++ ones (occurrences k (stems L (page_content page)))))
      as [t Ht].
    exists t. rewrite Hall, Ht. reflexivity.
  - intros text k Hi Hin. unfold KnowledgeGraphCLI.extractConcepts in Hin.
    apply in_app_or in Hin. destruct Hin as [Hin|Hin].
    + rewrite frequency_of_fold in Hin. apply top_not_inherited in Hin.
      destruct Hin as [Hn _]. congruence.
    + rewrite phraseFreq_of_fold in Hin. apply top_not_inherited in Hin.
      destruct Hin as [Hn _]. congruence.
  - intros text Hin. apply in_map_iff in Hin. destruct Hin as [c [Hn Hc]].
    unfold KnowledgeGraph.extractConcepts in Hc. apply in_map_iff in Hc.
    destruct Hc as [[k v] [Heq He]]. subst c. simpl in Hn. subst k.
    apply firstn_In in He. unfold KnowledgeGraph.ranked in He.
    apply sort_In, filter_In in He. destruct He as [He _].
    apply (proj1 (entries_In _ _)) in He.
    apply (get_In _ _ _ (wordFreq_NoDup L text)) in He.
    rewrite wordFreq_fold, table_get in He. unfold table_value in He.
    destruct (occurrences "__proto__" (stems L text) =? 0); discriminate.
Qed.

(** X8.  The concepts of the first version ([KnowledgeGraphCLI.extractConcepts]):
    the names of the first 15 entries of the ranking of the counted words,
    followed by those of the first 10 entries of the ranking of the two-word
    phrases.  A ranking is sorted by descending count, holds a key exactly
    when it is counted at least twice and is no property name of
    [Object.prototype], with the number of its occurrences, and keeps
    entries of equal count in the order of [Object.entries] (stable sort).
    The concepts are pairwise distinct and at most 25; a counted word is
    longer than 3 characters, is no stop-word and has no space; a phrase is
    longer than 8 characters and has a space. *)
Theorem cli_extractConcepts_contract (text : string) :
  let words := counted_words text in
  let phrases := KnowledgeGraphCLI.phrases_of text in
  let out := KnowledgeGraphCLI.extractConcepts text in
  out = map fst (firstn 15 (top_ranking words))
        ++ map fst (firstn 10 (top_ranking phrases))
  /\ (forall items,
        StronglySorted (fun x y => snd y <= snd x) (top_ranking items)
        /\ NoDup (map fst (top_ranking items))
        /\ (forall w f,
              In (w, f) (top_ranking items)
              <-> f = occurrences w items /\ 2 <= f /\ JS.inherited w = false)
        /\ (forall f,
              filter (same_count f) (top_ranking items)
              = filter (same_count f)
                  (filter (fun e => 2 <=? snd e)
                     (numeric (JS.entries (fold_left JS.increment items []))))))
  /\ NoDup out
  /\ List.length out <= 25
  /\ (forall w, In w words ->
        3 < String.length w /\ KnowledgeGraphCLI.is_stop w = false /\ ~ has_space w)
  /\ (forall p, In p phrases -> 8 < String.length p /\ has_space p)
  /\ (forall c, In c out ->
        JS.inherited c = false
        /\ (2 <= occurrences c words \/ 2 <= occurrences c phrases)).
Proof.
  intros words phrases out.
  assert (Hout : out = map fst (firstn 15 (top_ranking words))
                       ++ map fst (firstn 10 (top_ranking phrases))).
  { unfold out, KnowledgeGraphCLI.extractConcepts.
    rewrite frequency_of_fold, phraseFreq_of_fold, !top_as_ranking. reflexivity. }
  split; [exact Hout|]. split; [|split; [|split; [|split; [|split]]]].
  - intros items. split; [apply top_ranking_sorted|].
    split; [apply top_ranking_NoDup|].
    split; [apply top_ranking_In | apply top_ranking_stable].
  - apply cli_extractConcepts_NoDup.
  - rewrite Hout, length_app, !length_map.
    pose proof (firstn_le_length 15 (top_ranking words)).
    pose proof (firstn_le_length 10 (top_ranking phrases)). lia.
  - intros w Hin. unfold words, counted_words in Hin.
    apply filter_In in Hin. destruct Hin as [Hin Hstop].
    apply filter_In in Hin. destruct Hin as [Hin Hlen].
    split; [apply Nat.ltb_lt, Hlen|]. split; [apply negb_true_iff, Hstop|].
    eapply split_words_no_space, Hin.
  - intros p Hin. unfold phrases, KnowledgeGraphCLI.phrases_of in Hin.
    apply in_flat_map in Hin. destruct Hin as [sentence [_ Hin]].
    split; [eapply windows_long, Hin | eapply windows_has_space, Hin].
  - intros c Hin. unfold out, KnowledgeGraphCLI.extractConcepts in Hin.
    apply in_app_or in Hin. destruct Hin as [Hin|Hin].
    + rewrite frequency_of_fold in Hin. apply top_not_inherited in Hin.
      destruct Hin as [Hn H2]. split; [exact Hn | left; exact H2].
    + rewrite phraseFreq_of_fold in Hin. apply top_not_inherited in Hin.
      destruct Hin as [Hn H2]. split; [exact Hn | right; exact H2].
Qed.

Example cli_extractConcepts_sample :
  KnowledgeGraphCLI.extractConcepts
    "Graph databases store graph data. Graph databases answer queries; constructor, constructor."
  = ["graph"; "databases"; "graph databases"].
Proof. vm_compute. reflexivity. Qed.

(** ** Failures during ingestion *)

Section IngestionFailures.
Context {St : Type}.
Variable exec : forall A, Neo4j.Cypher A -> St -> result A * St.
Variable skip : Neo4j.statement -> bool.

Lemma tb_silent {A} (m : M St A) :
  (forall w, history (snd (m w)) = history w) -> transparent_but skip m.
Proof.
  intros H w. exists []. rewrite app_nil_r. split; [apply H|].
  intros ev message [].
Qed.

Lemma tb_ret {A} (a : A) : transparent_but skip (@ret St A a).
Proof. apply tb_silent. reflexivity. Qed.

Lemma tb_lift {A} (r : result A) : transparent_but skip (@lift St A r).
Proof. apply tb_silent. reflexivity. Qed.

Lemma tb_reading {A} (source : nat -> A) :
  transparent_but skip (@reading St A source).
Proof. apply tb_silent. reflexivity. Qed.

Lemma tb_run {A} (c : Neo4j.Cypher A) : transparent_but skip (session_run exec c).
Proof.
  intros w. unfold session_run.
  destruct (exec A c (store w)) as [r s] eqn:Hx.
  exists [mkEvent (Neo4j.Sent c) (outcome r)]. simpl. split; [reflexivity|].
  intros ev message [<-|[]] _. simpl.
  destruct r; simpl; [discriminate|]. intros [= ->]. reflexivity.
Qed.

(** [try { await session.run(c) } catch (error) { }] for a statement that
    [skip] selects. *)
Lemma tb_swallow {A} (c : Neo4j.Cypher A) (a : A) :
  skip (Neo4j.Sent c) = true ->
  transparent_but skip (tryCatch (session_run exec c) (fun _ => ret a)).
Proof.
  intros Hs w. unfold tryCatch, session_run.
  destruct (exec A c (store w)) as [r s] eqn:Hx.
  exists [mkEvent (Neo4j.Sent c) (outcome r)]. split.
  - destruct r; reflexivity.
  - intros ev message [<-|[]] Hn. simpl in Hn. congruence.
Qed.

Lemma tb_bind {A B} (m : M St A) (k : A -> M St B) :
  transparent_but skip m -> (forall a, transparent_but skip (k a)) ->
  transparent_but skip (bind m k).
Proof.
  intros Hm Hk w. unfold bind.
  destruct (Hm w) as [evs1 [H1 E1]].
  destruct (m w) as [[a|e] w1] eqn:Hmw; simpl in *.
  - destruct (Hk a w1) as [evs2 [H2 E2]].
    exists (evs1 ++ evs2). split.
    + rewrite H2, H1, app_assoc. reflexivity.
    + intros ev message Hin Hs Herr. apply in_app_or in Hin.
      destruct Hin as [Hin|Hin].
      * specialize (E1 ev message Hin Hs Herr). discriminate.
      * apply (E2 ev message Hin Hs Herr).
  - exists evs1. split; [exact H1|].
    intros ev message Hin Hs Herr. specialize (E1 ev message Hin Hs Herr).
    injection E1 as ->. reflexivity.
Qed.

Lemma tb_if {A} (b : bool) (m1 m2 : M St A) :
  transparent_but skip m1 -> transparent_but skip m2 ->
  transparent_but skip (if b then m1 else m2).
Proof. destruct b; auto. Qed.

Lemma tb_forEach {A} (l : list A) (body : A -> M St unit) :
  (forall x, transparent_but skip (body x)) ->
  transparent_but skip (forEach l body).
Proof.
  intros Hb. induction l as [|x l IH]; simpl.
  - apply tb_ret.
  - apply tb_bind; [apply Hb | intros _; exact IH].
Qed.

(** [try { body } catch (error) { return h(error.message) }] *)
Lemma gb_tryCatch {A} (h : string -> A) (body : M St A) :
  transparent_but skip body ->
  guarded_but skip h (tryCatch body (fun message => ret (h message))).
Proof.
  intros Hb w. unfold tryCatch.
  destruct (Hb w) as [evs [H1 E1]].
  destruct (body w) as [[a|e] w1] eqn:Hbw; simpl in *.
  - exists evs. split; [exact H1|]. split; [eauto|].
    intros ev message Hin Hs Herr. specialize (E1 ev message Hin Hs Herr).
    discriminate.
  - exists evs. split; [exact H1|]. split; [eauto|].
    intros ev message Hin Hs Herr. specialize (E1 ev message Hin Hs Herr).
    injection E1 as ->. reflexivity.
Qed.

(** [try { body } catch (error) { throw error }] *)
Lemma tb_rethrow {A} (body : M St A) :
  transparent_but skip body ->
  transparent_but skip (tryCatch body (fun message => throw message)).
Proof.
  intros Hb w. unfold tryCatch, throw.
  destruct (Hb w) as [evs [H1 E1]].
  destruct (body w) as [[a|e] w1] eqn:Hbw; simpl in *;
    exists evs; (split; [exact H1 | exact E1]).
Qed.

End IngestionFailures.

Ltac transparency_but exec :=
  repeat lazymatch goal with
    | |- transparent_but _ (ret _) => apply tb_ret
    | |- transparent_but _ (lift _) => apply tb_lift
    | |- transparent_but _ (reading _) => apply tb_reading
    | |- transparent_but _ (session_run _ _) => apply tb_run
    | |- transparent_but _ (tryCatch (session_run _ _) (fun _ => ret _)) =>
        apply tb_swallow; reflexivity
    | |- transparent_but _ (tryCatch _ (fun message => throw message)) =>
        apply tb_rethrow
    | |- transparent_but _ (bind _ _) => apply tb_bind; [|intros ?]
    | |- transparent_but _ (forEach _ _) => apply tb_forEach; intros ?
    | |- transparent_but _ (match ?x with _ => _ end) => destruct x
    end.

Section Ingestions.
Context {St : Type}.
Variable exec : forall A, Neo4j.Cypher A -> St -> result A * St.
Variable L : Natural.
Variable E : Env.

Lemma extractEntitiesWithLLM_silent (text : string) (w : World St) :
  history (snd (KnowledgeGraph.extractEntitiesWithLLM L E text w)) = history w
  /\ exists extracted,
       KnowledgeGraph.extractEntitiesWithLLM L E text w = (Ok extracted, w).
Proof.
  unfold KnowledgeGraph.extractEntitiesWithLLM.
  destruct (negb (ANTHROPIC_API_KEY E));
    [split; [reflexivity | eexists; reflexivity]|].
  unfold tryCatch, lift, ret.
  destruct (llm_extract E (JS.substring0 2000 text));
    (split; [reflexivity | eexists; reflexivity]).
Qed.

Lemma ingestUrl_guarded (url : string) (clear : bool) :
  guarded_but no_skip (fun _ => false) (KnowledgeGraph.ingestUrl exec L E url clear).
Proof.
  unfold KnowledgeGraph.ingestUrl, KnowledgeGraph.createConceptRelationships.
  apply gb_tryCatch. cbv zeta. transparency_but exec.
Qed.

Lemma legacy_ingestFile_guarded (filePath : string) (clear : bool) :
  guarded_but no_skip (fun _ => false) (Legacy.ingestFile exec L E filePath clear).
Proof.
  unfold Legacy.ingestFile, Legacy.createConceptRelationships,
    KnowledgeGraph.createConceptRelationships.
  apply gb_tryCatch. cbv zeta. transparency_but exec.
Qed.

Lemma ingestFile_guarded (filePath : string) (clear : bool) :
  guarded_but is_entity_rel (fun _ => false)
    (KnowledgeGraph.ingestFile exec L E filePath clear).
Proof.
  unfold KnowledgeGraph.ingestFile, KnowledgeGraph.createConceptRelationships,
    KnowledgeGraph.createEntityRelationships.
  apply gb_tryCatch. cbv zeta.
  transparency_but exec;
    try (apply tb_silent; intros w0;
         apply (extractEntitiesWithLLM_silent _ w0)).
Qed.

End Ingestions.

(** X9.  [ingestFile] and [ingestUrl] of knowledge-graph.js never throw,
    whatever the store does: they return true or false.  When a statement
    sent by [ingestUrl] or by [ingestFile] of the earlier copy fails, the
    function returns false; in the current [ingestFile] this holds for every
    statement but those of [createEntityRelationships], whose failures are
    skipped: with a reply whose first relationship has the type [WORKS AT]
    the statement fails, the ingestion still returns true and the second
    relationship is stored. *)
Theorem ingestion_failure_is_false
  (St : Type) (exec : forall A, Neo4j.Cypher A -> St -> result A * St)
  (L : Natural) (E : Env) (source : string) (clear : bool) (w : World St) :
  let url := KnowledgeGraph.ingestUrl exec L E source clear w in
  let legacy := Legacy.ingestFile exec L E source clear w in
  let file := KnowledgeGraph.ingestFile exec L E source clear w in
  (exists evs,
      history (snd url) = history w ++ evs
      /\ (exists b, fst url = Ok b)
      /\ forall ev message, In ev evs -> error ev = Some message ->
                            fst url = Ok false)
  /\ (exists evs,
        history (snd legacy) = history w ++ evs
        /\ (exists b, fst legacy = Ok b)
        /\ forall ev message, In ev evs -> error ev = Some message ->
                              fst legacy = Ok false)
  /\ (exists evs,
        history (snd file) = history w ++ evs
        /\ (exists b, fst file = Ok b)
        /\ forall ev message, In ev evs -> is_entity_rel (sent ev) = false ->
                              error ev = Some message -> fst file = Ok false)
  /\ (fst spaced_ingested = Ok true
      /\ map error (filter (fun ev => is_entity_rel (sent ev))
                      (history (snd spaced_ingested)))
         = [Some "Invalid input: relationship type"; None]
      /\ Neo4j.links_of (store (snd spaced_ingested)) = [("Acme", "London")]).
Proof.
  intros url legacy file. split; [|split; [|split]].
  - destruct (ingestUrl_guarded exec L E source clear w) as [evs [H1 [H2 H3]]].
    exists evs. split; [exact H1|]. split; [exact H2|].
    intros ev message Hin Herr. exact (H3 ev message Hin eq_refl Herr).
  - destruct (legacy_ingestFile_guarded exec L E source clear w)
      as [evs [H1 [H2 H3]]].
    exists evs. split; [exact H1|]. split; [exact H2|].
    intros ev message Hin Herr. exact (H3 ev message Hin eq_refl Herr).
  - destruct (ingestFile_guarded exec L E source clear w) as [evs [H1 [H2 H3]]].
    exists evs. split; [exact H1|]. split; [exact H2|]. exact H3.
  - vm_compute. repeat split.
Qed.

(** ** Relationships between entities *)

Lemma merge_entity_rel_links (g : Neo4j.Graph) (s t ty d docId : string)
  (x : string * string) :
  In x (Neo4j.links_of g) ->
  In x (Neo4j.links_of
          (Neo4j.with_entity_rels g (Neo4j.merge_entity_rel g s t ty d docId))).
Proof.
  unfold Neo4j.links_of. simpl. unfold Neo4j.merge_entity_rel. intros Hin.
  destruct (Neo4j.has_entity g s && Neo4j.has_entity g t); [|exact Hin].
  destruct (existsb (Neo4j.same_rel s t ty) (Neo4j.entity_rels g)).
  - rewrite map_map. apply in_map_iff in Hin. destruct Hin as [r [Heq Hin]].
    apply in_map_iff. exists r. split; [|exact Hin].
    destruct (Neo4j.same_rel s t ty r); exact Heq.
  - rewrite map_app. apply in_or_app. left. exact Hin.
Qed.

Lemma merge_entity_rel_stores (g : Neo4j.Graph) (s t ty d docId : string) :
  Neo4j.has_entity g s = true -> Neo4j.has_entity g t = true ->
  In (s, t)
    (Neo4j.links_of
       (Neo4j.with_entity_rels g (Neo4j.merge_entity_rel g s t ty d docId))).
Proof.
  intros Hs Ht. unfold Neo4j.links_of. simpl. unfold Neo4j.merge_entity_rel.
  rewrite Hs, Ht. simpl.
  destruct (existsb (Neo4j.same_rel s t ty) (Neo4j.entity_rels g)) eqn:Hex.
  - apply existsb_exists in Hex. destruct Hex as [r [Hin Hr]].
    rewrite map_map. apply in_map_iff. exists r. split; [|exact Hin].
    rewrite Hr. simpl. unfold Neo4j.same_rel in Hr.
    apply andb_true_iff in Hr. destruct Hr as [Hr _].
    apply andb_true_iff in Hr. destruct Hr as [H1 H2].
    apply String.eqb_eq in H1, H2. rewrite H1, H2. reflexivity.
  - rewrite map_app. apply in_or_app. right. left. reflexivity.
Qed.

Lemma run_event {St : Type} (exec : forall A, Neo4j.Cypher A -> St -> result A * St)
  {A} (c : Neo4j.Cypher A) (w : World St) :
  exists ev, history (snd (session_run exec c w)) = history w ++ [ev]
             /\ sent ev = Neo4j.Sent c
             /\ error ev = outcome (fst (session_run exec c w))
             /\ ticks (snd (session_run exec c w)) = ticks w
             /\ totalSize (snd (session_run exec c w)) = totalSize w.
Proof.
  unfold session_run. destruct (exec A c (store w)) as [r s].
  eexists. repeat split.
Qed.

Lemma createEntityRelationships_step
  {St : Type} (exec : forall A, Neo4j.Cypher A -> St -> result A * St)
  (rel : Relationship) (rels : list Relationship) (docId : string) (w : World St) :
  KnowledgeGraph.createEntityRelationships exec (rel :: rels) docId w
  = KnowledgeGraph.createEntityRelationships exec rels docId
      (snd (session_run exec
              (Neo4j.MergeEntityRel (rel_source rel) (rel_target rel)
                 (or_string (rel_type rel) "RELATED_TO")
                 (or_string (rel_description rel) EmptyString) docId) w)).
Proof.
  unfold KnowledgeGraph.createEntityRelationships. cbn [forEach].
  unfold bind at 1. unfold tryCatch.
  destruct (session_run exec _ w) as [[[]|e] w1]; reflexivity.
Qed.

Lemma createEntityRelationships_sends
  {St : Type} (exec : forall A, Neo4j.Cypher A -> St -> result A * St)
  (rels : list Relationship) (docId : string) (w : World St) :
  let r := KnowledgeGraph.createEntityRelationships exec rels docId w in
  fst r = Ok tt
  /\ exists evs, history (snd r) = history w ++ evs
                 /\ map sent evs = map (entity_rel_statement docId) rels.
Proof.
  revert w. induction rels as [|rel rels IH]; intros w; cbv zeta.
  - split; [reflexivity|]. exists []. rewrite app_nil_r. split; reflexivity.
  - rewrite createEntityRelationships_step.
    destruct (run_event exec
                (Neo4j.MergeEntityRel (rel_source rel) (rel_target rel)
                   (or_string (rel_type rel) "RELATED_TO")
                   (or_string (rel_description rel) EmptyString) docId) w)
      as [ev [Hh [Hs _]]].
    destruct (IH (snd (session_run exec
                         (Neo4j.MergeEntityRel (rel_source rel) (rel_target rel)
                            (or_string (rel_type rel) "RELATED_TO")
                            (or_string (rel_description rel) EmptyString) docId) w)))
      as [Hok [evs [Hh' Hs']]].
    split; [exact Hok|]. exists (ev :: evs). split.
    + rewrite Hh', Hh, <- app_assoc. reflexivity.
    + cbn [map]. rewrite Hs, Hs'. reflexivity.
Qed.

Lemma createEntityRelationships_links (gds : bool) (rels : list Relationship)
  (docId : string) (w : World Neo4j.Graph) :
  let w' := snd (KnowledgeGraph.createEntityRelationships (Neo4j.exec gds)
                   rels docId w) in
  Neo4j.entities (store w') = Neo4j.entities (store w)
  /\ (forall x, In x (Neo4j.links_of (store w)) -> In x (Neo4j.links_of (store w')))
  /\ (forall rel, In rel rels ->
        Neo4j.valid_type (or_string (rel_type rel) "RELATED_TO") = true ->
        Neo4j.has_entity (store w) (rel_source rel) = true ->
        Neo4j.has_entity (store w) (rel_target rel) = true ->
        In (rel_source rel, rel_target rel) (Neo4j.links_of (store w'))).
Proof.
  revert w. induction rels as [|rel rels IH]; intros w; cbv zeta.
  - split; [reflexivity|]. split; [auto|]. intros rel [].
  - rewrite createEntityRelationships_step.
    set (w1 := snd (session_run (Neo4j.exec gds) _ w)).
    assert (He : Neo4j.entities (store w1) = Neo4j.entities (store w)).
    { unfold w1, session_run. cbn [Neo4j.exec].
      destruct (Neo4j.valid_type (or_string (rel_type rel) "RELATED_TO"));
        reflexivity. }
    assert (Hl : forall x, In x (Neo4j.links_of (store w)) ->
                           In x (Neo4j.links_of (store w1))).
    { intros x Hin. unfold w1, session_run. cbn [Neo4j.exec].
      destruct (Neo4j.valid_type (or_string (rel_type rel) "RELATED_TO"));
        cbn [snd store]; [apply merge_entity_rel_links, Hin | exact Hin]. }
    destruct (IH w1) as [He' [Hl' Hv']]. cbv zeta in He', Hl', Hv'.
    split; [rewrite He'; exact He|]. split; [intros x Hin; apply Hl', Hl, Hin|].
    intros rel0 [<-|Hin] Hvalid Hs Ht.
    + apply Hl'. unfold w1, session_run. cbn [Neo4j.exec]. rewrite Hvalid.
      cbn [snd store]. apply merge_entity_rel_stores; assumption.
    + apply Hv'; [exact Hin | exact Hvalid | |];
        unfold Neo4j.has_entity in *; rewrite He; assumption.
Qed.

(** X10.  [createEntityRelationships] never throws and a relationship that
    the store refuses does not stop the loop: whatever the store does, one
    statement is sent per relationship of the reply, in order, with the type
    RELATED_TO for a relationship without type.  On the graph store every
    relationship whose type is an identifier and whose two entities exist is
    stored, also after one that failed, and no Entity node and no earlier
    relationship is lost. *)
Theorem createEntityRelationships_skips_failures :
  (forall (St : Type) (exec : forall A, Neo4j.Cypher A -> St -> result A * St)
          (rels : list Relationship) (docId : string) (w : World St),
      let r := KnowledgeGraph.createEntityRelationships exec rels docId w in
      fst r = Ok tt
      /\ exists evs, history (snd r) = history w ++ evs
                     /\ map sent evs = map (entity_rel_statement docId) rels)
  /\ (forall (gds : bool) (rels : list Relationship) (docId : string)
             (w : World Neo4j.Graph),
        let w' := snd (KnowledgeGraph.createEntityRelationships (Neo4j.exec gds)
                         rels docId w) in
        Neo4j.entities (store w') = Neo4j.entities (store w)
        /\ (forall x, In x (Neo4j.links_of (store w)) ->
                      In x (Neo4j.links_of (store w')))
        /\ (forall rel, In rel rels ->
              Neo4j.valid_type (or_string (rel_type rel) "RELATED_TO") = true ->
              Neo4j.has_entity (store w) (rel_source rel) = true ->
              Neo4j.has_entity (store w) (rel_target rel) = true ->
              In (rel_source rel, rel_target rel) (Neo4j.links_of (store w'))))
  /\ Neo4j.valid_type "WORKS AT" = false
  /\ Neo4j.valid_type "LOCATED_IN" = true.
Proof.
  split; [|split; [|split]].
  - intros St exec rels docId w. apply createEntityRelationships_sends.
  - intros gds rels docId w. apply createEntityRelationships_links.
  - reflexivity.
  - reflexivity.
Qed.

(** ** The ingest command *)

Lemma guarded_but_succeeds {St A} (skip : Neo4j.statement -> bool) (h : string -> A)
  (m : M St A) :
  guarded_but skip h m -> succeeds m.
Proof. intros H w. destruct (H w) as [evs [_ [Ha _]]]. exact Ha. Qed.

Lemma initializeSchema_succeeds
  {St : Type} (exec : forall A, Neo4j.Cypher A -> St -> result A * St) :
  succeeds (KnowledgeGraph.initializeSchema exec)
  /\ succeeds (Legacy.initializeSchema exec).
Proof.
  split; apply succeeds_tryCatch; intros e; apply succeeds_ret.
Qed.

Lemma processed_cons (b : bool) (os : list bool) :
  processed (b :: os) = (if b then 1 else 0) + processed os.
Proof. unfold processed. destruct b; reflexivity. Qed.

Lemma processed_app (os os' : list bool) :
  processed (os ++ os') = processed os + processed os'.
Proof. unfold processed. rewrite filter_app, length_app. reflexivity. Qed.

Lemma processed_le (os : list bool) : processed os <= List.length os.
Proof. apply filter_length_le. Qed.

(** The loop over the sources of one kind goes through all of them. *)
Lemma ingest_each_outcomes {St} (ingest : string -> bool -> M St bool)
  (clear : bool) (sources : list string) (n : nat) (first : bool) (w : World St) :
  (forall source flag, succeeds (ingest source flag)) ->
  let after := outcomes (clear && first) (map ingest sources) w in
  KnowledgeGraph.ingest_each ingest clear sources n first w
  = (Ok (n + processed (fst after),
         match sources with
         | [] => first
         | _ :: _ => false
         end), snd after)
  /\ List.length (fst after) = List.length sources.
Proof.
  intros Hs. cbv zeta. revert n first w.
  induction sources as [|source rest IH]; intros n first w.
  - simpl. unfold ret, processed. simpl. rewrite Nat.add_0_r. auto.
  - cbn [KnowledgeGraph.ingest_each map outcomes fst snd List.length].
    unfold bind. destruct (Hs source (clear && first) w) as [b Hb].
    destruct (ingest source (clear && first) w) as [[b'|e] w1];
      simpl in Hb; [|discriminate].
    destruct (IH (if b' then S n else n) false w1) as [Hrun Hlen].
    rewrite andb_false_r in Hrun, Hlen.
    destruct b'; cbn [fst snd]; rewrite Hrun, Hlen, processed_cons;
      (split; [|reflexivity]); destruct rest;
      match goal with
      | |- (Ok (?a, _), _) = (Ok (?b, _), _) => replace a with b by lia
      end; reflexivity.
Qed.

Lemma outcomes_app {St} (clear : bool) (b1 b2 : list (bool -> M St bool))
  (w : World St) :
  let o1 := outcomes clear b1 w in
  let o2 := outcomes (match b1 with
                      | [] => clear
                      | _ :: _ => false
                      end) b2 (snd o1) in
  outcomes clear (b1 ++ b2) w = (fst o1 ++ fst o2, snd o2).
Proof.
  cbv zeta. revert clear w. induction b1 as [|ingest b1 IH]; intros clear w.
  - simpl. destruct (outcomes clear b2 w). reflexivity.
  - cbn [app outcomes fst snd]. rewrite IH. cbn [fst snd].
    replace (match b1 with
             | [] => false
             | _ :: _ => false
             end) with false by (destruct b1; reflexivity).
    reflexivity.
Qed.

(** The two loops go through every source, files first: the count they end
    with is the number of sources whose ingestion returned true. *)
Lemma ingest_loops_outcomes {St} (ingestFile ingestUrl : string -> bool -> M St bool)
  (files urls : option (list string)) (clear : bool) (w : World St) :
  (forall source flag, succeeds (ingestFile source flag)) ->
  (forall source flag, succeeds (ingestUrl source flag)) ->
  let after := outcomes clear (map ingestFile (or_empty files)
                               ++ map ingestUrl (or_empty urls)) w in
  KnowledgeGraph.ingest_loops ingestFile ingestUrl files urls clear w
  = (Ok (processed (fst after)), snd after)
  /\ List.length (fst after)
     = List.length (or_empty files) + List.length (or_empty urls).
Proof.
  intros Hf Hu. cbv zeta. rewrite outcomes_app. cbn [fst snd].
  rewrite length_app, processed_app.
  assert (H1 : match files with
               | Some l => KnowledgeGraph.ingest_each ingestFile clear l 0 true
               | None => ret (0, true)
               end w
               = (Ok (processed (fst (outcomes clear (map ingestFile (or_empty files)) w)),
                      match or_empty files with
                      | [] => true
                      | _ :: _ => false
                      end),
                  snd (outcomes clear (map ingestFile (or_empty files)) w))
               /\ List.length (fst (outcomes clear (map ingestFile (or_empty files)) w))
                  = List.length (or_empty files)).
  { destruct files as [l|]; simpl.
    - destruct (ingest_each_outcomes ingestFile clear l 0 true w Hf) as [Hr Hl].
      rewrite andb_true_r in Hr, Hl. rewrite Hr, Hl. auto.
    - auto. }
  destruct H1 as [H1 L1]. unfold KnowledgeGraph.ingest_loops, bind.
  rewrite H1, L1. cbn [fst snd].
  set (w1 := snd (outcomes clear (map ingestFile (or_empty files)) w)).
  set (m := processed (fst (outcomes clear (map ingestFile (or_empty files)) w))).
  assert (Hflag : match map ingestFile (or_empty files) with
                  | [] => clear
                  | _ :: _ => false
                  end
                  = clear && match or_empty files with
                             | [] => true
                             | _ :: _ => false
                             end).
  { destruct (or_empty files); simpl;
      [rewrite andb_true_r | rewrite andb_false_r]; reflexivity. }
  rewrite Hflag.
  destruct urls as [l|]; simpl.
  - destruct (ingest_each_outcomes ingestUrl clear l m
                (match or_empty files with
                 | [] => true
                 | _ :: _ => false
                 end) w1 Hu) as [Hr Hl].
    rewrite Hr, Hl. auto.
  - unfold processed. simpl. rewrite Nat.add_0_r. auto.
Qed.

(** X11.  The [ingest] command never throws, whatever the store does.  It
    stops before anything is sent when neither files nor URLs are given or
    when the connection fails; otherwise, after the schema statements, it
    goes through every source in order, the files first, each ingestion
    running in the world the earlier ones left and only the first with the
    clear flag, also after a source that failed, and ends with the number of
    sources whose ingestion returned true, which is at most the number of
    sources given. *)
Theorem ingest_command_counts
  (St : Type) (exec : forall A, Neo4j.Cypher A -> St -> result A * St)
  (L : Natural) (E : Env) (files urls : option (list string)) (clear : bool)
  (w : World St) :
  let stops := match files, urls with
               | None, None => true
               | _, _ => negb (connect E)
               end in
  let current := KnowledgeGraph.ingest_command exec L E files urls clear w in
  let legacy := Legacy.ingest_command exec L E files urls clear w in
  let given := List.length (or_empty files) + List.length (or_empty urls) in
  let batch :=
    outcomes clear
      (map (KnowledgeGraph.ingestFile exec L E) (or_empty files)
       ++ map (KnowledgeGraph.ingestUrl exec L E) (or_empty urls))
      (snd (KnowledgeGraph.initializeSchema exec w)) in
  let earlier :=
    outcomes clear
      (map (Legacy.ingestFile exec L E) (or_empty files)
       ++ map (Legacy.ingestUrl exec L E) (or_empty urls))
      (snd (Legacy.initializeSchema exec w)) in
  (if stops
   then current = (Ok None, w) /\ legacy = (Ok None, w)
   else (current = (Ok (Some (processed (fst batch))), snd batch)
         /\ List.length (fst batch) = given
         /\ processed (fst batch) <= given)
        /\ (legacy = (Ok (Some (processed (fst earlier))), snd earlier)
            /\ List.length (fst earlier) = given
            /\ processed (fst earlier) <= given)).
Proof.
  intros stops current legacy given batch earlier.
  assert (Hcur : bind (KnowledgeGraph.initializeSchema exec)
                   (fun _ =>
                      bind (KnowledgeGraph.ingest_loops
                              (KnowledgeGraph.ingestFile exec L E)
                              (KnowledgeGraph.ingestUrl exec L E) files urls clear)
                        (fun totalProcessed => ret (Some totalProcessed))) w
                 = (Ok (Some (processed (fst batch))), snd batch)
                 /\ List.length (fst batch) = given
                 /\ processed (fst batch) <= given).
  { unfold bind at 1.
    destruct (proj1 (initializeSchema_succeeds exec) w) as [b Hb].
    unfold batch.
    destruct (KnowledgeGraph.initializeSchema exec w) as [[b'|e] w1];
      simpl in Hb; [|discriminate].
    cbn [snd]. unfold bind.
    destruct (ingest_loops_outcomes (KnowledgeGraph.ingestFile exec L E)
                (KnowledgeGraph.ingestUrl exec L E) files urls clear w1)
      as [Hrun Hlen].
    - intros source flag. eapply guarded_but_succeeds, ingestFile_guarded.
    - intros source flag. eapply guarded_but_succeeds, ingestUrl_guarded.
    - rewrite Hrun. split; [reflexivity|]. split; [exact Hlen|].
      unfold given. rewrite <- Hlen. apply processed_le. }
  assert (Hleg : bind (Legacy.initializeSchema exec)
                   (fun _ =>
                      bind (KnowledgeGraph.ingest_loops
                              (Legacy.ingestFile exec L E)
                              (Legacy.ingestUrl exec L E) files urls clear)
                        (fun totalProcessed => ret (Some totalProcessed))) w
                 = (Ok (Some (processed (fst earlier))), snd earlier)
                 /\ List.length (fst earlier) = given
                 /\ processed (fst earlier) <= given).
  { unfold bind at 1.
    destruct (proj2 (initializeSchema_succeeds exec) w) as [b Hb].
    unfold earlier.
    destruct (Legacy.initializeSchema exec w) as [[b'|e] w1];
      simpl in Hb; [|discriminate].
    cbn [snd]. unfold bind.
    destruct (ingest_loops_outcomes (Legacy.ingestFile exec L E)
                (Legacy.ingestUrl exec L E) files urls clear w1)
      as [Hrun Hlen].
    - intros source flag. eapply guarded_but_succeeds, legacy_ingestFile_guarded.
    - intros source flag. eapply guarded_but_succeeds, ingestUrl_guarded.
    - rewrite Hrun. split; [reflexivity|]. split; [exact Hlen|].
      unfold given. rewrite <- Hlen. apply processed_le. }
  unfold stops, current, legacy, KnowledgeGraph.ingest_command,
    Legacy.ingest_command.
  destruct files as [fl|], urls as [ul|];
    try (destruct (negb (connect E)); [split; reflexivity | split; assumption]).
  split; reflexivity.
Qed.

(** A batch with a file that does not exist: the later sources are still
    ingested and counted. *)
Example ingest_command_goes_on :
  fst (KnowledgeGraph.ingest_command (Neo4j.exec true) Sample.natural Sample.env
         (Some ["missing.txt"; "notes.txt"]) (Some ["http://example.org/graphs"])
         false (start Neo4j.empty))
  = Ok (Some 2)
  /\ List.length
       (Neo4j.documents
          (store (snd (KnowledgeGraph.ingest_command (Neo4j.exec true) Sample.natural
                         Sample.env (Some ["missing.txt"; "notes.txt"])
                         (Some ["http://example.org/graphs"]) false
                         (start Neo4j.empty))))) = 2.
Proof. vm_compute. split; reflexivity. Qed.

(** ** The running total of the first version *)

Section Totals.
Context {St : Type}.
Variable exec : forall A, Neo4j.Cypher A -> St -> result A * St.
Variable E : Env.

Lemma run_keeps_total {A} (c : Neo4j.Cypher A) (w : World St) :
  totalSize (snd (session_run exec c w)) = totalSize w.
Proof. unfold session_run. destruct (exec A c (store w)). reflexivity. Qed.

Lemma forEach_keeps_total {A} (l : list A) (body : A -> M St unit) (w : World St) :
  (forall x w0, totalSize (snd (body x w0)) = totalSize w0) ->
  totalSize (snd (forEach l body w)) = totalSize w.
Proof.
  intros Hb. revert w. induction l as [|x l IH]; intros w; simpl; [reflexivity|].
  unfold bind. specialize (Hb x w).
  destruct (body x w) as [[[]|e] w1]; simpl in *.
  - rewrite IH. exact Hb.
  - exact Hb.
Qed.

Lemma processDocument_result (docName content type source : string)
  (w w' : World St) (r : result KnowledgeGraphCLI.Summary) :
  KnowledgeGraphCLI.processDocument exec E docName content type source w = (r, w') ->
  match r with
  | Ok summary =>
      totalSize w' = (totalSize w + N.of_nat (String.length content))%N
      /\ summary
         = KnowledgeGraphCLI.mkSummary docName
             (List.length (KnowledgeGraphCLI.extractConcepts content))
             (String.length content) type
  | Throw _ => totalSize w' = totalSize w
  end.
Proof.
  unfold KnowledgeGraphCLI.processDocument.
  rewrite bind_reading, bind_reading. unfold tryCatch, bind. intros H.
  match type of H with
  | context [session_run exec ?c ?w0] =>
      pose proof (run_keeps_total c w0) as H1;
      destruct (session_run exec c w0) as [[[]|e] w1]
  end; cbn [fst snd totalSize] in *;
    [|injection H as <- <-; exact H1].
  match type of H with
  | context [forEach ?l ?body w1] =>
      pose proof (forEach_keeps_total l body w1
                    (fun x w2 => run_keeps_total _ w2)) as H2;
      destruct (forEach l body w1) as [[[]|e] w2]
  end; cbn [fst snd totalSize] in *;
    [|injection H as <- <-; congruence].
  match type of H with
  | context [forEach ?l ?body w2] =>
      pose proof (forEach_keeps_total l body w2
                    (fun x w3 => run_keeps_total _ w3)) as H3;
      destruct (forEach l body w2) as [[[]|e] w3]
  end; cbn [fst snd totalSize] in *;
    [|injection H as <- <-; congruence].
  unfold get_totalSize, set_totalSize, ret in H. cbn in H.
  injection H as <- <-. cbn [totalSize]. split; [congruence | reflexivity].
Qed.

Lemma processDocument_total (docName content type source : string) (w : World St) :
  let r := KnowledgeGraphCLI.processDocument exec E docName content type source w in
  match fst r with
  | Ok summary =>
      totalSize (snd r) = (totalSize w + N.of_nat (String.length content))%N
      /\ summary
         = KnowledgeGraphCLI.mkSummary docName
             (List.length (KnowledgeGraphCLI.extractConcepts content))
             (String.length content) type
  | Throw _ => totalSize (snd r) = totalSize w
  end.
Proof.
  cbv zeta.
  destruct (KnowledgeGraphCLI.processDocument exec E docName content type source w)
    as [r w'] eqn:H.
  apply processDocument_result in H. exact H.
Qed.

Lemma bind_ok {A B} (m : M St A) (k : A -> M St B) (a : A) (w w1 : World St) :
  m w = (Ok a, w1) -> bind m k w = k a w1.
Proof. intros H. unfold bind. rewrite H. reflexivity. Qed.

Lemma checkSizeLimit_run (newSize : N) (w : World St) :
  KnowledgeGraphCLI.checkSizeLimit E newSize w
  = (Ok (negb (KnowledgeGraphCLI.maxSize E <? totalSize w + newSize)%N), w).
Proof.
  unfold KnowledgeGraphCLI.checkSizeLimit, get_totalSize, bind, ret.
  destruct (KnowledgeGraphCLI.maxSize E <? totalSize w + newSize)%N; reflexivity.
Qed.

Lemma cli_ingestFile_result (filePath : string) (w w' : World St)
  (r : result (option KnowledgeGraphCLI.Summary)) :
  KnowledgeGraphCLI.ingestFile exec E filePath w = (r, w') ->
  match r with
  | Ok (Some summary) =>
      exists size content,
        fs_stat_size E filePath = Ok size
        /\ fs_readFile E filePath = Ok content
        /\ (totalSize w + size <= KnowledgeGraphCLI.maxSize E)%N
        /\ KnowledgeGraphCLI.summary_size summary = String.length content
        /\ totalSize w' = (totalSize w + N.of_nat (String.length content))%N
  | Ok None => w' = w
  | Throw _ => totalSize w' = totalSize w
  end.
Proof.
  unfold KnowledgeGraphCLI.ingestFile, tryCatch. rewrite bind_lift.
  destruct (fs_stat_size E filePath) as [size|e] eqn:Hstat;
    [|intros [= <- <-]; reflexivity].
  rewrite (bind_ok _ _ _ _ _ (checkSizeLimit_run size w)).
  destruct (KnowledgeGraphCLI.maxSize E <? totalSize w + size)%N eqn:Hlim;
    cbn [negb]; [intros [= <- <-]; reflexivity|].
  rewrite bind_lift.
  destruct (fs_readFile E filePath) as [content|e] eqn:Hread;
    [|intros [= <- <-]; reflexivity].
  unfold bind.
  destruct (KnowledgeGraphCLI.processDocument exec E (path_basename E filePath)
              content "file" filePath w) as [[summary|e] w1] eqn:Hp;
    apply processDocument_result in Hp; intros [= <- <-].
  - destruct Hp as [Ht ->]. exists size, content.
    repeat split; try assumption. apply N.ltb_ge, Hlim.
  - exact Hp.
Qed.

Lemma clearDatabase_result (w w' : World St) (r : result unit) :
  KnowledgeGraphCLI.clearDatabase exec w = (r, w') ->
  match r with
  | Ok _ => totalSize w' = 0%N
  | Throw _ => totalSize w' = totalSize w
  end.
Proof.
  unfold KnowledgeGraphCLI.clearDatabase, tryCatch, bind.
  pose proof (run_keeps_total Neo4j.DetachDeleteAll w) as H.
  destruct (session_run exec Neo4j.DetachDeleteAll w) as [[[]|e] w1];
    cbn [fst snd] in *; intros [= <- <-]; [reflexivity | exact H].
Qed.

Lemma cli_transparent (docName content type source filePath : string) :
  transparent_but no_skip
    (KnowledgeGraphCLI.processDocument exec E docName content type source)
  /\ transparent_but no_skip (KnowledgeGraphCLI.ingestFile exec E filePath)
  /\ transparent_but no_skip (KnowledgeGraphCLI.clearDatabase exec).
Proof.
  assert (Hp : forall docName content type source,
             transparent_but no_skip
               (KnowledgeGraphCLI.processDocument exec E docName content type source)).
  { intros. unfold KnowledgeGraphCLI.processDocument. cbv zeta.
    transparency_but exec; apply tb_silent; reflexivity. }
  split; [apply Hp|]. split.
  - unfold KnowledgeGraphCLI.ingestFile, KnowledgeGraphCLI.checkSizeLimit.
    transparency_but exec; try apply Hp; apply tb_silent; reflexivity.
  - unfold KnowledgeGraphCLI.clearDatabase.
    transparency_but exec; apply tb_silent; reflexivity.
Qed.

End Totals.

Lemma tb_transparent {St A} (m : M St A) :
  transparent_but no_skip m -> transparent m.
Proof.
  intros H w. destruct (H w) as [evs [H1 H2]]. exists evs. split; [exact H1|].
  intros ev message Hin Herr. exact (H2 ev message Hin eq_refl Herr).
Qed.

(** X12.  The running total of the first version counts a source only when
    it was stored.  Whatever the store does: [processDocument] adds the
    length of the content to [totalSize] when it returns, and leaves it as
    it was when it throws; [ingestFile] does the same, leaves the world
    untouched when it turns the file away, and returns a summary only for a
    file whose size fitted under the ceiling; [clearDatabase] sets the total
    to 0 only when the clear succeeded.  A statement that fails makes each
    of the three throw the error of that statement. *)
Theorem cli_total_counts_stored_sources
  (St : Type) (exec : forall A, Neo4j.Cypher A -> St -> result A * St) (E : Env) :
  (forall docName content type source w,
      let r := KnowledgeGraphCLI.processDocument exec E docName content type source w in
      match fst r with
      | Ok summary =>
          totalSize (snd r) = (totalSize w + N.of_nat (String.length content))%N
          /\ summary
             = KnowledgeGraphCLI.mkSummary docName
                 (List.length (KnowledgeGraphCLI.extractConcepts content))
                 (String.length content) type
      | Throw _ => totalSize (snd r) = totalSize w
      end)
  /\ (forall filePath w,
        let r := KnowledgeGraphCLI.ingestFile exec E filePath w in
        match fst r with
        | Ok (Some summary) =>
            exists size content,
              fs_stat_size E filePath = Ok size
              /\ fs_readFile E filePath = Ok content
              /\ (totalSize w + size <= KnowledgeGraphCLI.maxSize E)%N
              /\ KnowledgeGraphCLI.summary_size summary = String.length content
              /\ totalSize (snd r)
                 = (totalSize w + N.of_nat (String.length content))%N
        | Ok None => snd r = w
        | Throw _ => totalSize (snd r) = totalSize w
        end)
  /\ (forall w,
        let r := KnowledgeGraphCLI.clearDatabase exec w in
        match fst r with
        | Ok _ => totalSize (snd r) = 0%N
        | Throw _ => totalSize (snd r) = totalSize w
        end)
  /\ (forall docName content type source filePath,
        transparent
          (KnowledgeGraphCLI.processDocument exec E docName content type source)
        /\ transparent (KnowledgeGraphCLI.ingestFile exec E filePath)
        /\ transparent (KnowledgeGraphCLI.clearDatabase exec)).
Proof.
  split; [|split; [|split]].
  - intros docName content type source w. apply processDocument_total.
  - intros filePath w. cbv zeta.
    destruct (KnowledgeGraphCLI.ingestFile exec E filePath w) as [r w'] eqn:H.
    apply cli_ingestFile_result in H. exact H.
  - intros w. cbv zeta.
    destruct (KnowledgeGraphCLI.clearDatabase exec w) as [r w'] eqn:H.
    apply clearDatabase_result in H. exact H.
  - intros docName content type source filePath.
    destruct (cli_transparent exec E docName content type source filePath)
      as [H1 [H2 H3]].
    split; [|split]; apply tb_transparent; assumption.
Qed.

(** X13.  The cumulative ceiling of the first version is an invariant of
    [ingestFile] for a file whose text is no longer than its size on disk:
    the ceiling is checked against the size of the file and the total grows
    by the length of the text, so a total within the ceiling stays within
    it, and it never decreases. *)
Theorem cli_total_stays_within_ceiling
  (St : Type) (exec : forall A, Neo4j.Cypher A -> St -> result A * St) (E : Env)
  (filePath : string) (size : N) (content : string) (w : World St) :
  fs_stat_size E filePath = Ok size ->
  fs_readFile E filePath = Ok content ->
  (N.of_nat (String.length content) <= size)%N ->
  (totalSize w <= KnowledgeGraphCLI.maxSize E)%N ->
  let w' := snd (KnowledgeGraphCLI.ingestFile exec E filePath w) in
  (totalSize w <= totalSize w')%N
  /\ (totalSize w' <= KnowledgeGraphCLI.maxSize E)%N.
Proof.
  intros Hstat Hread Hlen Hinv. cbv zeta.
  destruct (KnowledgeGraphCLI.ingestFile exec E filePath w) as [r w'] eqn:H.
  apply cli_ingestFile_result in H. cbn [snd].
  destruct r as [[summary|]|e].
  - destruct H as [size' [content' [Hs [Hr [Hfit [_ Ht]]]]]].
    rewrite Hstat in Hs. injection Hs as <-.
    rewrite Hread in Hr. injection Hr as <-.
    rewrite Ht. lia.
  - subst w'. lia.
  - rewrite H. lia.
Qed.

Lemma cli_total_stays_within_ceiling_witness :
  let w' := snd (KnowledgeGraphCLI.ingestFile (Neo4j.exec true) Sample.env
                   "notes.txt" (start Neo4j.empty)) in
  (totalSize (start Neo4j.empty) <= totalSize w')%N
  /\ (totalSize w' <= KnowledgeGraphCLI.maxSize Sample.env)%N.
Proof.
  refine (cli_total_stays_within_ceiling Neo4j.Graph (Neo4j.exec true) Sample.env
            "notes.txt" 48%N "Graph databases store graph data. Graph queries."
            (start Neo4j.empty) _ _ _ _).
  - reflexivity.
  - reflexivity.
  - vm_compute. discriminate.
  - vm_compute. discriminate.
Defined.

(** Without that condition the total can pass the ceiling. *)
Example cli_ceiling_counts_characters :
  let r := KnowledgeGraphCLI.ingestFile (Neo4j.exec true) grown_env "grown.txt"
             (start Neo4j.empty) in
  KnowledgeGraphCLI.maxSize grown_env = 0%N
  /\ fst r = Ok (Some (KnowledgeGraphCLI.mkSummary "grown.txt" 0 3 "file"))
  /\ totalSize (snd r) = 3%N.
Proof. vm_compute. repeat split. Qed.

(** ** The Document node of an ingestion *)

Lemma substring0_length (n : nat) (s : string) :
  String.length (JS.substring0 n s) = Nat.min n (String.length s).
Proof.
  unfold JS.substring0. revert s. induction n as [|n IH]; intros s.
  - destruct s; reflexivity.
  - destruct s as [|c s]; [reflexivity|]. simpl. rewrite IH. reflexivity.
Qed.

Lemma substring0_prefix (n : nat) (s : string) :
  String.prefix (JS.substring0 n s) s = true.
Proof.
  unfold JS.substring0. revert s. induction n as [|n IH]; intros s.
  - destruct s; reflexivity.
  - destruct s as [|c s]; [reflexivity|]. simpl.
    destruct (ascii_dec c c) as [_|Hne]; [apply IH | congruence].
Qed.

Lemma exec_same_documents (gds : bool) {A} (c : Neo4j.Cypher A) (g : Neo4j.Graph) :
  keeps_documents c = true ->
  Neo4j.documents (snd (Neo4j.exec gds A c g)) = Neo4j.documents g.
Proof.
  intros Hc. destruct c; simpl in *; try discriminate; try reflexivity.
  - destruct (Neo4j.valid_type type); reflexivity.
  - destruct gds; reflexivity.
  - destruct (Neo4j.sum_fails _ _); reflexivity.
Qed.

Section Documents.
Variable gds : bool.
Variable L : Natural.
Variable E : Env.

Local Abbreviation exec := (Neo4j.exec gds).

Lemma sd_refl (w : World Neo4j.Graph) : same_documents w w.
Proof. reflexivity. Qed.

Lemma sd_trans (a b c : World Neo4j.Graph) :
  same_documents a b -> same_documents b c -> same_documents a c.
Proof. unfold same_documents. intros H1 H2. rewrite H2. exact H1. Qed.

Lemma sd_local (w : World Neo4j.Graph) (t : nat) (n : N) :
  same_documents w (mkWorld (store w) (history w) t n).
Proof. reflexivity. Qed.

Lemma sd_run {A} (c : Neo4j.Cypher A) (w : World Neo4j.Graph) :
  keeps_documents c = true -> same_documents w (snd (session_run exec c w)).
Proof.
  intros Hc. pose proof (exec_same_documents gds c (store w) Hc) as H.
  unfold same_documents, session_run.
  destruct (Neo4j.exec gds A c (store w)) as [r s]. exact H.
Qed.

Local Ltac documents_steps :=
  preservation sd_refl sd_trans sd_local ltac:(apply sd_run; reflexivity).

(** The world an ingestion works in after the optional clear. *)
Lemma clear_step {B} (clear : bool) (k : unit -> M Neo4j.Graph B)
  (w : World Neo4j.Graph) :
  exists w1,
    bind (if clear then session_run exec Neo4j.DetachDeleteAll else ret tt) k w
    = k tt w1
    /\ Neo4j.documents (store w1) = documents_before clear w
    /\ ticks w1 = ticks w /\ totalSize w1 = totalSize w.
Proof.
  destruct clear.
  - eexists. split; [reflexivity|]. repeat split.
  - exists w. repeat split.
Qed.

Lemma create_step {B} (d : Neo4j.Document) (k : unit -> M Neo4j.Graph B)
  (w : World Neo4j.Graph) (r : result B) (w' : World Neo4j.Graph) :
  bind (session_run exec (Neo4j.CreateDocument d)) k w = (r, w') ->
  (exists b, r = Ok b) ->
  exists w2,
    k tt w2 = (r, w')
    /\ Neo4j.documents (store w2) = Neo4j.documents (store w) ++ [d]
    /\ ~ In (Neo4j.doc_id d) (map Neo4j.doc_id (Neo4j.documents (store w))).
Proof.
  rewrite bind_create. intros H [b ->].
  destruct (Neo4j.has_document (store w) (Neo4j.doc_id d)) eqn:Hd; [discriminate|].
  eexists. split; [exact H|]. split; [reflexivity|].
  apply existsb_name_not_In, Hd.
Qed.

Lemma tail_documents {B} (m : M Neo4j.Graph B) (w w' : World Neo4j.Graph)
  (r : result B) :
  preserves same_documents m -> m w = (r, w') ->
  Neo4j.documents (store w') = Neo4j.documents (store w).
Proof. intros Hm H. specialize (Hm w). rewrite H in Hm. exact Hm. Qed.

Lemma tryCatch_true (body : M Neo4j.Graph bool) (w w' : World Neo4j.Graph) :
  tryCatch body (fun _ => ret false) w = (Ok true, w') -> body w = (Ok true, w').
Proof.
  unfold tryCatch. destruct (body w) as [[b|e] w1]; [auto | discriminate].
Qed.

Lemma ingestUrl_document (url : string) (clear : bool) (w w' : World Neo4j.Graph) :
  KnowledgeGraph.ingestUrl exec L E url clear w = (Ok true, w') ->
  exists text,
    fetch_body_text E url = Ok text
    /\ 0 < String.length (page_content text)
    /\ (N.of_nat (String.length (page_content text)) <= KnowledgeGraph.maxFileSize E)%N
    /\ Neo4j.documents (store w')
       = documents_before clear w
         ++ [url_document E url (page_content text) (Date_now E (ticks w))].
Proof.
  intros H. apply tryCatch_true in H. revert H.
  unfold KnowledgeGraph.ingestUrl. rewrite bind_lift.
  destruct (fetch_body_text E url) as [text|e]; [|discriminate].
  cbv zeta. fold (page_content text).
  destruct (String.length (page_content text) =? 0) eqn:H0; [discriminate|].
  destruct (KnowledgeGraph.maxFileSize E <? _)%N eqn:Hmax; [discriminate|].
  destruct (clear_step clear
              (fun _ =>
                 now <- reading (Date_now E) ;;
                 session_run exec
                   (Neo4j.CreateDocument
                      (Neo4j.mkDocument
                         ("url_" ++ JS.substring0 10 (base64 E url) ++ "_"
                          ++ JS.show_N now)
                         url (JS.substring0 1000 (page_content text)) "url" url
                         (N.of_nat (String.length (page_content text))))) ;;
                 forEach (KnowledgeGraph.extractConcepts L (page_content text))
                   (fun concept =>
                      session_run exec
                        (Neo4j.MergeConcept (name concept) (frequency concept)) ;;
                      session_run exec
                        (Neo4j.CreateContains
                           ("url_" ++ JS.substring0 10 (base64 E url) ++ "_"
                            ++ JS.show_N now)
                           Neo4j.ConceptLabel (name concept) (frequency concept))) ;;
                 KnowledgeGraph.createConceptRelationships exec
                   (map KnowledgeGraph.as_entity
                      (KnowledgeGraph.extractConcepts L (page_content text))) ;;
                 ret true) w) as [w1 [Hstep [Hdocs [Hticks _]]]].
  rewrite Hstep. clear Hstep. rewrite bind_reading. intros H.
  apply create_step in H; [|eauto]. destruct H as [w2 [Htail [Hd2 _]]].
  apply tail_documents in Htail.
  - exists text. split; [reflexivity|]. split; [apply Nat.eqb_neq in H0; lia|].
    split; [apply N.ltb_ge, Hmax|].
    rewrite Htail, Hd2. cbn [store]. rewrite Hdocs, Hticks. reflexivity.
  - unfold KnowledgeGraph.createConceptRelationships. documents_steps.
Qed.

Lemma ingestFile_document (filePath : string) (clear : bool)
  (w w' : World Neo4j.Graph) :
  KnowledgeGraph.ingestFile exec L E filePath clear w = (Ok true, w') ->
  exists size content,
    fs_stat_size E filePath = Ok size
    /\ fs_readFile E filePath = Ok content
    /\ (size <= KnowledgeGraph.maxFileSize E)%N
    /\ Neo4j.documents (store w')
       = documents_before clear w
         ++ [file_document E filePath content size (Date_now E (ticks w))].
Proof.
  intros H. apply tryCatch_true in H. revert H.
  unfold KnowledgeGraph.ingestFile. rewrite bind_lift.
  destruct (fs_stat_size E filePath) as [size|e]; [|discriminate].
  destruct (KnowledgeGraph.maxFileSize E <? size)%N eqn:Hmax; [discriminate|].
  rewrite bind_lift.
  destruct (fs_readFile E filePath) as [content|e]; [|discriminate].
  match goal with
  | |- bind (if clear then _ else _) ?k w = _ -> _ =>
      destruct (clear_step clear k w) as [w1 [Hstep [Hdocs [Hticks _]]]]
  end.
  rewrite Hstep. clear Hstep. cbv beta.
  destruct (extractEntitiesWithLLM_silent (St := Neo4j.Graph) L E content w1)
    as [_ [extracted Hex]].
  rewrite (bind_ok _ _ _ _ _ Hex), bind_reading. intros H.
  apply create_step in H; [|eauto]. destruct H as [w2 [Htail [Hd2 _]]].
  apply tail_documents in Htail.
  - exists size, content. split; [reflexivity|]. split; [reflexivity|].
    split; [apply N.ltb_ge, Hmax|].
    rewrite Htail, Hd2. cbn [store]. rewrite Hdocs, Hticks. reflexivity.
  - unfold KnowledgeGraph.createConceptRelationships,
      KnowledgeGraph.createEntityRelationships. documents_steps.
Qed.

Lemma legacy_ingestFile_document (filePath : string) (clear : bool)
  (w w' : World Neo4j.Graph) :
  Legacy.ingestFile exec L E filePath clear w = (Ok true, w') ->
  exists size content,
    fs_stat_size E filePath = Ok size
    /\ fs_readFile E filePath = Ok content
    /\ (size <= KnowledgeGraph.maxFileSize E)%N
    /\ Neo4j.documents (store w')
       = documents_before clear w
         ++ [file_document E filePath content size (Date_now E (ticks w))].
Proof.
  intros H. apply tryCatch_true in H. revert H.
  unfold Legacy.ingestFile. rewrite bind_lift.
  destruct (fs_stat_size E filePath) as [size|e]; [|discriminate].
  destruct (KnowledgeGraph.maxFileSize E <? size)%N eqn:Hmax; [discriminate|].
  rewrite bind_lift.
  destruct (fs_readFile E filePath) as [content|e]; [|discriminate].
  match goal with
  | |- bind (if clear then _ else _) ?k w = _ -> _ =>
      destruct (clear_step clear k w) as [w1 [Hstep [Hdocs [Hticks _]]]]
  end.
  rewrite Hstep. clear Hstep. cbv beta zeta. rewrite bind_reading. intros H.
  apply create_step in H; [|eauto]. destruct H as [w2 [Htail [Hd2 _]]].
  apply tail_documents in Htail.
  - exists size, content. split; [reflexivity|]. split; [reflexivity|].
    split; [apply N.ltb_ge, Hmax|].
    rewrite Htail, Hd2. cbn [store]. rewrite Hdocs, Hticks. reflexivity.
  - unfold Legacy.createConceptRelationships,
      KnowledgeGraph.createConceptRelationships. documents_steps.
Qed.

Lemma processDocument_document (docName content type source : string)
  (summary : KnowledgeGraphCLI.Summary) (w w' : World Neo4j.Graph) :
  KnowledgeGraphCLI.processDocument exec E docName content type source w
  = (Ok summary, w') ->
  Neo4j.documents (store w')
  = Neo4j.documents (store w)
    ++ [Neo4j.mkDocument
          (type ++ "_" ++ JS.show_N (Date_now E (ticks w)) ++ "_"
           ++ random_suffix E (S (ticks w)))
          docName content type source (N.of_nat (String.length content))].
Proof.
  unfold KnowledgeGraphCLI.processDocument.
  rewrite bind_reading, bind_reading. cbn [ticks]. intros H.
  assert (Hbody : forall (body : M Neo4j.Graph KnowledgeGraphCLI.Summary) w0,
             tryCatch body (fun message => throw message) w0 = (Ok summary, w') ->
             body w0 = (Ok summary, w')).
  { intros body w0. unfold tryCatch, throw.
    destruct (body w0) as [[s|e] w1]; [auto | discriminate]. }
  apply Hbody in H. apply create_step in H; [|eauto].
  destruct H as [w2 [Htail [Hd2 _]]].
  apply tail_documents in Htail.
  - rewrite Htail, Hd2. reflexivity.
  - documents_steps.
Qed.

End Documents.

(** X14.  A successful ingestion adds exactly one Document node, after the
    nodes that were there, or as the only one when the graph was cleared.
    In knowledge-graph.js the node holds the first 1000 characters of the
    text, and as its size the length of the whole text for a page and the
    size of the file for a file; its id is built from the reading of the
    clock.  The first version stores the whole content. *)
Theorem ingestion_stores_one_document (gds : bool) (L : Natural) (E : Env) :
  let exec := Neo4j.exec gds in
  (forall url clear w w',
      KnowledgeGraph.ingestUrl exec L E url clear w = (Ok true, w') ->
      exists text,
        fetch_body_text E url = Ok text
        /\ 0 < String.length (page_content text)
        /\ (N.of_nat (String.length (page_content text))
            <= KnowledgeGraph.maxFileSize E)%N
        /\ Neo4j.documents (store w')
           = documents_before clear w
             ++ [url_document E url (page_content text) (Date_now E (ticks w))])
  /\ (forall filePath clear w w',
        KnowledgeGraph.ingestFile exec L E filePath clear w = (Ok true, w')
        \/ Legacy.ingestFile exec L E filePath clear w = (Ok true, w') ->
        exists size content,
          fs_stat_size E filePath = Ok size
          /\ fs_readFile E filePath = Ok content
          /\ (size <= KnowledgeGraph.maxFileSize E)%N
          /\ Neo4j.documents (store w')
             = documents_before clear w
               ++ [file_document E filePath content size (Date_now E (ticks w))])
  /\ (forall docName content type source summary w w',
        KnowledgeGraphCLI.processDocument exec E docName content type source w
        = (Ok summary, w') ->
        Neo4j.documents (store w')
        = Neo4j.documents (store w)
          ++ [Neo4j.mkDocument
                (type ++ "_" ++ JS.show_N (Date_now E (ticks w)) ++ "_"
                 ++ random_suffix E (S (ticks w)))
                docName content type source (N.of_nat (String.length content))])
  /\ (forall url filePath content size now,
        let page := url_document E url content now in
        let file := file_document E filePath content size now in
        Neo4j.doc_content page = Neo4j.doc_content file
        /\ String.prefix (Neo4j.doc_content page) content = true
        /\ String.length (Neo4j.doc_content page)
           = Nat.min 1000 (String.length content)
        /\ Neo4j.doc_size page = N.of_nat (String.length content)
        /\ Neo4j.doc_size file = size).
Proof.
  intros exec. split; [|split; [|split]].
  - intros url clear w w'. apply ingestUrl_document.
  - intros filePath clear w w' [H|H].
    + eapply ingestFile_document, H.
    + eapply legacy_ingestFile_document, H.
  - intros docName content type source summary w w'.
    apply processDocument_document.
  - intros url filePath content size now page file.
    split; [reflexivity|]. split; [apply substring0_prefix|].
    split; [apply substring0_length|]. split; reflexivity.
Qed.

(** ** Pages that are turned away *)

Lemma collapse_blank_after_space (s : string) :
  blank s = true -> JS.collapse_spaces s true = EmptyString.
Proof.
  unfold blank. induction s as [|c s IH]; simpl; [reflexivity|].
  intros H. apply andb_true_iff in H. destruct H as [Hc Hs].
  rewrite Hc. apply IH, Hs.
Qed.

Lemma page_content_blank (s : string) :
  blank s = true -> page_content s = EmptyString.
Proof.
  unfold page_content. destruct s as [|c s]; [reflexivity|].
  unfold blank. simpl. intros H. apply andb_true_iff in H. destruct H as [Hc Hs].
  rewrite Hc, (collapse_blank_after_space s Hs). reflexivity.
Qed.

Lemma forallb_false {A} (f : A -> bool) (l : list A) :
  forallb f l = false -> exists x, In x l /\ f x = false.
Proof.
  induction l as [|x l IH]; simpl; [discriminate|].
  destruct (f x) eqn:Hx; simpl.
  - intros H. destruct (IH H) as [y [Hin Hy]]. exists y. auto.
  - intros _. exists x. auto.
Qed.

Lemma collapse_keeps (s : string) (prev : bool) (c : ascii) :
  In c (list_ascii_of_string s) -> JS.is_space c = false ->
  In c (list_ascii_of_string (JS.collapse_spaces s prev)).
Proof.
  revert prev. induction s as [|x s IH]; intros prev Hin Hc; simpl in *.
  - destruct Hin.
  - destruct Hin as [->|Hin].
    + rewrite Hc. left. reflexivity.
    + destruct (JS.is_space x).
      * destruct prev; [apply IH; assumption | right; apply IH; assumption].
      * right. apply IH; assumption.
Qed.

Lemma trimStart_keeps (s : string) (c : ascii) :
  In c (list_ascii_of_string s) -> JS.is_space c = false ->
  In c (list_ascii_of_string (JS.trimStart s)).
Proof.
  induction s as [|x s IH]; intros Hin Hc; simpl in *; [destruct Hin|].
  destruct (JS.is_space x) eqn:Hx; [|exact Hin].
  destruct Hin as [->|Hin]; [congruence | apply IH; assumption].
Qed.

Lemma reverse_keeps (s : string) (c : ascii) :
  In c (list_ascii_of_string s) -> In c (list_ascii_of_string (JS.reverse s)).
Proof.
  intros Hin. unfold JS.reverse. rewrite list_ascii_of_string_of_list_ascii.
  apply in_rev. rewrite rev_involutive. exact Hin.
Qed.

Lemma page_content_not_blank (s : string) :
  blank s = false -> 0 < String.length (page_content s).
Proof.
  unfold blank. intros H. apply forallb_false in H. destruct H as [c [Hin Hc]].
  assert (Hk : In c (list_ascii_of_string (page_content s))).
  { unfold page_content, JS.trim.
    apply reverse_keeps, trimStart_keeps; [|exact Hc].
    apply reverse_keeps, trimStart_keeps; [|exact Hc].
    apply collapse_keeps; assumption. }
  destruct (page_content s); [destruct Hk | simpl; lia].
Qed.

Section Refusals.
Context {St : Type}.
Variable exec : forall A, Neo4j.Cypher A -> St -> result A * St.

Lemma tryCatch_lift {A B} (r : result A) (k : A -> M St B) (h : string -> M St B)
  (w : World St) :
  tryCatch (bind (lift r) k) h w
  = match r with
    | Ok a => tryCatch (k a) h w
    | Throw e => h e w
    end.
Proof. unfold tryCatch, bind, lift. destruct r; reflexivity. Qed.

Lemma tb_history {A} (m : M St A) (w : World St) :
  transparent_but no_skip m ->
  exists evs, history (snd (m w)) = history w ++ evs.
Proof. intros H. destruct (H w) as [evs [H1 _]]. eauto. Qed.

Lemma bind_run_history {A B} (c : Neo4j.Cypher A) (k : A -> M St B) (w : World St) :
  (forall a, transparent_but no_skip (k a)) ->
  exists ev evs,
    history (snd (bind (session_run exec c) k w)) = history w ++ ev :: evs
    /\ sent ev = Neo4j.Sent c.
Proof.
  intros Hk. unfold bind.
  destruct (run_event exec c w) as [ev [Hh [Hs _]]].
  destruct (session_run exec c w) as [[a|e] w1]; cbn [fst snd] in *.
  - destruct (tb_history (k a) w1 (Hk a)) as [evs Hevs].
    exists ev, evs. split; [|exact Hs].
    rewrite Hevs, Hh, <- app_assoc. reflexivity.
  - exists ev, []. split; [exact Hh | exact Hs].
Qed.

End Refusals.

(** X15.  When [ingestUrl] touches the store.  The page is turned away, with
    the result false and the world untouched, also under the clear flag,
    exactly when the request fails, the text of the page is blank, or its
    length after the white space is collapsed exceeds the ceiling.
    Otherwise the first statement sent is the clear when the flag is set,
    and the creation of the Document node when it is not. *)
Theorem ingestUrl_refusals
  (St : Type) (exec : forall A, Neo4j.Cypher A -> St -> result A * St)
  (L : Natural) (E : Env) (url : string) (clear : bool) (w : World St) :
  let r := KnowledgeGraph.ingestUrl exec L E url clear w in
  (forall text, blank text = true <-> page_content text = EmptyString)
  /\ if refused E url
     then r = (Ok false, w)
     else exists ev evs,
            history (snd r) = history w ++ ev :: evs
            /\ sent ev = first_statement E url clear (Date_now E (ticks w)).
Proof.
  intros r. split.
  - intros text. split; [apply page_content_blank|].
    intros H. destruct (blank text) eqn:Hb; [reflexivity|].
    apply page_content_not_blank in Hb. rewrite H in Hb. simpl in Hb. lia.
  - unfold refused, r, first_statement, KnowledgeGraph.ingestUrl.
    rewrite tryCatch_lift.
    destruct (fetch_body_text E url) as [text|e] eqn:Hf; [|reflexivity].
    cbv zeta. fold (page_content text).
    destruct (blank text) eqn:Hb; cbn [orb].
    + rewrite (page_content_blank text Hb). reflexivity.
    + pose proof (page_content_not_blank text Hb) as Hlen.
      destruct (String.length (page_content text) =? 0) eqn:H0;
        [apply Nat.eqb_eq in H0; lia|].
      destruct (KnowledgeGraph.maxFileSize E <? _)%N eqn:Hmax; [reflexivity|].
      rewrite tryCatch_ret_world.
      destruct clear.
      * apply bind_run_history. intros a.
        unfold KnowledgeGraph.createConceptRelationships.
        transparency_but exec.
      * rewrite bind_ret, bind_reading.
        match goal with
        | |- context [bind (session_run exec ?c) ?k ?w1] =>
            destruct (bind_run_history exec c k w1) as [ev [evs [Hh Hs]]]
        end.
        -- intros a. unfold KnowledgeGraph.createConceptRelationships.
           transparency_but exec.
        -- exists ev, evs. split; [exact Hh | exact Hs].
Qed.

(** ** A question never changes the graph *)

Section Searches.
Context {St : Type}.
Variable exec : forall A, Neo4j.Cypher A -> St -> result A * St.
Variable L : Natural.
Variable E : Env.

Lemma so_refl (w : World St) : searches_only w w.
Proof. exists []. rewrite app_nil_r. split; [reflexivity | intros ev []]. Qed.

Lemma so_trans (a b c : World St) :
  searches_only a b -> searches_only b c -> searches_only a c.
Proof.
  intros [e1 [H1 F1]] [e2 [H2 F2]]. exists (e1 ++ e2). split.
  - rewrite H2, H1, app_assoc. reflexivity.
  - intros ev Hin. apply in_app_or in Hin. destruct Hin; auto.
Qed.

Lemma so_local (w : World St) (t : nat) (n : N) :
  searches_only w (mkWorld (store w) (history w) t n).
Proof. exists []. simpl. rewrite app_nil_r. split; [reflexivity | intros ev []]. Qed.

Lemma so_run {A} (c : Neo4j.Cypher A) (w : World St) :
  Neo4j.is_search (Neo4j.Sent c) = true ->
  searches_only w (snd (session_run exec c w)).
Proof.
  intros Hc. destruct (run_event exec c w) as [ev [Hh [Hs _]]].
  exists [ev]. split; [exact Hh|]. intros ev' [<-|[]]. rewrite Hs. exact Hc.
Qed.

Local Ltac search_steps :=
  preservation so_refl so_trans so_local ltac:(apply so_run; reflexivity).

Lemma queryGraph_searches_only (question mode : string) :
  preserves searches_only (KnowledgeGraph.queryGraph exec L E question mode).
Proof.
  unfold KnowledgeGraph.queryGraph, KnowledgeGraph.globalSearch,
    KnowledgeGraph.localSearch.
  cbv zeta. search_steps.
Qed.

Lemma legacy_queryGraph_searches_only (question : string) :
  preserves searches_only (Legacy.queryGraph exec L question).
Proof. unfold Legacy.queryGraph. cbv zeta. search_steps. Qed.

Lemma cli_queryGraph_searches_only (question : string) :
  preserves searches_only (KnowledgeGraphCLI.queryGraph exec question).
Proof. unfold KnowledgeGraphCLI.queryGraph. cbv zeta. search_steps. Qed.

End Searches.

Lemma exec_search_store (gds : bool) {A} (c : Neo4j.Cypher A) (g : Neo4j.Graph) :
  Neo4j.is_search (Neo4j.Sent c) = true -> snd (Neo4j.exec gds A c g) = g.
Proof.
  intros Hc. destruct c; simpl in *; try discriminate; try reflexivity.
  destruct (Neo4j.sum_fails _ _); reflexivity.
Qed.

Section Searched.
Variable gds : bool.
Variable L : Natural.
Variable E : Env.

Local Abbreviation exec := (Neo4j.exec gds).

Lemma os_refl (w : World Neo4j.Graph) : only_searched w w.
Proof.
  exists []. rewrite app_nil_r. split; [destruct w; reflexivity | intros ev []].
Qed.

Lemma os_trans (a b c : World Neo4j.Graph) :
  only_searched a b -> only_searched b c -> only_searched a c.
Proof.
  intros [e1 [H1 F1]] [e2 [H2 F2]]. exists (e1 ++ e2). split.
  - rewrite H2, H1. simpl. rewrite app_assoc. reflexivity.
  - intros ev Hin. apply in_app_or in Hin. destruct Hin; auto.
Qed.

Lemma os_run {A} (c : Neo4j.Cypher A) (w : World Neo4j.Graph) :
  Neo4j.is_search (Neo4j.Sent c) = true ->
  only_searched w (snd (session_run exec c w)).
Proof.
  intros Hc. pose proof (exec_search_store gds c (store w) Hc) as Hstore.
  unfold session_run.
  destruct (Neo4j.exec gds A c (store w)) as [r s]. simpl in Hstore. subst s.
  eexists [_]. split; [reflexivity|]. intros ev [<-|[]]. exact Hc.
Qed.

Local Ltac searched_steps :=
  preservation os_refl os_trans os_refl ltac:(apply os_run; reflexivity).

Lemma queryGraph_only_searched (question mode : string) :
  preserves only_searched (KnowledgeGraph.queryGraph exec L E question mode).
Proof.
  unfold KnowledgeGraph.queryGraph, KnowledgeGraph.globalSearch,
    KnowledgeGraph.localSearch.
  cbv zeta. searched_steps.
Qed.

Lemma legacy_queryGraph_only_searched (question : string) :
  preserves only_searched (Legacy.queryGraph exec L question).
Proof. unfold Legacy.queryGraph. cbv zeta. searched_steps. Qed.

Lemma cli_queryGraph_only_searched (question : string) :
  preserves only_searched (KnowledgeGraphCLI.queryGraph exec question).
Proof. unfold KnowledgeGraphCLI.queryGraph. cbv zeta. searched_steps. Qed.

End Searched.

(** X16.  A question never changes the graph.  Whatever the store does,
    [queryGraph] of the three programs sends search statements only, in
    every mode and whether it ends with an answer or an error text.  On the
    graph store the world after the question is the world before it with
    those statements added to the history: the graph, the clock and the
    running total are the same. *)
Theorem questions_only_search (L : Natural) (E : Env) (question mode : string) :
  (forall (St : Type) (exec : forall A, Neo4j.Cypher A -> St -> result A * St)
          (w : World St),
      searches_only w (snd (KnowledgeGraph.queryGraph exec L E question mode w))
      /\ searches_only w (snd (Legacy.queryGraph exec L question w))
      /\ searches_only w (snd (KnowledgeGraphCLI.queryGraph exec question w)))
  /\ (forall (gds : bool) (w : World Neo4j.Graph),
        only_searched w
          (snd (KnowledgeGraph.queryGraph (Neo4j.exec gds) L E question mode w))
        /\ only_searched w (snd (Legacy.queryGraph (Neo4j.exec gds) L question w))
        /\ only_searched w
             (snd (KnowledgeGraphCLI.queryGraph (Neo4j.exec gds) question w))).
Proof.
  split.
  - intros St exec w. split; [|split].
    + apply queryGraph_searches_only.
    + apply legacy_queryGraph_searches_only.
    + apply cli_queryGraph_searches_only.
  - intros gds w. split; [|split].
    + apply queryGraph_only_searched.
    + apply legacy_queryGraph_only_searched.
    + apply cli_queryGraph_only_searched.
Qed.

(** ** The answer of the first version *)

Lemma ascii_compare_lt_trans (a b c : ascii) :
  Ascii.compare a b = Lt -> Ascii.compare b c = Lt -> Ascii.compare a c = Lt.
Proof.
  unfold Ascii.compare. rewrite !N.compare_lt_iff. apply N.lt_trans.
Qed.

Lemma string_compare_trans (s1 s2 s3 : string) :
  String.compare s1 s2 <> Gt -> String.compare s2 s3 <> Gt ->
  String.compare s1 s3 <> Gt.
Proof.
  revert s2 s3. induction s1 as [|c1 s1 IH]; intros [|c2 s2] [|c3 s3];
    simpl; try congruence.
  destruct (Ascii.compare c1 c2) eqn:H12; try congruence.
  - apply Ascii.compare_eq_iff in H12. subst c2.
    destruct (Ascii.compare c1 c3); try congruence. apply IH.
  - destruct (Ascii.compare c2 c3) eqn:H23; try congruence.
    + apply Ascii.compare_eq_iff in H23. subst c3. rewrite H12. congruence.
    + rewrite (ascii_compare_lt_trans _ _ _ H12 H23). congruence.
Qed.

Lemma string_leb_trans (s1 s2 s3 : string) :
  String.leb s1 s2 = true -> String.leb s2 s3 = true -> String.leb s1 s3 = true.
Proof.
  unfold String.leb. intros H1 H2.
  pose proof (string_compare_trans s1 s2 s3) as H.
  destruct (String.compare s1 s2); try discriminate;
    destruct (String.compare s2 s3); try discriminate;
    destruct (String.compare s1 s3); try reflexivity;
    exfalso; apply H; congruence.
Qed.

Lemma desc_total (a b : JS.value) :
  Neo4j.desc a b = false -> Neo4j.desc b a = true.
Proof.
  destruct a as [x|s], b as [y|t]; simpl; try congruence.
  - intros H. apply Nat.leb_gt in H. apply Nat.leb_le. lia.
  - intros H. destruct (String.leb_total s t) as [H'|H']; congruence.
Qed.

Lemma desc_trans (a b c : JS.value) :
  Neo4j.desc a b = true -> Neo4j.desc b c = true -> Neo4j.desc a c = true.
Proof.
  destruct a as [x|s], b as [y|t], c as [z|u]; simpl; try congruence.
  - intros H1 H2. apply Nat.leb_le in H1, H2. apply Nat.leb_le. lia.
  - intros H1 H2. eapply string_leb_trans; eassumption.
Qed.

Lemma order_by_value_desc_sorted {A} (key : A -> JS.value) (l : list A) :
  StronglySorted (fun x y => Neo4j.desc (key x) (key y) = true)
    (Neo4j.order_by_value_desc key l).
Proof.
  unfold Neo4j.order_by_value_desc.
  apply (sort_sorted (fun a b => Neo4j.desc (key a) (key b))).
  - intros x y. apply desc_total.
  - intros x y z. apply desc_trans.
Qed.

Lemma toNumbers_rows (rows : list (string * JS.value)) (cs : list (string * nat)) :
  KnowledgeGraphCLI.toNumbers rows = Ok cs -> rows = counts cs.
Proof.
  revert cs. induction rows as [|[n [f|s]] rows IH]; intros cs; simpl.
  - intros [= <-]. reflexivity.
  - destruct (KnowledgeGraphCLI.toNumbers rows) as [l|e]; [|discriminate].
    intros [= <-]. simpl. rewrite (IH l eq_refl). reflexivity.
  - discriminate.
Qed.

Lemma counts_sorted (cs : list (string * nat)) :
  StronglySorted (fun x y : string * JS.value => Neo4j.desc (snd x) (snd y) = true)
    (counts cs) ->
  StronglySorted (fun x y : string * nat => snd y <= snd x) cs.
Proof.
  induction cs as [|c cs IH]; simpl; intros H; [constructor|].
  inversion H as [|? ? Hs Hall]; subst. constructor; [apply IH, Hs|].
  rewrite Forall_forall in *. intros y Hy.
  specialize (Hall (as_count y) (in_map as_count _ _ Hy)). simpl in Hall.
  apply Nat.leb_le, Hall.
Qed.

Lemma add_match_docs (same : Neo4j.Document -> Neo4j.Document -> bool)
  (P : Neo4j.Document -> Prop) (d : Neo4j.Document) (n : string) (k : nat)
  (groups : list (Neo4j.Document * list string * nat)) :
  P d -> (forall x, In x groups -> P (fst (fst x))) ->
  forall x, In x (Neo4j.add_match same d n k groups) -> P (fst (fst x)).
Proof.
  intros Hd. induction groups as [|[[d' names] total] rest IH]; simpl; intros Hg x Hin.
  - destruct Hin as [<-|[]]. exact Hd.
  - destruct (same d' d).
    + destruct Hin as [<-|Hin]; [apply (Hg (d', names, total)); left; reflexivity|].
      apply Hg. right. exact Hin.
    + destruct Hin as [<-|Hin]; [apply (Hg (d', names, total)); left; reflexivity|].
      apply IH; [|exact Hin]. intros y Hy. apply Hg. right. exact Hy.
Qed.

Lemma doc_groups_docs (same : Neo4j.Document -> Neo4j.Document -> bool)
  (g : Neo4j.Graph) (keep : Neo4j.Contains -> bool)
  (weight_of : Neo4j.Contains -> nat) :
  forall x, In x (Neo4j.doc_groups same g keep weight_of) ->
            In (fst (fst x)) (Neo4j.documents g).
Proof.
  unfold Neo4j.doc_groups.
  assert (H : forall cts groups,
             (forall x, In x groups -> In (fst (fst x)) (Neo4j.documents g)) ->
             forall x,
               In x (fold_left
                       (fun groups ct =>
                          if keep ct
                          then match Neo4j.find_document g (Neo4j.ct_doc ct) with
                               | Some d =>
                                   Neo4j.add_match same d (Neo4j.ct_name ct)
                                     (weight_of ct) groups
                               | None => groups
                               end
                          else groups) cts groups) ->
               In (fst (fst x)) (Neo4j.documents g)).
  { induction cts as [|ct cts IH]; intros groups Hg; simpl; [exact Hg|].
    apply IH. destruct (keep ct); [|exact Hg].
    destruct (Neo4j.find_document g (Neo4j.ct_doc ct)) as [d|] eqn:Hf; [|exact Hg].
    apply (add_match_docs same (fun d0 => In d0 (Neo4j.documents g)));
      [|exact Hg].
    unfold Neo4j.find_document in Hf. apply find_some in Hf. apply Hf. }
  apply H. intros x [].
Qed.

Lemma count_doc_query_rows (g : Neo4j.Graph) (names : list string) :
  List.length (Neo4j.count_doc_query g names) <= 5
  /\ forall row, In row (Neo4j.count_doc_query g names) ->
       exists d, In d (Neo4j.documents g)
                 /\ Neo4j.row_name row = Neo4j.doc_name d
                 /\ Neo4j.row_doctype row = Neo4j.doc_type d
                 /\ Neo4j.row_content row = Neo4j.doc_content d.
Proof.
  unfold Neo4j.count_doc_query, Neo4j.limit. split; [apply firstn_le_length|].
  intros row Hin. apply firstn_In in Hin. unfold Neo4j.order_by_desc in Hin.
  apply sort_In, in_map_iff in Hin. destruct Hin as [[[d names'] total] [<- Hin]].
  apply doc_groups_docs in Hin. exists d. simpl. auto.
Qed.

Lemma fuzzy_concept_query_rows (g : Neo4j.Graph) (words : list string) :
  List.length (Neo4j.fuzzy_concept_query g words) <= 15
  /\ StronglySorted (fun x y : string * JS.value => Neo4j.desc (snd x) (snd y) = true)
       (Neo4j.fuzzy_concept_query g words)
  /\ forall n v, In (n, v) (Neo4j.fuzzy_concept_query g words) ->
       (exists c, In c (Neo4j.concepts g)
                  /\ Neo4j.c_name c = n /\ Neo4j.c_frequency c = v)
       /\ exists word, In word words
                       /\ (JS.includes n word = true \/ JS.includes word n = true).
Proof.
  unfold Neo4j.fuzzy_concept_query, Neo4j.limit. split; [apply firstn_le_length|].
  split; [apply StronglySorted_firstn, order_by_value_desc_sorted|].
  intros n v Hin. apply firstn_In in Hin. unfold Neo4j.order_by_value_desc in Hin.
  apply sort_In, in_map_iff in Hin. destruct Hin as [c [[= <- <-] Hin]].
  apply filter_In in Hin. destruct Hin as [Hin Hm]. split; [eauto|].
  apply orb_true_iff in Hm. destruct Hm as [Hm|Hm];
    apply existsb_exists in Hm; destruct Hm as [word [Hw Hi]]; eauto.
Qed.

Lemma run_fuzzy (gds : bool) (words : list string) (w : World Neo4j.Graph) :
  session_run (Neo4j.exec gds) (Neo4j.FuzzyConceptQuery words) w
  = (Ok (Neo4j.fuzzy_concept_query (store w) words),
     mkWorld (store w)
       (history w ++ [mkEvent (Neo4j.Sent (Neo4j.FuzzyConceptQuery words)) None])
       (ticks w) (totalSize w)).
Proof. reflexivity. Qed.

Lemma run_count_doc (gds : bool) (names : list string) (w : World Neo4j.Graph) :
  session_run (Neo4j.exec gds) (Neo4j.CountDocQuery names) w
  = (Ok (Neo4j.count_doc_query (store w) names),
     mkWorld (store w)
       (history w ++ [mkEvent (Neo4j.Sent (Neo4j.CountDocQuery names)) None])
       (ticks w) (totalSize w)).
Proof. reflexivity. Qed.

(** The three shapes of the answer. *)
Lemma cli_queryGraph_answer (gds : bool) (question : string) (w : World Neo4j.Graph) :
  let words := KnowledgeGraphCLI.queryWords question in
  let rows := Neo4j.fuzzy_concept_query (store w) words in
  exists a,
    fst (KnowledgeGraphCLI.queryGraph (Neo4j.exec gds) question w) = Ok a
    /\ match KnowledgeGraphCLI.toNumbers rows with
       | Throw _ => a = KnowledgeGraphCLI.mkAnswer KnowledgeGraphCLI.search_failed [] []
       | Ok [] => a = KnowledgeGraphCLI.mkAnswer KnowledgeGraphCLI.no_concepts [] []
       | Ok cs =>
           KnowledgeGraphCLI.concepts a = cs
           /\ KnowledgeGraphCLI.documents a
              = map (fun r => KnowledgeGraphCLI.mkDocRef (Neo4j.row_name r)
                                (Neo4j.row_doctype r) (Neo4j.row_names r))
                  (Neo4j.count_doc_query (store w) (map fst cs))
       end.
Proof.
  cbv zeta. unfold KnowledgeGraphCLI.queryGraph, tryCatch. cbv zeta.
  rewrite (bind_ok _ _ _ _ _ (run_fuzzy gds _ w)), bind_lift.
  destruct (KnowledgeGraphCLI.toNumbers _) as [cs|e]; [|eexists; split; reflexivity].
  destruct cs as [|c cs]; [eexists; split; reflexivity|].
  cbn [List.length Nat.eqb].
  rewrite (bind_ok _ _ _ _ _ (run_count_doc gds _ _)). cbn [store].
  destruct (Neo4j.count_doc_query (store w) (map fst (c :: cs))) as [|row rows'] eqn:Hq.
  - eexists. split; [reflexivity|]. split; reflexivity.
  - eexists. split; [reflexivity|]. split; reflexivity.
Qed.

(** X17.  The answer of [KnowledgeGraphCLI.queryGraph] on the graph store:
    at most 15 concepts, in descending order of frequency, each the name
    and frequency of a Concept node whose name contains a word of the
    question or is contained in one; at most 5 documents, each the name and
    type of a Document node of the graph.  When one of the rows the concept
    query returns has a text for its frequency the answer is the error text,
    with no concept and no document. *)
Theorem cli_queryGraph_bounds (gds : bool) (question : string)
  (w : World Neo4j.Graph) :
  let words := KnowledgeGraphCLI.queryWords question in
  exists a,
    fst (KnowledgeGraphCLI.queryGraph (Neo4j.exec gds) question w) = Ok a
    /\ List.length (KnowledgeGraphCLI.concepts a) <= 15
    /\ List.length (KnowledgeGraphCLI.documents a) <= 5
    /\ StronglySorted (fun x y => snd y <= snd x) (KnowledgeGraphCLI.concepts a)
    /\ (forall n f, In (n, f) (KnowledgeGraphCLI.concepts a) ->
          (exists c, In c (Neo4j.concepts (store w))
                     /\ Neo4j.c_name c = n /\ Neo4j.c_frequency c = JS.Count f)
          /\ exists word, In word words
                          /\ (JS.includes n word = true \/ JS.includes word n = true))
    /\ (forall d, In d (KnowledgeGraphCLI.documents a) ->
          exists doc, In doc (Neo4j.documents (store w))
                      /\ KnowledgeGraphCLI.ref_name d = Neo4j.doc_name doc
                      /\ KnowledgeGraphCLI.ref_type d = Neo4j.doc_type doc)
    /\ ((exists n s, In (n, JS.Text s) (Neo4j.fuzzy_concept_query (store w) words)) ->
        a = KnowledgeGraphCLI.mkAnswer
              "Error occurred while searching the knowledge graph." [] []).
Proof.
  cbv zeta. destruct (cli_queryGraph_answer gds question w) as [a [Ha Hshape]].
  cbv zeta in Hshape. exists a. split; [exact Ha|].
  destruct (fuzzy_concept_query_rows (store w) (KnowledgeGraphCLI.queryWords question))
    as [Hlen [Hsorted Hrows]].
  destruct (KnowledgeGraphCLI.toNumbers _) as [cs|e] eqn:Hn.
  - pose proof (toNumbers_rows _ _ Hn) as Hcs.
    assert (Hc : KnowledgeGraphCLI.concepts a = cs
                 /\ (KnowledgeGraphCLI.documents a = []
                     \/ KnowledgeGraphCLI.documents a
                        = map (fun r => KnowledgeGraphCLI.mkDocRef (Neo4j.row_name r)
                                          (Neo4j.row_doctype r) (Neo4j.row_names r))
                            (Neo4j.count_doc_query (store w) (map fst cs)))).
    { destruct cs as [|c cs']; [subst a; split; [reflexivity | left; reflexivity]|].
      destruct Hshape as [H1 H2]. split; [exact H1 | right; exact H2]. }
    destruct Hc as [Hc Hd]. rewrite Hc.
    split; [|split; [|split; [|split; [|split]]]].
    + rewrite Hcs in Hlen. unfold counts in Hlen. rewrite length_map in Hlen. exact Hlen.
    + destruct Hd as [-> | ->]; [simpl; lia|]. rewrite length_map.
      apply count_doc_query_rows.
    + apply counts_sorted. rewrite <- Hcs. exact Hsorted.
    + intros n f Hin. apply (Hrows n (JS.Count f)). rewrite Hcs.
      apply (in_map as_count _ (n, f)), Hin.
    + intros d Hin. destruct Hd as [Hd|Hd]; rewrite Hd in Hin; [destruct Hin|].
      apply in_map_iff in Hin. destruct Hin as [row [<- Hin]].
      apply count_doc_query_rows in Hin. destruct Hin as [doc [H1 [H2 [H3 _]]]].
      exists doc. simpl. auto.
    + intros [n [s Hin]]. rewrite Hcs in Hin. apply in_map_iff in Hin.
      destruct Hin as [[n' f'] [Heq _]]. discriminate.
  - subst a. simpl. split; [lia|]. split; [lia|]. split; [constructor|].
    split; [intros n f []|]. split; [intros d []|]. reflexivity.
Qed.

(** ** Pages of the first version *)

Lemma space_is_no_bracket (c : ascii) :
  JS.is_space c = true -> Ascii.eqb c ">"%char = false /\ Ascii.eqb c "<"%char = false.
Proof.
  intros H. split.
  - destruct (Ascii.eqb c ">"%char) eqn:He; [|reflexivity].
    apply Ascii.eqb_eq in He. subst c. discriminate.
  - destruct (Ascii.eqb c "<"%char) eqn:He; [|reflexivity].
    apply Ascii.eqb_eq in He. subst c. discriminate.
Qed.

Lemma scan_space (seen : bool) (c : ascii) (l : list ascii) :
  JS.is_space c = true -> scan_tag seen (c :: l) = scan_tag seen l.
Proof.
  intros H. destruct (space_is_no_bracket c H) as [H1 H2]. simpl.
  rewrite H1, H2, andb_false_r, orb_false_r. reflexivity.
Qed.

Lemma scan_collapse (seen prev : bool) (s : string) :
  scan_tag seen (list_ascii_of_string (JS.collapse_spaces s prev))
  = scan_tag seen (list_ascii_of_string s).
Proof.
  revert seen prev. induction s as [|c s IH]; intros seen prev; [reflexivity|].
  cbn [JS.collapse_spaces]. destruct (JS.is_space c) eqn:Hc.
  - cbn [list_ascii_of_string]. rewrite (scan_space seen c _ Hc).
    destruct prev; [apply IH|].
    cbn [list_ascii_of_string]. rewrite (scan_space seen " "%char _ eq_refl).
    apply IH.
  - cbn [list_ascii_of_string scan_tag]. rewrite IH. reflexivity.
Qed.

Lemma scan_trimStart (seen : bool) (s : string) :
  scan_tag seen (list_ascii_of_string (JS.trimStart s))
  = scan_tag seen (list_ascii_of_string s).
Proof.
  induction s as [|c s IH]; [reflexivity|].
  cbn [JS.trimStart]. destruct (JS.is_space c) eqn:Hc; [|reflexivity].
  cbn [list_ascii_of_string]. rewrite (scan_space seen c _ Hc). exact IH.
Qed.

Lemma trimStart_split (s : string) :
  exists sp,
    list_ascii_of_string s = sp ++ list_ascii_of_string (JS.trimStart s)
    /\ forallb JS.is_space sp = true.
Proof.
  induction s as [|c s IH].
  - exists []. split; reflexivity.
  - cbn [JS.trimStart]. destruct (JS.is_space c) eqn:Hc.
    + destruct IH as [sp [H1 H2]]. exists (c :: sp). split.
      * cbn [list_ascii_of_string]. rewrite H1. reflexivity.
      * simpl. rewrite Hc, H2. reflexivity.
    + exists []. split; reflexivity.
Qed.

Lemma scan_blank_tail (seen : bool) (l t : list ascii) :
  forallb JS.is_space t = true -> scan_tag seen (l ++ t) = scan_tag seen l.
Proof.
  intros Ht. revert seen. induction l as [|c l IH]; intros seen.
  - simpl. revert seen. induction t as [|x t IHt]; intros seen; [reflexivity|].
    simpl in Ht. apply andb_true_iff in Ht. destruct Ht as [Hx Ht].
    rewrite (scan_space seen x t Hx). apply IHt, Ht.
  - simpl. rewrite IH. reflexivity.
Qed.

Lemma scan_trim (seen : bool) (s : string) :
  scan_tag seen (list_ascii_of_string (JS.trim s))
  = scan_tag seen (list_ascii_of_string s).
Proof.
  unfold JS.trim. rewrite <- (scan_trimStart seen s).
  set (y := JS.trimStart s).
  destruct (trimStart_split (JS.reverse y)) as [sp [H1 H2]].
  unfold JS.reverse in H1 at 1. rewrite list_ascii_of_string_of_list_ascii in H1.
  assert (Hy : list_ascii_of_string y
               = list_ascii_of_string (JS.reverse (JS.trimStart (JS.reverse y)))
                 ++ rev sp).
  { unfold JS.reverse at 1. rewrite list_ascii_of_string_of_list_ascii.
    rewrite <- rev_app_distr, <- H1, rev_involutive. reflexivity. }
  rewrite Hy, scan_blank_tail; [reflexivity|].
  apply forallb_forall. intros x Hx. apply in_rev in Hx.
  rewrite forallb_forall in H2. apply H2, Hx.
Qed.

Lemma through_gt_none (s : string) :
  KnowledgeGraphCLI.through_gt s = None ->
  forall c, In c (list_ascii_of_string s) -> Ascii.eqb c ">"%char = false.
Proof.
  induction s as [|x s IH]; simpl; [intros _ c []|].
  destruct (Ascii.eqb x ">"%char) eqn:Hx; [discriminate|].
  destruct (KnowledgeGraphCLI.through_gt s); [discriminate|].
  intros _ c [<-|Hin]; [exact Hx | apply IH; [reflexivity | exact Hin]].
Qed.

Lemma scan_no_gt (seen : bool) (l : list ascii) :
  (forall c, In c l -> Ascii.eqb c ">"%char = false) -> scan_tag seen l = false.
Proof.
  revert seen. induction l as [|c l IH]; intros seen H; [reflexivity|].
  simpl. rewrite (H c (or_introl eq_refl)), andb_false_r. simpl.
  apply IH. intros x Hx. apply H. right. exact Hx.
Qed.

Lemma list_ascii_app (a b : string) :
  list_ascii_of_string (a ++ b)
  = list_ascii_of_string a ++ list_ascii_of_string b.
Proof.
  induction a as [|c a IH]; simpl; [reflexivity | rewrite IH; reflexivity].
Qed.

Lemma strip_tags_no_gt (k : nat) (s : string) :
  (forall c, In c (list_ascii_of_string s) -> Ascii.eqb c ">"%char = false) ->
  forall c,
    In c (list_ascii_of_string
            (KnowledgeGraphCLI.replace_matches KnowledgeGraphCLI.tag_match " " k s)) ->
    Ascii.eqb c ">"%char = false.
Proof.
  revert k. induction s as [|x s IH]; intros k H c Hin; [destruct Hin|].
  assert (Hs : forall c, In c (list_ascii_of_string s) -> Ascii.eqb c ">"%char = false)
    by (intros y Hy; apply H; right; exact Hy).
  cbn [KnowledgeGraphCLI.replace_matches] in Hin. destruct k as [|k].
  - destruct (KnowledgeGraphCLI.tag_match (String x s)) as [n|].
    + rewrite list_ascii_app in Hin. apply in_app_or in Hin.
      destruct Hin as [[<-|[]]|Hin]; [reflexivity | eapply IH; eassumption].
    + destruct Hin as [<-|Hin]; [apply H; left; reflexivity | eapply IH; eassumption].
  - eapply IH; eassumption.
Qed.

Lemma strip_tags_scan (k : nat) (s : string) :
  scan_tag false
    (list_ascii_of_string
       (KnowledgeGraphCLI.replace_matches KnowledgeGraphCLI.tag_match " " k s))
  = false.
Proof.
  revert k. induction s as [|x s IH]; intros k; [reflexivity|].
  cbn [KnowledgeGraphCLI.replace_matches]. destruct k as [|k]; [|apply IH].
  unfold KnowledgeGraphCLI.tag_match.
  destruct (Ascii.eqb x "<"%char) eqn:Hx.
  - destruct (KnowledgeGraphCLI.through_gt s) as [n|] eqn:Hg.
    + rewrite list_ascii_app. cbn [list_ascii_of_string app].
      rewrite (scan_space false " "%char _ eq_refl). apply IH.
    + cbn [list_ascii_of_string scan_tag]. rewrite Hx. cbn [andb orb].
      apply scan_no_gt. apply strip_tags_no_gt. apply through_gt_none, Hg.
  - cbn [list_ascii_of_string scan_tag]. rewrite Hx. cbn [andb orb]. apply IH.
Qed.

(** X19.  What the HTML stripping of the first version leaves: in the text
    [ingestUrl] stores for an HTML page no [<] is followed by a [>], so no
    tag is left; what stays of the markup is a [<] without a closing [>],
    or a [>] without an opening [<]. *)
Theorem stripHtml_leaves_no_tag (data : string) :
  has_tag (KnowledgeGraphCLI.stripHtml data) = false
  /\ KnowledgeGraphCLI.stripHtml "<script>unclosed > x" = "unclosed > x"
  /\ KnowledgeGraphCLI.stripHtml "x <> y < z" = "x y < z"
  /\ KnowledgeGraphCLI.stripHtml
       "<SCRIPT type=x>evil()</Script>text<style>p{}</STYLE> more"
     = "text more".
Proof.
  split; [|repeat split].
  unfold has_tag, KnowledgeGraphCLI.stripHtml.
  rewrite scan_trim, scan_collapse. apply strip_tags_scan.
Qed.

Section PageTotals.
Context {St : Type}.
Variable exec : forall A, Neo4j.Cypher A -> St -> result A * St.
Variable E : Env.
Variable axios_get : string -> result string.

Lemma cli_ingestUrl_result (url : string) (w w' : World St)
  (r : result (option KnowledgeGraphCLI.Summary)) :
  KnowledgeGraphCLI.ingestUrl exec E axios_get url w = (r, w') ->
  match r with
  | Ok (Some summary) =>
      (totalSize w + N.of_nat (KnowledgeGraphCLI.summary_size summary)
       <= KnowledgeGraphCLI.maxSize E)%N
      /\ totalSize w'
         = (totalSize w + N.of_nat (KnowledgeGraphCLI.summary_size summary))%N
  | Ok None => w' = w
  | Throw _ => totalSize w' = totalSize w
  end.
Proof.
  unfold KnowledgeGraphCLI.ingestUrl, tryCatch. rewrite bind_lift.
  destruct (axios_get url) as [data|e]; [|intros [= <- <-]; reflexivity].
  cbv zeta.
  set (content := if JS.includes data "<html" || JS.includes data "<!DOCTYPE"
                  then KnowledgeGraphCLI.stripHtml data else data).
  rewrite (bind_ok _ _ _ _ _ (checkSizeLimit_run E _ w)).
  destruct (KnowledgeGraphCLI.maxSize E <? _)%N eqn:Hlim;
    cbn [negb]; [intros [= <- <-]; reflexivity|].
  unfold bind.
  destruct (KnowledgeGraphCLI.processDocument exec E url content "url" url w)
    as [[summary|e] w1] eqn:Hp;
    apply processDocument_result in Hp; intros [= <- <-].
  - destruct Hp as [Ht ->]. cbn [KnowledgeGraphCLI.summary_size].
    split; [apply N.ltb_ge, Hlim | exact Ht].
  - exact Hp.
Qed.

End PageTotals.

(** X20.  The cumulative ceiling of the first version is an invariant of
    [ingestUrl] without any condition: the size that is checked is the
    length of the text that is stored, so a total within the ceiling stays
    within it, and it never decreases.  A summary is returned only for a
    text that fitted; a page that is turned away leaves the world
    untouched. *)
Theorem cli_ingestUrl_within_ceiling
  (St : Type) (exec : forall A, Neo4j.Cypher A -> St -> result A * St) (E : Env)
  (axios_get : string -> result string) (url : string) (w : World St) :
  (totalSize w <= KnowledgeGraphCLI.maxSize E)%N ->
  let r := KnowledgeGraphCLI.ingestUrl exec E axios_get url w in
  (totalSize w <= totalSize (snd r))%N
  /\ (totalSize (snd r) <= KnowledgeGraphCLI.maxSize E)%N
  /\ match fst r with
     | Ok (Some summary) =>
         totalSize (snd r)
         = (totalSize w + N.of_nat (KnowledgeGraphCLI.summary_size summary))%N
     | Ok None => snd r = w
     | Throw _ => totalSize (snd r) = totalSize w
     end.
Proof.
  intros Hinv. cbv zeta.
  destruct (KnowledgeGraphCLI.ingestUrl exec E axios_get url w) as [r w'] eqn:H.
  apply cli_ingestUrl_result in H. cbn [fst snd].
  destruct r as [[summary|]|e].
  - destruct H as [Hfit Ht]. rewrite Ht. repeat split; lia.
  - subst w'. repeat split; lia.
  - rewrite H. repeat split; lia.
Qed.

Lemma cli_ingestUrl_within_ceiling_witness :
  let r := KnowledgeGraphCLI.ingestUrl (Neo4j.exec true) Sample.env sample_page
             "http://example.org/graphs" (start Neo4j.empty) in
  (totalSize (start Neo4j.empty) <= totalSize (snd r))%N
  /\ (totalSize (snd r) <= KnowledgeGraphCLI.maxSize Sample.env)%N
  /\ match fst r with
     | Ok (Some summary) =>
         totalSize (snd r)
         = (totalSize (start Neo4j.empty)
            + N.of_nat (KnowledgeGraphCLI.summary_size summary))%N
     | Ok None => snd r = start Neo4j.empty
     | Throw _ => totalSize (snd r) = totalSize (start Neo4j.empty)
     end.
Proof.
  refine (cli_ingestUrl_within_ceiling Neo4j.Graph (Neo4j.exec true) Sample.env
            sample_page "http://example.org/graphs" (start Neo4j.empty) _).
  vm_compute. discriminate.
Defined.

Example cli_ingestUrl_sample :
  let r := KnowledgeGraphCLI.ingestUrl (Neo4j.exec true) Sample.env sample_page
             "http://example.org/graphs" (start Neo4j.empty) in
  fst r = Ok (Some (KnowledgeGraphCLI.mkSummary "http://example.org/graphs" 1 33 "url"))
  /\ map Neo4j.doc_content (Neo4j.documents (store (snd r)))
     = ["Graph databases store graph data."]
  /\ totalSize (snd r) = 33%N.
Proof. vm_compute. repeat split. Qed.

(** ** Enrichment and its fallback *)

Lemma extractEntitiesWithLLM_cases {St} (L : Natural) (E : Env) (text : string)
  (w : World St) :
  KnowledgeGraph.extractEntitiesWithLLM L E text w
  = (Ok (if negb (ANTHROPIC_API_KEY E)
         then ConceptArray (KnowledgeGraph.extractConcepts L text)
         else match llm_extract E (JS.substring0 2000 text) with
              | Ok reply => reply
              | Throw _ =>
                  Reply (Some (map KnowledgeGraph.as_entity
                                 (KnowledgeGraph.extractConcepts L text)))
                    (Some [])
              end), w).
Proof.
  unfold KnowledgeGraph.extractEntitiesWithLLM.
  destruct (negb (ANTHROPIC_API_KEY E)); [reflexivity|].
  unfold tryCatch, lift, ret.
  destruct (llm_extract E (JS.substring0 2000 text)); reflexivity.
Qed.

Lemma tryCatch_ext {St A} (body body' : M St A) (h : string -> M St A) (w : World St) :
  body w = body' w -> tryCatch body h w = tryCatch body' h w.
Proof. intros H. unfold tryCatch. rewrite H. reflexivity. Qed.

Lemma bind_ext {St A B} (m : M St A) (k k' : A -> M St B) (w : World St) :
  (forall a w1, k a w1 = k' a w1) -> bind m k w = bind m k' w.
Proof.
  intros H. unfold bind. destruct (m w) as [[a|e] w1]; [apply H | reflexivity].
Qed.

Lemma ingestFile_fallbacks_agree
  {St : Type} (exec : forall A, Neo4j.Cypher A -> St -> result A * St)
  (L : Natural) (E : Env) (message filePath : string) (clear : bool) (w : World St) :
  KnowledgeGraph.ingestFile exec L (failing_key E message) filePath clear w
  = KnowledgeGraph.ingestFile exec L (without_key E) filePath clear w.
Proof.
  unfold KnowledgeGraph.ingestFile. apply tryCatch_ext.
  apply bind_ext. intros size w1.
  change (KnowledgeGraph.maxFileSize (failing_key E message))
    with (KnowledgeGraph.maxFileSize (without_key E)).
  destruct (KnowledgeGraph.maxFileSize (without_key E) <? size)%N; [reflexivity|].
  apply bind_ext. intros content w2.
  apply bind_ext. intros _ w3.
  rewrite (bind_ok _ _ _ _ _
             (extractEntitiesWithLLM_cases L (failing_key E message) content w3)).
  rewrite (bind_ok _ _ _ _ _
             (extractEntitiesWithLLM_cases L (without_key E) content w3)).
  cbn [failing_key without_key ANTHROPIC_API_KEY llm_extract negb].
  apply bind_ext. intros now w4.
  apply bind_ext. intros _ w5.
  cbn [KnowledgeGraph.entities_of KnowledgeGraph.relationships_of].
  apply bind_ext. intros entities w6.
  apply bind_ext. intros _ w7.
  unfold KnowledgeGraph.createEntityRelationships. cbn [forEach].
  rewrite bind_ret. reflexivity.
Qed.

Lemma exec_plain_entities (gds : bool) {A} (c : Neo4j.Cypher A) (g : Neo4j.Graph) :
  plain_entity c = true -> new_entities_plain g (snd (Neo4j.exec gds A c g)).
Proof.
  intros Hc.
  assert (Hsame : forall g' : Neo4j.Graph,
             Neo4j.entities g' = Neo4j.entities g -> new_entities_plain g g').
  { intros g' H e Hin. rewrite H in Hin. left. exists e. auto. }
  assert (Hmap : forall c0,
             new_entities_plain g
               (Neo4j.with_entities g
                  (map (Neo4j.set_community c0) (Neo4j.entities g)))).
  { intros c0 e Hin. simpl in Hin. apply in_map_iff in Hin.
    destruct Hin as [e0 [<- Hin]]. left. exists e0. auto. }
  destruct c; simpl in *; try (apply Hsame; reflexivity);
    try (destruct (Neo4j.sum_fails _ _); apply Hsame; reflexivity).
  - intros e [].
  - destruct (Neo4j.has_document g (Neo4j.doc_id d)); apply Hsame; reflexivity.
  - apply andb_true_iff in Hc. destruct Hc as [Ht Hd].
    apply String.eqb_eq in Ht, Hd. subst.
    intros e Hin. simpl in Hin. unfold Neo4j.merge_entity in Hin.
    destruct (existsb _ (Neo4j.entities g)).
    + apply in_map_iff in Hin. destruct Hin as [e0 [<- Hin]]. left. exists e0.
      split; [exact Hin|]. destruct (String.eqb (Neo4j.e_name e0) _); auto.
    + apply in_app_or in Hin. destruct Hin as [Hin|[<-|[]]].
      * left. exists e. auto.
      * right. auto.
  - destruct (Neo4j.valid_type type); apply Hsame; reflexivity.
  - destruct gds; [apply Hmap | apply Hsame; reflexivity].
  - apply Hmap.
Qed.

Section PlainEntities.
Variable gds : bool.
Variable L : Natural.
Variable E : Env.

Local Abbreviation exec := (Neo4j.exec gds).

Lemma pe_refl (w : World Neo4j.Graph) : plain_entities w w.
Proof. intros e Hin. left. exists e. auto. Qed.

Lemma pe_trans (a b c : World Neo4j.Graph) :
  plain_entities a b -> plain_entities b c -> plain_entities a c.
Proof.
  intros H1 H2 e Hin. destruct (H2 e Hin) as [[e1 [Hin1 [Hn [Ht Hd]]]]|Hp]; [|auto].
  destruct (H1 e1 Hin1) as [[e0 [Hin0 [Hn0 [Ht0 Hd0]]]]|[Hp1 Hp2]].
  - left. exists e0. repeat split; congruence.
  - right. split; congruence.
Qed.

Lemma pe_local (w : World Neo4j.Graph) (t : nat) (n : N) :
  plain_entities w (mkWorld (store w) (history w) t n).
Proof. intros e Hin. left. exists e. auto. Qed.

Lemma pe_run {A} (c : Neo4j.Cypher A) (w : World Neo4j.Graph) :
  plain_entity c = true -> plain_entities w (snd (session_run exec c w)).
Proof.
  intros Hc. pose proof (exec_plain_entities gds c (store w) Hc) as H.
  unfold plain_entities, session_run.
  destruct (Neo4j.exec gds A c (store w)) as [r s]. exact H.
Qed.

Local Ltac plain_steps :=
  preservation pe_refl pe_trans pe_local ltac:(apply pe_run; reflexivity).

Lemma ingestFile_plain_entities (filePath : string) (clear : bool) :
  preserves plain_entities
    (KnowledgeGraph.ingestFile exec L (without_key E) filePath clear).
Proof.
  unfold KnowledgeGraph.ingestFile, KnowledgeGraph.extractEntitiesWithLLM.
  cbn [without_key ANTHROPIC_API_KEY negb
       KnowledgeGraph.entities_of KnowledgeGraph.relationships_of].
  apply preserves_tryCatch; [apply pe_trans | | intros e; apply preserves_ret, pe_refl].
  apply preserves_bind; [apply pe_trans | apply preserves_lift, pe_refl | intros size].
  destruct (_ <? size)%N; [apply preserves_ret, pe_refl|].
  apply preserves_bind; [apply pe_trans | apply preserves_lift, pe_refl
                         | intros content].
  apply preserves_bind; [apply pe_trans | | intros _].
  { destruct clear; [apply preserves_run; intros w; apply pe_run; reflexivity
                    | apply preserves_ret, pe_refl]. }
  apply preserves_bind_ret. cbv beta.
  apply preserves_bind; [apply pe_trans | apply preserves_reading, pe_local
                         | intros now].
  apply preserves_bind; [apply pe_trans | | intros _].
  { apply preserves_run. intros w. apply pe_run. reflexivity. }
  cbn [KnowledgeGraph.entities_of KnowledgeGraph.relationships_of].
  apply preserves_bind_lift. cbv beta.
  apply preserves_bind; [apply pe_trans | | intros _].
  { rewrite forEach_map. apply preserves_forEach; [apply pe_refl | apply pe_trans|].
    intros c. unfold KnowledgeGraph.as_entity.
    cbn [entity_name entity_type entity_description entity_frequency or_string].
    apply preserves_bind; [apply pe_trans | | intros _];
      apply preserves_run; intros w; apply pe_run; reflexivity. }
  apply preserves_bind_ret. cbv beta.
  apply preserves_bind; [apply pe_trans | | intros _; apply preserves_ret, pe_refl].
  unfold KnowledgeGraph.createConceptRelationships. plain_steps.
Qed.

End PlainEntities.

(** X18.  The fallback of the enrichment.  [extractEntitiesWithLLM] never
    throws and changes nothing: without the API key it returns the
    candidates of [extractConcepts]; with the key it passes the first 2000
    characters of the text to the model and returns the reply, and when the
    call or the parsing fails it returns the candidates as entities with an
    empty list of relationships.  For [ingestFile] the two fallbacks are the
    same: whatever the store does, a failing enrichment gives the result and
    the world of a run without the key.  On the graph store every Entity
    node such a run creates has the type CONCEPT and no description, and the
    nodes that were there keep their type and description. *)
Theorem enrichment_falls_back (L : Natural) (E : Env) :
  (forall (St : Type) (text : string) (w : World St),
      KnowledgeGraph.extractEntitiesWithLLM L E text w
      = (Ok (if negb (ANTHROPIC_API_KEY E)
             then ConceptArray (KnowledgeGraph.extractConcepts L text)
             else match llm_extract E (JS.substring0 2000 text) with
                  | Ok reply => reply
                  | Throw _ =>
                      Reply (Some (map KnowledgeGraph.as_entity
                                     (KnowledgeGraph.extractConcepts L text)))
                        (Some [])
                  end), w))
  /\ (forall (St : Type) (exec : forall A, Neo4j.Cypher A -> St -> result A * St)
             (message filePath : string) (clear : bool) (w : World St),
        KnowledgeGraph.ingestFile exec L (failing_key E message) filePath clear w
        = KnowledgeGraph.ingestFile exec L (without_key E) filePath clear w)
  /\ (forall (gds : bool) (filePath : string) (clear : bool) (w : World Neo4j.Graph),
        new_entities_plain (store w)
          (store (snd (KnowledgeGraph.ingestFile (Neo4j.exec gds) L (without_key E)
                         filePath clear w)))).
Proof.
  split; [|split].
  - intros St text w. apply extractEntitiesWithLLM_cases.
  - intros St exec message filePath clear w. apply ingestFile_fallbacks_agree.
  - intros gds filePath clear w.
    exact (ingestFile_plain_entities gds L E filePath clear w).
Qed.
(** * A stored document is found again *)

Lemma relate_each_keeps (gds : bool) (concepts : list string)
  (w : World Neo4j.Graph) :
  let g' := store (snd (relate_each gds concepts w)) in
  Neo4j.documents g' = Neo4j.documents (store w)
  /\ Neo4j.concepts g' = Neo4j.concepts (store w)
  /\ Neo4j.contains g' = Neo4j.contains (store w).
Proof.
  cbv zeta. unfold relate_each. revert w.
  induction (pairs concepts) as [|p ps IH]; intros w; simpl.
  - auto.
  - rewrite bind_unit by (apply run_succeeds; exact I).
    destruct (IH (snd (session_run (Neo4j.exec gds)
                         (Neo4j.MergeRelatedUnit (fst p) (snd p)) w)))
      as [H1 [H2 H3]].
    rewrite H1, H2, H3. auto.
Qed.

(** Names that are new to the store: each becomes a node with frequency 1
    and is linked to the document. *)
Lemma merge_names_each_fresh (gds : bool) (docId : string) (cs : list string)
  (w : World Neo4j.Graph) :
  NoDup cs ->
  Neo4j.has_document (store w) docId = true ->
  (forall c, In c cs -> Neo4j.has_concept (store w) c = false) ->
  let g' := store (snd (merge_names_each gds docId cs w)) in
  Neo4j.documents g' = Neo4j.documents (store w)
  /\ Neo4j.concepts g'
     = Neo4j.concepts (store w)
       ++ map (fun c => Neo4j.mkConcept c (JS.Count 1) None) cs
  /\ Neo4j.contains g'
     = Neo4j.contains (store w)
       ++ map (fun c => Neo4j.mkContains docId Neo4j.ConceptLabel c (JS.Count 1)) cs.
Proof.
  cbv zeta. unfold merge_names_each. revert w.
  induction cs as [|c cs IH]; intros w Hnd Hdoc Hnew; simpl.
  - rewrite !app_nil_r. auto.
  - rewrite bind_unit by (apply run_succeeds; exact I).
    inversion Hnd as [|? ? Hnotin Hnd']; subst.
    assert (Hc : Neo4j.has_concept (store w) c = false)
      by (apply Hnew; left; reflexivity).
    set (w1 := snd (session_run (Neo4j.exec gds)
                      (Neo4j.MergeConceptContains c docId) w)).
    assert (H1 : Neo4j.documents (store w1) = Neo4j.documents (store w))
      by reflexivity.
    assert (H2 : Neo4j.concepts (store w1)
                 = Neo4j.concepts (store w)
                   ++ [Neo4j.mkConcept c (JS.Count 1) None]).
    { unfold w1, session_run. cbn [Neo4j.exec snd store].
      unfold Neo4j.has_concept in Hc. unfold Neo4j.merge_concept.
      rewrite Hc. reflexivity. }
    assert (H3 : Neo4j.contains (store w1)
                 = Neo4j.contains (store w)
                   ++ [Neo4j.mkContains docId Neo4j.ConceptLabel c (JS.Count 1)]).
    { unfold w1, session_run. cbn [Neo4j.exec snd store].
      unfold Neo4j.has_concept in Hc. unfold Neo4j.merge_concept.
      rewrite Hc. unfold Neo4j.create_contains.
      replace (Neo4j.has_document _ docId) with true
        by (symmetry; exact Hdoc).
      replace (Neo4j.has_node _ Neo4j.ConceptLabel c) with true.
      - reflexivity.
      - symmetry. unfold Neo4j.has_node, Neo4j.has_concept. cbn.
        rewrite existsb_app. cbn. rewrite String.eqb_refl.
        apply orb_true_iff. right. reflexivity. }
    destruct (IH w1 Hnd') as [I1 [I2 I3]].
    + unfold Neo4j.has_document. rewrite H1. exact Hdoc.
    + intros c' Hin. unfold Neo4j.has_concept. rewrite H2, existsb_app.
      pose proof (Hnew c' (or_intror Hin)) as Hc'.
      unfold Neo4j.has_concept in Hc'. rewrite Hc'. cbn.
      rewrite orb_false_r. apply String.eqb_neq. intros ->. contradiction.
    + rewrite I1, I2, I3, H1, H2, H3, <- !app_assoc. auto.
Qed.

Section Single.
Variable g : Neo4j.Graph.
Variable d : Neo4j.Document.
Variable docId : string.
Variable names : list string.
Hypothesis Hfind : Neo4j.find_document g docId = Some d.

Local Abbreviation link :=
  (fun c => Neo4j.mkContains docId Neo4j.ConceptLabel c (JS.Count 1)).

Local Abbreviation step :=
  (fun groups ct =>
     if Neo4j.is_concept_label (Neo4j.ct_label ct)
        && Neo4j.among names (Neo4j.ct_name ct)
     then match Neo4j.find_document g (Neo4j.ct_doc ct) with
          | Some d => Neo4j.add_match Neo4j.same_id d (Neo4j.ct_name ct) 1 groups
          | None => groups
          end
     else groups).

Lemma group_grows (cs ns : list string) (t : nat) :
  fold_left step (map link cs) [(d, ns, t)]
  = [(d, ns ++ filter (Neo4j.among names) cs,
      t + List.length (filter (Neo4j.among names) cs))].
Proof.
  revert ns t. induction cs as [|c cs IH]; intros ns t; cbn [map fold_left filter].
  - rewrite app_nil_r, Nat.add_0_r. reflexivity.
  - cbn [Neo4j.ct_label Neo4j.ct_name Neo4j.ct_doc Neo4j.is_concept_label andb].
    destruct (Neo4j.among names c).
    + rewrite Hfind. cbn [Neo4j.add_match].
      replace (Neo4j.same_id d d) with true
        by (symmetry; apply String.eqb_refl).
      rewrite IH. cbn [List.length].
      rewrite <- app_assoc, <- Nat.add_assoc. reflexivity.
    + apply IH.
Qed.

Lemma group_starts (cs : list string) :
  fold_left step (map link cs) []
  = match filter (Neo4j.among names) cs with
    | [] => []
    | kept => [(d, kept, List.length kept)]
    end.
Proof.
  induction cs as [|c cs IH]; cbn [map fold_left filter].
  - reflexivity.
  - cbn [Neo4j.ct_label Neo4j.ct_name Neo4j.ct_doc Neo4j.is_concept_label andb].
    destruct (Neo4j.among names c).
    + rewrite Hfind. cbn [Neo4j.add_match]. rewrite group_grows. reflexivity.
    + exact IH.
Qed.

Lemma count_doc_query_single (cs : list string) :
  Neo4j.contains g = map link cs ->
  filter (Neo4j.among names) cs <> [] ->
  Neo4j.count_doc_query g names
  = [Neo4j.mkDocRow (Neo4j.doc_name d) (Neo4j.doc_content d) (Neo4j.doc_type d)
       (filter (Neo4j.among names) cs)
       (List.length (filter (Neo4j.among names) cs))].
Proof.
  intros Hc Hkept. unfold Neo4j.count_doc_query, Neo4j.doc_groups.
  rewrite Hc, group_starts.
  destruct (filter (Neo4j.among names) cs); [contradiction|]. reflexivity.
Qed.

End Single.

Lemma among_In (l : list string) (x : string) :
  Neo4j.among l x = true <-> In x l.
Proof.
  unfold Neo4j.among. rewrite existsb_exists. split.
  - intros [y [Hin Heq]]. apply String.eqb_eq in Heq. subst. exact Hin.
  - intros Hin. exists x. split; [exact Hin | apply String.eqb_refl].
Qed.

Lemma toNumbers_ones (rows : list (string * JS.value)) :
  (forall n v, In (n, v) rows -> v = JS.Count 1) ->
  KnowledgeGraphCLI.toNumbers rows = Ok (map (fun r => (fst r, 1)) rows).
Proof.
  induction rows as [|[n v] rows IH]; intros H; cbn [KnowledgeGraphCLI.toNumbers map].
  - reflexivity.
  - rewrite (H n v (or_introl eq_refl)).
    rewrite IH by (intros n' v' Hin; apply (H n' v'); right; exact Hin).
    reflexivity.
Qed.

Lemma fuzzy_concept_query_fresh (g : Neo4j.Graph) (words cs : list string) :
  Neo4j.concepts g = map (fun c => Neo4j.mkConcept c (JS.Count 1) None) cs ->
  let rows := Neo4j.fuzzy_concept_query g words in
  (forall n v, In (n, v) rows ->
     v = JS.Count 1 /\ In n cs /\ word_match words n = true)
  /\ (rows = [] <-> existsb (word_match words) cs = false).
Proof.
  intros Hc. cbv zeta. split.
  - intros n v Hin. unfold Neo4j.fuzzy_concept_query, Neo4j.limit in Hin.
    apply firstn_In in Hin. unfold Neo4j.order_by_value_desc in Hin.
    apply sort_In, in_map_iff in Hin. destruct Hin as [c [[= <- <-] Hin]].
    apply filter_In in Hin. destruct Hin as [Hin Hm].
    rewrite Hc in Hin. apply in_map_iff in Hin. destruct Hin as [c0 [<- Hin]].
    cbn in *. auto.
  - unfold Neo4j.fuzzy_concept_query, Neo4j.limit, Neo4j.order_by_value_desc.
    rewrite Hc.
    match goal with
    | |- firstn 15 (JS.sort ?b ?l) = [] <-> _ =>
        pose proof (sort_length b l) as Hlen;
        assert (Hnil : firstn 15 (JS.sort b l) = [] <-> l = [])
    end.
    { destruct (JS.sort _ _) as [|x s]; match type of Hlen with
        | _ = List.length ?l => destruct l
        end; cbn in *; split; intros; congruence. }
    rewrite Hnil. clear Hnil Hlen Hc.
    induction cs as [|c cs IH]; cbn [map filter existsb Neo4j.c_name].
    + tauto.
    + fold (word_match words c). destruct (word_match words c); cbn [orb map].
      * split; intros; discriminate.
      * exact IH.
Qed.

Section Found.
Variable gds : bool.
Variable E : Env.

Local Abbreviation exec := (Neo4j.exec gds).

(** The store after the clear and the first document. *)
Lemma clear_and_store_graph (docName content type source : string)
  (summary : KnowledgeGraphCLI.Summary) (w w' : World Neo4j.Graph) :
  clear_and_store exec E docName content type source w = (Ok summary, w') ->
  exists docId,
    let cs := KnowledgeGraphCLI.extractConcepts content in
    Neo4j.documents (store w')
    = [Neo4j.mkDocument docId docName content type source
         (N.of_nat (String.length content))]
    /\ Neo4j.concepts (store w')
       = map (fun c => Neo4j.mkConcept c (JS.Count 1) None) cs
    /\ Neo4j.contains (store w')
       = map (fun c => Neo4j.mkContains docId Neo4j.ConceptLabel c (JS.Count 1)) cs.
Proof.
  unfold clear_and_store, KnowledgeGraphCLI.clearDatabase.
  unfold bind at 1. unfold tryCatch at 1. unfold bind at 1.
  unfold session_run at 1. cbn [Neo4j.exec fst snd set_totalSize].
  unfold KnowledgeGraphCLI.processDocument. cbv zeta.
  rewrite bind_reading, bind_reading. unfold tryCatch.
  rewrite bind_create. cbn [store Neo4j.has_document Neo4j.documents Neo4j.empty existsb].
  match goal with
  | |- context [forEach (KnowledgeGraphCLI.extractConcepts content) ?body] =>
      match body with
      | (fun concept => session_run _ (Neo4j.MergeConceptContains concept ?docId)) =>
          change (forEach (KnowledgeGraphCLI.extractConcepts content) body)
            with (merge_names_each gds docId (KnowledgeGraphCLI.extractConcepts content));
          pose (id := docId)
      end
  end.
  match goal with
  | |- context [forEach (pairs ?cs) ?body] =>
      change (forEach (pairs cs) body) with (relate_each gds cs)
  end.
  rewrite (bind_unit _ _ _ (merge_names_each_succeeds _ _ _)).
  rewrite (bind_unit _ _ _ (relate_each_succeeds _ _)).
  cbn [bind get_totalSize set_totalSize ret fst snd].
  intros [= _ <-]. exists id. cbv zeta. cbn [store].
  match goal with
  | |- context [relate_each gds ?cs ?w1] =>
      destruct (relate_each_keeps gds cs w1) as [R1 [R2 R3]]
  end.
  rewrite R1, R2, R3.
  match goal with
  | |- context [merge_names_each gds ?i ?cs ?w2] =>
      destruct (merge_names_each_fresh gds i cs w2) as [M1 [M2 M3]]
  end.
  - apply cli_extractConcepts_NoDup.
  - cbn. unfold id. rewrite String.eqb_refl. reflexivity.
  - intros c _. reflexivity.
  - rewrite M1, M2, M3. cbn. auto.
Qed.

End Found.

(** X21.  What the first version stores it finds again.  After a successful
    clear and [processDocument], the answer to a question is about that
    document whenever one of its concepts contains a word of the question
    or is contained in one: the answer lists concepts of the document only,
    each with frequency 1 and each matching the question, and exactly one
    document, under the name and type it was stored with, whose matched
    concepts are the concepts of the answer.  When no concept of the
    document matches, the answer is that no relevant concept was found. *)
Theorem cli_stored_document_is_found (gds : bool) (E : Env)
  (docName content type source question : string)
  (summary : KnowledgeGraphCLI.Summary) (w w' : World Neo4j.Graph) :
  clear_and_store (Neo4j.exec gds) E docName content type source w
  = (Ok summary, w') ->
  let cs := KnowledgeGraphCLI.extractConcepts content in
  let words := KnowledgeGraphCLI.queryWords question in
  exists a,
    fst (KnowledgeGraphCLI.queryGraph (Neo4j.exec gds) question w') = Ok a
    /\ if existsb (word_match words) cs
       then KnowledgeGraphCLI.concepts a <> []
            /\ (forall n f, In (n, f) (KnowledgeGraphCLI.concepts a) ->
                  f = 1 /\ In n cs /\ word_match words n = true)
            /\ exists matched,
                 KnowledgeGraphCLI.documents a
                 = [KnowledgeGraphCLI.mkDocRef docName type matched]
                 /\ forall n, In n matched
                              <-> In n (map fst (KnowledgeGraphCLI.concepts a))
       else a = KnowledgeGraphCLI.mkAnswer KnowledgeGraphCLI.no_concepts [] [].
Proof.
  intros Hrun. cbv zeta.
  destruct (clear_and_store_graph gds E _ _ _ _ _ _ _ Hrun) as [docId [Hd [Hc Hl]]].
  cbv zeta in Hd, Hc, Hl.
  destruct (cli_queryGraph_answer gds question w') as [a [Ha Hshape]].
  cbv zeta in Hshape. exists a. split; [exact Ha|].
  destruct (fuzzy_concept_query_fresh (store w')
              (KnowledgeGraphCLI.queryWords question) _ Hc) as [Hrows Hnil].
  cbv zeta in Hrows, Hnil.
  rewrite (toNumbers_ones _ (fun n v H => proj1 (Hrows n v H))) in Hshape.
  destruct (Neo4j.fuzzy_concept_query (store w')
              (KnowledgeGraphCLI.queryWords question)) as [|row rows] eqn:Hq.
  - rewrite (proj1 Hnil eq_refl). exact Hshape.
  - destruct (existsb _ (KnowledgeGraphCLI.extractConcepts content)) eqn:Hex;
      [|discriminate (proj2 Hnil eq_refl)].
    cbn [map] in Hshape. destruct Hshape as [Hcs Hdocs].
    assert (Hin : forall n f, In (n, f) (KnowledgeGraphCLI.concepts a) ->
                   f = 1 /\ In n (KnowledgeGraphCLI.extractConcepts content)
                   /\ word_match (KnowledgeGraphCLI.queryWords question) n = true).
    { intros n f H. rewrite Hcs in H.
      change ((fst row, 1) :: map (fun r => (fst r, 1)) rows)
        with (map (fun r : string * JS.value => (fst r, 1)) (row :: rows)) in H.
      apply in_map_iff in H. destruct H as [[n' v] [[= <- <-] H]].
      destruct (Hrows n' v H) as [_ [H1 H2]]. auto. }
    split; [rewrite Hcs; discriminate|]. split; [exact Hin|].
    set (names := map fst (KnowledgeGraphCLI.concepts a)).
    exists (filter (Neo4j.among names) (KnowledgeGraphCLI.extractConcepts content)).
    assert (Hmem : forall n,
               In n (filter (Neo4j.among names)
                       (KnowledgeGraphCLI.extractConcepts content))
               <-> In n names).
    { intros n. rewrite filter_In, among_In. split; [tauto|].
      intros H. split; [|exact H]. unfold names in H.
      apply in_map_iff in H. destruct H as [[n' f] [<- H]].
      apply (Hin n' f H). }
    split; [|exact Hmem].
    rewrite Hdocs. fold (map fst (KnowledgeGraphCLI.concepts a)) in *.
    replace (fst (fst row, 1) :: map fst (map (fun r : string * JS.value => (fst r, 1)) rows))
      with names by (unfold names; rewrite Hcs; reflexivity).
    rewrite (count_doc_query_single (store w')
               (Neo4j.mkDocument docId docName content type source
                  (N.of_nat (String.length content)))
               docId names) with
      (cs := KnowledgeGraphCLI.extractConcepts content).
    + reflexivity.
    + unfold Neo4j.find_document. rewrite Hd. cbn. rewrite String.eqb_refl.
      reflexivity.
    + exact Hl.
    + intros Hempty.
      assert (Hfirst : In (fst row) names).
      { unfold names. rewrite Hcs. left. reflexivity. }
      apply Hmem in Hfirst. rewrite Hempty in Hfirst. exact Hfirst.
Qed.

Lemma cli_stored_document_is_found_witness :
  let w' := snd (clear_and_store (Neo4j.exec true) Sample.env "notes.txt"
                   "Graph databases store graph data. Graph queries." "file"
                   "notes.txt" (start Neo4j.empty)) in
  let cs := KnowledgeGraphCLI.extractConcepts
              "Graph databases store graph data. Graph queries." in
  let words := KnowledgeGraphCLI.queryWords "What is a graph?" in
  exists a,
    fst (KnowledgeGraphCLI.queryGraph (Neo4j.exec true) "What is a graph?" w') = Ok a
    /\ if existsb (word_match words) cs
       then KnowledgeGraphCLI.concepts a <> []
            /\ (forall n f, In (n, f) (KnowledgeGraphCLI.concepts a) ->
                  f = 1 /\ In n cs /\ word_match words n = true)
            /\ exists matched,
                 KnowledgeGraphCLI.documents a
                 = [KnowledgeGraphCLI.mkDocRef "notes.txt" "file" matched]
                 /\ forall n, In n matched
                              <-> In n (map fst (KnowledgeGraphCLI.concepts a))
       else a = KnowledgeGraphCLI.mkAnswer KnowledgeGraphCLI.no_concepts [] [].
Proof.
  refine (cli_stored_document_is_found true Sample.env "notes.txt"
            "Graph databases store graph data. Graph queries." "file" "notes.txt"
            "What is a graph?" (KnowledgeGraphCLI.mkSummary "notes.txt" 1 48 "file")
            (start Neo4j.empty) _ _).
  vm_compute. reflexivity.
Defined.

(** The question of the sample matches the one concept of the document. *)
Example cli_stored_document_sample :
  let w' := snd (clear_and_store (Neo4j.exec true) Sample.env "notes.txt"
                   "Graph databases store graph data. Graph queries." "file"
                   "notes.txt" (start Neo4j.empty)) in
  existsb (word_match (KnowledgeGraphCLI.queryWords "What is a graph?"))
    (KnowledgeGraphCLI.extractConcepts
       "Graph databases store graph data. Graph queries.") = true
  /\ fst (KnowledgeGraphCLI.queryGraph (Neo4j.exec true) "What is a graph?" w')
     = Ok (KnowledgeGraphCLI.mkAnswer
             "Based on your documents: Graph databases store graph data"
             [("graph", 1)]
             [KnowledgeGraphCLI.mkDocRef "notes.txt" "file" ["graph"]]).
Proof. vm_compute. split; reflexivity. Qed.
(** * A stored document is linked to what was extracted from it *)

Lemma linked_kept (w w' : World Neo4j.Graph) (docId : string) (l : Neo4j.label)
  (n : string) (f : JS.value) :
  links_kept w w' ->
  linked (store w) docId l n f -> linked (store w') docId l n f.
Proof.
  intros [[_ [C E]] I] [Hn Hin]. split; [|apply I, Hin].
  destruct l; [apply C | apply E]; exact Hn.
Qed.

Lemma merge_concept_has (cs : list Neo4j.Concept) (n : string) (f : JS.value) :
  existsb (fun c => String.eqb (Neo4j.c_name c) n) (Neo4j.merge_concept cs n f)
  = true.
Proof.
  destruct (existsb (fun c => String.eqb (Neo4j.c_name c) n) cs) eqn:H.
  - apply merge_concept_keeps, H.
  - unfold Neo4j.merge_concept. rewrite H, existsb_app. cbn.
    rewrite String.eqb_refl. apply orb_true_iff. right. reflexivity.
Qed.

Lemma merge_entity_has (es : list Neo4j.Entity) (n ty d : string) (f : JS.value) :
  existsb (fun e => String.eqb (Neo4j.e_name e) n) (Neo4j.merge_entity es n ty d f)
  = true.
Proof.
  destruct (existsb (fun e => String.eqb (Neo4j.e_name e) n) es) eqn:H.
  - apply merge_entity_keeps, H.
  - unfold Neo4j.merge_entity. rewrite H, existsb_app. cbn.
    rewrite String.eqb_refl. apply orb_true_iff. right. reflexivity.
Qed.

Lemma exec_keeps_contains (gds : bool) {A} (c : Neo4j.Cypher A) (g : Neo4j.Graph) :
  Neo4j.is_clear (Neo4j.Sent c) = false ->
  incl (Neo4j.contains g) (Neo4j.contains (snd (Neo4j.exec gds A c g))).
Proof.
  intros Hc. destruct c; simpl in *; try discriminate;
    try apply incl_refl;
    try (unfold Neo4j.create_contains;
         match goal with
         | |- context [if ?b then _ else _] => destruct b
         end; simpl; try apply incl_refl; apply incl_appl, incl_refl).
Qed.

Section Links.
Variable gds : bool.
Variable L : Natural.
Variable E : Env.

Local Abbreviation exec := (Neo4j.exec gds).

Lemma lk_refl (w : World Neo4j.Graph) : links_kept w w.
Proof. split; [apply nodes_kept_refl | apply incl_refl]. Qed.

Lemma lk_trans (a b c : World Neo4j.Graph) :
  links_kept a b -> links_kept b c -> links_kept a c.
Proof.
  intros [N1 I1] [N2 I2]. split.
  - eapply nodes_kept_trans; eassumption.
  - eapply incl_tran; eassumption.
Qed.

Lemma lk_local (w : World Neo4j.Graph) (t : nat) (n : N) :
  links_kept w (mkWorld (store w) (history w) t n).
Proof. split; [apply nodes_kept_refl | apply incl_refl]. Qed.

Lemma lk_run {A} (c : Neo4j.Cypher A) (w : World Neo4j.Graph) :
  Neo4j.is_clear (Neo4j.Sent c) = false ->
  links_kept w (snd (session_run exec c w)).
Proof.
  intros Hc. pose proof (exec_keeps_nodes gds c (store w) Hc) as Hn.
  pose proof (exec_keeps_contains gds c (store w) Hc) as Hi.
  unfold links_kept, session_run.
  destruct (Neo4j.exec gds A c (store w)) as [r s]. split; assumption.
Qed.

Local Ltac links_steps :=
  preservation lk_refl lk_trans lk_local ltac:(apply lk_run; reflexivity).

(** The loop over what was extracted, and what follows it. *)
Lemma loop_links {A B} (docId : string) (l : Neo4j.label) (nm : A -> string)
  (fq : A -> JS.value) (items : list A) (body : A -> M Neo4j.Graph unit)
  (rest : M Neo4j.Graph B) (w2 w' : World Neo4j.Graph) (r : result B) :
  (forall x, succeeds (body x)) ->
  (forall x, preserves links_kept (body x)) ->
  (forall x w, Neo4j.has_document (store w) docId = true ->
               linked (store (snd (body x w))) docId l (nm x) (fq x)) ->
  preserves links_kept rest ->
  Neo4j.has_document (store w2) docId = true ->
  bind (forEach items body) (fun _ => rest) w2 = (r, w') ->
  forall x, In x items -> linked (store w') docId l (nm x) (fq x).
Proof.
  intros Hs Hp Hl Hrest Hdoc Hrun x Hin.
  rewrite (bind_unit _ _ _ (succeeds_forEach _ _ Hs)) in Hrun.
  destruct (forEach_step links_kept items body x w2 lk_refl lk_trans Hp Hs Hin)
    as [w1 [H1 H2]].
  pose proof (Hrest (snd (forEach items body w2))) as H3. rewrite Hrun in H3.
  eapply linked_kept; [exact H3|]. eapply linked_kept; [exact H2|].
  apply Hl. eapply has_document_kept; [exact (proj1 (proj1 H1)) | exact Hdoc].
Qed.

Lemma created_document {B} (d : Neo4j.Document) (k : unit -> M Neo4j.Graph B)
  (w : World Neo4j.Graph) (r : result B) (w' : World Neo4j.Graph) :
  bind (session_run exec (Neo4j.CreateDocument d)) k w = (r, w') ->
  (exists b, r = Ok b) ->
  exists w2,
    k tt w2 = (r, w') /\ Neo4j.has_document (store w2) (Neo4j.doc_id d) = true.
Proof.
  intros H Hr. apply create_step in H; [|exact Hr].
  destruct H as [w2 [Htail [Hd _]]]. exists w2. split; [exact Htail|].
  unfold Neo4j.has_document. rewrite Hd, existsb_app. cbn.
  rewrite String.eqb_refl. apply orb_true_iff. right. reflexivity.
Qed.

Lemma concept_step_links (docId : string) (c : Concept) (w : World Neo4j.Graph) :
  Neo4j.has_document (store w) docId = true ->
  linked
    (store (snd (bind (session_run exec (Neo4j.MergeConcept (name c) (frequency c)))
                   (fun _ => session_run exec
                               (Neo4j.CreateContains docId Neo4j.ConceptLabel
                                  (name c) (frequency c))) w)))
    docId Neo4j.ConceptLabel (name c) (frequency c).
Proof.
  intros Hdoc. unfold bind, session_run. cbn [Neo4j.exec fst snd store].
  unfold linked, Neo4j.create_contains, Neo4j.has_node, Neo4j.has_concept.
  cbn. change (existsb _ (Neo4j.documents (store w)))
    with (Neo4j.has_document (store w) docId).
  rewrite Hdoc, merge_concept_has. cbn.
  split; [reflexivity | apply in_or_app; right; left; reflexivity].
Qed.

Lemma entity_step_links (docId : string) (e : EntityObj) (w : World Neo4j.Graph) :
  Neo4j.has_document (store w) docId = true ->
  linked
    (store (snd (bind (session_run exec
                         (Neo4j.MergeEntity (entity_name e)
                            (or_string (entity_type e) "CONCEPT")
                            (or_string (entity_description e) EmptyString)
                            (JS.or_one (entity_frequency e))))
                   (fun _ => session_run exec
                               (Neo4j.CreateContains docId Neo4j.EntityLabel
                                  (entity_name e)
                                  (JS.or_one (entity_frequency e)))) w)))
    docId Neo4j.EntityLabel (entity_name e) (JS.or_one (entity_frequency e)).
Proof.
  intros Hdoc. unfold bind, session_run. cbn [Neo4j.exec fst snd store].
  unfold linked, Neo4j.create_contains, Neo4j.has_node, Neo4j.has_entity.
  cbn. change (existsb _ (Neo4j.documents (store w)))
    with (Neo4j.has_document (store w) docId).
  rewrite Hdoc, merge_entity_has. cbn.
  split; [reflexivity | apply in_or_app; right; left; reflexivity].
Qed.

Lemma name_step_links (docId c : string) (w : World Neo4j.Graph) :
  Neo4j.has_document (store w) docId = true ->
  linked (store (snd (session_run exec (Neo4j.MergeConceptContains c docId) w)))
    docId Neo4j.ConceptLabel c (JS.Count 1).
Proof.
  intros Hdoc. unfold session_run. cbn [Neo4j.exec fst snd store].
  unfold linked, Neo4j.create_contains, Neo4j.has_node, Neo4j.has_concept.
  cbn. change (existsb _ (Neo4j.documents (store w)))
    with (Neo4j.has_document (store w) docId).
  rewrite Hdoc, merge_concept_has. cbn.
  split; [reflexivity | apply in_or_app; right; left; reflexivity].
Qed.

Lemma ingestUrl_links (url : string) (clear : bool) (w w' : World Neo4j.Graph) :
  KnowledgeGraph.ingestUrl exec L E url clear w = (Ok true, w') ->
  exists text,
    fetch_body_text E url = Ok text
    /\ forall c, In c (KnowledgeGraph.extractConcepts L (page_content text)) ->
         linked (store w')
           (Neo4j.doc_id (url_document E url (page_content text)
                            (Date_now E (ticks w))))
           Neo4j.ConceptLabel (name c) (frequency c).
Proof.
  intros H. apply tryCatch_true in H. revert H.
  unfold KnowledgeGraph.ingestUrl. rewrite bind_lift.
  destruct (fetch_body_text E url) as [text|e]; [|discriminate].
  cbv zeta. fold (page_content text).
  destruct (String.length (page_content text) =? 0) eqn:H0; [discriminate|].
  destruct (KnowledgeGraph.maxFileSize E <? _)%N eqn:Hmax; [discriminate|].
  match goal with
  | |- bind (if clear then _ else _) ?k w = _ -> _ =>
      destruct (clear_step gds clear k w) as [w1 [Hstep [_ [Hticks _]]]]
  end.
  rewrite Hstep. clear Hstep. cbv beta. rewrite bind_reading. intros H.
  apply created_document in H; [|eauto]. destruct H as [w2 [Htail Hdoc]].
  exists text. split; [reflexivity|]. cbn [ticks] in *. rewrite <- Hticks.
  intros c Hin.
  refine (loop_links _ Neo4j.ConceptLabel name frequency _ _ _ w2 w' _
            _ _ _ _ Hdoc Htail c Hin).
  - intros x. apply succeeds_bind; [|intros _]; apply run_succeeds; exact I.
  - intros x. links_steps.
  - intros x w0. apply concept_step_links.
  - unfold KnowledgeGraph.createConceptRelationships. links_steps.
Qed.

Lemma legacy_ingestFile_links (filePath : string) (clear : bool)
  (w w' : World Neo4j.Graph) :
  Legacy.ingestFile exec L E filePath clear w = (Ok true, w') ->
  exists size content,
    fs_stat_size E filePath = Ok size
    /\ fs_readFile E filePath = Ok content
    /\ forall c, In c (KnowledgeGraph.extractConcepts L content) ->
         linked (store w')
           (Neo4j.doc_id (file_document E filePath content size
                            (Date_now E (ticks w))))
           Neo4j.ConceptLabel (name c) (frequency c).
Proof.
  intros H. apply tryCatch_true in H. revert H.
  unfold Legacy.ingestFile. rewrite bind_lift.
  destruct (fs_stat_size E filePath) as [size|e]; [|discriminate].
  destruct (KnowledgeGraph.maxFileSize E <? size)%N eqn:Hmax; [discriminate|].
  rewrite bind_lift.
  destruct (fs_readFile E filePath) as [content|e]; [|discriminate].
  match goal with
  | |- bind (if clear then _ else _) ?k w = _ -> _ =>
      destruct (clear_step gds clear k w) as [w1 [Hstep [_ [Hticks _]]]]
  end.
  rewrite Hstep. clear Hstep. cbv beta zeta. rewrite bind_reading. intros H.
  apply created_document in H; [|eauto]. destruct H as [w2 [Htail Hdoc]].
  exists size, content. split; [reflexivity|]. split; [reflexivity|].
  cbn [ticks] in *. rewrite <- Hticks. intros c Hin.
  refine (loop_links _ Neo4j.ConceptLabel name frequency _ _ _ w2 w' _
            _ _ _ _ Hdoc Htail c Hin).
  - intros x. apply succeeds_bind; [|intros _]; apply run_succeeds; exact I.
  - intros x. links_steps.
  - intros x w0. apply concept_step_links.
  - unfold Legacy.createConceptRelationships,
      KnowledgeGraph.createConceptRelationships. links_steps.
Qed.

Lemma ingestFile_links (filePath : string) (clear : bool)
  (w w' : World Neo4j.Graph) :
  KnowledgeGraph.ingestFile exec L E filePath clear w = (Ok true, w') ->
  exists size content extracted entities,
    fs_stat_size E filePath = Ok size
    /\ fs_readFile E filePath = Ok content
    /\ fst (KnowledgeGraph.extractEntitiesWithLLM L E content w) = Ok extracted
    /\ KnowledgeGraph.entities_of extracted = Ok entities
    /\ forall e, In e entities ->
         linked (store w')
           (Neo4j.doc_id (file_document E filePath content size
                            (Date_now E (ticks w))))
           Neo4j.EntityLabel (entity_name e) (JS.or_one (entity_frequency e)).
Proof.
  intros H. apply tryCatch_true in H. revert H.
  unfold KnowledgeGraph.ingestFile. rewrite bind_lift.
  destruct (fs_stat_size E filePath) as [size|e]; [|discriminate].
  destruct (KnowledgeGraph.maxFileSize E <? size)%N eqn:Hmax; [discriminate|].
  rewrite bind_lift.
  destruct (fs_readFile E filePath) as [content|e]; [|discriminate].
  match goal with
  | |- bind (if clear then _ else _) ?k w = _ -> _ =>
      destruct (clear_step gds clear k w) as [w1 [Hstep [_ [Hticks _]]]]
  end.
  rewrite Hstep. clear Hstep. cbv beta.
  rewrite (bind_ok _ _ _ _ _ (extractEntitiesWithLLM_cases L E content w1)).
  rewrite bind_reading. intros H.
  apply created_document in H; [|eauto]. destruct H as [w2 [Htail Hdoc]].
  rewrite bind_lift in Htail.
  match type of Htail with
  | context [KnowledgeGraph.entities_of ?x] =>
      exists size, content, x; destruct (KnowledgeGraph.entities_of x)
        as [entities|e] eqn:Hent; [|discriminate]
  end.
  exists entities. split; [reflexivity|]. split; [reflexivity|].
  split; [rewrite extractEntitiesWithLLM_cases; reflexivity|].
  split; [reflexivity|].
  cbn [ticks] in *. rewrite <- Hticks. intros x Hin.
  refine (loop_links _ Neo4j.EntityLabel entity_name
            (fun e => JS.or_one (entity_frequency e)) _ _ _ w2 w' _
            _ _ _ _ Hdoc Htail x Hin).
  - intros y. apply succeeds_bind; [|intros _]; apply run_succeeds; exact I.
  - intros y. links_steps.
  - intros y w0. apply entity_step_links.
  - unfold KnowledgeGraph.createConceptRelationships,
      KnowledgeGraph.createEntityRelationships. links_steps.
Qed.

Lemma processDocument_links (docName content type source : string)
  (summary : KnowledgeGraphCLI.Summary) (w w' : World Neo4j.Graph) :
  KnowledgeGraphCLI.processDocument exec E docName content type source w
  = (Ok summary, w') ->
  forall c, In c (KnowledgeGraphCLI.extractConcepts content) ->
    linked (store w')
      (type ++ "_" ++ JS.show_N (Date_now E (ticks w)) ++ "_"
       ++ random_suffix E (S (ticks w)))
      Neo4j.ConceptLabel c (JS.Count 1).
Proof.
  unfold KnowledgeGraphCLI.processDocument.
  rewrite bind_reading, bind_reading. cbn [ticks]. intros H.
  assert (Hbody : forall (body : M Neo4j.Graph KnowledgeGraphCLI.Summary) w0,
             tryCatch body (fun message => throw message) w0 = (Ok summary, w') ->
             body w0 = (Ok summary, w')).
  { intros body w0. unfold tryCatch, throw.
    destruct (body w0) as [[s|e] w1]; [auto | discriminate]. }
  apply Hbody in H. apply created_document in H; [|eauto].
  destruct H as [w2 [Htail Hdoc]]. intros c Hin.
  refine (loop_links _ Neo4j.ConceptLabel (fun c => c) (fun _ => JS.Count 1)
            _ _ _ w2 w' _ _ _ _ _ Hdoc Htail c Hin).
  - intros x. apply run_succeeds. exact I.
  - intros x. links_steps.
  - intros x w0. apply name_step_links.
  - links_steps.
Qed.

End Links.

(** X22.  A stored document is linked to everything that was extracted from
    it.  After an ingestion that returned true, the graph has, for every
    concept candidate of the text of a page, and of a file in the earlier
    copy, a Concept node of that name and a CONTAINS relationship from the
    new Document node to it that carries the frequency of the candidate;
    for a file in the current copy the same holds for every entity of the
    enrichment (or of the fallback), with Entity nodes and 1 for a missing
    frequency; after [processDocument] of the first version it holds for
    every concept, with the constant 1. *)
Theorem ingestion_links_document (gds : bool) (L : Natural) (E : Env) :
  (forall url clear w w',
      KnowledgeGraph.ingestUrl (Neo4j.exec gds) L E url clear w = (Ok true, w') ->
      exists text,
        fetch_body_text E url = Ok text
        /\ forall c, In c (KnowledgeGraph.extractConcepts L (page_content text)) ->
             linked (store w')
               (Neo4j.doc_id (url_document E url (page_content text)
                                (Date_now E (ticks w))))
               Neo4j.ConceptLabel (name c) (frequency c))
  /\ (forall filePath clear w w',
        Legacy.ingestFile (Neo4j.exec gds) L E filePath clear w = (Ok true, w') ->
        exists size content,
          fs_stat_size E filePath = Ok size
          /\ fs_readFile E filePath = Ok content
          /\ forall c, In c (KnowledgeGraph.extractConcepts L content) ->
               linked (store w')
                 (Neo4j.doc_id (file_document E filePath content size
                                  (Date_now E (ticks w))))
                 Neo4j.ConceptLabel (name c) (frequency c))
  /\ (forall filePath clear w w',
        KnowledgeGraph.ingestFile (Neo4j.exec gds) L E filePath clear w
        = (Ok true, w') ->
        exists size content extracted entities,
          fs_stat_size E filePath = Ok size
          /\ fs_readFile E filePath = Ok content
          /\ fst (KnowledgeGraph.extractEntitiesWithLLM L E content w) = Ok extracted
          /\ KnowledgeGraph.entities_of extracted = Ok entities
          /\ forall e, In e entities ->
               linked (store w')
                 (Neo4j.doc_id (file_document E filePath content size
                                  (Date_now E (ticks w))))
                 Neo4j.EntityLabel (entity_name e)
                 (JS.or_one (entity_frequency e)))
  /\ (forall docName content type source summary w w',
        KnowledgeGraphCLI.processDocument (Neo4j.exec gds) E docName content type
          source w = (Ok summary, w') ->
        forall c, In c (KnowledgeGraphCLI.extractConcepts content) ->
          linked (store w')
            (type ++ "_" ++ JS.show_N (Date_now E (ticks w)) ++ "_"
             ++ random_suffix E (S (ticks w)))
            Neo4j.ConceptLabel c (JS.Count 1)).
Proof.
  split; [|split; [|split]].
  - apply ingestUrl_links.
  - apply legacy_ingestFile_links.
  - apply ingestFile_links.
  - apply processDocument_links.
Qed.
(* ================================================================== *)
(** * The excerpt of an answer (KnowledgeGraphCLI) *)
(* ================================================================== *)



